(** * An in-memory B-tree with cursors (btree.h / btree.c)

    Shallow embedding of the B-tree of [src/btree.c] and the properties of
    its specification.

    Conventions of the embedding.
    - C integers are [Z]; every unsigned update writes its wrap-around out
      ([u32], [u64]); a cast to [int] is [to_int].  Arithmetic on [int]
      indices is exact: the theorems carry the bound under which the C
      computation does not overflow.
    - A C array is a [list] of its allocated length.  [arr_get] reads a
      cell and [arr_set] writes one; outside the allocation a read yields
      the zero value of [calloc] and a write is dropped.
    - A [btree_node_t *] is an [option btree_node_t]; [None] is [NULL].
      A node owns its children, so a subtree is a value; a function that
      mutates a node in place returns the updated node and its caller
      stores it back in the cell the pointer was read from.
    - Allocation succeeds ([calloc] never returns [NULL]).
    - A loop that walks down the tree takes a [nat] of fuel.  Functions
      whose C counterpart dereferences a child pointer return [option];
      [None] stands for an execution without defined result (a [NULL]
      dereference, or a write past the 64 cells of a cursor path). *)

From Stdlib Require Import ZArith Lia Bool List.
From stdpp Require Import base list.
Import ListNotations.

Local Open Scope Z_scope.
Local Set Warnings "-register-all".

(** ** Machine integers *)

Definition u32 (x : Z) : Z := x mod 2 ^ 32.
Definition u64 (x : Z) : Z := x mod 2 ^ 64.

(** [(int)x] for an [x] held in a [uint32_t]. *)
Definition to_int (x : Z) : Z := (x + 2 ^ 31) mod 2 ^ 32 - 2 ^ 31.

(** ** Arrays *)

Definition arr_get {A : Type} (d : A) (a : list A) (i : Z) : A :=
  if i <? 0 then d else default d (a !! Z.to_nat i).

Definition arr_set {A : Type} (a : list A) (i : Z) (x : A) : list A :=
  if i <? 0 then a else <[Z.to_nat i := x]> a.

(** ** btree.h *)

Definition BTREE_DEFAULT_ORDER : Z := 128.
Definition BTREE_MIN_ORDER : Z := 3.
Definition BTREE_MAX_ORDER : Z := 1024.

Inductive btree_status_t : Type :=
| BTREE_OK
| BTREE_ERROR_NOMEM
| BTREE_ERROR_NOT_FOUND
| BTREE_ERROR_DUPLICATE
| BTREE_ERROR_INVALID
| BTREE_ERROR_CORRUPT.

Definition status_eqb (a b : btree_status_t) : bool :=
  match a, b with
  | BTREE_OK, BTREE_OK
  | BTREE_ERROR_NOMEM, BTREE_ERROR_NOMEM
  | BTREE_ERROR_NOT_FOUND, BTREE_ERROR_NOT_FOUND
  | BTREE_ERROR_DUPLICATE, BTREE_ERROR_DUPLICATE
  | BTREE_ERROR_INVALID, BTREE_ERROR_INVALID
  | BTREE_ERROR_CORRUPT, BTREE_ERROR_CORRUPT => true
  | _, _ => false
  end.

(** [int64_t] keys and [void *] values (an address, [0] for [NULL]). *)
Definition btree_key_t : Type := Z.
Definition btree_value_t : Type := Z.

(** [struct btree_stats] without [avg_fill_factor], a [double] that no
    operation on the tree reads. *)
Record btree_stats_t : Type := mk_stats {
  node_count : Z;
  key_count : Z;
  height : Z;
  comparisons : Z;
  node_visits : Z;
  splits : Z;
  merges : Z;
  search_ops : Z;
  insert_ops : Z;
  delete_ops : Z
}.

Inductive btree_node_t : Type := mk_node {
  keys : list btree_key_t;
  values : list btree_value_t;
  children : list (option btree_node_t);
  num_keys : Z;
  is_leaf : bool
}.

Record btree_t : Type := mk_btree {
  root : option btree_node_t;
  order : Z;
  min_keys : Z;
  stats : btree_stats_t;
  collect_stats : bool
}.

(** Field updates. *)

Definition set_num_keys (n : btree_node_t) (k : Z) : btree_node_t :=
  mk_node (keys n) (values n) (children n) k (is_leaf n).
Definition set_keys (n : btree_node_t) (ks : list btree_key_t) : btree_node_t :=
  mk_node ks (values n) (children n) (num_keys n) (is_leaf n).
Definition set_values (n : btree_node_t) (vs : list btree_value_t) : btree_node_t :=
  mk_node (keys n) vs (children n) (num_keys n) (is_leaf n).
Definition set_children (n : btree_node_t) (cs : list (option btree_node_t)) : btree_node_t :=
  mk_node (keys n) (values n) cs (num_keys n) (is_leaf n).

Definition set_root (t : btree_t) (r : option btree_node_t) : btree_t :=
  mk_btree r (order t) (min_keys t) (stats t) (collect_stats t).
Definition set_stats (t : btree_t) (s : btree_stats_t) : btree_t :=
  mk_btree (root t) (order t) (min_keys t) s (collect_stats t).

Definition zero_stats : btree_stats_t := mk_stats 0 0 0 0 0 0 0 0 0 0.

Definition upd_node_count (f : Z -> Z) (s : btree_stats_t) : btree_stats_t :=
  mk_stats (f (node_count s)) (key_count s) (height s) (comparisons s)
    (node_visits s) (splits s) (merges s) (search_ops s) (insert_ops s) (delete_ops s).
Definition upd_key_count (f : Z -> Z) (s : btree_stats_t) : btree_stats_t :=
  mk_stats (node_count s) (f (key_count s)) (height s) (comparisons s)
    (node_visits s) (splits s) (merges s) (search_ops s) (insert_ops s) (delete_ops s).
Definition upd_height (f : Z -> Z) (s : btree_stats_t) : btree_stats_t :=
  mk_stats (node_count s) (key_count s) (f (height s)) (comparisons s)
    (node_visits s) (splits s) (merges s) (search_ops s) (insert_ops s) (delete_ops s).
Definition upd_comparisons (f : Z -> Z) (s : btree_stats_t) : btree_stats_t :=
  mk_stats (node_count s) (key_count s) (height s) (f (comparisons s))
    (node_visits s) (splits s) (merges s) (search_ops s) (insert_ops s) (delete_ops s).
Definition upd_node_visits (f : Z -> Z) (s : btree_stats_t) : btree_stats_t :=
  mk_stats (node_count s) (key_count s) (height s) (comparisons s)
    (f (node_visits s)) (splits s) (merges s) (search_ops s) (insert_ops s) (delete_ops s).
Definition upd_splits (f : Z -> Z) (s : btree_stats_t) : btree_stats_t :=
  mk_stats (node_count s) (key_count s) (height s) (comparisons s)
    (node_visits s) (f (splits s)) (merges s) (search_ops s) (insert_ops s) (delete_ops s).
Definition upd_search_ops (f : Z -> Z) (s : btree_stats_t) : btree_stats_t :=
  mk_stats (node_count s) (key_count s) (height s) (comparisons s)
    (node_visits s) (splits s) (merges s) (f (search_ops s)) (insert_ops s) (delete_ops s).
Definition upd_insert_ops (f : Z -> Z) (s : btree_stats_t) : btree_stats_t :=
  mk_stats (node_count s) (key_count s) (height s) (comparisons s)
    (node_visits s) (splits s) (merges s) (search_ops s) (f (insert_ops s)) (delete_ops s).
Definition upd_delete_ops (f : Z -> Z) (s : btree_stats_t) : btree_stats_t :=
  mk_stats (node_count s) (key_count s) (height s) (comparisons s)
    (node_visits s) (splits s) (merges s) (search_ops s) (insert_ops s) (f (delete_ops s)).

(** [x++] and [x--] on a [uint64_t], [x++] on a [uint32_t]. *)
Definition incr64 (x : Z) : Z := u64 (x + 1).
Definition decr64 (x : Z) : Z := u64 (x - 1).
Definition incr32 (x : Z) : Z := u32 (x + 1).

(** ** btree.c: internal helpers *)

(** [node_create]: zeroed key array of [order - 1] cells, and either a
    value array of the same size (leaf) or [order] child pointers. *)
Definition node_create (order : Z) (leaf : bool) : btree_node_t :=
  mk_node (replicate (Z.to_nat (order - 1)) 0)
          (if leaf then replicate (Z.to_nat (order - 1)) 0 else [])
          (if leaf then [] else replicate (Z.to_nat order) None)
          0 leaf.

(** The [while (lwr <= upr)] loop of [node_binary_search].  [cmp] is the
    cell behind the [comparisons] pointer ([None] for [NULL]).  The
    interval shrinks at every turn, so [upr - lwr + 1] turns of fuel reach
    the exit test. *)
Fixpoint bsearch_loop (fuel : nat) (ks : list btree_key_t) (key : btree_key_t)
    (lwr upr : Z) (cmp : option Z) : Z * bool * option Z :=
  match fuel with
  | O => (lwr, false, cmp)
  | S fuel' =>
      if lwr <=? upr then
        let mid := Z.shiftr (lwr + upr) 1 in
        let cmp' := option_map incr64 cmp in
        if arr_get 0 ks mid <? key then
          bsearch_loop fuel' ks key (mid + 1) upr cmp'
        else if arr_get 0 ks mid >? key then
          bsearch_loop fuel' ks key lwr (mid - 1) cmp'
        else (mid, true, cmp')
      else (lwr, false, cmp)
  end.

(** [node_binary_search]: the returned index, [*found], [*comparisons]. *)
Definition node_binary_search (node : btree_node_t) (key : btree_key_t)
    (cmp : option Z) : Z * bool * option Z :=
  let lwr := 0 in
  let upr := to_int (num_keys node) - 1 in
  bsearch_loop (Z.to_nat (upr + 1)) (keys node) key lwr upr cmp.

(** The two shapes of [for] loop over array cells.  [copy_loop] is
    [for (i = i0; ...; i++) dst[i] = src[off + i]] and [shift_loop] is
    [for (i = i0; ...; i--) a[i + 1] = a[i]], each for [cnt] turns. *)
Fixpoint copy_loop {A : Type} (d : A) (src dst : list A) (off i : Z) (cnt : nat)
    : list A :=
  match cnt with
  | O => dst
  | S cnt' => copy_loop d src (arr_set dst i (arr_get d src (off + i))) off (i + 1) cnt'
  end.

Fixpoint shift_loop {A : Type} (d : A) (a : list A) (i : Z) (cnt : nat) : list A :=
  match cnt with
  | O => a
  | S cnt' => shift_loop d (arr_set a (i + 1) (arr_get d a i)) (i - 1) cnt'
  end.

(** [split_child].  [child] is the node behind [parent->children[child_idx]];
    the C code shrinks it in place, so the updated child is stored back in
    that cell.  The loop over keys also copies the values of a leaf; the
    two arrays are independent and are copied by one loop each. *)
Definition split_child (t : btree_t) (parent : btree_node_t) (child_idx : Z)
    (child : btree_node_t) : btree_status_t * btree_t * btree_node_t :=
  let order := order t in
  let mid := u32 (order - 1) / 2 in
  let new_node := node_create order (is_leaf child) in
  let new_num := u32 (num_keys child - mid - 1) in
  let new_keys := copy_loop 0 (keys child) (keys new_node) (mid + 1) 0 (Z.to_nat new_num) in
  let new_values :=
    if is_leaf child
    then copy_loop 0 (values child) (values new_node) (mid + 1) 0 (Z.to_nat new_num)
    else values new_node in
  let new_children :=
    if is_leaf child
    then children new_node
    else copy_loop None (children child) (children new_node) (mid + 1) 0
           (Z.to_nat (new_num + 1)) in
  let new_node := mk_node new_keys new_values new_children new_num (is_leaf child) in
  let child := set_num_keys child mid in
  let pn := to_int (num_keys parent) in
  let cs := shift_loop None (children parent) pn (Z.to_nat (pn - child_idx)) in
  let cs := arr_set cs child_idx (Some child) in
  let cs := arr_set cs (child_idx + 1) (Some new_node) in
  let ks := shift_loop 0 (keys parent) (pn - 1) (Z.to_nat (pn - child_idx)) in
  let ks := arr_set ks child_idx (arr_get 0 (keys child) mid) in
  let parent := mk_node ks (values parent) cs (u32 (num_keys parent + 1)) (is_leaf parent) in
  let t := set_stats t (upd_splits incr64 (upd_node_count incr64 (stats t))) in
  (BTREE_OK, t, parent).

(** The statistics prologue shared by the node visits:
    [if (tree->collect_stats) tree->stats.node_visits++]. *)
Definition visit (t : btree_t) : btree_t :=
  if collect_stats t then set_stats t (upd_node_visits incr64 (stats t)) else t.

(** [node_binary_search(node, key, &found,
      tree->collect_stats ? &tree->stats.comparisons : NULL)]. *)
Definition tree_binary_search (t : btree_t) (node : btree_node_t) (key : btree_key_t)
    : Z * bool * btree_t :=
  let cmp := if collect_stats t then Some (comparisons (stats t)) else None in
  let '(pos, found, cmp') := node_binary_search node key cmp in
  (pos, found,
   match cmp' with
   | Some c => set_stats t (upd_comparisons (fun _ => c) (stats t))
   | None => t
   end).

(** [insert_nonfull].  The recursive call works on the child behind
    [node->children[pos]]; its result is stored back in that cell. *)
Fixpoint insert_nonfull (fuel : nat) (t : btree_t) (node : btree_node_t)
    (key : btree_key_t) (value : btree_value_t)
    : option (btree_status_t * btree_t * btree_node_t) :=
  match fuel with
  | O => None
  | S fuel' =>
      let t := visit t in
      let '(pos, found, t) := tree_binary_search t node key in
      if is_leaf node then
        if found then
          Some (BTREE_OK, t, set_values node (arr_set (values node) pos value))
        else
          let n := to_int (num_keys node) in
          let ks := shift_loop 0 (keys node) (n - 1) (Z.to_nat (n - pos)) in
          let vs := shift_loop 0 (values node) (n - 1) (Z.to_nat (n - pos)) in
          let node := mk_node (arr_set ks pos key) (arr_set vs pos value)
                        (children node) (u32 (num_keys node + 1)) (is_leaf node) in
          let t := set_stats t (upd_key_count incr64 (stats t)) in
          Some (BTREE_OK, t, node)
      else
        let pos := if found then pos + 1 else pos in
        match arr_get None (children node) pos with
        | None => None
        | Some child =>
            let '(status, t, node, pos) :=
              if num_keys child =? u32 (order t - 1) then
                let '(status, t, node) := split_child t node pos child in
                (status, t, node,
                 if key >? arr_get 0 (keys node) pos then pos + 1 else pos)
              else (BTREE_OK, t, node, pos) in
            if negb (status_eqb status BTREE_OK) then Some (status, t, node)
            else
              match arr_get None (children node) pos with
              | None => None
              | Some child =>
                  match insert_nonfull fuel' t child key value with
                  | None => None
                  | Some (status, t, child) =>
                      Some (status, t,
                            set_children node (arr_set (children node) pos (Some child)))
                  end
              end
        end
  end.

(** Number of nodes on the longest chain of child cells below a pointer;
    it bounds every walk down the tree and is the fuel of the public
    operations. *)
Fixpoint node_depth (n : btree_node_t) : nat :=
  match n with
  | mk_node _ _ cs _ _ =>
      S (fold_right
           (fun c acc => Nat.max (match c with Some c' => node_depth c' | None => O end) acc)
           O cs)
  end.

Definition ptr_depth (p : option btree_node_t) : nat :=
  match p with Some n => node_depth n | None => O end.

(** [calculate_height]. *)
Fixpoint calculate_height (fuel : nat) (node : option btree_node_t) : Z :=
  match node, fuel with
  | None, _ => 0
  | Some _, O => 0
  | Some n, S fuel' =>
      if is_leaf n then 1
      else u32 (1 + calculate_height fuel' (arr_get None (children n) 0))
  end.

(** The index values [lo, lo + 1, ...] of a [for] loop of [cnt] turns. *)
Definition zrange (lo : Z) (cnt : nat) : list Z :=
  map (fun i => lo + Z.of_nat i) (seq 0 cnt).

(** [validate_node].  [min_key] and [max_key] are the cells behind the two
    bound pointers.  Each loop returns [false] at the first failing index
    and has no other effect, so it is a conjunction over its indices. *)
Fixpoint validate_node (fuel : nat) (node : option btree_node_t) (min_keys max_keys : Z)
    (min_key max_key : option btree_key_t) (is_root : bool) : bool :=
  match node, fuel with
  | None, _ => true
  | Some _, O => true
  | Some n, S fuel' =>
      if negb is_root && (num_keys n <? min_keys) then false
      else if num_keys n >? max_keys then false
      else if negb (forallb (fun i => negb (arr_get 0 (keys n) i <=? arr_get 0 (keys n) (i - 1)))
                      (zrange 1 (Z.to_nat (num_keys n - 1)))) then false
      else if (num_keys n >? 0) &&
              (match min_key with
               | Some m => arr_get 0 (keys n) 0 <=? m
               | None => false
               end ||
               match max_key with
               | Some m => arr_get 0 (keys n) (num_keys n - 1) >=? m
               | None => false
               end) then false
      else if negb (is_leaf n) then
        forallb (fun i =>
                   let child_min :=
                     if i =? 0 then min_key else Some (arr_get 0 (keys n) (i - 1)) in
                   let child_max :=
                     if i =? num_keys n then max_key else Some (arr_get 0 (keys n) i) in
                   validate_node fuel' (arr_get None (children n) i)
                     min_keys max_keys child_min child_max false)
                (zrange 0 (Z.to_nat (num_keys n + 1)))
      else true
  end.

(** ** btree.c: public API *)

(** [btree_create]; [None] is the [NULL] returned for an order out of
    range. *)
Definition btree_create (order : Z) : option btree_t :=
  if (order <? BTREE_MIN_ORDER) || (order >? BTREE_MAX_ORDER) then None
  else
    Some (mk_btree (Some (node_create order true)) order (u32 (order - 1) / 2)
            (mk_stats 1 0 1 0 0 0 0 0 0 0) true).

(** [btree_clear]. *)
Definition btree_clear (t : btree_t) : btree_t :=
  mk_btree (Some (node_create (order t) true)) (order t) (min_keys t)
    (mk_stats 1 0 1 0 0 0 0 0 0 0) (collect_stats t).

(** [btree_insert].  The fuel covers the depth of the tree with its new
    root. *)
Definition btree_insert (t : btree_t) (key : btree_key_t) (value : btree_value_t)
    : option (btree_status_t * btree_t) :=
  match root t with
  | None => Some (BTREE_ERROR_INVALID, t)
  | Some r =>
      let t := if collect_stats t
               then set_stats t (upd_insert_ops incr64 (stats t)) else t in
      let '(status, t, r) :=
        if num_keys r =? u32 (order t - 1) then
          let new_root := node_create (order t) false in
          let new_root := set_children new_root (arr_set (children new_root) 0 (Some r)) in
          let t := set_root t (Some new_root) in
          let t := set_stats t (upd_height incr32 (upd_node_count incr64 (stats t))) in
          split_child t new_root 0 r
        else (BTREE_OK, t, r) in
      if negb (status_eqb status BTREE_OK) then Some (status, set_root t (Some r))
      else
        match insert_nonfull (S (S (node_depth r))) t r key value with
        | None => None
        | Some (status, t, r) => Some (status, set_root t (Some r))
        end
  end.

(** The [while (node)] loop of [btree_search].  [slot] tells whether the
    [value] pointer is non-[NULL]; the last component is the value written
    through it, if any. *)
Fixpoint search_loop (fuel : nat) (t : btree_t) (node : option btree_node_t)
    (key : btree_key_t) (slot : bool) : btree_status_t * btree_t * option btree_value_t :=
  match node, fuel with
  | None, _ => (BTREE_ERROR_NOT_FOUND, t, None)
  | Some _, O => (BTREE_ERROR_NOT_FOUND, t, None)
  | Some n, S fuel' =>
      let t := visit t in
      let '(pos, found, t) := tree_binary_search t n key in
      if found then
        (BTREE_OK, t,
         if slot && is_leaf n then Some (arr_get 0 (values n) pos) else None)
      else if is_leaf n then (BTREE_ERROR_NOT_FOUND, t, None)
      else search_loop fuel' t (arr_get None (children n) pos) key slot
  end.

Definition btree_search (t : btree_t) (key : btree_key_t) (slot : bool)
    : btree_status_t * btree_t * option btree_value_t :=
  match root t with
  | None => (BTREE_ERROR_INVALID, t, None)
  | Some r =>
      let t := if collect_stats t
               then set_stats t (upd_search_ops incr64 (stats t)) else t in
      search_loop (node_depth r) t (Some r) key slot
  end.

Definition btree_contains (t : btree_t) (key : btree_key_t) : bool :=
  status_eqb (fst (fst (btree_search t key false))) BTREE_OK.

(** [btree_delete]. *)
Definition btree_delete (t : btree_t) (key : btree_key_t) : btree_status_t * btree_t :=
  let t := if collect_stats t
           then set_stats t (upd_delete_ops incr64 (stats t)) else t in
  let '(status, t, _) := btree_search t key true in
  if status_eqb status BTREE_OK
  then (BTREE_OK, set_stats t (upd_key_count decr64 (stats t)))
  else (status, t).

(** ** Statistics and diagnostics *)

Definition btree_stats_reset (t : btree_t) : btree_t :=
  set_stats t (mk_stats (node_count (stats t)) (key_count (stats t)) (height (stats t))
                 0 0 0 0 0 0 0).

Definition btree_height (t : btree_t) : Z :=
  calculate_height (ptr_depth (root t)) (root t).

Definition btree_size (t : btree_t) : Z := key_count (stats t).

Definition btree_validate (t : btree_t) : bool :=
  match root t with
  | None => false
  | Some r =>
      validate_node (node_depth r) (Some r) (min_keys t) (u32 (order t - 1))
        None None true
  end.

Definition btree_set_stats_collection (t : btree_t) (enabled : bool) : btree_t :=
  mk_btree (root t) (order t) (min_keys t) (stats t) enabled.

(** ** Cursor operations *)

Record btree_cursor_t : Type := mk_cursor {
  tree : btree_t;
  path : list (option btree_node_t);
  positions : list Z;
  depth : Z;
  max_depth : Z;
  valid : bool
}.

Definition btree_cursor_create (t : btree_t) : btree_cursor_t :=
  mk_cursor t (replicate 64%nat None) (replicate 64%nat 0) (-1) 64 false.

(** [while (!cursor->path[cursor->depth]->is_leaf)] with the body of
    [btree_cursor_first] ([pick] is [fun _ _ => 0]) and of
    [btree_cursor_next] ([pick] reads the position one level up).  The
    step from the last cell of the path has no defined result. *)
Fixpoint descend_loop (fuel : nat) (pick : list Z -> Z -> Z)
    (pth : list (option btree_node_t)) (pos : list Z) (d : Z)
    : option (list (option btree_node_t) * list Z * Z) :=
  match fuel with
  | O => None
  | S fuel' =>
      match arr_get None pth d with
      | None => None
      | Some node =>
          if is_leaf node then Some (pth, pos, d)
          else if Z.of_nat (length pth) <=? d + 1 then None
          else
            let d' := d + 1 in
            let pth := arr_set pth d' (arr_get None (children node) (pick pos d')) in
            let pos := arr_set pos d' 0 in
            descend_loop fuel' pick pth pos d'
      end
  end.

(** [btree_cursor_first]. *)
Definition btree_cursor_first (c : btree_cursor_t) : option (btree_status_t * btree_cursor_t) :=
  match root (tree c) with
  | None => Some (BTREE_ERROR_INVALID, c)
  | Some r =>
      let pth := arr_set (path c) 0 (Some r) in
      let pos := arr_set (positions c) 0 0 in
      match descend_loop (S (length pth)) (fun _ _ => 0) pth pos 0 with
      | None => None
      | Some (pth, pos, d) =>
          match arr_get None pth d with
          | None => None
          | Some leaf =>
              let v := num_keys leaf >? 0 in
              Some (if v then BTREE_OK else BTREE_ERROR_NOT_FOUND,
                    mk_cursor (tree c) pth pos d (max_depth c) v)
          end
      end
  end.

(** The descent of [btree_cursor_last]: the position of the level left
    behind is set to its last child. *)
Fixpoint descend_last_loop (fuel : nat)
    (pth : list (option btree_node_t)) (pos : list Z) (d : Z)
    : option (list (option btree_node_t) * list Z * Z) :=
  match fuel with
  | O => None
  | S fuel' =>
      match arr_get None pth d with
      | None => None
      | Some node =>
          if is_leaf node then Some (pth, pos, d)
          else if Z.of_nat (length pth) <=? d + 1 then None
          else
            let pos := arr_set pos d (to_int (num_keys node)) in
            let d' := d + 1 in
            let pth := arr_set pth d' (arr_get None (children node) (num_keys node)) in
            descend_last_loop fuel' pth pos d'
      end
  end.

(** [btree_cursor_last]. *)
Definition btree_cursor_last (c : btree_cursor_t) : option (btree_status_t * btree_cursor_t) :=
  match root (tree c) with
  | None => Some (BTREE_ERROR_INVALID, c)
  | Some r =>
      let pth := arr_set (path c) 0 (Some r) in
      match descend_last_loop (S (length pth)) pth (positions c) 0 with
      | None => None
      | Some (pth, pos, d) =>
          match arr_get None pth d with
          | None => None
          | Some leaf =>
              let pos := arr_set pos d (to_int (u32 (num_keys leaf - 1))) in
              let v := arr_get 0 pos d >=? 0 in
              Some (if v then BTREE_OK else BTREE_ERROR_NOT_FOUND,
                    mk_cursor (tree c) pth pos d (max_depth c) v)
          end
      end
  end.

(** The [while (cursor->depth > 0)] loop of [btree_cursor_next]; the
    result tells whether the loop returned [BTREE_OK] from inside. *)
Fixpoint ascend_loop (fuel : nat)
    (pth : list (option btree_node_t)) (pos : list Z) (d : Z)
    : option (bool * list (option btree_node_t) * list Z * Z) :=
  match fuel with
  | O => Some (false, pth, pos, d)
  | S fuel' =>
      if d >? 0 then
        let d := d - 1 in
        let pos := arr_set pos d (arr_get 0 pos d + 1) in
        match arr_get None pth d with
        | None => None
        | Some node =>
            if arr_get 0 pos d <=? to_int (num_keys node) then
              match descend_loop (S (length pth))
                      (fun pos d' => arr_get 0 pos (d' - 1)) pth pos d with
              | None => None
              | Some (pth, pos, d) => Some (true, pth, pos, d)
              end
            else ascend_loop fuel' pth pos d
        end
      else Some (false, pth, pos, d)
  end.

(** [btree_cursor_next]. *)
Definition btree_cursor_next (c : btree_cursor_t) : option (btree_status_t * btree_cursor_t) :=
  if negb (valid c) then Some (BTREE_ERROR_INVALID, c)
  else
    match arr_get None (path c) (depth c) with
    | None => None
    | Some node =>
        let pos := arr_set (positions c) (depth c) (arr_get 0 (positions c) (depth c) + 1) in
        if arr_get 0 pos (depth c) <? to_int (num_keys node) then
          Some (BTREE_OK, mk_cursor (tree c) (path c) pos (depth c) (max_depth c) (valid c))
        else
          match ascend_loop (Z.to_nat (depth c)) (path c) pos (depth c) with
          | None => None
          | Some (true, pth, pos, d) =>
              Some (BTREE_OK, mk_cursor (tree c) pth pos d (max_depth c) (valid c))
          | Some (false, pth, pos, d) =>
              Some (BTREE_ERROR_NOT_FOUND, mk_cursor (tree c) pth pos d (max_depth c) false)
          end
    end.

(** [btree_cursor_get]; [kslot] and [vslot] tell whether the [key] and
    [value] pointers are non-[NULL], and the result carries what is
    written through them. *)
Definition btree_cursor_get (c : btree_cursor_t) (kslot vslot : bool)
    : option (btree_status_t * option btree_key_t * option btree_value_t) :=
  if negb (valid c) then Some (BTREE_ERROR_INVALID, None, None)
  else
    match arr_get None (path c) (depth c) with
    | None => None
    | Some node =>
        let pos := arr_get 0 (positions c) (depth c) in
        if (pos <? 0) || (pos >=? to_int (num_keys node)) then
          Some (BTREE_ERROR_INVALID, None, None)
        else
          Some (BTREE_OK,
                if kslot then Some (arr_get 0 (keys node) pos) else None,
                if vslot && is_leaf node then Some (arr_get 0 (values node) pos) else None)
    end.

Definition btree_cursor_valid (c : btree_cursor_t) : bool := valid c.

(** * Specification vocabulary *)

(** [keys[i]] of a node. *)
Definition key_at (n : btree_node_t) (i : Z) : btree_key_t := arr_get 0 (keys n) i.

(** The first [num_keys] keys are strictly increasing, as [validate_node]
    checks it: [keys[i - 1] < keys[i]] for [1 <= i < num_keys]. *)
Definition keys_increasing (n : btree_node_t) : Prop :=
  forall i, 1 <= i < num_keys n -> key_at n (i - 1) < key_at n i.

(** [key] is one of the first [num_keys] keys. *)
Definition node_has_key (n : btree_node_t) (key : btree_key_t) : Prop :=
  exists i, 0 <= i < num_keys n /\ key_at n i = key.

(** What the loop of [node_binary_search] knows about the cells outside
    [lwr .. upr] of the [n] keys [ks]. *)
Definition bsearch_inv (ks : list btree_key_t) (key : btree_key_t) (n lwr upr : Z) : Prop :=
  0 <= lwr /\ upr < n /\ lwr <= upr + 1 /\
  (forall i, 0 <= i < lwr -> arr_get 0 ks i < key) /\
  (forall i, upr < i < n -> key < arr_get 0 ks i).

(** What the exit of the loop promises. *)
Definition bsearch_post (ks : list btree_key_t) (key : btree_key_t) (n : Z)
    (r : Z * bool * option Z) : Prop :=
  let '(pos, found, _) := r in
  0 <= pos <= n /\
  (forall i, 0 <= i < pos -> arr_get 0 ks i < key) /\
  if found then pos < n /\ arr_get 0 ks pos = key
  else forall i, pos <= i < n -> key < arr_get 0 ks i.

(** A leaf of three keys, used to instantiate the theorems. *)
Definition sample_leaf : btree_node_t :=
  mk_node [10; 20; 30] [100; 200; 300] [] 3 true.

(** ** Shape of the trees that [btree_insert] builds *)

(** Sum of [f] over the [cnt] indices from [lo]. *)
Fixpoint zsum (f : Z -> Z) (lo : Z) (cnt : nat) : Z :=
  match cnt with
  | O => 0
  | S cnt' => f lo + zsum f (lo + 1) cnt'
  end.

(** [split_child] leaves the [(m - 1) / 2] keys below the median in the
    node it splits, moves the median to the parent and gives the
    [min_fill m] keys above it to the new sibling. *)
Definition min_fill (m : Z) : Z := m - 2 - (m - 1) / 2.

(** [bt m h lo n]: [n] is the root of a subtree of order [m] whose
    leaves are all [h] nodes below, [n] holds at least [lo] keys and
    fits its arrays, every node under it holds at least [min_fill m]
    keys, and an internal node has a child behind each of its
    [num_keys + 1] first pointers. *)
Fixpoint bt (m : Z) (h : nat) (lo : Z) (n : btree_node_t) : Prop :=
  match h with
  | O => False
  | S h' =>
      Z.max 0 lo <= num_keys n <= m - 1 /\
      Z.of_nat (length (keys n)) = m - 1 /\
      if is_leaf n then
        h' = O /\ Z.of_nat (length (values n)) = m - 1
      else
        h' <> O /\ Z.of_nat (length (children n)) = m /\
        forall i, 0 <= i <= num_keys n ->
          exists c, arr_get None (children n) i = Some c /\ bt m h' (min_fill m) c
  end.

(** Number of keys stored in the subtree of height [h] under [n]. *)
Fixpoint nkeys (h : nat) (n : btree_node_t) : Z :=
  match h with
  | O => 0
  | S h' =>
      num_keys n +
      if is_leaf n then 0
      else zsum (fun i => match arr_get None (children n) i with
                          | Some c => nkeys h' c
                          | None => 0
                          end) 0 (Z.to_nat (num_keys n + 1))
  end.

(** A tree of height [h] that holds at most [N] keys: what is known of a
    tree after [N] calls of [btree_insert]. *)
Definition tree_inv (t : btree_t) (h : nat) (N : Z) : Prop :=
  BTREE_MIN_ORDER <= order t <= BTREE_MAX_ORDER /\
  exists r, root t = Some r /\
    bt (order t) h 0 r /\
    (is_leaf r = false -> 1 <= num_keys r) /\
    nkeys h r <= N.

(** A run of [btree_insert] calls; [None] when one of them has no defined
    result. *)
Fixpoint insert_all (t : btree_t) (kvs : list (btree_key_t * btree_value_t))
    : option btree_t :=
  match kvs with
  | [] => Some t
  | (k, v) :: kvs' =>
      match btree_insert t k v with
      | Some (_, t') => insert_all t' kvs'
      | None => None
      end
  end.

(** The three nodes that [split_child] leaves behind, named: the child
    cut at the median, the new right sibling, and the parent. *)
Definition split_mid (m : Z) : Z := u32 (m - 1) / 2.

Definition split_left (m : Z) (child : btree_node_t) : btree_node_t :=
  set_num_keys child (split_mid m).

Definition split_right (m : Z) (child : btree_node_t) : btree_node_t :=
  let mid := split_mid m in
  let new_num := u32 (num_keys child - mid - 1) in
  mk_node
    (copy_loop 0 (keys child) (replicate (Z.to_nat (m - 1)) 0) (mid + 1) 0 (Z.to_nat new_num))
    (if is_leaf child
     then copy_loop 0 (values child) (replicate (Z.to_nat (m - 1)) 0) (mid + 1) 0
            (Z.to_nat new_num)
     else [])
    (if is_leaf child then []
     else copy_loop None (children child) (replicate (Z.to_nat m) None) (mid + 1) 0
            (Z.to_nat (new_num + 1)))
    new_num (is_leaf child).

Definition split_parent (m : Z) (parent : btree_node_t) (idx : Z) (child : btree_node_t)
    : btree_node_t :=
  let pn := to_int (num_keys parent) in
  mk_node
    (arr_set (shift_loop 0 (keys parent) (pn - 1) (Z.to_nat (pn - idx))) idx
       (arr_get 0 (keys child) (split_mid m)))
    (values parent)
    (arr_set
       (arr_set (shift_loop None (children parent) pn (Z.to_nat (pn - idx))) idx
          (Some (split_left m child)))
       (idx + 1) (Some (split_right m child)))
    (u32 (num_keys parent + 1)) (is_leaf parent).

(** Keys stored behind a child pointer, in a subtree of height [h]. *)
Definition nkeys_ptr (h : nat) (p : option btree_node_t) : Z :=
  match p with
  | Some c => nkeys h c
  | None => 0
  end.

(** ** What a walk down the tree may change in the tree header *)

(** [stats_step t t']: the configuration and the three operation counters
    of [t'] are those of [t], and so are [comparisons] and [node_visits]
    when [t] does not collect statistics. *)
Definition stats_step (t t' : btree_t) : Prop :=
  order t' = order t /\ min_keys t' = min_keys t /\
  collect_stats t' = collect_stats t /\
  search_ops (stats t') = search_ops (stats t) /\
  insert_ops (stats t') = insert_ops (stats t) /\
  delete_ops (stats t') = delete_ops (stats t) /\
  (collect_stats t = false ->
     comparisons (stats t') = comparisons (stats t) /\
     node_visits (stats t') = node_visits (stats t)).

(** What a call of [insert_nonfull] achieves on a node with room, in a
    tree of order [m]: it returns [BTREE_OK] and a node of the same shape
    that holds at most one key more. *)
Definition insert_ok (m : Z) (fuel h : nat) (lo : Z) (t : btree_t) (n : btree_node_t)
    (key : btree_key_t) (value : btree_value_t) : Prop :=
  exists t' n',
    insert_nonfull fuel t n key value = Some (BTREE_OK, t', n') /\
    bt m h lo n' /\ is_leaf n' = is_leaf n /\ num_keys n <= num_keys n' /\
    nkeys h n' <= nkeys h n + 1.

(** ** The height bound of the specification *)

(** The ceiling of [m / 2]. *)
Definition ceil_half (m : Z) : Z := (m + 1) / 2.

(** [ceil_log_loop] looks for the least [e >= 0] with [n1 <= 2 * b ^ e];
    [p] is [b ^ e]. *)
Fixpoint ceil_log_loop (fuel : nat) (b n1 p e : Z) : Z :=
  match fuel with
  | O => e
  | S fuel' =>
      if n1 <=? 2 * p then e else ceil_log_loop fuel' b n1 (p * b) (e + 1)
  end.

(** The ceiling of the logarithm in base [b] of [n1 / 2], for [b >= 2]
    and [n1 >= 1]: the least integer [e] with [b ^ e >= n1 / 2].  It is
    [-1] when [1 / b >= n1 / 2], and no smaller since [1 / b ^ 2 < 1 / 2]. *)
Definition ceil_log_half (b n1 : Z) : Z :=
  if n1 * b <=? 2 then -1 else ceil_log_loop (Z.to_nat n1) b n1 1 0.

(** The bound on the height of a tree of fanout [m] after [N] inserts. *)
Definition height_bound (m N : Z) : Z := ceil_log_half (ceil_half m) (N + 1) + 1.

(** ** Vocabulary of the search and delete properties *)

(** [nodes_kept t t']: the nodes of [t'] and its structural counters are
    those of [t]. *)
Definition nodes_kept (t t' : btree_t) : Prop :=
  root t' = root t /\
  node_count (stats t') = node_count (stats t) /\
  key_count (stats t') = key_count (stats t) /\
  height (stats t') = height (stats t) /\
  splits (stats t') = splits (stats t).

(** A node the search primitive is specified on. *)
Definition node_searchable (n : btree_node_t) : Prop :=
  0 <= num_keys n <= 2 ^ 30 /\ keys_increasing n.

(** [n] calls of [btree_delete] with the same key. *)
Fixpoint delete_times (n : nat) (t : btree_t) (key : btree_key_t) : btree_t :=
  match n with
  | O => t
  | S n' => snd (btree_delete (delete_times n' t key) key)
  end.

(** The trees that the public operations build. *)
Inductive reachable : btree_t -> Prop :=
| reach_create (m : Z) (t : btree_t) :
    btree_create m = Some t -> reachable t
| reach_insert (t : btree_t) (key : btree_key_t) (value : btree_value_t)
    (status : btree_status_t) (t' : btree_t) :
    reachable t -> btree_insert t key value = Some (status, t') -> reachable t'
| reach_search (t : btree_t) (key : btree_key_t) (slot : bool) :
    reachable t -> reachable (snd (fst (btree_search t key slot)))
| reach_delete (t : btree_t) (key : btree_key_t) :
    reachable t -> reachable (snd (btree_delete t key))
| reach_clear (t : btree_t) :
    reachable t -> reachable (btree_clear t)
| reach_stats_reset (t : btree_t) :
    reachable t -> reachable (btree_stats_reset t)
| reach_set_stats_collection (t : btree_t) (enabled : bool) :
    reachable t -> reachable (btree_set_stats_collection t enabled).

(** The value of a counter after an increment that [collect_stats]
    gates. *)
Definition gated (t : btree_t) (counter : Z) : Z :=
  if collect_stats t then incr64 counter else counter.

(** [hot_counters_kept t t']: the two per-step counters of [t'] are those
    of [t]. *)
Definition hot_counters_kept (t t' : btree_t) : Prop :=
  comparisons (stats t') = comparisons (stats t) /\
  node_visits (stats t') = node_visits (stats t).

(** ** Runs of the public operations *)

(** A fresh tree of order [m] after a run of inserts. *)
Definition build (m : Z) (kvs : list (btree_key_t * btree_value_t)) : option btree_t :=
  match btree_create m with
  | Some t => insert_all t kvs
  | None => None
  end.

(** The traversal of the cursor tests: read the key under the cursor with
    [btree_cursor_get], advance with [btree_cursor_next], and stop when
    [btree_cursor_next] no longer returns [BTREE_OK].  The result lists
    what each [btree_cursor_get] wrote ([None] when it wrote no key) and
    gives the cursor at the end; it is [None] when a call has no defined
    result or the fuel runs out before the traversal ends. *)
Fixpoint cursor_walk (fuel : nat) (c : btree_cursor_t)
    : option (list (option btree_key_t) * btree_cursor_t) :=
  match fuel with
  | O => None
  | S fuel' =>
      match btree_cursor_get c true false, btree_cursor_next c with
      | Some (_, k, _), Some (status, c') =>
          if status_eqb status BTREE_OK then
            match cursor_walk fuel' c' with
            | Some (ks, c_end) => Some (k :: ks, c_end)
            | None => None
            end
          else Some ([k], c')
      | _, _ => None
      end
  end.

(** The trees of the examples. *)

(** Order 3, keys 10, 20, 5. *)
Definition tree_odd_order : option btree_t := build 3 [(10, 1); (20, 2); (5, 3)].

(** Order 4, keys 1, 2, 3, 4: the fourth insert splits the root and
    promotes the key 2. *)
Definition tree_split : option btree_t := build 4 [(1, 11); (2, 12); (3, 13); (4, 14)].

(** Order 4, keys 1 and 3. *)
Definition tree_two_keys : option btree_t := build 4 [(1, 11); (3, 13)].

(** Order 3, seven distinct keys in descending runs. *)
Definition tree_tall : option btree_t :=
  build 3 [(1, 0); (2, 0); (0, 0); (-1, 0); (-2, 0); (-3, 0); (-4, 0)].

(** A fresh tree of order 4, the same tree with statistics collection
    switched off, and the tree [tree_split] with its root. *)
Definition no_tree : btree_t := mk_btree None 0 0 zero_stats false.

Definition fresh_tree : btree_t := Eval vm_compute in default no_tree (btree_create 4).

Definition quiet_tree : btree_t := btree_set_stats_collection fresh_tree false.

Definition split_tree : btree_t := Eval vm_compute in default no_tree tree_split.

Definition split_root : btree_node_t :=
  Eval vm_compute in default sample_leaf (root split_tree).

(** The keys [lo, lo + 1, ..., lo + n - 1], each with the value 0. *)
Definition key_run (lo : Z) (n : nat) : list (btree_key_t * btree_value_t) :=
  map (fun k => (k, 0)) (zrange lo n).

(** ** btree.c: the fill factor *)

(** [calculate_fill_factor]; [totals] holds the cells behind
    [total_keys] and [total_capacity]. *)
Fixpoint calculate_fill_factor (fuel : nat) (node : option btree_node_t) (max_keys : Z)
    (totals : Z * Z) : Z * Z :=
  match node, fuel with
  | None, _ => totals
  | Some _, O => totals
  | Some n, S fuel' =>
      let totals := (u64 (fst totals + num_keys n), u64 (snd totals + max_keys)) in
      if is_leaf n then totals
      else
        fold_left
          (fun acc i =>
             calculate_fill_factor fuel' (arr_get None (children n) i) max_keys acc)
          (zrange 0 (Z.to_nat (num_keys n + 1))) totals
  end.

(** [btree_stats_get]: the statistics with the height computed anew, and
    the totals [(total_keys, total_capacity)] whose quotient the function
    stores in [avg_fill_factor] (0 when the capacity is 0). *)
Definition btree_stats_get (t : btree_t) : btree_stats_t * (Z * Z) :=
  (upd_height (fun _ => calculate_height (ptr_depth (root t)) (root t)) (stats t),
   calculate_fill_factor (ptr_depth (root t)) (root t) (u32 (order t - 1)) (0, 0)).

(** ** Order of the keys in a tree *)

(** [k] lies strictly between the bounds that are given, as
    [validate_node] checks it against [*min_key] and [*max_key]. *)
Definition in_bounds (lo hi : option btree_key_t) (k : btree_key_t) : Prop :=
  match lo with Some l => l < k | None => True end /\
  match hi with Some u => k < u | None => True end.

(** The bounds that [validate_node] passes down to [children[i]]. *)
Definition child_lo (n : btree_node_t) (lo : option btree_key_t) (i : Z)
    : option btree_key_t :=
  if i =? 0 then lo else Some (key_at n (i - 1)).

Definition child_hi (n : btree_node_t) (hi : option btree_key_t) (i : Z)
    : option btree_key_t :=
  if i =? num_keys n then hi else Some (key_at n i).

(** [ordered h lo hi n]: in the subtree of height at most [h] under [n]
    the keys of every node are strictly increasing, lie strictly between
    the bounds of the node, and separate the keys of its children. *)
Fixpoint ordered (h : nat) (lo hi : option btree_key_t) (n : btree_node_t) : Prop :=
  match h with
  | O => False
  | S h' =>
      keys_increasing n /\
      (forall i, 0 <= i < num_keys n -> in_bounds lo hi (key_at n i)) /\
      (is_leaf n = false ->
       forall i c, 0 <= i <= num_keys n -> arr_get None (children n) i = Some c ->
                   ordered h' (child_lo n lo i) (child_hi n hi i) c)
  end.

(** [key_in h n k]: a node of the subtree of height at most [h] under [n]
    holds the key [k]. *)
Fixpoint key_in (h : nat) (n : btree_node_t) (k : btree_key_t) : Prop :=
  match h with
  | O => False
  | S h' =>
      node_has_key n k \/
      (is_leaf n = false /\
       exists i c, 0 <= i <= num_keys n /\ arr_get None (children n) i = Some c /\
                   key_in h' c k)
  end.

(** [value_in h n k v]: a leaf of the subtree of height at most [h] under
    [n] holds the key [k] with the value [v] next to it. *)
Fixpoint value_in (h : nat) (n : btree_node_t) (k : btree_key_t) (v : btree_value_t)
    : Prop :=
  match h with
  | O => False
  | S h' =>
      (is_leaf n = true /\
       exists i, 0 <= i < num_keys n /\ key_at n i = k /\ arr_get 0 (values n) i = v) \/
      (is_leaf n = false /\
       exists i c, 0 <= i <= num_keys n /\ arr_get None (children n) i = Some c /\
                   value_in h' c k v)
  end.

(** Number of nodes of the subtree of height [h] under [n]. *)
Fixpoint nnodes (h : nat) (n : btree_node_t) : Z :=
  match h with
  | O => 0
  | S h' =>
      1 + if is_leaf n then 0
          else zsum (fun i => match arr_get None (children n) i with
                              | Some c => nnodes h' c
                              | None => 0
                              end) 0 (Z.to_nat (num_keys n + 1))
  end.

Definition nnodes_ptr (h : nat) (p : option btree_node_t) : Z :=
  match p with
  | Some c => nnodes h c
  | None => 0
  end.

(** ** What an insert does *)

(** What [insert_nonfull] does to a subtree of height [h] and to the
    counters, when it returns the header [t'] and the node [n'] for the
    header [t] and the node [n]. *)
Definition insert_general (h : nat) (t : btree_t) (n : btree_node_t) (key : btree_key_t)
    (value : btree_value_t) (t' : btree_t) (n' : btree_node_t) : Prop :=
  (* the keys are the old ones and [key] *)
  (forall x, key_in h n' x <-> x = key \/ key_in h n x) /\
  (* a value next to a key in a leaf is the new one or an old one *)
  (forall x w, value_in h n' x w -> (x = key /\ w = value) \/ value_in h n x w) /\
  (* the new pair is in a leaf *)
  value_in h n' key value /\
  (* [node_count] and [splits] count the nodes that were added *)
  (exists d : nat,
     nnodes h n' = nnodes h n + Z.of_nat d /\
     node_count (stats t') = Nat.iter d incr64 (node_count (stats t)) /\
     splits (stats t') = Nat.iter d incr64 (splits (stats t))) /\
  (* [key_count] counts the key when it was added *)
  ((nkeys h n' = nkeys h n /\ key_count (stats t') = key_count (stats t)) \/
   (nkeys h n' = nkeys h n + 1 /\ key_count (stats t') = incr64 (key_count (stats t)))) /\
  (~ key_in h n key -> nkeys h n' = nkeys h n + 1) /\
  height (stats t') = height (stats t).

(** A new key between the bounds keeps the order. *)
Definition insert_ordered (h : nat) (n : btree_node_t) (key : btree_key_t)
    (n' : btree_node_t) : Prop :=
  forall blo bhi, ordered h blo bhi n -> in_bounds blo bhi key -> ~ key_in h n key ->
                  ordered h blo bhi n'.

(** The leaf that [insert_nonfull] leaves when it stores a new pair at
    index [pos]. *)
Definition grown_leaf (n : btree_node_t) (pos : Z) (key : btree_key_t)
    (value : btree_value_t) : btree_node_t :=
  mk_node (arr_set (shift_loop 0 (keys n) (to_int (num_keys n) - 1)
                      (Z.to_nat (to_int (num_keys n) - pos))) pos key)
          (arr_set (shift_loop 0 (values n) (to_int (num_keys n) - 1)
                      (Z.to_nat (to_int (num_keys n) - pos))) pos value)
          (children n) (u32 (num_keys n + 1)) (is_leaf n).

(** The root that [btree_insert] makes of a full root [r] before it
    descends: a new node above the two halves of [r]. *)
Definition raised_root (m : Z) (r : btree_node_t) : btree_node_t :=
  split_parent m
    (set_children (node_create m false)
       (arr_set (children (node_create m false)) 0 (Some r))) 0 r.

(** ** Whole trees *)

(** The tree [t] has the root [r], of height [h]: the shape that
    [btree_create] sets up and [btree_insert] keeps. *)
Definition tree_shape (t : btree_t) (h : nat) (r : btree_node_t) : Prop :=
  BTREE_MIN_ORDER <= order t <= BTREE_MAX_ORDER /\
  min_keys t = u32 (order t - 1) / 2 /\
  root t = Some r /\ bt (order t) h 0 r /\
  (is_leaf r = false -> 1 <= num_keys r).

(** What a call of [btree_insert] makes of the tree [t] with root [r]. *)
Definition insert_effect (t : btree_t) (h : nat) (r : btree_node_t)
    (key : btree_key_t) (value : btree_value_t)
    (t' : btree_t) (h' : nat) (r' : btree_node_t) : Prop :=
  tree_shape t' h' r' /\ order t' = order t /\ (h' = h \/ h' = S h) /\
  (forall x, key_in h' r' x <-> x = key \/ key_in h r x) /\
  (forall x w, value_in h' r' x w -> (x = key /\ w = value) \/ value_in h r x w) /\
  value_in h' r' key value /\
  (node_count (stats t) = u64 (nnodes h r) ->
   node_count (stats t') = u64 (nnodes h' r')) /\
  (key_count (stats t) = u64 (nkeys h r) ->
   key_count (stats t') = u64 (nkeys h' r')) /\
  (height (stats t) = u32 (Z.of_nat h) ->
   height (stats t') = u32 (Z.of_nat h')) /\
  (nkeys h' r' = nkeys h r \/ nkeys h' r' = nkeys h r + 1) /\
  (~ key_in h r key -> nkeys h' r' = nkeys h r + 1) /\
  (ordered h None None r -> ~ key_in h r key -> ordered h' None None r').

(** What a run of [btree_insert] calls makes of the tree [t] with root
    [r]. *)
Definition run_effect (t : btree_t) (h : nat) (r : btree_node_t)
    (kvs : list (btree_key_t * btree_value_t))
    (t' : btree_t) (h' : nat) (r' : btree_node_t) : Prop :=
  tree_shape t' h' r' /\ order t' = order t /\
  (forall x, key_in h' r' x <-> In x (map fst kvs) \/ key_in h r x) /\
  (forall x w, value_in h' r' x w -> In (x, w) kvs \/ value_in h r x w) /\
  (node_count (stats t) = u64 (nnodes h r) ->
   node_count (stats t') = u64 (nnodes h' r')) /\
  (key_count (stats t) = u64 (nkeys h r) ->
   key_count (stats t') = u64 (nkeys h' r')) /\
  (height (stats t) = u32 (Z.of_nat h) ->
   height (stats t') = u32 (Z.of_nat h')) /\
  (ordered h None None r -> List.NoDup (map fst kvs) ->
   (forall x, In x (map fst kvs) -> ~ key_in h r x) ->
   ordered h' None None r' /\ nkeys h' r' = nkeys h r + Z.of_nat (length kvs)).

(** What is known of the tree that a run of [btree_insert] calls builds
    from a fresh tree. *)
Definition built (kvs : list (btree_key_t * btree_value_t))
    (t : btree_t) (h : nat) (r : btree_node_t) : Prop :=
  tree_shape t h r /\
  (forall x, key_in h r x <-> In x (map fst kvs)) /\
  (forall x w, value_in h r x w -> In (x, w) kvs) /\
  node_count (stats t) = u64 (nnodes h r) /\
  key_count (stats t) = u64 (nkeys h r) /\
  height (stats t) = u32 (Z.of_nat h) /\
  (List.NoDup (map fst kvs) ->
   ordered h None None r /\ nkeys h r = Z.of_nat (length kvs)).

(** The counters [node_count] and [height] of the header describe the
    tree. *)
Definition tree_counted (t : btree_t) (h : nat) (r : btree_node_t) : Prop :=
  tree_shape t h r /\
  node_count (stats t) = u64 (nnodes h r) /\
  height (stats t) = u32 (Z.of_nat h).

(** ** The statistics calls *)

(** [same_core t1 t2]: the two headers agree on the order and on the
    three counters that describe the tree; they may differ in the
    statistics switch and in the counters of the operations. *)
Definition same_core (t1 t2 : btree_t) : Prop :=
  order t1 = order t2 /\ min_keys t1 = min_keys t2 /\
  node_count (stats t1) = node_count (stats t2) /\
  key_count (stats t1) = key_count (stats t2) /\
  height (stats t1) = height (stats t2).

(** Two results of [insert_nonfull] that differ at most in the gated
    counters. *)
Definition same_result (r1 r2 : option (btree_status_t * btree_t * btree_node_t)) : Prop :=
  match r1, r2 with
  | Some (s1, t1, n1), Some (s2, t2, n2) => s1 = s2 /\ n1 = n2 /\ same_core t1 t2
  | None, None => True
  | _, _ => False
  end.

(** Two results of [btree_insert] with the same status, the same nodes
    and the same counters of the tree. *)
Definition same_outcome (r1 r2 : option (btree_status_t * btree_t)) : Prop :=
  match r1, r2 with
  | Some (s1, t1), Some (s2, t2) =>
      s1 = s2 /\ root t1 = root t2 /\ btree_size t1 = btree_size t2 /\
      btree_height t1 = btree_height t2 /\
      node_count (stats t1) = node_count (stats t2)
  | None, None => True
  | _, _ => False
  end.

(** ** Order of the keys when keys repeat *)

(** The first [num_keys] keys do not decrease. *)
Definition keys_nondecreasing (n : btree_node_t) : Prop :=
  forall i, 1 <= i < num_keys n -> key_at n (i - 1) <= key_at n i.

(** [k] lies between the bounds that are given, the bounds included. *)
Definition within (lo hi : option btree_key_t) (k : btree_key_t) : Prop :=
  match lo with Some l => l <= k | None => True end /\
  match hi with Some u => k <= u | None => True end.

(** [weakly_ordered h lo hi n]: in the subtree of height at most [h]
    under [n] the keys of every node do not decrease, lie between the
    bounds of the node, and bound the keys of its children; equal keys
    are allowed. *)
Fixpoint weakly_ordered (h : nat) (lo hi : option btree_key_t) (n : btree_node_t)
    : Prop :=
  match h with
  | O => False
  | S h' =>
      keys_nondecreasing n /\
      (forall i, 0 <= i < num_keys n -> within lo hi (key_at n i)) /\
      (is_leaf n = false ->
       forall i c, 0 <= i <= num_keys n -> arr_get None (children n) i = Some c ->
                   weakly_ordered h' (child_lo n lo i) (child_hi n hi i) c)
  end.

(** The index [p] splits the keys of [n] around [key]: the keys before
    [p] are at most [key], the keys from [p] on are at least [key]. *)
Definition brackets (n : btree_node_t) (p : Z) (key : btree_key_t) : Prop :=
  0 <= p <= num_keys n /\
  (forall i, 0 <= i < p -> key_at n i <= key) /\
  (forall i, p <= i < num_keys n -> key <= key_at n i).

(** ** The descent of a search *)

(** The descent path of a search, stated on the keys of the tree and not
    on the loop of [btree_search]: [descent_path_spec key n path] holds
    when [path] lists the nodes from [n] down that a search for [key]
    passes.  The path ends at the first node that holds [key] or is a
    leaf; it leaves every other node through the child [children[p]]
    that stands between the keys below [key] and the keys above it. *)
Inductive descent_path_spec (key : btree_key_t)
    : btree_node_t -> list btree_node_t -> Prop :=
| descent_stop (n : btree_node_t) :
    node_has_key n key \/ is_leaf n = true -> descent_path_spec key n [n]
| descent_step (n c : btree_node_t) (p : Z) (path : list btree_node_t) :
    ~ node_has_key n key -> is_leaf n = false ->
    0 <= p <= num_keys n ->
    (forall i, 0 <= i < p -> key_at n i < key) ->
    (forall i, p <= i < num_keys n -> key < key_at n i) ->
    arr_get None (children n) p = Some c ->
    descent_path_spec key c path -> descent_path_spec key n (n :: path).

(** ** Cursors *)

(** The leaf at the end of the leftmost branch of the subtree of height
    [h] under [n]. *)
Fixpoint leftmost (h : nat) (n : btree_node_t) : btree_node_t :=
  match h with
  | O => n
  | S h' =>
      if is_leaf n then n
      else match arr_get None (children n) 0 with
           | Some c => leftmost h' c
           | None => n
           end
  end.

(** The leaf at the end of the rightmost branch of the subtree of height
    [h] under [n]. *)
Fixpoint rightmost (h : nat) (n : btree_node_t) : btree_node_t :=
  match h with
  | O => n
  | S h' =>
      if is_leaf n then n
      else match arr_get None (children n) (num_keys n) with
           | Some c => rightmost h' c
           | None => n
           end
  end.

(** ** The path of a cursor *)







(** ** The stops of a traversal *)








(** ** Further example trees *)

(** The root of the tree of order 4 built from the keys 1 to 5, and its
    second child, the full leaf [3; 4; 5]. *)
Definition full_parent : btree_node_t :=
  Eval vm_compute in
    default sample_leaf
      (root (default no_tree
               (build 4 [(1, 11); (2, 12); (3, 13); (4, 14); (5, 15)]))).

Definition full_child : btree_node_t :=
  Eval vm_compute in default sample_leaf (arr_get None (children full_parent) 1).

(** The tree of order 4 built from the keys 3, 1, 4, 2. *)
Definition split_tree_shuffled : btree_t :=
  Eval vm_compute in
    default no_tree (build 4 [(3, 13); (1, 11); (4, 14); (2, 12)]).

(** The tree of order 3 built from the keys 10, 20, 5: the root [20]
    above the leaf [5; 10] and an empty leaf. *)
Definition odd_tree : btree_t := Eval vm_compute in default no_tree tree_odd_order.

(** The tree of order 3 built from the keys 3, 2, 1, 2, 1: the root [3]
    above the internal node [2; 2], whose first child is the leaf [1],
    and the two nodes of the path to that leaf. *)
Definition repeat_tree : btree_t :=
  Eval vm_compute in
    default no_tree (build 3 [(3, 103); (2, 102); (1, 101); (2, 202); (1, 201)]).

Definition repeat_root : btree_node_t :=
  Eval vm_compute in default sample_leaf (root repeat_tree).

Definition repeat_inner : btree_node_t :=
  Eval vm_compute in default sample_leaf (arr_get None (children repeat_root) 0).

Definition repeat_leaf : btree_node_t :=
  Eval vm_compute in default sample_leaf (arr_get None (children repeat_inner) 0).


(** * Properties *)

(** ** Machine integers and arrays *)

Lemma u32_small (x : Z) : 0 <= x < 2 ^ 32 -> u32 x = x.
Proof. intros H. unfold u32. apply Z.mod_small. exact H. Qed.

Lemma u64_small (x : Z) : 0 <= x < 2 ^ 64 -> u64 x = x.
Proof. intros H. unfold u64. apply Z.mod_small. exact H. Qed.

Lemma to_int_small (x : Z) : - 2 ^ 31 <= x < 2 ^ 31 -> to_int x = x.
Proof. intros H. unfold to_int. rewrite Z.mod_small; lia. Qed.

Lemma shiftr1_half (x : Z) : Z.shiftr x 1 = x / 2.
Proof. rewrite Z.shiftr_div_pow2 by lia. reflexivity. Qed.

Lemma arr_get_nat {A : Type} (d : A) (a : list A) (i : nat) :
  arr_get d a (Z.of_nat i) = default d (a !! i).
Proof.
  unfold arr_get. destruct (Z.ltb_spec (Z.of_nat i) 0); [lia|].
  now rewrite Nat2Z.id.
Qed.

Lemma arr_get_lookup {A : Type} (d : A) (a : list A) (i : Z) (x : A) :
  0 <= i -> a !! Z.to_nat i = Some x -> arr_get d a i = x.
Proof.
  intros Hi Hx. unfold arr_get. destruct (Z.ltb_spec i 0); [lia|]. now rewrite Hx.
Qed.

Lemma arr_set_nat {A : Type} (a : list A) (i : nat) (x : A) :
  arr_set a (Z.of_nat i) x = <[i := x]> a.
Proof.
  unfold arr_set. destruct (Z.ltb_spec (Z.of_nat i) 0); [lia|].
  now rewrite Nat2Z.id.
Qed.

Lemma arr_set_length {A : Type} (a : list A) (i : Z) (x : A) :
  length (arr_set a i x) = length a.
Proof. unfold arr_set. destruct (i <? 0); [reflexivity|apply length_insert]. Qed.

(** ** The search primitive *)


Lemma keys_increasing_lt (n : btree_node_t) :
  keys_increasing n ->
  forall i j, 0 <= i -> i < j -> j < num_keys n -> key_at n i < key_at n j.
Proof.
  intros Hs i j Hi Hij Hj.
  replace j with (i + 1 + Z.of_nat (Z.to_nat (j - i - 1))) in * by lia.
  generalize dependent (Z.to_nat (j - i - 1)). intros d. induction d as [|d IH].
  - intros _ Hj. specialize (Hs (i + 1)).
    replace (i + 1 - 1) with i in Hs by lia.
    replace (i + 1 + Z.of_nat 0) with (i + 1) by lia. apply Hs. lia.
  - intros _ Hj. specialize (Hs (i + 1 + Z.of_nat (S d))).
    replace (i + 1 + Z.of_nat (S d) - 1) with (i + 1 + Z.of_nat d) in Hs by lia.
    etransitivity; [apply IH; lia|apply Hs; lia].
Qed.

Section BinarySearch.
Variables (ks : list btree_key_t) (key : btree_key_t) (n : Z).

Hypothesis sorted : forall i j, 0 <= i -> i < j -> j < n ->
  arr_get 0 ks i < arr_get 0 ks j.

Lemma bsearch_loop_post (fuel : nat) :
  forall lwr upr cmp,
    bsearch_inv ks key n lwr upr -> upr - lwr + 1 <= Z.of_nat fuel ->
    bsearch_post ks key n (bsearch_loop fuel ks key lwr upr cmp).
Proof.
  induction fuel as [|fuel IH]; intros lwr upr cmp (H0 & Hn & Hle & Hlo & Hhi) Hf.
  - cbn. assert (lwr = upr + 1) by lia. subst lwr.
    repeat split; try lia; [exact Hlo|]. intros i Hi. apply Hhi. lia.
  - cbn [bsearch_loop]. destruct (Z.leb_spec lwr upr) as [Hlu|Hlu].
    + rewrite shiftr1_half.
      assert (Hm : lwr <= (lwr + upr) / 2 <= upr).
      { split; [apply Z.div_le_lower_bound|apply Z.div_le_upper_bound]; lia. }
      set (mid := (lwr + upr) / 2) in *.
      destruct (Z.ltb_spec (arr_get 0 ks mid) key) as [Hlt|Hge].
      * apply IH; [|lia]. repeat split; try lia; [|exact Hhi].
        intros i Hi. destruct (Z.eq_dec i mid) as [->|Hne]; [exact Hlt|].
        etransitivity; [apply (sorted i mid); lia|exact Hlt].
      * destruct (Z.gtb_spec (arr_get 0 ks mid) key) as [Hgt|Hle'].
        -- apply IH; [|lia]. repeat split; try lia; [exact Hlo|].
           intros i Hi. destruct (Z.eq_dec i mid) as [->|Hne]; [lia|].
           pose proof (sorted mid i). lia.
        -- cbn. repeat split; try lia.
           intros i Hi. pose proof (sorted i mid). lia.
    + cbn. assert (lwr = upr + 1) by lia. subst lwr.
      repeat split; try lia; [exact Hlo|]. intros i Hi. apply Hhi. lia.
Qed.
End BinarySearch.

(** More fuel than the width of the interval changes nothing: the loop
    always leaves through its own exit test. *)
Lemma bsearch_loop_fuel (ks : list btree_key_t) (key : btree_key_t) (fuel fuel' : nat) :
  forall lwr upr cmp,
    upr - lwr + 1 <= Z.of_nat fuel -> upr - lwr + 1 <= Z.of_nat fuel' ->
    bsearch_loop fuel ks key lwr upr cmp = bsearch_loop fuel' ks key lwr upr cmp.
Proof.
  revert fuel'. induction fuel as [|fuel IH]; intros [|fuel'] lwr upr cmp Hf Hf'.
  - reflexivity.
  - cbn [bsearch_loop]. destruct (Z.leb_spec lwr upr); [lia|reflexivity].
  - cbn [bsearch_loop]. destruct (Z.leb_spec lwr upr); [lia|reflexivity].
  - cbn [bsearch_loop]. destruct (Z.leb_spec lwr upr) as [Hlu|Hlu]; [|reflexivity].
    rewrite shiftr1_half.
    assert (Hm : lwr <= (lwr + upr) / 2 <= upr).
    { split; [apply Z.div_le_lower_bound|apply Z.div_le_upper_bound]; lia. }
    destruct (arr_get 0 ks ((lwr + upr) / 2) <? key); [apply IH; lia|].
    destruct (arr_get 0 ks ((lwr + upr) / 2) >? key); [apply IH; lia|reflexivity].
Qed.

(** The result of [node_binary_search] on a node with increasing keys. *)
Lemma node_binary_search_post (node : btree_node_t) (key : btree_key_t) (cmp : option Z) :
  0 <= num_keys node <= 2 ^ 30 ->
  keys_increasing node ->
  bsearch_post (keys node) key (num_keys node) (node_binary_search node key cmp).
Proof.
  intros Hn Hs. unfold node_binary_search.
  rewrite to_int_small by lia.
  apply bsearch_loop_post.
  - intros i j Hi Hij Hj. apply (keys_increasing_lt node Hs); lia.
  - unfold bsearch_inv. repeat split; try lia.
  - lia.
Qed.

(** Without any assumption on the keys, the loop returns an index of its
    interval, and a hit is a cell that holds the key. *)
Lemma bsearch_loop_range (ks : list btree_key_t) (key : btree_key_t) (fuel : nat) :
  forall lwr upr cmp,
    lwr <= upr + 1 ->
    let '(pos, found, _) := bsearch_loop fuel ks key lwr upr cmp in
    lwr <= pos <= upr + 1 /\
    (found = true -> pos <= upr /\ arr_get 0 ks pos = key).
Proof.
  induction fuel as [|fuel IH]; intros lwr upr cmp Hle; cbn [bsearch_loop].
  - split; [lia|discriminate].
  - destruct (Z.leb_spec lwr upr) as [Hlu|Hlu]; [|split; [lia|discriminate]].
    rewrite shiftr1_half.
    assert (Hm : lwr <= (lwr + upr) / 2 <= upr).
    { split; [apply Z.div_le_lower_bound|apply Z.div_le_upper_bound]; lia. }
    set (mid := (lwr + upr) / 2) in *.
    destruct (Z.ltb_spec (arr_get 0 ks mid) key) as [Hlt|Hge].
    + specialize (IH (mid + 1) upr (option_map incr64 cmp) ltac:(lia)).
      destruct (bsearch_loop fuel ks key (mid + 1) upr _) as [[pos found] c].
      destruct IH as [H1 H2]. split; [lia|exact H2].
    + destruct (Z.gtb_spec (arr_get 0 ks mid) key) as [Hgt|Hle'].
      * specialize (IH lwr (mid - 1) (option_map incr64 cmp) ltac:(lia)).
        destruct (bsearch_loop fuel ks key lwr (mid - 1) _) as [[pos found] c].
        destruct IH as [H1 H2]. split; [lia|]. intros Hf. specialize (H2 Hf). split; [lia|tauto].
      * split; [lia|]. intros _. split; [lia|lia].
Qed.

Lemma node_binary_search_range (node : btree_node_t) (key : btree_key_t) (cmp : option Z) :
  0 <= num_keys node < 2 ^ 31 ->
  let '(pos, found, _) := node_binary_search node key cmp in
  0 <= pos <= num_keys node /\
  (found = true -> pos < num_keys node /\ key_at node pos = key).
Proof.
  intros Hn. unfold node_binary_search. rewrite to_int_small by lia.
  pose proof (bsearch_loop_range (keys node) key (Z.to_nat (num_keys node - 1 + 1))
                0 (num_keys node - 1) cmp ltac:(lia)) as H.
  destruct (bsearch_loop _ _ _ _ _ _) as [[pos found] c].
  destruct H as [H1 H2]. split; [lia|]. intros Hf. specialize (H2 Hf).
  unfold key_at. split; [lia|tauto].
Qed.

(** C5.  On a node whose first [num_keys] keys are strictly increasing,
    [node_binary_search] returns [found = true] and the index of the key
    when the key is among them; otherwise it returns [found = false] and
    the index of the first key greater than the query ([num_keys] when the
    query exceeds all keys), an index of [0 .. num_keys].  The bound on
    [num_keys] is the one under which [lwr + upr] fits an [int]; a tree
    holds at most 1023 keys per node. *)
Theorem node_binary_search_correct (node : btree_node_t) (key : btree_key_t)
    (cmp : option Z) :
  0 <= num_keys node <= 2 ^ 30 ->
  num_keys node <= Z.of_nat (length (keys node)) ->
  keys_increasing node ->
  let '(pos, found, _) := node_binary_search node key cmp in
  (node_has_key node key ->
     found = true /\ 0 <= pos < num_keys node /\ key_at node pos = key) /\
  (~ node_has_key node key ->
     found = false /\ 0 <= pos <= num_keys node /\
     (forall i, 0 <= i < pos -> key_at node i < key) /\
     (forall i, pos <= i < num_keys node -> key < key_at node i)).
Proof.
  intros Hn _ Hs.
  pose proof (node_binary_search_post node key cmp Hn Hs) as H.
  destruct (node_binary_search node key cmp) as [[pos found] c].
  cbn in H. destruct H as (Hpos & Hlow & Hhit). split.
  - intros (i & Hi & Hk). destruct found.
    + repeat split; try lia. tauto.
    + exfalso. destruct (Z_lt_le_dec i pos) as [Hip|Hip].
      * specialize (Hlow i ltac:(lia)). unfold key_at in Hk. lia.
      * specialize (Hhit i ltac:(lia)). unfold key_at in Hk. lia.
  - intros Hno. destruct found.
    + exfalso. apply Hno. exists pos. unfold key_at. split; [lia|tauto].
    + repeat split; try lia; [exact Hlow|exact Hhit].
Qed.


Lemma sample_leaf_increasing : keys_increasing sample_leaf.
Proof.
  intros i Hi. cbn in Hi.
  assert (Hc : i = 1 \/ i = 2) by lia.
  destruct Hc as [-> | ->]; vm_compute; reflexivity.
Defined.

Lemma node_binary_search_correct_witness :
  (node_has_key sample_leaf 20 ->
     true = true /\ 0 <= 1 < 3 /\ key_at sample_leaf 1 = 20) /\
  (~ node_has_key sample_leaf 20 ->
     true = false /\ 0 <= 1 <= 3 /\
     (forall i, 0 <= i < 1 -> key_at sample_leaf i < 20) /\
     (forall i, 1 <= i < 3 -> 20 < key_at sample_leaf i)).
Proof.
  apply (node_binary_search_correct sample_leaf 20 None).
  - cbn. lia.
  - cbn. lia.
  - exact sample_leaf_increasing.
Defined.

(** ** The array loops *)

Lemma arr_get_set_eq {A : Type} (d : A) (a : list A) (i : Z) (x : A) :
  0 <= i < Z.of_nat (length a) -> arr_get d (arr_set a i x) i = x.
Proof.
  intros Hi. unfold arr_get, arr_set. destruct (Z.ltb_spec i 0); [lia|].
  rewrite list_lookup_insert_eq by lia. reflexivity.
Qed.

Lemma arr_get_set_ne {A : Type} (d : A) (a : list A) (i j : Z) (x : A) :
  i <> j -> arr_get d (arr_set a i x) j = arr_get d a j.
Proof.
  intros Hij. unfold arr_get, arr_set.
  destruct (Z.ltb_spec j 0); [reflexivity|].
  destruct (Z.ltb_spec i 0); [reflexivity|].
  rewrite list_lookup_insert_ne by lia. reflexivity.
Qed.

Lemma arr_get_set {A : Type} (d : A) (a : list A) (i j : Z) (x : A) :
  0 <= i < Z.of_nat (length a) ->
  arr_get d (arr_set a i x) j = if j =? i then x else arr_get d a j.
Proof.
  intros Hi. destruct (Z.eqb_spec j i) as [->|Hne].
  - now apply arr_get_set_eq.
  - apply arr_get_set_ne. congruence.
Qed.

Lemma shift_loop_length {A : Type} (d : A) (cnt : nat) :
  forall (a : list A) (i : Z), length (shift_loop d a i cnt) = length a.
Proof.
  induction cnt as [|cnt IH]; intros a i; cbn; [reflexivity|].
  rewrite IH. apply arr_set_length.
Qed.

Lemma copy_loop_length {A : Type} (d : A) (src : list A) (off : Z) (cnt : nat) :
  forall (dst : list A) (i : Z), length (copy_loop d src dst off i cnt) = length dst.
Proof.
  induction cnt as [|cnt IH]; intros dst i; cbn; [reflexivity|].
  rewrite IH. apply arr_set_length.
Qed.

(** [shift_loop] moves the cells [i - cnt + 1 .. i] one place up and
    leaves the others. *)
Lemma shift_loop_get {A : Type} (d : A) (cnt : nat) :
  forall (a : list A) (i j : Z),
    Z.of_nat cnt <= i + 1 -> i + 1 < Z.of_nat (length a) ->
    arr_get d (shift_loop d a i cnt) j =
    if (i - Z.of_nat cnt + 1 <? j) && (j <=? i + 1)
    then arr_get d a (j - 1) else arr_get d a j.
Proof.
  induction cnt as [|cnt IH]; intros a i j Hc Hi.
  - cbn [shift_loop].
    destruct (Z.ltb_spec (i - Z.of_nat 0 + 1) j), (Z.leb_spec j (i + 1));
      cbn; try reflexivity. lia.
  - cbn [shift_loop]. rewrite IH by (rewrite ?arr_set_length; lia).
    rewrite !arr_get_set by lia.
    destruct (Z.ltb_spec (i - 1 - Z.of_nat cnt + 1) j), (Z.leb_spec j (i - 1 + 1)),
      (Z.ltb_spec (i - Z.of_nat (S cnt) + 1) j), (Z.leb_spec j (i + 1)),
      (Z.eqb_spec (j - 1) (i + 1)), (Z.eqb_spec j (i + 1));
      cbn; try reflexivity; try lia.
    subst j. f_equal. lia.
Qed.

(** [copy_loop] fills the cells [i .. i + cnt - 1] from [src] and leaves
    the others. *)
Lemma copy_loop_get {A : Type} (d : A) (src : list A) (off : Z) (cnt : nat) :
  forall (dst : list A) (i j : Z),
    0 <= i -> i + Z.of_nat cnt <= Z.of_nat (length dst) ->
    arr_get d (copy_loop d src dst off i cnt) j =
    if (i <=? j) && (j <? i + Z.of_nat cnt)
    then arr_get d src (off + j) else arr_get d dst j.
Proof.
  induction cnt as [|cnt IH]; intros dst i j H0 Hi.
  - cbn [copy_loop].
    destruct (Z.leb_spec i j), (Z.ltb_spec j (i + Z.of_nat 0)); cbn; try reflexivity. lia.
  - cbn [copy_loop]. rewrite IH by (rewrite ?arr_set_length; lia).
    rewrite arr_get_set by lia.
    destruct (Z.leb_spec (i + 1) j), (Z.ltb_spec j (i + 1 + Z.of_nat cnt)),
      (Z.leb_spec i j), (Z.ltb_spec j (i + Z.of_nat (S cnt))), (Z.eqb_spec j i);
      cbn; try reflexivity; try lia.
    subst j. reflexivity.
Qed.

Lemma arr_get_replicate {A : Type} (d x : A) (n : nat) (i : Z) :
  0 <= i < Z.of_nat n -> arr_get d (replicate n x) i = x.
Proof.
  intros Hi. unfold arr_get. destruct (Z.ltb_spec i 0); [lia|].
  rewrite lookup_replicate_2 by lia. reflexivity.
Qed.

(** ** Sums over index ranges *)

Lemma zsum_ext (f g : Z -> Z) (cnt : nat) :
  forall lo, (forall i, lo <= i < lo + Z.of_nat cnt -> f i = g i) ->
             zsum f lo cnt = zsum g lo cnt.
Proof.
  induction cnt as [|cnt IH]; intros lo H; cbn [zsum]; [reflexivity|].
  rewrite (H lo) by lia. rewrite (IH (lo + 1)); [reflexivity|].
  intros i Hi. apply H. lia.
Qed.

Lemma zsum_app (f : Z -> Z) (c1 c2 : nat) :
  forall lo, zsum f lo (c1 + c2) = zsum f lo c1 + zsum f (lo + Z.of_nat c1) c2.
Proof.
  induction c1 as [|c1 IH]; intros lo.
  - cbn [Nat.add zsum]. replace (lo + Z.of_nat 0) with lo by lia. lia.
  - cbn [Nat.add zsum]. rewrite IH.
    replace (lo + 1 + Z.of_nat c1) with (lo + Z.of_nat (S c1)) by lia. lia.
Qed.

Lemma zsum_shift (f : Z -> Z) (d : Z) (cnt : nat) :
  forall lo, zsum (fun i => f (i + d)) lo cnt = zsum f (lo + d) cnt.
Proof.
  induction cnt as [|cnt IH]; intros lo; cbn [zsum]; [reflexivity|].
  rewrite IH. do 2 f_equal. lia.
Qed.

Lemma zsum_ge (f : Z -> Z) (c : Z) (cnt : nat) :
  forall lo, (forall i, lo <= i < lo + Z.of_nat cnt -> c <= f i) ->
             Z.of_nat cnt * c <= zsum f lo cnt.
Proof.
  induction cnt as [|cnt IH]; intros lo H; cbn [zsum]; [lia|].
  specialize (IH (lo + 1) ltac:(intros i Hi; apply H; lia)).
  specialize (H lo ltac:(lia)). lia.
Qed.

(** Cutting a sum of [n] terms at index [p]. *)
Lemma zsum_split (f : Z -> Z) (lo p : Z) (n : nat) :
  0 <= p <= Z.of_nat n ->
  zsum f lo n = zsum f lo (Z.to_nat p) + zsum f (lo + p) (n - Z.to_nat p).
Proof.
  intros Hp. replace n with (Z.to_nat p + (n - Z.to_nat p))%nat at 1 by lia.
  rewrite zsum_app. do 2 f_equal. lia.
Qed.

(** ** Basic facts on [bt] *)

Lemma bt_lower (m : Z) (h : nat) (lo lo' : Z) (n : btree_node_t) :
  bt m h lo n -> lo' <= num_keys n -> bt m h lo' n.
Proof.
  destruct h as [|h]; cbn [bt]; [tauto|].
  intros (Hn & Hk & Hrest) Hlo. repeat split; try lia; try tauto.
Qed.

Lemma bt_num_keys (m : Z) (h : nat) (lo : Z) (n : btree_node_t) :
  bt m h lo n -> 0 <= num_keys n /\ lo <= num_keys n <= m - 1.
Proof. destruct h; cbn [bt]; [tauto|lia]. Qed.

Lemma bt_height_pos (m : Z) (h : nat) (lo : Z) (n : btree_node_t) :
  bt m h lo n -> (1 <= h)%nat.
Proof. destruct h; cbn [bt]; [tauto|lia]. Qed.

Lemma bt_leaf_height (m : Z) (h : nat) (lo : Z) (n : btree_node_t) :
  bt m h lo n -> (is_leaf n = true <-> h = 1%nat).
Proof.
  destruct h as [|h]; cbn [bt]; [tauto|].
  intros (_ & _ & H). destruct (is_leaf n).
  - destruct H as [-> _]. tauto.
  - destruct H as [Hh _]. split; [discriminate|]. intros [=]. contradiction.
Qed.

Lemma bt_child (m : Z) (h : nat) (lo : Z) (n : btree_node_t) (i : Z) :
  bt m (S h) lo n -> is_leaf n = false -> 0 <= i <= num_keys n ->
  exists c, arr_get None (children n) i = Some c /\ bt m h (min_fill m) c.
Proof.
  cbn [bt]. intros (_ & _ & H) Hl Hi. rewrite Hl in H.
  destruct H as (_ & _ & H). now apply H.
Qed.

(** ** [split_child] *)

Lemma split_child_eq (t : btree_t) (parent : btree_node_t) (idx : Z) (child : btree_node_t) :
  split_child t parent idx child =
  (BTREE_OK, set_stats t (upd_splits incr64 (upd_node_count incr64 (stats t))),
   split_parent (order t) parent idx child).
Proof.
  unfold split_child, split_parent, split_left, split_right, split_mid, node_create.
  destruct (is_leaf child); reflexivity.
Qed.

Section Split.
Variable m : Z.
Hypothesis order_range : BTREE_MIN_ORDER <= m <= BTREE_MAX_ORDER.

Lemma split_mid_eq : split_mid m = (m - 1) / 2.
Proof.
  unfold split_mid, BTREE_MIN_ORDER, BTREE_MAX_ORDER in *. rewrite u32_small; [reflexivity|lia].
Qed.

Lemma split_mid_range : 1 <= split_mid m /\ min_fill m <= split_mid m <= m - 2 /\ 0 <= min_fill m.
Proof.
  rewrite split_mid_eq. unfold min_fill, BTREE_MIN_ORDER, BTREE_MAX_ORDER in *.
  pose proof (Z.div_mod (m - 1) 2 ltac:(lia)).
  pose proof (Z.mod_pos_bound (m - 1) 2 ltac:(lia)). lia.
Qed.

Lemma split_mid_min_fill : split_mid m + min_fill m = m - 2.
Proof. rewrite split_mid_eq. unfold min_fill. lia. Qed.

Lemma split_left_bt (h : nat) (lo : Z) (child : btree_node_t) :
  bt m h lo child -> num_keys child = m - 1 ->
  bt m h (min_fill m) (split_left m child).
Proof.
  pose proof split_mid_range as Hmid.
  destruct h as [|h]; cbn [bt]; [tauto|].
  intros (Hn & Hk & Hrest) Hfull. unfold split_left, set_num_keys. cbn.
  repeat split; try lia.
  destruct (is_leaf child); [exact Hrest|].
  destruct Hrest as (Hh & Hc & Hch). repeat split; try assumption.
  intros i Hi. apply Hch. lia.
Qed.

Lemma split_right_num_keys (child : btree_node_t) :
  num_keys child = m - 1 -> num_keys (split_right m child) = min_fill m.
Proof.
  pose proof split_mid_range as Hmid. intros Hfull.
  unfold split_right. cbn. rewrite Hfull.
  unfold BTREE_MIN_ORDER, BTREE_MAX_ORDER in *.
  pose proof split_mid_min_fill. rewrite u32_small; lia.
Qed.

Lemma split_right_child (child : btree_node_t) (i : Z) :
  num_keys child = m - 1 -> is_leaf child = false ->
  0 <= i <= min_fill m ->
  arr_get None (children (split_right m child)) i =
  arr_get None (children child) (split_mid m + 1 + i).
Proof.
  pose proof split_mid_range as Hmid. intros Hfull Hl Hi.
  pose proof (split_right_num_keys child Hfull) as Hnum.
  unfold split_right in *. cbn in *. rewrite Hl. rewrite Hnum.
  unfold BTREE_MIN_ORDER, BTREE_MAX_ORDER in *.
  rewrite copy_loop_get.
  - destruct (Z.leb_spec 0 i), (Z.ltb_spec i (0 + Z.of_nat (Z.to_nat (min_fill m + 1))));
      cbn; try lia. reflexivity.
  - lia.
  - rewrite length_replicate. pose proof split_mid_min_fill. lia.
Qed.

Lemma split_right_bt (h : nat) (lo : Z) (child : btree_node_t) :
  bt m h lo child -> num_keys child = m - 1 ->
  bt m h (min_fill m) (split_right m child).
Proof.
  pose proof split_mid_range as Hmid. intros Hbt Hfull.
  pose proof (split_right_num_keys child Hfull) as Hnum.
  pose proof (split_right_child child) as Hchild.
  destruct h as [|h]; cbn [bt] in *; [tauto|].
  destruct Hbt as (Hn & Hk & Hrest). rewrite Hnum.
  unfold BTREE_MIN_ORDER, BTREE_MAX_ORDER in *.
  split; [lia|].
  split; [unfold split_right; cbn; rewrite copy_loop_length, length_replicate; lia|].
  replace (is_leaf (split_right m child)) with (is_leaf child) by reflexivity.
  destruct (is_leaf child) eqn:Hl.
  - destruct Hrest as [Hh Hv]. split; [exact Hh|].
    unfold split_right; cbn. rewrite Hl, copy_loop_length, length_replicate. lia.
  - destruct Hrest as (Hh & Hc & Hch). split; [exact Hh|]. split.
    + unfold split_right; cbn. rewrite Hl, copy_loop_length, length_replicate. lia.
    + intros i Hi. rewrite Hchild by (auto; lia). apply Hch.
      pose proof split_mid_min_fill. lia.
Qed.
End Split.

Lemma nkeys_unfold (h : nat) (n : btree_node_t) :
  nkeys (S h) n =
  num_keys n +
  if is_leaf n then 0
  else zsum (fun i => nkeys_ptr h (arr_get None (children n) i)) 0
         (Z.to_nat (num_keys n + 1)).
Proof. reflexivity. Qed.

Section SplitParent.
Variable m : Z.
Hypothesis order_range : BTREE_MIN_ORDER <= m <= BTREE_MAX_ORDER.

Lemma split_nkeys (h : nat) (lo : Z) (child : btree_node_t) :
  bt m h lo child -> num_keys child = m - 1 ->
  nkeys h (split_left m child) + nkeys h (split_right m child) + 1 = nkeys h child.
Proof.
  pose proof (split_mid_range m order_range) as Hmid.
  pose proof (split_mid_min_fill m order_range) as Hsum.
  intros Hbt Hfull.
  pose proof (split_right_num_keys m order_range child Hfull) as Hnum.
  destruct h as [|h]; [destruct Hbt|].
  rewrite !nkeys_unfold, Hnum.
  replace (is_leaf (split_left m child)) with (is_leaf child) by reflexivity.
  replace (is_leaf (split_right m child)) with (is_leaf child) by reflexivity.
  replace (num_keys (split_left m child)) with (split_mid m) by reflexivity.
  replace (children (split_left m child)) with (children child) by reflexivity.
  destruct (is_leaf child) eqn:Hl; [lia|].
  rewrite Hfull.
  rewrite (zsum_split _ 0 (split_mid m + 1) (Z.to_nat (m - 1 + 1))) by lia.
  rewrite (zsum_ext (fun i => nkeys_ptr h (arr_get None (children (split_right m child)) i))
             (fun i => nkeys_ptr h (arr_get None (children child) (i + (split_mid m + 1))))).
  - rewrite (zsum_shift (fun i => nkeys_ptr h (arr_get None (children child) i))).
    replace (Z.to_nat (m - 1 + 1) - Z.to_nat (split_mid m + 1))%nat
      with (Z.to_nat (min_fill m + 1)) by lia.
    lia.
  - intros i Hi. rewrite (split_right_child m order_range) by (auto; lia).
    do 2 f_equal. lia.
Qed.

Variables (h : nat) (lo : Z) (parent : btree_node_t) (idx : Z) (child : btree_node_t).
Hypothesis parent_bt : bt m (S h) lo parent.
Hypothesis parent_internal : is_leaf parent = false.
Hypothesis parent_room : num_keys parent < m - 1.
Hypothesis idx_range : 0 <= idx <= num_keys parent.
Hypothesis child_at : arr_get None (children parent) idx = Some child.
Hypothesis child_full : num_keys child = m - 1.

Lemma split_parent_num_keys :
  num_keys (split_parent m parent idx child) = num_keys parent + 1.
Proof.
  pose proof (bt_num_keys _ _ _ _ parent_bt).
  unfold split_parent, BTREE_MIN_ORDER, BTREE_MAX_ORDER in *. cbn.
  apply u32_small. lia.
Qed.

Lemma split_parent_children (j : Z) :
  arr_get None (children (split_parent m parent idx child)) j =
  if j =? idx then Some (split_left m child)
  else if j =? idx + 1 then Some (split_right m child)
  else if (idx + 1 <? j) && (j <=? num_keys parent + 1)
       then arr_get None (children parent) (j - 1)
       else arr_get None (children parent) j.
Proof.
  pose proof (bt_num_keys _ _ _ _ parent_bt) as Hn.
  pose proof parent_bt as (_ & _ & Hrest). rewrite parent_internal in Hrest.
  destruct Hrest as (_ & Hlen & _).
  unfold split_parent, BTREE_MIN_ORDER, BTREE_MAX_ORDER in *. cbn [children].
  rewrite to_int_small by lia.
  rewrite !arr_get_set by (rewrite ?arr_set_length, shift_loop_length; lia).
  destruct (Z.eqb_spec j (idx + 1)) as [->|H1].
  - destruct (Z.eqb_spec (idx + 1) idx); [lia|reflexivity].
  - destruct (Z.eqb_spec j idx) as [->|H2]; [reflexivity|].
    rewrite shift_loop_get by lia.
    replace (num_keys parent - Z.of_nat (Z.to_nat (num_keys parent - idx)) + 1)
      with (idx + 1) by lia.
    reflexivity.
Qed.

Lemma split_parent_bt : bt m (S h) lo (split_parent m parent idx child).
Proof.
  pose proof (bt_num_keys _ _ _ _ parent_bt) as Hn.
  pose proof split_parent_num_keys as Hnum.
  pose proof split_parent_children as Hch.
  pose proof parent_bt as (_ & Hk & Hrest). rewrite parent_internal in Hrest.
  destruct Hrest as (Hh & Hlen & Hkids).
  destruct (Hkids idx idx_range) as (c & Hc & Hcbt).
  rewrite child_at in Hc. injection Hc as <-.
  cbn [bt]. rewrite Hnum.
  replace (is_leaf (split_parent m parent idx child)) with (is_leaf parent) by reflexivity.
  rewrite parent_internal.
  split; [lia|]. split.
  { unfold split_parent. cbn [keys]. rewrite arr_set_length, shift_loop_length. exact Hk. }
  split; [exact Hh|]. split.
  { unfold split_parent. cbn [children].
    rewrite !arr_set_length, shift_loop_length. exact Hlen. }
  intros j Hj. rewrite Hch.
  destruct (Z.eqb_spec j idx) as [->|H2].
  { eexists. split; [reflexivity|]. now apply (split_left_bt m order_range h (min_fill m)). }
  destruct (Z.eqb_spec j (idx + 1)) as [->|H1].
  { eexists. split; [reflexivity|]. now apply (split_right_bt m order_range h (min_fill m)). }
  destruct (Z.ltb_spec (idx + 1) j), (Z.leb_spec j (num_keys parent + 1));
    cbn [andb]; apply Hkids; lia.
Qed.

Lemma split_parent_nkeys :
  nkeys (S h) (split_parent m parent idx child) = nkeys (S h) parent.
Proof.
  pose proof (bt_num_keys _ _ _ _ parent_bt) as Hn.
  pose proof split_parent_num_keys as Hnum.
  pose proof split_parent_children as Hch.
  pose proof parent_bt as (_ & Hk & Hrest). rewrite parent_internal in Hrest.
  destruct Hrest as (Hh & Hlen & Hkids).
  destruct (Hkids idx idx_range) as (c & Hc & Hcbt).
  rewrite child_at in Hc. injection Hc as <-.
  pose proof (split_nkeys h (min_fill m) child Hcbt child_full) as Hsplit.
  rewrite !nkeys_unfold, Hnum.
  replace (is_leaf (split_parent m parent idx child)) with (is_leaf parent) by reflexivity.
  rewrite parent_internal.
  set (F := fun i => nkeys_ptr h (arr_get None (children parent) i)).
  set (F' := fun i => nkeys_ptr h (arr_get None (children (split_parent m parent idx child)) i)).
  enough (zsum F' 0 (Z.to_nat (num_keys parent + 1 + 1)) + 1 =
          zsum F 0 (Z.to_nat (num_keys parent + 1))) by lia.
  rewrite (zsum_split F' 0 idx) by lia.
  rewrite (zsum_split F 0 idx (Z.to_nat (num_keys parent + 1))) by lia.
  rewrite (zsum_ext F' F (Z.to_nat idx)).
  2:{ intros i Hi. unfold F', F. rewrite Hch.
      destruct (Z.eqb_spec i idx); [lia|]. destruct (Z.eqb_spec i (idx + 1)); [lia|].
      destruct (Z.ltb_spec (idx + 1) i); [lia|]. reflexivity. }
  replace (Z.to_nat (num_keys parent + 1 + 1) - Z.to_nat idx)%nat
    with (S (S (Z.to_nat (num_keys parent - idx)))) by lia.
  replace (Z.to_nat (num_keys parent + 1) - Z.to_nat idx)%nat
    with (S (Z.to_nat (num_keys parent - idx))) by lia.
  cbn [zsum].
  rewrite (zsum_ext F' (fun i => F (i + -1)) (Z.to_nat (num_keys parent - idx))).
  2:{ intros i Hi. unfold F', F. rewrite Hch.
      destruct (Z.eqb_spec i idx); [lia|]. destruct (Z.eqb_spec i (idx + 1)); [lia|].
      destruct (Z.ltb_spec (idx + 1) i); [|lia].
      destruct (Z.leb_spec i (num_keys parent + 1)); [|lia].
      cbn [andb]. do 2 f_equal. }
  rewrite (zsum_shift F (-1)).
  replace (0 + idx + 1 + 1 + -1) with (0 + idx + 1) by lia.
  assert (HF : F (0 + idx) = nkeys h child).
  { unfold F. replace (0 + idx) with idx by lia. now rewrite child_at. }
  assert (HF1 : F' (0 + idx) = nkeys h (split_left m child)).
  { unfold F'. rewrite Hch. replace (0 + idx) with idx by lia.
    now rewrite Z.eqb_refl. }
  assert (HF2 : F' (0 + idx + 1) = nkeys h (split_right m child)).
  { unfold F'. rewrite Hch. replace (0 + idx + 1) with (idx + 1) by lia.
    destruct (Z.eqb_spec (idx + 1) idx); [lia|]. now rewrite Z.eqb_refl. }
  lia.
Qed.
End SplitParent.

(** ** The tree header along a walk *)

Lemma stats_step_refl (t : btree_t) : stats_step t t.
Proof. unfold stats_step. tauto. Qed.

Lemma stats_step_trans (t1 t2 t3 : btree_t) :
  stats_step t1 t2 -> stats_step t2 t3 -> stats_step t1 t3.
Proof.
  unfold stats_step.
  intros (H1 & H2 & H3 & H4 & H5 & H6 & H7) (G1 & G2 & G3 & G4 & G5 & G6 & G7).
  repeat (split; [congruence|]).
  intros Hc. destruct (H7 Hc) as [<- <-]. apply G7. congruence.
Qed.

Lemma visit_step (t : btree_t) : stats_step t (visit t).
Proof.
  unfold visit, stats_step. destruct (collect_stats t) eqn:Hc; cbn; rewrite ?Hc;
    repeat split; try reflexivity; discriminate.
Qed.

Lemma bsearch_loop_no_counter (ks : list btree_key_t) (key : btree_key_t) (fuel : nat) :
  forall lwr upr, snd (bsearch_loop fuel ks key lwr upr None) = None.
Proof.
  induction fuel as [|fuel IH]; intros lwr upr; cbn [bsearch_loop]; [reflexivity|].
  destruct (lwr <=? upr); [|reflexivity].
  destruct (arr_get 0 ks _ <? key); [apply IH|].
  destruct (arr_get 0 ks _ >? key); [apply IH|reflexivity].
Qed.

Lemma tree_binary_search_step (t : btree_t) (n : btree_node_t) (key : btree_key_t) :
  stats_step t (snd (tree_binary_search t n key)).
Proof.
  unfold tree_binary_search.
  destruct (collect_stats t) eqn:Hc.
  - destruct (node_binary_search n key _) as [[pos found] [c|]]; cbn;
      unfold stats_step; cbn; rewrite ?Hc; repeat split; try reflexivity; discriminate.
  - pose proof (bsearch_loop_no_counter (keys n) key
                  (Z.to_nat (to_int (num_keys n) - 1 + 1)) 0 (to_int (num_keys n) - 1)) as H.
    unfold node_binary_search.
    destruct (bsearch_loop _ _ _ _ _ _) as [[pos found] c]. cbn in H. subst c. cbn.
    apply stats_step_refl.
Qed.

Lemma tree_binary_search_range (t : btree_t) (n : btree_node_t) (key : btree_key_t) :
  0 <= num_keys n < 2 ^ 31 ->
  let '(pos, found, _) := tree_binary_search t n key in
  0 <= pos <= num_keys n /\
  (found = true -> pos < num_keys n /\ key_at n pos = key).
Proof.
  intros Hn. unfold tree_binary_search.
  pose proof (node_binary_search_range n key
                (if collect_stats t then Some (comparisons (stats t)) else None) Hn) as H.
  destruct (node_binary_search n key _) as [[pos found] c]. exact H.
Qed.

Lemma split_child_step (t : btree_t) (parent : btree_node_t) (idx : Z) (child : btree_node_t) :
  stats_step t (snd (fst (split_child t parent idx child))).
Proof.
  rewrite split_child_eq. cbn. unfold stats_step. cbn. tauto.
Qed.

Lemma key_count_step (t : btree_t) (f : Z -> Z) :
  stats_step t (set_stats t (upd_key_count f (stats t))).
Proof. unfold stats_step. cbn. tauto. Qed.

(** Whatever [insert_nonfull] returns, the header it hands back differs
    from the one it received only in counters that [stats_step] leaves
    free. *)
Lemma insert_nonfull_step (fuel : nat) :
  forall t n key value status t' n',
    insert_nonfull fuel t n key value = Some (status, t', n') ->
    stats_step t t'.
Proof.
  induction fuel as [|fuel IH]; intros t n key value status t' n'; cbn [insert_nonfull];
    [discriminate|].
  pose proof (visit_step t) as Hv.
  pose proof (tree_binary_search_step (visit t) n key) as Hb.
  destruct (tree_binary_search (visit t) n key) as [[pos found] t1]. cbn in Hb.
  pose proof (stats_step_trans _ _ _ Hv Hb) as H1.
  destruct (is_leaf n).
  - destruct found; intros [= <- <- <-]; [exact H1|].
    eapply stats_step_trans; [exact H1|apply key_count_step].
  - destruct (arr_get None (children n) _) as [child|]; [|discriminate].
    destruct (num_keys child =? u32 (order t1 - 1)).
    + pose proof (split_child_step t1 n (if found then pos + 1 else pos) child) as Hs.
      rewrite split_child_eq in *. cbn in Hs. cbn [negb status_eqb].
      cbv iota beta.
      destruct (arr_get None _ _) as [child2|]; [|discriminate].
      destruct (insert_nonfull fuel _ child2 key value) as [[[s t2] c2]|] eqn:Hrec;
        [|discriminate].
      intros [= <- <- <-]. apply IH in Hrec.
      eapply stats_step_trans; [exact H1|]. eapply stats_step_trans; [exact Hs|exact Hrec].
    + cbn [negb status_eqb]. cbv iota beta.
      destruct (arr_get None _ _) as [child2|]; [|discriminate].
      destruct (insert_nonfull fuel _ child2 key value) as [[[s t2] c2]|] eqn:Hrec;
        [|discriminate].
      intros [= <- <- <-]. apply IH in Hrec.
      eapply stats_step_trans; [exact H1|exact Hrec].
Qed.

(** ** [insert_nonfull] keeps the shape *)

Lemma zsum_update (F F' : Z -> Z) (p : Z) (cnt : nat) :
  forall lo, lo <= p < lo + Z.of_nat cnt ->
             (forall i, i <> p -> F' i = F i) ->
             zsum F' lo cnt = zsum F lo cnt - F p + F' p.
Proof.
  induction cnt as [|cnt IH]; intros lo Hp Hext; [lia|].
  cbn [zsum]. destruct (Z.eq_dec lo p) as [->|Hne].
  - rewrite (zsum_ext F' F cnt (p + 1)); [lia|]. intros i Hi. apply Hext. lia.
  - rewrite IH by (auto; lia). rewrite (Hext lo Hne). lia.
Qed.

Lemma bt_set_child (m : Z) (h : nat) (lo : Z) (n : btree_node_t) (p : Z) (c' : btree_node_t) :
  bt m (S h) lo n -> is_leaf n = false -> 0 <= p <= num_keys n ->
  bt m h (min_fill m) c' ->
  bt m (S h) lo (set_children n (arr_set (children n) p (Some c'))).
Proof.
  intros Hbt Hl Hp Hc'. pose proof Hbt as (Hn & Hk & Hrest).
  rewrite Hl in Hrest. destruct Hrest as (Hh & Hlen & Hkids).
  cbn [bt]. unfold set_children. cbn [num_keys keys is_leaf children]. rewrite Hl.
  repeat split; try lia; try assumption.
  - now rewrite arr_set_length.
  - intros i Hi. rewrite arr_get_set by lia.
    destruct (Z.eqb_spec i p); [eauto|now apply Hkids].
Qed.

Lemma nkeys_set_child (m : Z) (h : nat) (lo : Z) (n : btree_node_t) (p : Z)
    (c c' : btree_node_t) :
  bt m (S h) lo n -> is_leaf n = false -> 0 <= p <= num_keys n ->
  arr_get None (children n) p = Some c ->
  nkeys (S h) (set_children n (arr_set (children n) p (Some c'))) =
  nkeys (S h) n - nkeys h c + nkeys h c'.
Proof.
  intros Hbt Hl Hp Hc. pose proof Hbt as (Hn & Hk & Hrest).
  rewrite Hl in Hrest. destruct Hrest as (Hh & Hlen & Hkids).
  rewrite !nkeys_unfold. unfold set_children. cbn [num_keys keys is_leaf children].
  rewrite Hl.
  rewrite (zsum_update (fun i => nkeys_ptr h (arr_get None (children n) i)) _ p).
  - rewrite arr_get_set_eq by lia. rewrite Hc. cbn [nkeys_ptr]. lia.
  - lia.
  - intros i Hi. now rewrite arr_get_set_ne by congruence.
Qed.

Lemma leaf_insert_bt (m : Z) (lo : Z) (n : btree_node_t) (ks : list btree_key_t)
    (vs : list btree_value_t) :
  BTREE_MIN_ORDER <= m <= BTREE_MAX_ORDER ->
  bt m 1 lo n -> num_keys n < m - 1 ->
  length ks = length (keys n) -> length vs = length (values n) ->
  let n' := mk_node ks vs (children n) (u32 (num_keys n + 1)) (is_leaf n) in
  bt m 1 lo n' /\ num_keys n' = num_keys n + 1 /\ nkeys 1 n' = nkeys 1 n + 1.
Proof.
  unfold BTREE_MIN_ORDER, BTREE_MAX_ORDER.
  intros Hm Hbt Hroom Hks Hvs. pose proof Hbt as (Hn & Hk & Hrest).
  assert (Hu : u32 (num_keys n + 1) = num_keys n + 1) by (apply u32_small; lia).
  cbn zeta. cbn [bt nkeys num_keys keys values is_leaf children]. rewrite Hu.
  destruct (is_leaf n).
  - destruct Hrest as [_ Hv]. repeat split; try lia.
  - destruct Hrest as [Hh _]. contradiction.
Qed.

Lemma set_values_bt (m : Z) (h : nat) (lo : Z) (n : btree_node_t) (vs : list btree_value_t) :
  bt m h lo n -> length vs = length (values n) ->
  bt m h lo (set_values n vs) /\ nkeys h (set_values n vs) = nkeys h n.
Proof.
  destruct h as [|h]; [intros []|].
  intros (Hn & Hk & Hrest) Hvs. unfold set_values.
  cbn [bt nkeys num_keys keys values is_leaf children].
  repeat split; try lia. destruct (is_leaf n); [|exact Hrest].
  destruct Hrest as [Hh Hv]. split; [exact Hh|]. lia.
Qed.

Section InsertNonfull.
Variable m : Z.
Hypothesis order_range : BTREE_MIN_ORDER <= m <= BTREE_MAX_ORDER.

(** The last step of the internal case: insert below the child at [q]
    and store the result back. *)
Lemma descend_ok (fuel h : nat) (lo : Z) (t : btree_t) (n c : btree_node_t) (q : Z)
    (key : btree_key_t) (value : btree_value_t) :
  (forall lo' t' n', order t' = m -> bt m h lo' n' -> num_keys n' < m - 1 ->
                     insert_ok m fuel h lo' t' n' key value) ->
  order t = m -> bt m (S h) lo n -> is_leaf n = false -> 0 <= q <= num_keys n ->
  arr_get None (children n) q = Some c -> num_keys c < m - 1 ->
  exists t' n',
    match arr_get None (children n) q with
    | None => None
    | Some child =>
        match insert_nonfull fuel t child key value with
        | None => None
        | Some (status, t, child) =>
            Some (status, t, set_children n (arr_set (children n) q (Some child)))
        end
    end = Some (BTREE_OK, t', n') /\
    bt m (S h) lo n' /\ is_leaf n' = false /\ num_keys n' = num_keys n /\
    nkeys (S h) n' <= nkeys (S h) n + 1.
Proof.
  intros IH Ht Hbt Hl Hq Hc Hroom.
  destruct (bt_child m h lo n q Hbt Hl Hq) as (c0 & Hc0 & Hcbt).
  rewrite Hc in Hc0. injection Hc0 as <-.
  destruct (IH (min_fill m) t c Ht Hcbt Hroom) as (t' & c' & Hins & Hbt' & _ & _ & Hnk).
  rewrite Hc, Hins. eexists _, _. split; [reflexivity|].
  split; [now apply bt_set_child|]. split; [exact Hl|]. split; [reflexivity|].
  rewrite (nkeys_set_child m h lo n q c c') by assumption. lia.
Qed.

Lemma insert_nonfull_bt (fuel : nat) :
  forall h lo t n key value,
    order t = m -> bt m h lo n -> num_keys n < m - 1 -> (h <= fuel)%nat ->
    insert_ok m fuel h lo t n key value.
Proof.
  pose proof (split_mid_range m order_range) as Hmid.
  induction fuel as [|fuel IH]; intros h lo t n key value Ht Hbt Hroom Hfuel.
  { pose proof (bt_height_pos _ _ _ _ Hbt). lia. }
  destruct h as [|h]; [destruct Hbt|].
  pose proof (bt_num_keys _ _ _ _ Hbt) as Hn.
  unfold insert_ok. cbn [insert_nonfull].
  pose proof (stats_step_trans _ _ _ (visit_step t)
                (tree_binary_search_step (visit t) n key)) as Hstep.
  pose proof (tree_binary_search_range (visit t) n key) as Hrange.
  destruct (tree_binary_search (visit t) n key) as [[pos found] t1].
  cbn in Hstep. destruct Hstep as (Ht1 & _). rewrite Ht in Ht1.
  unfold BTREE_MIN_ORDER, BTREE_MAX_ORDER in *.
  destruct Hrange as [Hpos Hfound]; [lia|].
  destruct (is_leaf n) eqn:Hl.
  - (* leaf *)
    assert (h = O) by (apply (bt_leaf_height _ _ _ _ Hbt) in Hl; lia). subst h.
    destruct found.
    + destruct (set_values_bt m 1 lo n (arr_set (values n) pos value) Hbt
                  (arr_set_length _ _ _)) as [Hbt' Hnk].
      eexists _, _. split; [reflexivity|].
      split; [exact Hbt'|]. split; [cbn; exact Hl|]. split; [cbn; lia|]. lia.
    + destruct (leaf_insert_bt m lo n
                  (arr_set (shift_loop 0 (keys n) (to_int (num_keys n) - 1)
                              (Z.to_nat (to_int (num_keys n) - pos))) pos key)
                  (arr_set (shift_loop 0 (values n) (to_int (num_keys n) - 1)
                              (Z.to_nat (to_int (num_keys n) - pos))) pos value))
        as (Hbt' & Hnum & Hnk); try assumption.
      { now rewrite arr_set_length, shift_loop_length. }
      { now rewrite arr_set_length, shift_loop_length. }
      rewrite Hl in Hbt', Hnum, Hnk.
      eexists _, _. split; [reflexivity|].
      split; [exact Hbt'|]. split; [reflexivity|]. split; [lia|]. lia.
  - (* internal *)
    set (p := if found then pos + 1 else pos).
    assert (Hp : 0 <= p <= num_keys n).
    { unfold p. destruct found; [specialize (Hfound eq_refl)|]; lia. }
    destruct (bt_child m h lo n p Hbt Hl Hp) as (child & Hchild & Hcbt).
    rewrite Hchild.
    pose proof (bt_num_keys _ _ _ _ Hcbt) as Hcn.
    assert (IH' : forall lo' t' n', order t' = m -> bt m h lo' n' -> num_keys n' < m - 1 ->
                                    insert_ok m fuel h lo' t' n' key value).
    { intros lo' t' n' H1 H2 H3. apply IH; auto. lia. }
    rewrite Ht1, (u32_small (m - 1)) by lia.
    destruct (Z.eqb_spec (num_keys child) (m - 1)) as [Hfull|Hnot].
    + rewrite split_child_eq. cbn [negb status_eqb]. cbv iota beta.
      rewrite Ht1.
      set (n1 := split_parent m n p child).
      pose proof (split_parent_bt m order_range h lo n p child Hbt Hl Hroom Hp Hchild Hfull)
        as Hbt1.
      pose proof (split_parent_num_keys m order_range h lo n p child Hbt Hroom) as Hnum1.
      pose proof (split_parent_children m order_range h lo n p child Hbt Hl Hroom Hp) as Hch1.
      pose proof (split_parent_nkeys m order_range h lo n p child Hbt Hl Hroom Hp Hchild Hfull)
        as Hnk1.
      pose proof (split_right_num_keys m order_range child Hfull) as Hrn.
      fold n1 in Hbt1, Hnum1, Hch1, Hnk1.
      set (t2 := set_stats t1 _).
      assert (Ht2 : order t2 = m) by exact Ht1.
      destruct (key >? arr_get 0 (keys n1) p).
      * destruct (descend_ok fuel h lo t2 n1 (split_right m child) (p + 1) key value)
          as (t' & n' & Hres & Hbt' & Hl' & Hnum' & Hnk'); try assumption; try lia.
        { rewrite Hch1. destruct (Z.eqb_spec (p + 1) p); [lia|]. now rewrite Z.eqb_refl. }
        exists t', n'. split; [exact Hres|]. split; [exact Hbt'|].
        split; [exact Hl'|]. split; lia.
      * destruct (descend_ok fuel h lo t2 n1 (split_left m child) p key value)
          as (t' & n' & Hres & Hbt' & Hl' & Hnum' & Hnk'); try assumption; try lia.
        { rewrite Hch1. now rewrite Z.eqb_refl. }
        { unfold split_left. cbn. lia. }
        exists t', n'. split; [exact Hres|]. split; [exact Hbt'|].
        split; [exact Hl'|]. split; lia.
    + cbn [negb status_eqb]. cbv iota beta.
      destruct (descend_ok fuel h lo t1 n child p key value)
        as (t' & n' & Hres & Hbt' & Hl' & Hnum' & Hnk'); try assumption; try lia.
      exists t', n'. split; [exact Hres|]. split; [exact Hbt'|].
      split; [exact Hl'|]. split; lia.
Qed.
End InsertNonfull.

(** ** The fuel of the public operations *)

Lemma node_depth_unfold (n : btree_node_t) :
  node_depth n = S (fold_right (fun c acc => Nat.max (ptr_depth c) acc) O (children n)).
Proof. destruct n. reflexivity. Qed.

Lemma ptr_depth_cell (cs : list (option btree_node_t)) :
  forall (i : nat) (p : option btree_node_t),
    cs !! i = Some p ->
    (ptr_depth p <= fold_right (fun c acc => Nat.max (ptr_depth c) acc) O cs)%nat.
Proof.
  induction cs as [|c cs IH]; intros [|i] p; cbn; try discriminate.
  - intros [= ->]. lia.
  - intros H. specialize (IH i p H). lia.
Qed.

Lemma ptr_depth_child (n : btree_node_t) (i : Z) :
  (S (ptr_depth (arr_get None (children n) i)) <= node_depth n)%nat.
Proof.
  rewrite node_depth_unfold. unfold arr_get.
  destruct (i <? 0); [cbn; lia|].
  destruct (children n !! Z.to_nat i) as [p|] eqn:Hp; [|cbn; lia].
  change (default None (Some p)) with p. pose proof (ptr_depth_cell _ _ _ Hp). lia.
Qed.

Lemma bt_depth (m : Z) (h : nat) :
  forall lo n, bt m h lo n -> (h <= node_depth n)%nat.
Proof.
  induction h as [|h IH]; intros lo n Hbt; [lia|].
  destruct h as [|h].
  - rewrite node_depth_unfold. lia.
  - assert (Hl : is_leaf n = false).
    { destruct (is_leaf n) eqn:Hl; [|reflexivity].
      apply (bt_leaf_height _ _ _ _ Hbt) in Hl. discriminate. }
    pose proof (bt_num_keys _ _ _ _ Hbt) as Hn.
    destruct (bt_child m (S h) lo n 0 Hbt Hl ltac:(lia)) as (c & Hc & Hcbt).
    apply IH in Hcbt. pose proof (ptr_depth_child n 0) as Hd.
    rewrite Hc in Hd. cbn [ptr_depth] in Hd. lia.
Qed.

(** ** [calculate_height] *)

Lemma calculate_height_bt (m : Z) (fuel : nat) :
  forall h lo n, bt m h lo n -> (h <= fuel)%nat ->
                 calculate_height fuel (Some n) = u32 (Z.of_nat h).
Proof.
  induction fuel as [|fuel IH]; intros h lo n Hbt Hf.
  { pose proof (bt_height_pos _ _ _ _ Hbt). lia. }
  destruct h as [|h]; [destruct Hbt|].
  cbn [calculate_height]. destruct (is_leaf n) eqn:Hl.
  - apply (bt_leaf_height _ _ _ _ Hbt) in Hl. injection Hl as ->. reflexivity.
  - pose proof (bt_num_keys _ _ _ _ Hbt) as Hn.
    destruct (bt_child m h lo n 0 Hbt Hl ltac:(lia)) as (c & Hc & Hcbt).
    rewrite Hc, (IH h _ c Hcbt) by lia.
    unfold u32. rewrite Zplus_mod_idemp_r. f_equal. lia.
Qed.

Lemma u32_le (x : Z) : 0 <= x -> u32 x <= x.
Proof. intros Hx. unfold u32. apply Z.mod_le; lia. Qed.

(** ** Keys and height *)

Section Fill.
Variable m : Z.
Hypothesis order_range : BTREE_MIN_ORDER <= m <= BTREE_MAX_ORDER.

Lemma min_fill_nonneg : 0 <= min_fill m.
Proof. apply (split_mid_range m order_range). Qed.

(** A subtree of height [h] whose nodes all hold [min_fill m] keys or
    more stores at least [(min_fill m + 1) ^ h - 1] keys. *)
Lemma nkeys_lower (h : nat) :
  forall n, bt m h (min_fill m) n -> (min_fill m + 1) ^ Z.of_nat h - 1 <= nkeys h n.
Proof.
  pose proof min_fill_nonneg as Hb.
  induction h as [|h IH]; intros n Hbt; [destruct Hbt|].
  pose proof (bt_num_keys _ _ _ _ Hbt) as Hn.
  rewrite nkeys_unfold. rewrite Nat2Z.inj_succ, Z.pow_succ_r by lia.
  destruct (is_leaf n) eqn:Hl.
  - apply (bt_leaf_height _ _ _ _ Hbt) in Hl. injection Hl as ->.
    change (Z.of_nat 0) with 0. rewrite Z.pow_0_r. lia.
  - pose proof (zsum_ge (fun i => nkeys_ptr h (arr_get None (children n) i))
                  ((min_fill m + 1) ^ Z.of_nat h - 1)
                  (Z.to_nat (num_keys n + 1)) 0) as Hsum.
    assert (Hpow : 1 <= (min_fill m + 1) ^ Z.of_nat h).
    { pose proof (Z.pow_pos_nonneg (min_fill m + 1) (Z.of_nat h)
                    ltac:(lia) ltac:(lia)). lia. }
    set (c := (min_fill m + 1) ^ Z.of_nat h) in *.
    assert (Hall : forall i, 0 <= i < 0 + Z.of_nat (Z.to_nat (num_keys n + 1)) ->
                             c - 1 <= nkeys_ptr h (arr_get None (children n) i)).
    { intros i Hi. destruct (bt_child m h _ n i Hbt Hl ltac:(lia)) as (ch & Hch & Hcbt).
      rewrite Hch. cbn [nkeys_ptr]. now apply IH. }
    specialize (Hsum Hall).
    assert ((min_fill m + 1) * (c - 1) <= Z.of_nat (Z.to_nat (num_keys n + 1)) * (c - 1)).
    { apply Z.mul_le_mono_nonneg_r; lia. }
    lia.
Qed.

(** The root of a tree of height [h >= 2] has a key and two such
    subtrees. *)
Lemma nkeys_root_lower (h : nat) (r : btree_node_t) :
  bt m (S (S h)) 0 r -> 1 <= num_keys r ->
  2 * (min_fill m + 1) ^ Z.of_nat (S h) - 1 <= nkeys (S (S h)) r.
Proof.
  pose proof min_fill_nonneg as Hb. intros Hbt Hone.
  assert (Hl : is_leaf r = false).
  { destruct (is_leaf r) eqn:Hl; [|reflexivity].
    apply (bt_leaf_height _ _ _ _ Hbt) in Hl. discriminate. }
  rewrite nkeys_unfold, Hl.
  pose proof (zsum_ge (fun i => nkeys_ptr (S h) (arr_get None (children r) i))
                ((min_fill m + 1) ^ Z.of_nat (S h) - 1)
                (Z.to_nat (num_keys r + 1)) 0) as Hsum.
  assert (Hpow : 1 <= (min_fill m + 1) ^ Z.of_nat (S h)).
  { pose proof (Z.pow_pos_nonneg (min_fill m + 1) (Z.of_nat (S h))
                  ltac:(lia) ltac:(lia)). lia. }
  set (c := (min_fill m + 1) ^ Z.of_nat (S h)) in *.
  assert (Hall : forall i, 0 <= i < 0 + Z.of_nat (Z.to_nat (num_keys r + 1)) ->
                           c - 1 <= nkeys_ptr (S h) (arr_get None (children r) i)).
  { intros i Hi. destruct (bt_child m (S h) _ r i Hbt Hl ltac:(lia)) as (ch & Hch & Hcbt).
    rewrite Hch. cbn [nkeys_ptr]. now apply nkeys_lower. }
  specialize (Hsum Hall).
  assert (2 * (c - 1) <= Z.of_nat (Z.to_nat (num_keys r + 1)) * (c - 1)).
  { apply Z.mul_le_mono_nonneg_r; lia. }
  lia.
Qed.
End Fill.

(** ** The invariant of the tree *)

Lemma order_range_of_create (m : Z) (t : btree_t) :
  btree_create m = Some t ->
  BTREE_MIN_ORDER <= m <= BTREE_MAX_ORDER /\
  t = mk_btree (Some (node_create m true)) m (u32 (m - 1) / 2)
        (mk_stats 1 0 1 0 0 0 0 0 0 0) true.
Proof.
  unfold btree_create.
  destruct (Z.ltb_spec m BTREE_MIN_ORDER), (Z.gtb_spec m BTREE_MAX_ORDER);
    cbn [orb]; try discriminate.
  intros [= <-]. split; [lia|reflexivity].
Qed.

Lemma node_create_leaf_bt (m : Z) :
  BTREE_MIN_ORDER <= m <= BTREE_MAX_ORDER -> bt m 1 0 (node_create m true).
Proof.
  unfold BTREE_MIN_ORDER, BTREE_MAX_ORDER. intros Hm.
  cbn [bt node_create num_keys keys values is_leaf].
  rewrite !length_replicate. lia.
Qed.

Lemma btree_create_inv (m : Z) (t : btree_t) :
  btree_create m = Some t -> tree_inv t 1 0.
Proof.
  intros H. apply order_range_of_create in H as [Hm ->].
  split; [exact Hm|]. eexists. split; [reflexivity|].
  split; [now apply node_create_leaf_bt|]. split; [discriminate|]. cbn. lia.
Qed.

(** The new root that [btree_insert] puts above a full root. *)
Lemma new_root_bt (m : Z) (h : nat) (r : btree_node_t) :
  BTREE_MIN_ORDER <= m <= BTREE_MAX_ORDER ->
  bt m h 0 r -> num_keys r = m - 1 ->
  let new_root := node_create m false in
  let new_root := set_children new_root (arr_set (children new_root) 0 (Some r)) in
  bt m (S h) 0 new_root /\ is_leaf new_root = false /\ num_keys new_root = 0 /\
  arr_get None (children new_root) 0 = Some r /\
  nkeys (S h) new_root = nkeys h r.
Proof.
  intros Hm Hbt Hfull. pose proof (split_mid_range m Hm) as Hmid.
  pose proof (bt_height_pos _ _ _ _ Hbt) as Hh.
  unfold BTREE_MIN_ORDER, BTREE_MAX_ORDER in *. cbn zeta.
  assert (Hget : arr_get None (arr_set (replicate (Z.to_nat m) None) 0 (Some r)) 0 = Some r).
  { apply arr_get_set_eq. rewrite length_replicate. lia. }
  unfold set_children, node_create.
  cbn [bt nkeys zsum num_keys keys values children is_leaf Z.to_nat Z.add Pos.to_nat
       Pos.iter_op Nat.add].
  rewrite Hget, arr_set_length, !length_replicate.
  repeat split; try lia.
  - intros i Hi. assert (i = 0) by lia. subst i. rewrite Hget.
    eexists. split; [reflexivity|]. apply (bt_lower m h 0); [exact Hbt|lia].
  - change (Z.to_nat (0 + 1)) with 1%nat. cbn [zsum]. rewrite Hget. lia.
Qed.

Lemma btree_insert_inv (t : btree_t) (h : nat) (N : Z) (key : btree_key_t)
    (value : btree_value_t) :
  tree_inv t h N ->
  exists t' h', btree_insert t key value = Some (BTREE_OK, t') /\ tree_inv t' h' (N + 1).
Proof.
  intros (Hm & r & Hroot & Hbt & Hone & HN).
  pose proof (split_mid_range _ Hm) as Hmid.
  pose proof (bt_num_keys _ _ _ _ Hbt) as Hn.
  unfold btree_insert. rewrite Hroot.
  set (t0 := if collect_stats t then _ else t).
  assert (Ht0 : order t0 = order t) by (unfold t0; destruct (collect_stats t); reflexivity).
  rewrite Ht0.
  set (m := order t) in *.
  assert (Hu : u32 (m - 1) = m - 1)
    by (unfold BTREE_MIN_ORDER, BTREE_MAX_ORDER in *; apply u32_small; lia).
  rewrite Hu.
  destruct (Z.eqb_spec (num_keys r) (m - 1)) as [Hfull|Hnot].
  - destruct (new_root_bt m h r Hm Hbt Hfull) as (Hbt0 & Hl0 & Hn0 & Hc0 & Hk0).
    set (nr := set_children _ _) in *.
    rewrite split_child_eq. cbn [negb status_eqb]. cbv iota beta.
    change (order (set_stats _ _)) with (order (set_root t0 (Some nr))).
    change (order (set_root t0 (Some nr))) with (order t0). rewrite Ht0. fold m.
    assert (Hroom : num_keys nr < m - 1)
      by (unfold BTREE_MIN_ORDER, BTREE_MAX_ORDER in *; lia).
    assert (Hidx : 0 <= 0 <= num_keys nr) by lia.
    pose proof (split_parent_bt m Hm h 0 nr 0 r Hbt0 Hl0 Hroom Hidx Hc0 Hfull) as Hbt1.
    pose proof (split_parent_num_keys m Hm h 0 nr 0 r Hbt0 Hroom) as Hnum1.
    pose proof (split_parent_nkeys m Hm h 0 nr 0 r Hbt0 Hl0 Hroom Hidx Hc0 Hfull) as Hnk1.
    set (n1 := split_parent m nr 0 r) in *.
    set (t1 := set_stats _ _).
    assert (Ht1 : order t1 = m) by exact Ht0.
    destruct (insert_nonfull_bt m Hm (S (S (node_depth n1))) (S h) 0 t1 n1 key value Ht1 Hbt1)
      as (t' & n' & Hres & Hbt' & Hl' & Hnum' & Hnk').
    { unfold BTREE_MIN_ORDER, BTREE_MAX_ORDER in *. lia. }
    { pose proof (bt_depth _ _ _ _ Hbt1). lia. }
    rewrite Hres. exists (set_root t' (Some n')), (S h). split; [reflexivity|].
    apply insert_nonfull_step in Hres. destruct Hres as (Ho & _).
    split; [cbn; rewrite Ho, Ht1; exact Hm|].
    exists n'. split; [reflexivity|]. cbn [order set_root]. rewrite Ho, Ht1.
    split; [exact Hbt'|]. split; [lia|]. lia.
  - cbn [negb status_eqb]. cbv iota beta.
    destruct (insert_nonfull_bt m Hm (S (S (node_depth r))) h 0 t0 r key value Ht0 Hbt)
      as (t' & n' & Hres & Hbt' & Hl' & Hnum' & Hnk').
    { lia. }
    { pose proof (bt_depth _ _ _ _ Hbt). lia. }
    rewrite Hres. exists (set_root t' (Some n')), h. split; [reflexivity|].
    apply insert_nonfull_step in Hres. destruct Hres as (Ho & _).
    split; [cbn; rewrite Ho, Ht0; exact Hm|].
    exists n'. split; [reflexivity|]. cbn [order set_root]. rewrite Ho, Ht0.
    split; [exact Hbt'|]. split; [|lia].
    rewrite Hl'. intros Hi. specialize (Hone Hi). lia.
Qed.

Lemma insert_all_inv (kvs : list (btree_key_t * btree_value_t)) :
  forall t h N,
    tree_inv t h N ->
    exists t' h', insert_all t kvs = Some t' /\ tree_inv t' h' (N + Z.of_nat (length kvs)).
Proof.
  induction kvs as [|[k v] kvs IH]; intros t h N Hinv.
  - exists t, h. split; [reflexivity|]. cbn [length]. now rewrite Z.add_0_r.
  - destruct (btree_insert_inv t h N k v Hinv) as (t1 & h1 & Hins & Hinv1).
    destruct (IH t1 h1 (N + 1) Hinv1) as (t' & h' & Hall & Hinv').
    exists t', h'. cbn [insert_all]. rewrite Hins. split; [exact Hall|].
    replace (N + Z.of_nat (length ((k, v) :: kvs))) with (N + 1 + Z.of_nat (length kvs))
      by (cbn [length]; lia).
    exact Hinv'.
Qed.

(** ** The logarithm of the height bound *)

Lemma ceil_log_loop_spec (b n1 : Z) (fuel : nat) :
  2 <= b -> 1 <= n1 ->
  forall p e,
    0 <= e -> p = b ^ e -> n1 <= Z.of_nat fuel + p ->
    (1 <= e -> 2 * b ^ (e - 1) < n1) ->
    let r := ceil_log_loop fuel b n1 p e in
    e <= r /\ n1 <= 2 * b ^ r /\ (1 <= r -> 2 * b ^ (r - 1) < n1).
Proof.
  intros Hb Hn. induction fuel as [|fuel IH]; intros p e He Hp Hfuel Hprev; cbn zeta.
  - cbn [ceil_log_loop]. subst p.
    pose proof (Z.pow_pos_nonneg b e ltac:(lia) He).
    split; [lia|]. split; [lia|exact Hprev].
  - cbn [ceil_log_loop]. subst p.
    pose proof (Z.pow_pos_nonneg b e ltac:(lia) He) as Hpos.
    destruct (Z.leb_spec n1 (2 * b ^ e)) as [Hle|Hgt].
    + split; [lia|]. split; [lia|exact Hprev].
    + specialize (IH (b ^ e * b) (e + 1) ltac:(lia)).
      destruct IH as (H1 & H2 & H3).
      * rewrite Z.pow_add_r by lia. now rewrite Z.pow_1_r.
      * assert (2 * b ^ e <= b ^ e * b) by nia. lia.
      * intros _. replace (e + 1 - 1) with e by lia. exact Hgt.
      * split; [lia|]. split; assumption.
Qed.

(** [ceil_log_half b n1] is the least integer [e] with [b ^ e >= n1 / 2]. *)
Lemma ceil_log_half_spec (b n1 : Z) :
  2 <= b -> 1 <= n1 ->
  let e := ceil_log_half b n1 in
  -1 <= e /\
  (e = -1 <-> n1 * b <= 2) /\
  (0 <= e -> n1 <= 2 * b ^ e) /\
  (1 <= e -> 2 * b ^ (e - 1) < n1).
Proof.
  intros Hb Hn. unfold ceil_log_half. cbn zeta.
  destruct (Z.leb_spec (n1 * b) 2) as [Hle|Hgt].
  - split; [lia|]. split; [split; intros; lia|]. split; intros; lia.
  - pose proof (ceil_log_loop_spec b n1 (Z.to_nat n1) Hb Hn 1 0 ltac:(lia)
                  ltac:(now rewrite Z.pow_0_r) ltac:(lia) ltac:(lia)) as H.
    cbn zeta in H. destruct H as (H1 & H2 & H3).
    split; [lia|]. split; [split; intros; lia|]. split; [intros; assumption|exact H3].
Qed.

(** ** The height of the trees of even order *)

Lemma even_order_base (m : Z) :
  Z.even m = true -> min_fill m + 1 = ceil_half m.
Proof.
  intros He. apply Z.even_spec in He as [k ->].
  unfold min_fill, ceil_half. Z.div_mod_to_equations. lia.
Qed.

Lemma tree_inv_height (t : btree_t) (h : nat) (N : Z) :
  tree_inv t h N -> btree_height t = u32 (Z.of_nat h).
Proof.
  intros (Hm & r & Hroot & Hbt & _). unfold btree_height. rewrite Hroot.
  apply (calculate_height_bt (order t) _ h 0 r Hbt). cbn [ptr_depth].
  apply (bt_depth _ _ _ _ Hbt).
Qed.

Lemma tree_inv_height_bound (t : btree_t) (h : nat) (N : Z) :
  tree_inv t h N -> 4 <= order t -> Z.even (order t) = true -> 1 <= N ->
  Z.of_nat h <= height_bound (order t) N.
Proof.
  intros (Hm & r & Hroot & Hbt & Hone & HN) H4 Heven HN1.
  pose proof (even_order_base _ Heven) as Hbase.
  pose proof (split_mid_range _ Hm) as Hmid.
  assert (Hb : 2 <= ceil_half (order t)).
  { apply Z.even_spec in Heven as [k Hk]. unfold ceil_half. rewrite Hk in *.
    Z.div_mod_to_equations. lia. }
  pose proof (ceil_log_half_spec (ceil_half (order t)) (N + 1) Hb ltac:(lia)) as Hlog.
  cbn zeta in Hlog. destruct Hlog as (Hm1 & Hneg & Hup & _).
  unfold height_bound.
  set (e := ceil_log_half (ceil_half (order t)) (N + 1)) in *.
  assert (He : 0 <= e).
  { destruct (Z.eq_dec e (-1)) as [Heq|Hne]; [|lia]. apply Hneg in Heq. nia. }
  destruct h as [|[|h]].
  - lia.
  - lia.
  - assert (Hl : is_leaf r = false).
    { destruct (is_leaf r) eqn:Hl; [|reflexivity].
      apply (bt_leaf_height _ _ _ _ Hbt) in Hl. discriminate. }
    pose proof (nkeys_root_lower (order t) Hm h r Hbt (Hone Hl)) as Hlow.
    rewrite Hbase in Hlow. specialize (Hup He).
    assert (Hpow : ceil_half (order t) ^ Z.of_nat (S h) <= ceil_half (order t) ^ e) by lia.
    apply Z.pow_le_mono_r_iff in Hpow; lia.
Qed.

(** C8, amended.  For every even fanout [m] of [4 .. 1024] and every
    non-empty run of [N] inserts into a freshly created tree (the keys may
    be distinct or not), every insert has a result and the height of the
    resulting tree is at most the ceiling of [log_(m/2) ((N + 1) / 2)],
    plus one. *)
Theorem btree_height_bound_even (m : Z) (kvs : list (btree_key_t * btree_value_t)) :
  4 <= m <= BTREE_MAX_ORDER -> Z.even m = true -> kvs <> [] ->
  exists t0 t,
    btree_create m = Some t0 /\ insert_all t0 kvs = Some t /\
    btree_height t <= height_bound m (Z.of_nat (length kvs)).
Proof.
  intros Hm Heven Hne.
  destruct (btree_create m) as [t0|] eqn:Hcreate.
  2:{ unfold btree_create, BTREE_MIN_ORDER, BTREE_MAX_ORDER in *.
      destruct (Z.ltb_spec m 3), (Z.gtb_spec m 1024); cbn in Hcreate; try discriminate; lia. }
  pose proof (order_range_of_create m t0 Hcreate) as [_ Ht0].
  pose proof (btree_create_inv m t0 Hcreate) as Hinv0.
  destruct (insert_all_inv kvs t0 1%nat 0 Hinv0) as (t & h & Hall & Hinv).
  exists t0, t. split; [reflexivity|]. split; [exact Hall|].
  assert (Horder : order t = m).
  { clear - Hall Ht0. assert (Ho : order t0 = m) by (subst t0; reflexivity).
    clear Ht0. revert t0 Hall Ho.
    induction kvs as [|[k v] kvs IH]; intros t0 Hall Ho; cbn [insert_all] in Hall.
    - now injection Hall as <-.
    - destruct (btree_insert t0 k v) as [[s t1]|] eqn:Hins; [|discriminate].
      apply (IH t1 Hall). rewrite <- Ho. clear - Hins.
      unfold btree_insert in Hins. destruct (root t0) as [r|]; [|now injection Hins as _ <-].
      set (ta := if collect_stats t0 then _ else t0) in Hins.
      assert (Ha : order ta = order t0)
        by (unfold ta; destruct (collect_stats t0); reflexivity).
      destruct (num_keys r =? u32 (order ta - 1)).
      + rewrite split_child_eq in Hins. cbn [negb status_eqb] in Hins.
        cbv iota beta in Hins.
        destruct (insert_nonfull _ _ _ k v) as [[[s' t2] r2]|] eqn:Hnf; [|discriminate].
        injection Hins as _ <-. apply insert_nonfull_step in Hnf as (Ho & _).
        cbn [order set_root]. rewrite Ho. exact Ha.
      + cbn [negb status_eqb] in Hins. cbv iota beta in Hins.
        destruct (insert_nonfull _ _ _ k v) as [[[s' t2] r2]|] eqn:Hnf; [|discriminate].
        injection Hins as _ <-. apply insert_nonfull_step in Hnf as (Ho & _).
        cbn [order set_root]. rewrite Ho. exact Ha. }
  rewrite (tree_inv_height t h _ Hinv).
  assert (HN : 1 <= Z.of_nat (length kvs)) by (destruct kvs; [contradiction|cbn; lia]).
  pose proof (tree_inv_height_bound t h _ Hinv) as Hb. rewrite Horder in Hb.
  replace (0 + Z.of_nat (length kvs)) with (Z.of_nat (length kvs)) in Hb by lia.
  specialize (Hb ltac:(lia) Heven HN).
  pose proof (u32_le (Z.of_nat h) ltac:(lia)). lia.
Qed.

(** ** [btree_search] *)

Lemma bsearch_loop_counter_free (ks : list btree_key_t) (key : btree_key_t) (fuel : nat) :
  forall lwr upr c1 c2,
    fst (bsearch_loop fuel ks key lwr upr c1) = fst (bsearch_loop fuel ks key lwr upr c2).
Proof.
  induction fuel as [|fuel IH]; intros lwr upr c1 c2; cbn [bsearch_loop]; [reflexivity|].
  destruct (lwr <=? upr); [|reflexivity].
  destruct (arr_get 0 ks _ <? key); [apply IH|].
  destruct (arr_get 0 ks _ >? key); [apply IH|reflexivity].
Qed.

(** The index and the hit flag that a walk computes at a node are those
    of the search primitive run without a counter. *)
Lemma tree_binary_search_pure (t : btree_t) (n : btree_node_t) (key : btree_key_t) :
  fst (tree_binary_search t n key) = fst (node_binary_search n key None).
Proof.
  unfold tree_binary_search.
  pose proof (bsearch_loop_counter_free (keys n) key
                (Z.to_nat (to_int (num_keys n) - 1 + 1)) 0 (to_int (num_keys n) - 1)
                (if collect_stats t then Some (comparisons (stats t)) else None) None) as H.
  unfold node_binary_search in *.
  destruct (bsearch_loop _ _ _ _ _ (if collect_stats t then _ else _)) as [[pos found] c].
  cbn in *. exact H.
Qed.

Lemma nodes_kept_refl (t : btree_t) : nodes_kept t t.
Proof. unfold nodes_kept. tauto. Qed.

Lemma nodes_kept_trans (t1 t2 t3 : btree_t) :
  nodes_kept t1 t2 -> nodes_kept t2 t3 -> nodes_kept t1 t3.
Proof. unfold nodes_kept. intuition congruence. Qed.

Lemma visit_kept (t : btree_t) : nodes_kept t (visit t).
Proof. unfold visit, nodes_kept. destruct (collect_stats t); cbn; tauto. Qed.

Lemma tree_binary_search_kept (t : btree_t) (n : btree_node_t) (key : btree_key_t) :
  nodes_kept t (snd (tree_binary_search t n key)).
Proof.
  unfold tree_binary_search.
  destruct (node_binary_search n key _) as [[pos found] [c|]]; cbn;
    unfold nodes_kept; cbn; tauto.
Qed.

Lemma search_loop_header (fuel : nat) :
  forall t node key slot,
    let t' := snd (fst (search_loop fuel t node key slot)) in
    stats_step t t' /\ nodes_kept t t'.
Proof.
  induction fuel as [|fuel IH]; intros t node key slot; cbn zeta.
  - destruct node; cbn; split; auto using stats_step_refl, nodes_kept_refl.
  - destruct node as [n|]; cbn [search_loop];
      [|split; auto using stats_step_refl, nodes_kept_refl].
    pose proof (stats_step_trans _ _ _ (visit_step t)
                  (tree_binary_search_step (visit t) n key)) as Hs.
    pose proof (nodes_kept_trans _ _ _ (visit_kept t)
                  (tree_binary_search_kept (visit t) n key)) as Hk.
    destruct (tree_binary_search (visit t) n key) as [[pos found] t1]. cbn in Hs, Hk.
    destruct found; [cbn; tauto|].
    destruct (is_leaf n); [cbn; tauto|].
    destruct (IH t1 (arr_get None (children n) pos) key slot) as [Hs' Hk'].
    split; [eapply stats_step_trans|eapply nodes_kept_trans]; eassumption.
Qed.

(** The status and the value written do not depend on the tree header. *)
Lemma search_loop_pure (fuel : nat) :
  forall t1 t2 node key slot,
    let r1 := search_loop fuel t1 node key slot in
    let r2 := search_loop fuel t2 node key slot in
    fst (fst r1) = fst (fst r2) /\ snd r1 = snd r2.
Proof.
  induction fuel as [|fuel IH]; intros t1 t2 node key slot; cbn zeta.
  - destruct node; cbn; tauto.
  - destruct node as [n|]; cbn [search_loop]; [|cbn; tauto].
    pose proof (tree_binary_search_pure (visit t1) n key) as H1.
    pose proof (tree_binary_search_pure (visit t2) n key) as H2.
    destruct (tree_binary_search (visit t1) n key) as [[pos1 found1] u1].
    destruct (tree_binary_search (visit t2) n key) as [[pos2 found2] u2].
    cbn in H1, H2. rewrite <- H2 in H1. injection H1 as -> ->.
    destruct found2; [cbn; tauto|]. destruct (is_leaf n); [cbn; tauto|]. apply IH.
Qed.

(** More fuel than the depth of the tree changes nothing. *)
Lemma search_loop_fuel (fuel : nat) :
  forall fuel' t node key slot,
    (ptr_depth node <= fuel)%nat -> (ptr_depth node <= fuel')%nat ->
    search_loop fuel t node key slot = search_loop fuel' t node key slot.
Proof.
  induction fuel as [|fuel IH]; intros fuel' t node key slot Hf Hf'.
  - destruct node as [n|]; [|destruct fuel'; reflexivity].
    cbn in Hf. rewrite node_depth_unfold in Hf. lia.
  - destruct node as [n|]; [|destruct fuel'; reflexivity].
    destruct fuel' as [|fuel']; [cbn in Hf'; rewrite node_depth_unfold in Hf'; lia|].
    cbn [search_loop].
    destruct (tree_binary_search (visit t) n key) as [[pos found] t1].
    destruct found; [reflexivity|]. destruct (is_leaf n); [reflexivity|].
    pose proof (ptr_depth_child n pos). cbn [ptr_depth] in Hf, Hf'.
    apply IH; lia.
Qed.

Lemma btree_search_kept (t : btree_t) (key : btree_key_t) (slot : bool) :
  nodes_kept t (snd (fst (btree_search t key slot))).
Proof.
  unfold btree_search. destruct (root t) as [r|] eqn:Hr; [|apply nodes_kept_refl].
  set (t0 := if collect_stats t then _ else t).
  assert (H0 : nodes_kept t t0).
  { unfold t0, nodes_kept. destruct (collect_stats t); cbn; tauto. }
  eapply nodes_kept_trans; [exact H0|]. apply search_loop_header.
Qed.

Lemma btree_search_pure (t1 t2 : btree_t) (key : btree_key_t) (slot : bool) :
  root t1 = root t2 ->
  fst (fst (btree_search t1 key slot)) = fst (fst (btree_search t2 key slot)) /\
  snd (btree_search t1 key slot) = snd (btree_search t2 key slot).
Proof.
  intros Hr. unfold btree_search. rewrite Hr.
  destruct (root t2) as [r|]; [|cbn; tauto]. apply search_loop_pure.
Qed.

Lemma search_loop_status (fuel : nat) :
  forall t node key slot,
    let st := fst (fst (search_loop fuel t node key slot)) in
    st = BTREE_OK \/ st = BTREE_ERROR_NOT_FOUND.
Proof.
  induction fuel as [|fuel IH]; intros t node key slot; cbn zeta.
  - destruct node; cbn; tauto.
  - destruct node as [n|]; cbn [search_loop]; [|cbn; tauto].
    destruct (tree_binary_search (visit t) n key) as [[pos found] t1].
    destruct found; [cbn; tauto|]. destruct (is_leaf n); [cbn; tauto|]. apply IH.
Qed.

(** What [btree_delete] returns and what it leaves of the tree. *)
Lemma btree_delete_facts (t : btree_t) (key : btree_key_t) :
  let status := fst (fst (btree_search t key true)) in
  let '(st, t') := btree_delete t key in
  st = status /\
  root t' = root t /\
  (status = BTREE_OK ->
     key_count (stats t') = decr64 (key_count (stats t)) /\
     fst (fst (btree_search t' key true)) = BTREE_OK) /\
  (status <> BTREE_OK -> key_count (stats t') = key_count (stats t)) /\
  (root t <> None -> status = BTREE_OK \/ status = BTREE_ERROR_NOT_FOUND).
Proof.
  cbn zeta. unfold btree_delete.
  set (t0 := if collect_stats t then _ else t).
  assert (H0 : nodes_kept t t0).
  { unfold t0, nodes_kept. destruct (collect_stats t); cbn; tauto. }
  destruct (btree_search_pure t0 t key true (proj1 H0)) as [Hst _].
  pose proof (btree_search_kept t0 key true) as Hk.
  destruct (btree_search t0 key true) as [[s u] v]. cbn in Hst, Hk.
  pose proof (nodes_kept_trans _ _ _ H0 Hk) as (Hroot & _ & Hkc & _).
  assert (Hlast : root t <> None ->
                  fst (fst (btree_search t key true)) = BTREE_OK \/
                  fst (fst (btree_search t key true)) = BTREE_ERROR_NOT_FOUND).
  { intros Hr. unfold btree_search. destruct (root t); [|contradiction].
    apply search_loop_status. }
  set (status := fst (fst (btree_search t key true))) in *.
  destruct (status_eqb s BTREE_OK) eqn:Hs.
  - assert (Hok : s = BTREE_OK) by (destruct s; cbn in Hs; congruence).
    split; [congruence|]. split; [exact Hroot|].
    split; [|split; [congruence|exact Hlast]].
    intros _. split; [cbn; now rewrite Hkc|].
    destruct (btree_search_pure (set_stats u (upd_key_count decr64 (stats u))) t key true)
      as [Hagain _]; [exact Hroot|].
    rewrite Hagain. fold status. congruence.
  - split; [exact Hst|]. split; [exact Hroot|].
    split; [intros Hok; rewrite Hst, Hok in Hs; discriminate|].
    split; [intros _; exact Hkc|exact Hlast].
Qed.

(** C7.  [btree_delete] returns the status of the search for the key and
    leaves the nodes of the tree as they are.  When the search succeeds
    the status is [BTREE_OK], [key_count] becomes
    [(key_count - 1) mod 2 ^ 64] and the key is still found afterwards;
    when it fails [key_count] is unchanged, and the status is the
    not-found one whenever the tree has a root. *)
Theorem btree_delete_spec (t : btree_t) (key : btree_key_t) :
  let status := fst (fst (btree_search t key true)) in
  let '(st, t') := btree_delete t key in
  st = status /\
  root t' = root t /\
  (status = BTREE_OK ->
     key_count (stats t') = (key_count (stats t) - 1) mod 2 ^ 64 /\
     fst (fst (btree_search t' key true)) = BTREE_OK) /\
  (status <> BTREE_OK -> key_count (stats t') = key_count (stats t)) /\
  (root t <> None -> status = BTREE_OK \/ status = BTREE_ERROR_NOT_FOUND).
Proof.
  pose proof (btree_delete_facts t key) as H. cbn zeta in *.
  destruct (btree_delete t key) as [st t']. unfold decr64, u64 in H. exact H.
Qed.

(** ** Repeated deletes *)

Lemma decr64_iter (x : Z) (n : nat) :
  Nat.iter n decr64 (u64 x) = u64 (x - Z.of_nat n).
Proof.
  induction n as [|n IH].
  - change (Nat.iter 0 decr64 (u64 x)) with (u64 x). f_equal. lia.
  - change (Nat.iter (S n) decr64 (u64 x)) with (decr64 (Nat.iter n decr64 (u64 x))).
    rewrite IH. unfold decr64, u64.
    rewrite Zminus_mod_idemp_l. f_equal. lia.
Qed.

Lemma delete_times_spec (t : btree_t) (key : btree_key_t) (n : nat) :
  fst (fst (btree_search t key true)) = BTREE_OK ->
  root (delete_times n t key) = root t /\
  key_count (stats (delete_times n t key)) = Nat.iter n decr64 (key_count (stats t)).
Proof.
  intros Hok. induction n as [|n [IHr IHk]]; [split; reflexivity|].
  cbn [delete_times].
  change (Nat.iter (S n) decr64 (key_count (stats t)))
    with (decr64 (Nat.iter n decr64 (key_count (stats t)))).
  pose proof (btree_delete_facts (delete_times n t key) key) as H. cbn zeta in H.
  destruct (btree_delete (delete_times n t key) key) as [st t'].
  destruct H as (_ & Hroot & Hhit & _). cbn [snd].
  destruct (btree_search_pure (delete_times n t key) t key true IHr) as [Hsame _].
  rewrite Hsame, Hok in Hhit. destruct (Hhit eq_refl) as [Hkc _].
  split; congruence.
Qed.

Lemma node_binary_search_empty (n : btree_node_t) (key : btree_key_t) (cmp : option Z) :
  num_keys n = 0 -> node_binary_search n key cmp = (0, false, cmp).
Proof. intros H. unfold node_binary_search. rewrite H. reflexivity. Qed.

Lemma node_binary_search_single (n : btree_node_t) (key : btree_key_t) (cmp : option Z) :
  num_keys n = 1 -> arr_get 0 (keys n) 0 = key ->
  node_binary_search n key cmp = (0, true, option_map incr64 cmp).
Proof.
  intros H Hk. unfold node_binary_search. rewrite H.
  change (Z.to_nat (to_int 1 - 1 + 1)) with 1%nat. change (to_int 1 - 1) with 0.
  cbn [bsearch_loop]. change (0 <=? 0) with true. change (Z.shiftr (0 + 0) 1) with 0.
  cbv iota. rewrite Hk, Z.gtb_ltb, Z.ltb_irrefl. reflexivity.
Qed.

(** The tree after one insert into a fresh tree. *)
Lemma btree_insert_first (m : Z) (t0 : btree_t) (key : btree_key_t) (value : btree_value_t) :
  btree_create m = Some t0 ->
  exists t1,
    btree_insert t0 key value = Some (BTREE_OK, t1) /\
    key_count (stats t1) = 1 /\
    fst (fst (btree_search t1 key true)) = BTREE_OK.
Proof.
  intros Hc. apply order_range_of_create in Hc as [Hm ->].
  unfold BTREE_MIN_ORDER, BTREE_MAX_ORDER in Hm.
  assert (Hu : u32 (m - 1) = m - 1) by (apply u32_small; lia).
  unfold btree_insert.
  cbn [root collect_stats order set_stats stats].
  change (num_keys (node_create m true)) with 0.
  rewrite Hu. destruct (Z.eqb_spec 0 (m - 1)); [lia|].
  cbn [negb status_eqb]. cbv iota beta. cbn [insert_nonfull].
  unfold tree_binary_search.
  rewrite node_binary_search_empty by reflexivity.
  change (is_leaf (node_create m true)) with true. cbv iota beta.
  eexists. split; [reflexivity|]. split; [reflexivity|].
  set (r := mk_node _ _ _ _ _).
  assert (Hn : num_keys r = 1) by reflexivity.
  assert (Hk : arr_get 0 (keys r) 0 = key).
  { unfold r. cbn [keys]. apply arr_get_set_eq.
    rewrite shift_loop_length. cbn [keys node_create]. rewrite length_replicate. lia. }
  clearbody r.
  unfold btree_search. cbn [root set_root].
  rewrite node_depth_unfold. cbn [search_loop].
  unfold tree_binary_search. rewrite (node_binary_search_single r key _ Hn Hk).
  destruct (option_map incr64 _); reflexivity.
Qed.

(** C10.  A key that is found can be deleted any number of times: every
    one of the calls returns [BTREE_OK] and decrements the 64-bit
    [key_count] once more.  Deleting the only key of a one-key tree twice
    wraps the counter, and [btree_size] returns [2 ^ 64 - 1]. *)
Theorem btree_delete_repeats :
  (forall (t : btree_t) (key : btree_key_t) (n : nat),
      fst (fst (btree_search t key true)) = BTREE_OK ->
      0 <= key_count (stats t) < 2 ^ 64 ->
      fst (btree_delete (delete_times n t key) key) = BTREE_OK /\
      btree_size (delete_times (S n) t key) =
        (key_count (stats t) - Z.of_nat (S n)) mod 2 ^ 64) /\
  (forall (m : Z) (t0 : btree_t) (key : btree_key_t) (value : btree_value_t),
      btree_create m = Some t0 ->
      exists t1,
        btree_insert t0 key value = Some (BTREE_OK, t1) /\
        btree_size t1 = 1 /\
        fst (btree_delete t1 key) = BTREE_OK /\
        fst (btree_delete (snd (btree_delete t1 key)) key) = BTREE_OK /\
        btree_size (snd (btree_delete (snd (btree_delete t1 key)) key)) = 2 ^ 64 - 1).
Proof.
  assert (Hgen : forall (t : btree_t) (key : btree_key_t) (n : nat),
             fst (fst (btree_search t key true)) = BTREE_OK ->
             0 <= key_count (stats t) < 2 ^ 64 ->
             fst (btree_delete (delete_times n t key) key) = BTREE_OK /\
             btree_size (delete_times (S n) t key) =
               (key_count (stats t) - Z.of_nat (S n)) mod 2 ^ 64).
  { intros t key n Hok Hkc.
    destruct (delete_times_spec t key n Hok) as [Hroot _].
    destruct (delete_times_spec t key (S n) Hok) as [_ Hcount].
    split.
    - pose proof (btree_delete_facts (delete_times n t key) key) as H. cbn zeta in H.
      destruct (btree_delete (delete_times n t key) key) as [st t'].
      destruct H as (Hst & _). cbn [fst]. rewrite Hst.
      destruct (btree_search_pure (delete_times n t key) t key true Hroot) as [-> _].
      exact Hok.
    - unfold btree_size. rewrite Hcount.
      rewrite <- (u64_small (key_count (stats t))) at 1 by exact Hkc.
      apply decr64_iter. }
  split; [exact Hgen|].
  intros m t0 key value Hc.
  destruct (btree_insert_first m t0 key value Hc) as (t1 & Hins & Hkc & Hok).
  exists t1. split; [exact Hins|]. split; [exact Hkc|].
  destruct (Hgen t1 key 0%nat Hok ltac:(rewrite Hkc; lia)) as [H1 _].
  destruct (Hgen t1 key 1%nat Hok ltac:(rewrite Hkc; lia)) as [H2 H3].
  cbn [delete_times] in H1, H2, H3. rewrite Hkc in H3.
  split; [exact H1|]. split; [exact H2|]. rewrite H3. reflexivity.
Qed.

(** ** The tree header across the public operations *)

Lemma btree_search_header (t : btree_t) (key : btree_key_t) (slot : bool) :
  root t <> None ->
  let t' := snd (fst (btree_search t key slot)) in
  order t' = order t /\ collect_stats t' = collect_stats t /\
  search_ops (stats t') = gated t (search_ops (stats t)) /\
  insert_ops (stats t') = insert_ops (stats t) /\
  delete_ops (stats t') = delete_ops (stats t) /\
  (collect_stats t = false -> hot_counters_kept t t').
Proof.
  intros Hr. cbn zeta. unfold btree_search, gated, hot_counters_kept.
  destruct (root t) as [r|]; [|contradiction].
  destruct (search_loop_header (node_depth r)
              (if collect_stats t then set_stats t (upd_search_ops incr64 (stats t)) else t)
              (Some r) key slot) as [(H1 & H2 & H3 & H4 & H5 & H6 & H7) _].
  destruct (collect_stats t) eqn:Hc; cbn in *.
  - repeat (split; [congruence|]). discriminate.
  - repeat (split; [congruence|]). intros _. now apply H7.
Qed.

Lemma btree_delete_header (t : btree_t) (key : btree_key_t) :
  let t' := snd (btree_delete t key) in
  order t' = order t /\ collect_stats t' = collect_stats t /\
  delete_ops (stats t') = gated t (delete_ops (stats t)) /\
  insert_ops (stats t') = insert_ops (stats t) /\
  (collect_stats t = false -> hot_counters_kept t t').
Proof.
  cbn zeta. unfold btree_delete, gated, hot_counters_kept.
  set (t0 := if collect_stats t then _ else t).
  assert (H0 : order t0 = order t /\ collect_stats t0 = collect_stats t /\
               delete_ops (stats t0) = (if collect_stats t then incr64 (delete_ops (stats t))
                                        else delete_ops (stats t)) /\
               insert_ops (stats t0) = insert_ops (stats t) /\
               comparisons (stats t0) = comparisons (stats t) /\
               node_visits (stats t0) = node_visits (stats t) /\
               root t0 = root t).
  { unfold t0. destruct (collect_stats t) eqn:Hc; cbn; rewrite ?Hc; tauto. }
  destruct H0 as (G1 & G2 & G3 & G4 & G5 & G6 & G7).
  assert (Hs : order (snd (fst (btree_search t0 key true))) = order t0 /\
               collect_stats (snd (fst (btree_search t0 key true))) = collect_stats t0 /\
               insert_ops (stats (snd (fst (btree_search t0 key true)))) = insert_ops (stats t0) /\
               delete_ops (stats (snd (fst (btree_search t0 key true)))) = delete_ops (stats t0) /\
               (collect_stats t0 = false ->
                hot_counters_kept t0 (snd (fst (btree_search t0 key true))))).
  { destruct (root t0) as [r|] eqn:Hr.
    - pose proof (btree_search_header t0 key true ltac:(congruence)) as H. cbn zeta in H.
      tauto.
    - unfold btree_search, hot_counters_kept. rewrite Hr. cbn. tauto. }
  destruct (btree_search t0 key true) as [[s u] v]. cbn [fst snd] in Hs.
  destruct Hs as (S1 & S2 & S3 & S4 & S5). unfold hot_counters_kept in S5.
  destruct (status_eqb s BTREE_OK); cbn [snd set_stats order collect_stats stats
                                         upd_key_count delete_ops insert_ops
                                         comparisons node_visits];
    repeat (split; [congruence|]); intros Hc; rewrite <- G2 in Hc;
    destruct (S5 Hc); split; congruence.
Qed.

Lemma btree_insert_header (t : btree_t) (key : btree_key_t) (value : btree_value_t)
    (status : btree_status_t) (t' : btree_t) :
  root t <> None ->
  btree_insert t key value = Some (status, t') ->
  order t' = order t /\ min_keys t' = min_keys t /\ collect_stats t' = collect_stats t /\
  insert_ops (stats t') = gated t (insert_ops (stats t)) /\
  search_ops (stats t') = search_ops (stats t) /\
  delete_ops (stats t') = delete_ops (stats t) /\
  (collect_stats t = false -> hot_counters_kept t t').
Proof.
  intros Hr. unfold btree_insert, gated, hot_counters_kept.
  destruct (root t) as [r|]; [|contradiction].
  set (t0 := if collect_stats t then _ else t).
  assert (H0 : order t0 = order t /\ min_keys t0 = min_keys t /\
               collect_stats t0 = collect_stats t /\
               insert_ops (stats t0) = (if collect_stats t then incr64 (insert_ops (stats t))
                                        else insert_ops (stats t)) /\
               search_ops (stats t0) = search_ops (stats t) /\
               delete_ops (stats t0) = delete_ops (stats t) /\
               comparisons (stats t0) = comparisons (stats t) /\
               node_visits (stats t0) = node_visits (stats t)).
  { unfold t0. destruct (collect_stats t) eqn:Hc; cbn; rewrite ?Hc; tauto. }
  destruct H0 as (G1 & G2 & G3 & G4 & G5 & G6 & G7 & G8).
  destruct (num_keys r =? u32 (order t0 - 1)).
  - rewrite split_child_eq. cbn [negb status_eqb]. cbv iota beta.
    destruct (insert_nonfull _ _ _ key value) as [[[s t2] r2]|] eqn:Hnf; [|discriminate].
    intros [= <- <-]. apply insert_nonfull_step in Hnf.
    destruct Hnf as (S1 & S2 & S3 & S4 & S5 & S6 & S7). cbn in S1, S2, S3, S4, S5, S6, S7.
    cbn [order min_keys collect_stats stats set_root].
    repeat (split; [congruence|]). intros Hc. rewrite <- G3 in Hc.
    destruct (S7 Hc). split; congruence.
  - cbn [negb status_eqb]. cbv iota beta.
    destruct (insert_nonfull _ _ _ key value) as [[[s t2] r2]|] eqn:Hnf; [|discriminate].
    intros [= <- <-]. apply insert_nonfull_step in Hnf.
    destruct Hnf as (S1 & S2 & S3 & S4 & S5 & S6 & S7).
    cbn [order min_keys collect_stats stats set_root].
    repeat (split; [congruence|]). intros Hc. rewrite <- G3 in Hc.
    destruct (S7 Hc). split; congruence.
Qed.

Lemma tree_inv_header (t t' : btree_t) (h : nat) (N : Z) :
  order t' = order t -> root t' = root t -> tree_inv t h N -> tree_inv t' h N.
Proof. unfold tree_inv. intros -> ->. tauto. Qed.

(** Every tree that the public operations build satisfies the
    invariant. *)
Lemma reachable_inv (t : btree_t) : reachable t -> exists h N, tree_inv t h N.
Proof.
  induction 1 as [m t Hc|t key value status t' _ (h & N & IH) Hins
                  |t key slot _ (h & N & IH)|t key _ (h & N & IH)
                  |t _ (h & N & IH)|t _ (h & N & IH)|t enabled _ (h & N & IH)].
  - exists 1%nat, 0. now apply (btree_create_inv m).
  - destruct (btree_insert_inv t h N key value IH) as (t'' & h' & Hins' & Hinv).
    rewrite Hins in Hins'. injection Hins' as _ <-. eauto.
  - exists h, N. pose proof IH as (_ & r & Hr & _).
    pose proof (btree_search_header t key slot ltac:(congruence)) as (Ho & _).
    pose proof (btree_search_kept t key slot) as (Hroot & _).
    now apply (tree_inv_header t).
  - exists h, N. pose proof (btree_delete_header t key) as (Ho & _).
    pose proof (btree_delete_facts t key) as Hd. cbn zeta in Hd.
    destruct (btree_delete t key) as [st t']. destruct Hd as (_ & Hroot & _).
    now apply (tree_inv_header t).
  - exists 1%nat, 0. destruct IH as (Hm & _). split; [exact Hm|].
    eexists. split; [reflexivity|]. cbn [order btree_clear].
    split; [now apply node_create_leaf_bt|]. split; [discriminate|]. cbn. lia.
  - exists h, N. now apply (tree_inv_header t).
  - exists h, N. now apply (tree_inv_header t).
Qed.

Lemma reachable_root (t : btree_t) : reachable t -> root t <> None.
Proof. intros H. apply reachable_inv in H as (h & N & _ & r & Hr & _). congruence. Qed.

(** C4, amended.  On every tree that the public operations build,
    [btree_search], [btree_insert] and [btree_delete] turn [search_ops],
    [insert_ops] and [delete_ops] into the counter plus one, modulo
    [2 ^ 64], when [collect_stats] is enabled, and leave them as they are
    when it is disabled; with the flag disabled the three operations
    leave [comparisons] and [node_visits] unchanged as well.  The
    operation counters are gated by the flag like the two hot-path
    counters. *)
Theorem op_counters_gated (t : btree_t) (key : btree_key_t) (value : btree_value_t)
    (slot : bool) :
  reachable t ->
  search_ops (stats (snd (fst (btree_search t key slot)))) =
    (if collect_stats t then (search_ops (stats t) + 1) mod 2 ^ 64
     else search_ops (stats t)) /\
  (exists status t',
      btree_insert t key value = Some (status, t') /\
      insert_ops (stats t') =
        (if collect_stats t then (insert_ops (stats t) + 1) mod 2 ^ 64
         else insert_ops (stats t)) /\
      (collect_stats t = false -> hot_counters_kept t t')) /\
  delete_ops (stats (snd (btree_delete t key))) =
    (if collect_stats t then (delete_ops (stats t) + 1) mod 2 ^ 64
     else delete_ops (stats t)) /\
  (collect_stats t = false ->
     hot_counters_kept t (snd (fst (btree_search t key slot))) /\
     hot_counters_kept t (snd (btree_delete t key))).
Proof.
  intros Hreach. pose proof (reachable_root t Hreach) as Hroot.
  destruct (reachable_inv t Hreach) as (h & N & Hinv).
  pose proof (btree_search_header t key slot Hroot) as Hs. cbn zeta in Hs.
  pose proof (btree_delete_header t key) as Hd. cbn zeta in Hd.
  destruct (btree_insert_inv t h N key value Hinv) as (t' & h' & Hins & _).
  pose proof (btree_insert_header t key value BTREE_OK t' Hroot Hins) as Hi.
  unfold gated, incr64, u64 in Hs, Hd, Hi.
  split; [tauto|]. split; [|split; [tauto|]].
  - exists BTREE_OK, t'. tauto.
  - intros Hc. split; [apply Hs|apply Hd]; exact Hc.
Qed.

(** ** A hit of the search primitive *)

Lemma node_searchable_found (n : btree_node_t) (key : btree_key_t) (t : btree_t) :
  node_searchable n ->
  let '(pos, found, _) := tree_binary_search t n key in
  (found = true <-> node_has_key n key) /\
  (found = true -> 0 <= pos < num_keys n /\ key_at n pos = key) /\
  tree_binary_search t n key = (pos, found, snd (tree_binary_search t n key)) /\
  fst (node_binary_search n key None) = (pos, found).
Proof.
  intros [Hn Hs].
  pose proof (tree_binary_search_pure t n key) as Hp.
  pose proof (node_binary_search_post n key None Hn Hs) as Hpost.
  destruct (tree_binary_search t n key) as [[pos found] t1].
  destruct (node_binary_search n key None) as [[pos' found'] c].
  cbn [fst snd] in *. injection Hp as <- <-. cbn in Hpost.
  destruct Hpost as (Hpos & Hlow & Hhit).
  split; [|split; [|split; reflexivity]].
  - split.
    + intros ->. exists pos. unfold key_at. split; [lia|tauto].
    + intros (i & Hi & Hk). destruct found; [reflexivity|]. exfalso.
      unfold key_at in Hk. destruct (Z_lt_le_dec i pos) as [Hip|Hip].
      * specialize (Hlow i ltac:(lia)). lia.
      * specialize (Hhit i ltac:(lia)). lia.
  - intros ->. unfold key_at. split; [lia|tauto].
Qed.

(** ** Runs of inserts *)

Lemma insert_all_reachable (kvs : list (btree_key_t * btree_value_t)) :
  forall t t', reachable t -> insert_all t kvs = Some t' -> reachable t'.
Proof.
  induction kvs as [|[k v] kvs IH]; intros t t' Hr; cbn [insert_all].
  - now intros [= <-].
  - destruct (btree_insert t k v) as [[st t1]|] eqn:Hins; [|discriminate].
    apply IH. now apply (reach_insert t k v st).
Qed.

Lemma build_reachable (m : Z) (kvs : list (btree_key_t * btree_value_t)) (t : btree_t) :
  build m kvs = Some t -> reachable t.
Proof.
  unfold build. destruct (btree_create m) as [t0|] eqn:Hc; [|discriminate].
  apply insert_all_reachable. now apply (reach_create m).
Qed.

(** ** The operations on the example trees *)

(** C1.  The invariants do not hold after every run of inserts.  On the
    tree of order 3 built from the distinct keys 10, 20, 5,
    [split_child] leaves a right sibling with no key, below
    [min_keys = 1], and [btree_validate] returns [false].  On the tree of
    order 4 built from 1, 2, 3, 4, a further insert of the promoted key 2
    stores it a second time, in the leaf to the right of the separator
    2, and [btree_validate] returns [false]. *)
Theorem validate_fails_on_built_trees :
  (exists t r c,
      tree_odd_order = Some t /\ reachable t /\
      root t = Some r /\ arr_get None (children r) 1 = Some c /\
      num_keys r = 1 /\ num_keys c = 0 /\ min_keys t = 1 /\
      btree_validate t = false) /\
  (exists t t' r c,
      tree_split = Some t /\ btree_insert t 2 22 = Some (BTREE_OK, t') /\
      btree_validate t = true /\
      root t' = Some r /\ arr_get None (children r) 1 = Some c /\
      key_at r 0 = 2 /\ key_at c 0 = 2 /\
      btree_validate t' = false).
Proof.
  split.
  - eexists _, _, _. split; [vm_compute; reflexivity|].
    split; [apply (build_reachable 3 [(10, 1); (20, 2); (5, 3)]); vm_compute; reflexivity|].
    split; [vm_compute; reflexivity|]. split; [vm_compute; reflexivity|].
    repeat split; vm_compute; reflexivity.
  - eexists _, _, _, _. split; [vm_compute; reflexivity|].
    split; [vm_compute; reflexivity|]. split; [vm_compute; reflexivity|].
    split; [vm_compute; reflexivity|]. split; [vm_compute; reflexivity|].
    repeat split; vm_compute; reflexivity.
Qed.

(** C2.  The cursor does not visit every key.  On the tree of order 4
    built from 1, 2, 3, 4, which holds the key 2 as the separator of its
    root, [btree_cursor_first] followed by [btree_cursor_next] until
    not-found reports the keys 1, 3, 4 and ends with [valid = false]; the
    key 2 is in the tree ([btree_contains]) and is never reported. *)
Theorem cursor_skips_separator :
  exists t c0 c_end,
    tree_split = Some t /\ reachable t /\
    btree_cursor_first (btree_cursor_create t) = Some (BTREE_OK, c0) /\
    cursor_walk 8 c0 = Some ([Some 1; Some 3; Some 4], c_end) /\
    valid c_end = false /\
    btree_contains t 2 = true /\ btree_size t = 4 /\ btree_validate t = true.
Proof.
  eexists _, _, _. split; [vm_compute; reflexivity|].
  split; [apply (build_reachable 4 [(1, 11); (2, 12); (3, 13); (4, 14)]);
          vm_compute; reflexivity|].
  split; [vm_compute; reflexivity|]. split; [vm_compute; reflexivity|].
  repeat split; vm_compute; reflexivity.
Qed.

(** C3.  A second insert of a key can add a second entry.  On the tree of
    order 4 that holds 1 and 3, [btree_insert] of key 2 fills the root
    leaf; the second [btree_insert] of key 2 splits the root, promotes 2
    and then stores 2 again in the right leaf.  The size goes from 3 to
    4, the key 2 is held both by the root and by a leaf, and
    [btree_search] stops at the root and writes no value. *)
Theorem upsert_duplicates_promoted_key :
  exists t t1 t2 r c,
    tree_two_keys = Some t /\ reachable t /\
    btree_insert t 2 100 = Some (BTREE_OK, t1) /\
    btree_insert t1 2 200 = Some (BTREE_OK, t2) /\
    btree_size t1 = 3 /\ btree_size t2 = 4 /\
    root t2 = Some r /\ is_leaf r = false /\ key_at r 0 = 2 /\
    arr_get None (children r) 1 = Some c /\ is_leaf c = true /\
    key_at c 0 = 2 /\ arr_get 0 (values c) 0 = 200 /\
    fst (fst (btree_search t2 2 true)) = BTREE_OK /\
    snd (btree_search t2 2 true) = None.
Proof.
  eexists _, _, _, _, _. split; [vm_compute; reflexivity|].
  split; [apply (build_reachable 4 [(1, 11); (3, 13)]); vm_compute; reflexivity|].
  split; [vm_compute; reflexivity|]. split; [vm_compute; reflexivity|].
  split; [vm_compute; reflexivity|]. split; [vm_compute; reflexivity|].
  split; [vm_compute; reflexivity|]. split; [vm_compute; reflexivity|].
  split; [vm_compute; reflexivity|]. split; [vm_compute; reflexivity|].
  repeat split; vm_compute; reflexivity.
Qed.

(** C9.  A valid cursor can stand on no key.  On the tree of order 3
    built from 10, 20, 5 the second [btree_cursor_next] returns
    [BTREE_OK] and leaves the cursor valid on the right leaf, which holds
    no key: position 0 is not below [num_keys = 0], and
    [btree_cursor_get] returns [BTREE_ERROR_INVALID] and writes
    nothing. *)
Theorem cursor_valid_on_empty_leaf :
  exists t c0 c1 c2 leaf,
    tree_odd_order = Some t /\ reachable t /\
    btree_cursor_first (btree_cursor_create t) = Some (BTREE_OK, c0) /\
    btree_cursor_next c0 = Some (BTREE_OK, c1) /\
    btree_cursor_next c1 = Some (BTREE_OK, c2) /\
    valid c2 = true /\
    arr_get None (path c2) (depth c2) = Some leaf /\
    is_leaf leaf = true /\ num_keys leaf = 0 /\
    arr_get 0 (positions c2) (depth c2) = 0 /\
    btree_cursor_get c2 true true = Some (BTREE_ERROR_INVALID, None, None).
Proof.
  eexists _, _, _, _, _. split; [vm_compute; reflexivity|].
  split; [apply (build_reachable 3 [(10, 1); (20, 2); (5, 3)]); vm_compute; reflexivity|].
  split; [vm_compute; reflexivity|]. split; [vm_compute; reflexivity|].
  split; [vm_compute; reflexivity|]. split; [vm_compute; reflexivity|].
  split; [vm_compute; reflexivity|].
  repeat split; vm_compute; reflexivity.
Qed.

(** C4 as stated fails: with statistics collection switched off, an
    insert, a search and a delete leave the three operation counters at
    0. *)
Lemma op_counters_counterexample :
  exists t',
    reachable quiet_tree /\ collect_stats quiet_tree = false /\
    btree_insert quiet_tree 1 11 = Some (BTREE_OK, t') /\
    insert_ops (stats quiet_tree) = 0 /\ insert_ops (stats t') = 0 /\
    search_ops (stats quiet_tree) = 0 /\
    search_ops (stats (snd (fst (btree_search quiet_tree 1 true)))) = 0 /\
    delete_ops (stats quiet_tree) = 0 /\
    delete_ops (stats (snd (btree_delete quiet_tree 1))) = 0.
Proof.
  eexists. split.
  { apply reach_set_stats_collection. apply (reach_create 4). reflexivity. }
  split; [reflexivity|]. split; [vm_compute; reflexivity|].
  repeat split; vm_compute; reflexivity.
Qed.

Lemma op_counters_gated_witness :
  reachable split_tree /\ collect_stats split_tree = true /\
  search_ops (stats split_tree) = 0 /\
  search_ops (stats (snd (fst (btree_search split_tree 5 true)))) = 1 /\
  insert_ops (stats split_tree) = 4 /\
  (exists t', btree_insert split_tree 5 15 = Some (BTREE_OK, t') /\
              insert_ops (stats t') = 5) /\
  delete_ops (stats split_tree) = 0 /\
  delete_ops (stats (snd (btree_delete split_tree 5))) = 1.
Proof.
  assert (Hr : reachable split_tree).
  { apply (build_reachable 4 [(1, 11); (2, 12); (3, 13); (4, 14)]).
    vm_compute. reflexivity. }
  destruct (op_counters_gated split_tree 5 15 true Hr)
    as (Hs & (status & t' & Hins & Hi & _) & Hd & _).
  split; [exact Hr|]. split; [reflexivity|].
  split; [vm_compute; reflexivity|].
  split; [rewrite Hs; vm_compute; reflexivity|].
  split; [vm_compute; reflexivity|]. split.
  - assert (Hst : option_map fst (btree_insert split_tree 5 15) = Some BTREE_OK)
      by (vm_compute; reflexivity).
    rewrite Hins in Hst. cbn [option_map fst] in Hst. injection Hst as ->.
    exists t'. split; [exact Hins|]. rewrite Hi. vm_compute. reflexivity.
  - split; [vm_compute; reflexivity|]. rewrite Hd. vm_compute. reflexivity.
Defined.

(** C8 as stated fails.  By design an empty tree has height 1, above the
    bound 0 that the formula gives for fanout 4 and no insert.  On the
    tree of order 3 (see C1) seven distinct keys reach height 4, above
    the bound 3. *)
Lemma height_bound_counterexample :
  (exists t, build 4 [] = Some t /\ btree_height t = 1 /\ height_bound 4 0 = 0) /\
  (exists t, tree_tall = Some t /\
             List.NoDup (map fst [(1, 0); (2, 0); (0, 0); (-1, 0); (-2, 0); (-3, 0); (-4, 0)]) /\
             btree_height t = 4 /\ height_bound 3 7 = 3).
Proof.
  split.
  - eexists. split; [vm_compute; reflexivity|]. split; vm_compute; reflexivity.
  - eexists. split; [vm_compute; reflexivity|]. split.
    + cbn [map fst].
      repeat (apply List.NoDup_cons; [cbn [In]; intros H; intuition discriminate|]).
      apply List.NoDup_nil.
    + split; vm_compute; reflexivity.
Qed.

Lemma btree_height_bound_even_witness :
  4 <= 4 <= BTREE_MAX_ORDER /\ Z.even 4 = true /\ [(1, 11)] <> [] /\
  exists t0 t,
    btree_create 4 = Some t0 /\ insert_all t0 [(1, 11)] = Some t /\
    btree_height t <= height_bound 4 (Z.of_nat (length [(1, 11)])).
Proof.
  assert (H1 : 4 <= 4 <= BTREE_MAX_ORDER) by (unfold BTREE_MAX_ORDER; lia).
  assert (H2 : Z.even 4 = true) by reflexivity.
  assert (H3 : [(1, 11)] <> ([] : list (btree_key_t * btree_value_t))) by discriminate.
  split; [exact H1|]. split; [exact H2|]. split; [exact H3|].
  exact (btree_height_bound_even 4 [(1, 11)] H1 H2 H3).
Defined.

Lemma btree_delete_spec_witness :
  (exists t',
     btree_delete split_tree 3 = (BTREE_OK, t') /\
     root t' = root split_tree /\
     key_count (stats split_tree) = 4 /\ key_count (stats t') = 3 /\
     fst (fst (btree_search t' 3 true)) = BTREE_OK) /\
  (exists t',
     btree_delete split_tree 9 = (BTREE_ERROR_NOT_FOUND, t') /\
     root t' = root split_tree /\ key_count (stats t') = 4).
Proof.
  split.
  - assert (Hrun : exists t0, btree_delete split_tree 3 = (BTREE_OK, t0) /\
                              key_count (stats t0) = 3)
      by (eexists; split; vm_compute; reflexivity).
    destruct Hrun as (t0 & Hrun & Hcount).
    pose proof (btree_delete_spec split_tree 3) as H. cbn zeta in H.
    assert (Hs : fst (fst (btree_search split_tree 3 true)) = BTREE_OK)
      by (vm_compute; reflexivity).
    rewrite Hrun in H. destruct H as (_ & Hroot & Hok & _).
    destruct (Hok Hs) as [Hkc Hagain].
    exists t0. split; [exact Hrun|]. split; [exact Hroot|].
    split; [vm_compute; reflexivity|]. split; [exact Hcount|exact Hagain].
  - assert (Hrun : exists t0, btree_delete split_tree 9 = (BTREE_ERROR_NOT_FOUND, t0))
      by (eexists; vm_compute; reflexivity).
    destruct Hrun as (t0 & Hrun).
    pose proof (btree_delete_spec split_tree 9) as H. cbn zeta in H.
    assert (Hs : fst (fst (btree_search split_tree 9 true)) = BTREE_ERROR_NOT_FOUND)
      by (vm_compute; reflexivity).
    rewrite Hrun in H. destruct H as (_ & Hroot & _ & Hfail & _).
    exists t0. split; [exact Hrun|]. split; [exact Hroot|].
    rewrite Hfail by (rewrite Hs; discriminate). vm_compute. reflexivity.
Defined.

Lemma btree_delete_repeats_witness :
  exists t1,
    btree_insert fresh_tree 42 7 = Some (BTREE_OK, t1) /\
    btree_size t1 = 1 /\
    fst (btree_delete t1 42) = BTREE_OK /\
    fst (btree_delete (snd (btree_delete t1 42)) 42) = BTREE_OK /\
    btree_size (snd (btree_delete (snd (btree_delete t1 42)) 42)) = 2 ^ 64 - 1.
Proof.
  exact (proj2 btree_delete_repeats 4 fresh_tree 42 7 eq_refl).
Defined.

(** ** Fuel *)

(** More fuel than the depth of the tree changes no result. *)
Lemma calculate_height_fuel (fuel : nat) :
  forall fuel' node,
    (ptr_depth node <= fuel)%nat -> (ptr_depth node <= fuel')%nat ->
    calculate_height fuel node = calculate_height fuel' node.
Proof.
  induction fuel as [|fuel IH]; intros fuel' node Hf Hf'.
  - destruct node as [n|]; [|destruct fuel'; reflexivity].
    cbn in Hf. rewrite node_depth_unfold in Hf. lia.
  - destruct node as [n|]; [|destruct fuel'; reflexivity].
    destruct fuel' as [|fuel']; [cbn in Hf'; rewrite node_depth_unfold in Hf'; lia|].
    cbn [calculate_height]. destruct (is_leaf n); [reflexivity|].
    pose proof (ptr_depth_child n 0). cbn [ptr_depth] in Hf, Hf'.
    f_equal. f_equal. apply IH; lia.
Qed.

Lemma forallb_ext_in {A : Type} (f g : A -> bool) (l : list A) :
  (forall x, In x l -> f x = g x) -> forallb f l = forallb g l.
Proof.
  induction l as [|x l IH]; intros H; cbn [forallb]; [reflexivity|].
  rewrite (H x) by now left. rewrite IH; [reflexivity|]. intros y Hy. apply H. now right.
Qed.

Lemma validate_node_fuel (fuel : nat) :
  forall fuel' node min_keys max_keys min_key max_key is_root,
    (ptr_depth node <= fuel)%nat -> (ptr_depth node <= fuel')%nat ->
    validate_node fuel node min_keys max_keys min_key max_key is_root =
    validate_node fuel' node min_keys max_keys min_key max_key is_root.
Proof.
  induction fuel as [|fuel IH]; intros fuel' node mk xk lo hi is_root Hf Hf'.
  - destruct node as [n|]; [|destruct fuel'; reflexivity].
    cbn in Hf. rewrite node_depth_unfold in Hf. lia.
  - destruct node as [n|]; [|destruct fuel'; reflexivity].
    destruct fuel' as [|fuel']; [cbn in Hf'; rewrite node_depth_unfold in Hf'; lia|].
    cbn [validate_node].
    destruct (negb is_root && (num_keys n <? mk)); [reflexivity|].
    destruct (num_keys n >? xk); [reflexivity|].
    destruct (negb (forallb _ _)); [reflexivity|].
    destruct ((num_keys n >? 0) && _); [reflexivity|].
    destruct (negb (is_leaf n)); [|reflexivity].
    apply forallb_ext_in. intros i _.
    pose proof (ptr_depth_child n i). cbn [ptr_depth] in Hf, Hf'.
    apply IH; lia.
Qed.

(** A result of [insert_nonfull] does not depend on the fuel that was
    left over. *)
Lemma insert_nonfull_fuel (fuel : nat) :
  forall fuel' t n key value r,
    (fuel <= fuel')%nat ->
    insert_nonfull fuel t n key value = Some r ->
    insert_nonfull fuel' t n key value = Some r.
Proof.
  induction fuel as [|fuel IH]; intros fuel' t n key value r Hf; [discriminate|].
  destruct fuel' as [|fuel']; [lia|]. cbn [insert_nonfull].
  destruct (tree_binary_search (visit t) n key) as [[pos found] t1].
  destruct (is_leaf n); [trivial|].
  destruct (arr_get None (children n) _) as [child|]; [|discriminate].
  destruct (if num_keys child =? u32 (order t1 - 1) then _ else _) as [[[st t2] n2] pos2].
  destruct (negb (status_eqb st BTREE_OK)); [trivial|].
  destruct (arr_get None (children n2) pos2) as [child2|]; [|discriminate].
  destruct (insert_nonfull fuel t2 child2 key value) as [r2|] eqn:Hrec; [|discriminate].
  rewrite (IH fuel' t2 child2 key value r2 ltac:(lia) Hrec). trivial.
Qed.

(** ** The tests of the repository, run on the embedding *)

(** [test_create_destroy] and [test_empty_tree_search]. *)
Example test_empty_tree :
  btree_size fresh_tree = 0 /\ btree_height fresh_tree = 1 /\
  btree_contains fresh_tree 42 = false /\ btree_validate fresh_tree = true.
Proof. repeat split; vm_compute; reflexivity. Qed.

(** [test_multiple_inserts]: seven keys, order 4. *)
Example test_multiple_inserts :
  exists t,
    build 4 [(50, 50); (25, 25); (75, 75); (10, 10); (30, 30); (60, 60); (90, 90)] = Some t /\
    btree_size t = 7 /\ btree_validate t = true /\
    forallb (btree_contains t) [50; 25; 75; 10; 30; 60; 90] = true /\
    btree_contains t 11 = false.
Proof.
  eexists. split; [vm_compute; reflexivity|]. repeat split; vm_compute; reflexivity.
Qed.

(** [test_sequential_insert]: the keys 1 .. 100, order 8. *)
Example test_sequential_insert :
  exists t,
    build 8 (key_run 1 100) = Some t /\
    btree_size t = 100 /\ btree_validate t = true /\
    forallb (btree_contains t) (zrange 1 100) = true.
Proof.
  eexists. split; [vm_compute; reflexivity|]. repeat split; vm_compute; reflexivity.
Qed.

(** [test_duplicate_insert]: the second value replaces the first. *)
Example test_duplicate_insert :
  exists t,
    build 4 [(42, 1); (42, 2)] = Some t /\
    btree_size t = 1 /\
    fst (fst (btree_search t 42 true)) = BTREE_OK /\
    snd (btree_search t 42 true) = Some 2.
Proof.
  eexists. split; [vm_compute; reflexivity|]. repeat split; vm_compute; reflexivity.
Qed.

(** [test_min_order_tree]: the keys 1 .. 20, order 3, are all found. *)
Example test_min_order_tree :
  exists t,
    build 3 (key_run 1 20) = Some t /\
    forallb (btree_contains t) (zrange 1 20) = true.
Proof.
  eexists. split; [vm_compute; reflexivity|]. vm_compute. reflexivity.
Qed.

(** [test_large_order_tree]: the keys 1 .. 1000, order 256. *)
Example test_large_order_tree :
  exists t,
    build 256 (key_run 1 1000) = Some t /\
    btree_validate t = true /\ btree_height t = 2 /\
    height_bound 256 1000 = 3.
Proof.
  eexists. split; [vm_compute; reflexivity|]. repeat split; vm_compute; reflexivity.
Qed.

(** * Further properties of the code *)

(** ** Keys of the nodes that [split_child] leaves *)

(** Case analysis on the integer comparisons of the goal. *)
Ltac zcases :=
  repeat match goal with
         | |- context [?a =? ?b] => destruct (Z.eqb_spec a b)
         | |- context [?a <? ?b] => destruct (Z.ltb_spec a b)
         | |- context [?a <=? ?b] => destruct (Z.leb_spec a b)
         end;
  cbn [andb orb negb].

Section SplitKeys.
Variable m : Z.
Hypothesis order_range : BTREE_MIN_ORDER <= m <= BTREE_MAX_ORDER.

Lemma split_left_key (child : btree_node_t) (i : Z) :
  key_at (split_left m child) i = key_at child i.
Proof. reflexivity. Qed.

Lemma split_right_key (h : nat) (lo : Z) (child : btree_node_t) (i : Z) :
  bt m h lo child -> num_keys child = m - 1 -> 0 <= i < min_fill m ->
  key_at (split_right m child) i = key_at child (split_mid m + 1 + i).
Proof.
  pose proof (split_mid_range m order_range) as Hmid.
  pose proof (split_mid_min_fill m order_range) as Hsum.
  intros Hbt Hfull Hi.
  pose proof (split_right_num_keys m order_range child Hfull) as Hnum.
  unfold key_at, split_right in *. cbn [keys num_keys] in *. rewrite Hnum.
  unfold BTREE_MIN_ORDER, BTREE_MAX_ORDER in *.
  rewrite copy_loop_get by (rewrite ?length_replicate; lia).
  zcases; try lia; reflexivity.
Qed.

Lemma split_parent_key (h : nat) (lo : Z) (parent : btree_node_t) (idx : Z)
    (child : btree_node_t) (j : Z) :
  bt m (S h) lo parent -> num_keys parent < m - 1 -> 0 <= idx <= num_keys parent ->
  key_at (split_parent m parent idx child) j =
  if j =? idx then key_at child (split_mid m)
  else if (idx <? j) && (j <=? num_keys parent) then key_at parent (j - 1)
       else key_at parent j.
Proof.
  intros Hbt Hroom Hidx.
  pose proof (bt_num_keys _ _ _ _ Hbt) as Hn.
  pose proof Hbt as (_ & Hk & _).
  unfold key_at, split_parent, BTREE_MIN_ORDER, BTREE_MAX_ORDER, btree_key_t in *.
  cbn [keys]. rewrite to_int_small by lia.
  rewrite arr_get_set by (rewrite shift_loop_length; lia).
  destruct (Z.eqb_spec j idx) as [->|Hne]; [reflexivity|].
  rewrite shift_loop_get by lia.
  replace (num_keys parent - 1 - Z.of_nat (Z.to_nat (num_keys parent - idx)) + 1)
    with idx by lia.
  replace (num_keys parent - 1 + 1) with (num_keys parent) by lia.
  reflexivity.
Qed.
End SplitKeys.

(** ** [split_child] keeps the keys in order *)

Lemma ordered_height_pos (h : nat) (lo hi : option btree_key_t) (n : btree_node_t) :
  ordered h lo hi n -> (1 <= h)%nat.
Proof. destruct h; cbn [ordered]; [tauto|lia]. Qed.

Section SplitOrdered.
Variable m : Z.
Hypothesis order_range : BTREE_MIN_ORDER <= m <= BTREE_MAX_ORDER.

Lemma split_left_ordered (h : nat) (lo : Z) (blo bhi : option btree_key_t)
    (child : btree_node_t) :
  bt m h lo child -> num_keys child = m - 1 -> ordered h blo bhi child ->
  ordered h blo (Some (key_at child (split_mid m))) (split_left m child).
Proof.
  pose proof (split_mid_range m order_range) as Hmid.
  intros Hbt Hfull Hord. destruct h as [|h]; [destruct Hord|].
  destruct Hord as (Hinc & Hbnd & Hkids).
  cbn [ordered]. replace (num_keys (split_left m child)) with (split_mid m) by reflexivity.
  replace (is_leaf (split_left m child)) with (is_leaf child) by reflexivity.
  replace (children (split_left m child)) with (children child) by reflexivity.
  split; [|split].
  - intros i Hi. rewrite !split_left_key. apply Hinc.
    change (num_keys (split_left m child)) with (split_mid m) in Hi. lia.
  - intros i Hi. rewrite split_left_key. destruct (Hbnd i ltac:(lia)) as [Hl _].
    split; [exact Hl|]. cbn. apply (keys_increasing_lt child Hinc); lia.
  - intros Hl i c Hi Hc. specialize (Hkids Hl i c ltac:(lia) Hc).
    unfold child_lo, child_hi in *. rewrite !split_left_key.
    change (num_keys (split_left m child)) with (split_mid m).
    destruct (Z.eqb_spec i (num_keys child)); [lia|].
    destruct (Z.eqb_spec i (split_mid m)) as [->|]; exact Hkids.
Qed.

Lemma split_right_ordered (h : nat) (lo : Z) (blo bhi : option btree_key_t)
    (child : btree_node_t) :
  bt m h lo child -> num_keys child = m - 1 -> ordered h blo bhi child ->
  ordered h (Some (key_at child (split_mid m))) bhi (split_right m child).
Proof.
  pose proof (split_mid_range m order_range) as Hmid.
  pose proof (split_mid_min_fill m order_range) as Hsum.
  intros Hbt Hfull Hord.
  pose proof (split_right_num_keys m order_range child Hfull) as Hnum.
  pose proof (split_right_key m order_range h lo child) as Hkey.
  pose proof (split_right_child m order_range child) as Hchild.
  destruct h as [|h]; [destruct Hord|].
  destruct Hord as (Hinc & Hbnd & Hkids).
  cbn [ordered]. rewrite Hnum.
  replace (is_leaf (split_right m child)) with (is_leaf child) by reflexivity.
  split; [|split].
  - intros i Hi. rewrite Hnum in Hi. rewrite !Hkey by (auto; lia).
    replace (split_mid m + 1 + (i - 1)) with (split_mid m + 1 + i - 1) by lia.
    apply Hinc. lia.
  - intros i Hi. rewrite Hkey by (auto; lia).
    destruct (Hbnd (split_mid m + 1 + i) ltac:(lia)) as [_ Hu].
    split; [|exact Hu]. cbn. apply (keys_increasing_lt child Hinc); lia.
  - intros Hl i c Hi Hc. rewrite Hchild in Hc by (auto; lia).
    specialize (Hkids Hl (split_mid m + 1 + i) c ltac:(lia) Hc).
    unfold child_lo, child_hi in *. rewrite Hnum.
    destruct (Z.eqb_spec (split_mid m + 1 + i) 0); [lia|].
    replace (split_mid m + 1 + i - 1) with (split_mid m + i) in Hkids by lia.
    assert (Hlo : (if i =? 0 then Some (key_at child (split_mid m))
                   else Some (key_at (split_right m child) (i - 1))) =
                  Some (key_at child (split_mid m + i))).
    { destruct (Z.eqb_spec i 0) as [->|]; [do 2 f_equal; lia|].
      rewrite Hkey by (auto; lia). do 2 f_equal. lia. }
    assert (Hhi : (if i =? min_fill m then bhi
                   else Some (key_at (split_right m child) i)) =
                  (if split_mid m + 1 + i =? num_keys child then bhi
                   else Some (key_at child (split_mid m + 1 + i)))).
    { destruct (Z.eqb_spec i (min_fill m)), (Z.eqb_spec (split_mid m + 1 + i) (num_keys child));
        try lia; [reflexivity|]. rewrite Hkey by (auto; lia). reflexivity. }
    rewrite Hlo, Hhi. exact Hkids.
Qed.

Variables (h : nat) (lo : Z) (plo phi : option btree_key_t)
          (parent : btree_node_t) (idx : Z) (child : btree_node_t).
Hypothesis parent_bt : bt m (S h) lo parent.
Hypothesis parent_internal : is_leaf parent = false.
Hypothesis parent_room : num_keys parent < m - 1.
Hypothesis idx_range : 0 <= idx <= num_keys parent.
Hypothesis child_at : arr_get None (children parent) idx = Some child.
Hypothesis child_full : num_keys child = m - 1.
Hypothesis parent_ordered : ordered (S h) plo phi parent.

(** The promoted key lies between its new neighbours in the parent and
    within the bounds of the parent. *)
Lemma promoted_key_bounds :
  let s := key_at child (split_mid m) in
  in_bounds (child_lo parent plo idx) (child_hi parent phi idx) s /\
  in_bounds plo phi s.
Proof.
  pose proof (split_mid_range m order_range) as Hmid.
  pose proof (bt_num_keys _ _ _ _ parent_bt) as Hn.
  destruct parent_ordered as (Hinc & Hbnd & Hkids).
  specialize (Hkids parent_internal idx child idx_range child_at).
  destruct h as [|h']; [destruct Hkids|].
  destruct Hkids as (_ & Hcb & _). cbn zeta.
  specialize (Hcb (split_mid m) ltac:(lia)).
  split; [exact Hcb|].
  destruct Hcb as [Hl Hu]. unfold child_lo, child_hi in *. split.
  - destruct (Z.eqb_spec idx 0); [exact Hl|].
    destruct (Hbnd (idx - 1) ltac:(lia)) as [Hl' _].
    destruct plo; [cbn in *; lia|exact I].
  - destruct (Z.eqb_spec idx (num_keys parent)); [exact Hu|].
    destruct (Hbnd idx ltac:(lia)) as [_ Hu'].
    destruct phi; [cbn in *; lia|exact I].
Qed.

Lemma split_parent_ordered :
  ordered (S h) plo phi (split_parent m parent idx child).
Proof.
  pose proof (split_mid_range m order_range) as Hmid.
  pose proof (bt_num_keys _ _ _ _ parent_bt) as Hn.
  pose proof (split_parent_num_keys m order_range h lo parent idx child parent_bt parent_room)
    as Hnum.
  pose proof (split_parent_children m order_range h lo parent idx child parent_bt
                parent_internal parent_room idx_range) as Hch.
  pose proof (fun j => split_parent_key m order_range h lo parent idx child j parent_bt parent_room
                         idx_range) as Hkey.
  pose proof promoted_key_bounds as [Hsb Hsp]. cbn zeta in Hsb, Hsp.
  destruct (bt_child m h lo parent idx parent_bt parent_internal idx_range)
    as (c0 & Hc0 & Hcbt).
  rewrite child_at in Hc0. injection Hc0 as <-.
  pose proof parent_ordered as (Hinc & Hbnd & Hkids).
  specialize (Hkids parent_internal).
  pose proof (Hkids idx child idx_range child_at) as Hcord.
  set (s := key_at child (split_mid m)) in *.
  set (P := split_parent m parent idx child) in *.
  assert (Hlo_s : idx <> 0 -> key_at parent (idx - 1) < s).
  { intros H0. destruct Hsb as [Hl _]. unfold child_lo in Hl.
    destruct (Z.eqb_spec idx 0); [contradiction|exact Hl]. }
  assert (Hhi_s : idx <> num_keys parent -> s < key_at parent idx).
  { intros H0. destruct Hsb as [_ Hu]. unfold child_hi in Hu.
    destruct (Z.eqb_spec idx (num_keys parent)); [contradiction|exact Hu]. }
  cbn [ordered]. rewrite Hnum.
  replace (is_leaf P) with (is_leaf parent) by reflexivity.
  split; [|split].
  - (* increasing *)
    intros i Hi. rewrite !Hkey.
    destruct (Z.eqb_spec i idx) as [->|Hne1].
    + destruct (Z.eqb_spec (idx - 1) idx); [lia|].
      destruct (Z.ltb_spec idx (idx - 1)); [lia|]. cbn [andb]. apply Hlo_s. lia.
    + destruct (Z.eqb_spec (i - 1) idx) as [He|Hne2].
      * assert (i = idx + 1) by lia. subst i.
        destruct (Z.ltb_spec idx (idx + 1)); [|lia].
        destruct (Z.leb_spec (idx + 1) (num_keys parent)); [|lia]. cbn [andb].
        replace (idx + 1 - 1) with idx by lia. apply Hhi_s. lia.
      * destruct (Z.ltb_spec idx i), (Z.leb_spec i (num_keys parent)),
          (Z.ltb_spec idx (i - 1)), (Z.leb_spec (i - 1) (num_keys parent));
          cbn [andb]; try lia.
        -- replace (i - 1 - 1) with (i - 1 - 1) by lia. apply Hinc. lia.
        -- apply Hinc. lia.
  - (* bounds *)
    intros i Hi. rewrite Hkey.
    destruct (Z.eqb_spec i idx); [exact Hsp|].
    destruct (Z.ltb_spec idx i), (Z.leb_spec i (num_keys parent)); cbn [andb];
      try lia; apply Hbnd; lia.
  - (* children *)
    intros _ i c Hi Hc. rewrite Hch in Hc.
    unfold child_lo, child_hi. rewrite Hnum, !Hkey.
    destruct (Z.eqb_spec i idx) as [->|Hne1].
    + injection Hc as <-.
      destruct (Z.eqb_spec idx (num_keys parent + 1)); [lia|].
      assert (Hl : (if idx =? 0 then plo
                    else Some (if idx - 1 =? idx then s
                               else if (idx <? idx - 1) && (idx - 1 <=? num_keys parent)
                                    then key_at parent (idx - 1 - 1)
                                    else key_at parent (idx - 1))) =
                   child_lo parent plo idx).
      { unfold child_lo. destruct (Z.eqb_spec idx 0); [reflexivity|].
        destruct (Z.eqb_spec (idx - 1) idx); [lia|].
        destruct (Z.ltb_spec idx (idx - 1)); [lia|]. reflexivity. }
      rewrite Hl. now apply (split_left_ordered h (min_fill m) _ (child_hi parent phi idx)).
    + destruct (Z.eqb_spec i (idx + 1)) as [->|Hne2].
      * injection Hc as <-.
        destruct (Z.eqb_spec (idx + 1) 0); [lia|].
        replace (idx + 1 - 1) with idx by lia. rewrite Z.eqb_refl.
        assert (Hu : (if idx + 1 =? num_keys parent + 1 then phi
                      else Some (if (idx <? idx + 1) && (idx + 1 <=? num_keys parent)
                                 then key_at parent idx else key_at parent (idx + 1))) =
                     child_hi parent phi idx).
        { unfold child_hi.
          destruct (Z.eqb_spec (idx + 1) (num_keys parent + 1)),
            (Z.eqb_spec idx (num_keys parent)); try lia; [reflexivity|].
          destruct (Z.ltb_spec idx (idx + 1)); [|lia].
          destruct (Z.leb_spec (idx + 1) (num_keys parent)); [|lia]. reflexivity. }
        rewrite Hu.
        now apply (split_right_ordered h (min_fill m) (child_lo parent plo idx)).
      * destruct (Z.ltb_spec (idx + 1) i) as [Hgt|Hlt];
          destruct (Z.leb_spec i (num_keys parent + 1)) as [Hle|Hgt']; cbn [andb] in Hc;
          try lia.
        -- (* right of the new sibling: the child that stood at [i - 1] *)
           specialize (Hkids (i - 1) c ltac:(lia) Hc).
           unfold child_lo, child_hi in Hkids.
           destruct (Z.eqb_spec (i - 1) 0); [lia|].
           destruct (Z.eqb_spec i 0); [lia|].
           destruct (Z.eqb_spec (i - 1) idx); [lia|].
           destruct (Z.ltb_spec idx (i - 1)); [|lia].
           destruct (Z.leb_spec (i - 1) (num_keys parent)); [|lia]. cbn [andb].
           destruct (Z.ltb_spec idx i); [|lia].
           destruct (Z.eqb_spec i (num_keys parent + 1)), (Z.eqb_spec (i - 1) (num_keys parent));
             try lia; [exact Hkids|].
           destruct (Z.leb_spec i (num_keys parent)); [|lia]. cbn [andb]. exact Hkids.
        -- (* left of the split child *)
           specialize (Hkids i c ltac:(lia) Hc).
           unfold child_lo, child_hi in Hkids.
           destruct (Z.eqb_spec i (num_keys parent)); [lia|].
           destruct (Z.eqb_spec i (num_keys parent + 1)); [lia|].
           destruct (Z.ltb_spec idx i); [lia|]. cbn [andb].
           destruct (Z.eqb_spec i 0); [exact Hkids|].
           destruct (Z.eqb_spec (i - 1) idx); [lia|].
           destruct (Z.ltb_spec idx (i - 1)); [lia|]. cbn [andb]. exact Hkids.
Qed.
End SplitOrdered.

(** ** [split_child] keeps the set of keys *)

Section SplitKeySet.
Variable m : Z.
Hypothesis order_range : BTREE_MIN_ORDER <= m <= BTREE_MAX_ORDER.

Lemma node_has_key_split (h : nat) (lo : Z) (child : btree_node_t) (x : btree_key_t) :
  bt m h lo child -> num_keys child = m - 1 ->
  (node_has_key child x <->
   node_has_key (split_left m child) x \/ x = key_at child (split_mid m) \/
   node_has_key (split_right m child) x).
Proof.
  pose proof (split_mid_range m order_range) as Hmid.
  pose proof (split_mid_min_fill m order_range) as Hsum.
  intros Hbt Hfull.
  pose proof (split_right_num_keys m order_range child Hfull) as Hnum.
  pose proof (split_right_key m order_range h lo child) as Hkey.
  unfold node_has_key. rewrite Hnum.
  change (num_keys (split_left m child)) with (split_mid m). split.
  - intros (i & Hi & Hx).
    destruct (Z_lt_le_dec i (split_mid m)) as [Hlt|Hge]; [left; exists i; split; [lia|exact Hx]|].
    destruct (Z.eq_dec i (split_mid m)) as [->|Hne]; [right; left; congruence|].
    right; right. exists (i - split_mid m - 1). split; [lia|].
    rewrite Hkey by (auto; lia). rewrite <- Hx. f_equal. lia.
  - intros [(i & Hi & Hx)|[->|(i & Hi & Hx)]].
    + exists i. split; [lia|exact Hx].
    + exists (split_mid m). split; [lia|reflexivity].
    + exists (split_mid m + 1 + i). split; [lia|]. rewrite <- Hkey by (auto; lia). exact Hx.
Qed.

Lemma key_in_split (h : nat) (lo : Z) (child : btree_node_t) (x : btree_key_t) :
  bt m h lo child -> num_keys child = m - 1 ->
  (key_in h child x <->
   key_in h (split_left m child) x \/ x = key_at child (split_mid m) \/
   key_in h (split_right m child) x).
Proof.
  pose proof (split_mid_range m order_range) as Hmid.
  pose proof (split_mid_min_fill m order_range) as Hsum.
  intros Hbt Hfull.
  pose proof (split_right_num_keys m order_range child Hfull) as Hnum.
  pose proof (fun i => split_right_child m order_range child i Hfull) as Hchild.
  pose proof (node_has_key_split h lo child x Hbt Hfull) as Hhas.
  destruct h as [|h]; [destruct Hbt|].
  cbn [key_in]. rewrite Hnum.
  change (num_keys (split_left m child)) with (split_mid m).
  change (is_leaf (split_left m child)) with (is_leaf child).
  change (is_leaf (split_right m child)) with (is_leaf child).
  change (children (split_left m child)) with (children child).
  split.
  - intros [Hk|(Hl & i & c & Hi & Hc & Hin)].
    + apply Hhas in Hk. tauto.
    + destruct (Z_le_gt_dec i (split_mid m)) as [Hle|Hgt].
      * left. right. split; [exact Hl|]. exists i, c. split; [lia|tauto].
      * right. right. right. split; [exact Hl|]. exists (i - split_mid m - 1), c.
        split; [lia|]. split; [|exact Hin]. rewrite Hchild by (auto; lia).
        rewrite <- Hc. f_equal. lia.
  - intros [[Hk|(Hl & i & c & Hi & Hc & Hin)]|[Hs|[Hk|(Hl & i & c & Hi & Hc & Hin)]]].
    + left. apply Hhas. tauto.
    + right. split; [exact Hl|]. exists i, c. split; [lia|tauto].
    + left. apply Hhas. tauto.
    + left. apply Hhas. tauto.
    + right. split; [exact Hl|]. exists (split_mid m + 1 + i), c. split; [lia|].
      rewrite Hchild in Hc by (auto; lia). tauto.
Qed.

Variables (h : nat) (lo : Z) (parent : btree_node_t) (idx : Z) (child : btree_node_t).
Hypothesis parent_bt : bt m (S h) lo parent.
Hypothesis parent_internal : is_leaf parent = false.
Hypothesis parent_room : num_keys parent < m - 1.
Hypothesis idx_range : 0 <= idx <= num_keys parent.
Hypothesis child_at : arr_get None (children parent) idx = Some child.
Hypothesis child_full : num_keys child = m - 1.

Lemma node_has_key_split_parent (x : btree_key_t) :
  node_has_key (split_parent m parent idx child) x <->
  node_has_key parent x \/ x = key_at child (split_mid m).
Proof.
  pose proof (bt_num_keys _ _ _ _ parent_bt) as Hn.
  pose proof (split_parent_num_keys m order_range h lo parent idx child parent_bt parent_room)
    as Hnum.
  pose proof (fun j => split_parent_key m order_range h lo parent idx child j parent_bt
                         parent_room idx_range) as Hkey.
  unfold node_has_key. rewrite Hnum. split.
  - intros (i & Hi & Hx). rewrite Hkey in Hx.
    destruct (Z.eqb_spec i idx); [right; congruence|]. left.
    destruct (Z.ltb_spec idx i), (Z.leb_spec i (num_keys parent)); cbn [andb] in Hx;
      try lia; [exists (i - 1)|exists i]; (split; [lia|exact Hx]).
  - intros [(i & Hi & Hx)| ->].
    + destruct (Z_lt_le_dec i idx) as [Hlt|Hge].
      * exists i. split; [lia|]. rewrite Hkey.
        destruct (Z.eqb_spec i idx); [lia|]. destruct (Z.ltb_spec idx i); [lia|].
        exact Hx.
      * exists (i + 1). split; [lia|]. rewrite Hkey.
        destruct (Z.eqb_spec (i + 1) idx); [lia|]. destruct (Z.ltb_spec idx (i + 1)); [|lia].
        destruct (Z.leb_spec (i + 1) (num_keys parent)); [|lia]. cbn [andb].
        replace (i + 1 - 1) with i by lia. exact Hx.
    + exists idx. split; [lia|]. rewrite Hkey. now rewrite Z.eqb_refl.
Qed.

Lemma key_in_split_parent (x : btree_key_t) :
  key_in (S h) (split_parent m parent idx child) x <-> key_in (S h) parent x.
Proof.
  pose proof (bt_num_keys _ _ _ _ parent_bt) as Hn.
  pose proof (split_parent_num_keys m order_range h lo parent idx child parent_bt parent_room)
    as Hnum.
  pose proof (split_parent_children m order_range h lo parent idx child parent_bt
                parent_internal parent_room idx_range) as Hch.
  destruct (bt_child m h lo parent idx parent_bt parent_internal idx_range)
    as (c0 & Hc0 & Hcbt).
  rewrite child_at in Hc0. injection Hc0 as <-.
  pose proof (key_in_split h (min_fill m) child x Hcbt child_full) as Hsplit.
  pose proof (node_has_key_split_parent x) as Hhas.
  cbn [key_in]. rewrite Hnum.
  change (is_leaf (split_parent m parent idx child)) with (is_leaf parent).
  split.
  - intros [Hk|(Hl & i & c & Hi & Hc & Hin)].
    + apply Hhas in Hk as [Hk| ->]; [now left|].
      right. split; [exact parent_internal|]. exists idx, child.
      split; [lia|]. split; [exact child_at|]. apply Hsplit. tauto.
    + right. split; [exact Hl|]. rewrite Hch in Hc.
      destruct (Z.eqb_spec i idx) as [->|Hne1].
      { injection Hc as <-. exists idx, child. split; [lia|]. split; [exact child_at|].
        apply Hsplit. tauto. }
      destruct (Z.eqb_spec i (idx + 1)) as [->|Hne2].
      { injection Hc as <-. exists idx, child. split; [lia|]. split; [exact child_at|].
        apply Hsplit. tauto. }
      destruct (Z.ltb_spec (idx + 1) i), (Z.leb_spec i (num_keys parent + 1));
        cbn [andb] in Hc; try lia; [exists (i - 1), c|exists i, c]; (split; [lia|tauto]).
  - intros [Hk|(Hl & i & c & Hi & Hc & Hin)].
    + left. apply Hhas. tauto.
    + destruct (Z.eq_dec i idx) as [->|Hne].
      * rewrite child_at in Hc. injection Hc as <-.
        apply Hsplit in Hin as [Hin|[Hs|Hin]].
        -- right. split; [exact Hl|]. exists idx, (split_left m child).
           split; [lia|]. split; [|exact Hin]. rewrite Hch. now rewrite Z.eqb_refl.
        -- left. apply Hhas. tauto.
        -- right. split; [exact Hl|]. exists (idx + 1), (split_right m child).
           split; [lia|]. split; [|exact Hin]. rewrite Hch.
           destruct (Z.eqb_spec (idx + 1) idx); [lia|]. now rewrite Z.eqb_refl.
      * right. split; [exact Hl|].
        destruct (Z_lt_le_dec i idx) as [Hlt|Hge].
        -- exists i, c. split; [lia|]. split; [|exact Hin]. rewrite Hch.
           destruct (Z.eqb_spec i idx); [lia|]. destruct (Z.eqb_spec i (idx + 1)); [lia|].
           destruct (Z.ltb_spec (idx + 1) i); [lia|]. exact Hc.
        -- exists (i + 1), c. split; [lia|]. split; [|exact Hin]. rewrite Hch.
           destruct (Z.eqb_spec (i + 1) idx); [lia|].
           destruct (Z.eqb_spec (i + 1) (idx + 1)); [lia|].
           destruct (Z.ltb_spec (idx + 1) (i + 1)); [|lia].
           destruct (Z.leb_spec (i + 1) (num_keys parent + 1)); [|lia]. cbn [andb].
           replace (i + 1 - 1) with i by lia. exact Hc.
Qed.
End SplitKeySet.

(** ** A leaf that receives a key *)

Lemma leaf_insert_key (m : Z) (lo : Z) (n : btree_node_t) (pos : Z) (k : btree_key_t)
    (vs : list btree_value_t) (j : Z) :
  BTREE_MIN_ORDER <= m <= BTREE_MAX_ORDER ->
  bt m 1 lo n -> num_keys n < m - 1 -> 0 <= pos <= num_keys n ->
  key_at (mk_node (arr_set (shift_loop 0 (keys n) (to_int (num_keys n) - 1)
                              (Z.to_nat (to_int (num_keys n) - pos))) pos k)
                  vs (children n) (u32 (num_keys n + 1)) (is_leaf n)) j =
  if j =? pos then k
  else if (pos <? j) && (j <=? num_keys n) then key_at n (j - 1) else key_at n j.
Proof.
  unfold BTREE_MIN_ORDER, BTREE_MAX_ORDER. intros Hm Hbt Hroom Hpos.
  pose proof (bt_num_keys _ _ _ _ Hbt) as Hn. pose proof Hbt as (_ & Hk & _).
  unfold key_at, btree_key_t in *. cbn [keys].
  rewrite to_int_small by lia.
  rewrite arr_get_set by (rewrite shift_loop_length; lia).
  destruct (Z.eqb_spec j pos); [reflexivity|].
  rewrite shift_loop_get by lia.
  replace (num_keys n - 1 - Z.of_nat (Z.to_nat (num_keys n - pos)) + 1) with pos by lia.
  replace (num_keys n - 1 + 1) with (num_keys n) by lia. reflexivity.
Qed.

Section LeafInsert.
Variables (m : Z) (lo : Z) (n n' : btree_node_t) (pos : Z) (k : btree_key_t).
Hypothesis order_range : BTREE_MIN_ORDER <= m <= BTREE_MAX_ORDER.
Hypothesis leaf_bt : bt m 1 lo n.
Hypothesis leaf_room : num_keys n < m - 1.
Hypothesis pos_range : 0 <= pos <= num_keys n.
Hypothesis below : forall i, 0 <= i < pos -> key_at n i < k.
Hypothesis above : forall i, pos <= i < num_keys n -> k < key_at n i.
Hypothesis new_num : num_keys n' = num_keys n + 1.
Hypothesis new_leaf : is_leaf n' = true.
Hypothesis new_keys : forall j,
  key_at n' j = if j =? pos then k
                else if (pos <? j) && (j <=? num_keys n) then key_at n (j - 1)
                     else key_at n j.

Lemma leaf_insert_has_key (x : btree_key_t) :
  node_has_key n' x <-> x = k \/ node_has_key n x.
Proof.
  unfold node_has_key. rewrite new_num. split.
  - intros (i & Hi & Hx). rewrite new_keys in Hx.
    destruct (Z.eqb_spec i pos); [left; congruence|]. right.
    destruct (Z.ltb_spec pos i), (Z.leb_spec i (num_keys n)); cbn [andb] in Hx; try lia;
      [exists (i - 1)|exists i]; (split; [lia|exact Hx]).
  - intros [->|(i & Hi & Hx)].
    + exists pos. split; [lia|]. rewrite new_keys. now rewrite Z.eqb_refl.
    + destruct (Z_lt_le_dec i pos) as [Hlt|Hge].
      * exists i. split; [lia|]. rewrite new_keys.
        destruct (Z.eqb_spec i pos); [lia|]. destruct (Z.ltb_spec pos i); [lia|]. exact Hx.
      * exists (i + 1). split; [lia|]. rewrite new_keys.
        destruct (Z.eqb_spec (i + 1) pos); [lia|]. destruct (Z.ltb_spec pos (i + 1)); [|lia].
        destruct (Z.leb_spec (i + 1) (num_keys n)); [|lia]. cbn [andb].
        replace (i + 1 - 1) with i by lia. exact Hx.
Qed.

Lemma leaf_insert_ordered (h : nat) (blo bhi : option btree_key_t) :
  ordered (S h) blo bhi n -> in_bounds blo bhi k -> ordered (S h) blo bhi n'.
Proof.
  intros (Hinc & Hbnd & _) Hk. cbn [ordered]. rewrite new_num, new_leaf.
  split; [|split; [|discriminate]].
  - intros i Hi. rewrite !new_keys.
    pose proof (keys_increasing_lt n Hinc) as Hlt.
    destruct (Z.eqb_spec i pos) as [->|Hne1].
    + destruct (Z.eqb_spec (pos - 1) pos); [lia|].
      destruct (Z.ltb_spec pos (pos - 1)); [lia|]. cbn [andb]. apply below. lia.
    + destruct (Z.eqb_spec (i - 1) pos) as [He|Hne2].
      * assert (i = pos + 1) by lia. subst i.
        destruct (Z.ltb_spec pos (pos + 1)); [|lia].
        destruct (Z.leb_spec (pos + 1) (num_keys n)); [|lia]. cbn [andb].
        replace (pos + 1 - 1) with pos by lia. apply above. lia.
      * destruct (Z.ltb_spec pos i), (Z.leb_spec i (num_keys n)),
          (Z.ltb_spec pos (i - 1)), (Z.leb_spec (i - 1) (num_keys n));
          cbn [andb]; try lia; apply Hlt; lia.
  - intros i Hi. rewrite new_keys.
    destruct (Z.eqb_spec i pos); [exact Hk|].
    destruct (Z.ltb_spec pos i), (Z.leb_spec i (num_keys n)); cbn [andb];
      try lia; apply Hbnd; lia.
Qed.
End LeafInsert.

(** ** A node that receives an updated child *)

Lemma ordered_set_child (m : Z) (h : nat) (lo : Z) (blo bhi : option btree_key_t)
    (n : btree_node_t) (p : Z) (c' : btree_node_t) :
  bt m (S h) lo n -> is_leaf n = false -> 0 <= p <= num_keys n ->
  ordered (S h) blo bhi n ->
  ordered h (child_lo n blo p) (child_hi n bhi p) c' ->
  ordered (S h) blo bhi (set_children n (arr_set (children n) p (Some c'))).
Proof.
  intros Hbt Hl Hp (Hinc & Hbnd & Hkids) Hc'.
  pose proof Hbt as (Hn & _ & Hrest). rewrite Hl in Hrest. destruct Hrest as (_ & Hlen & _).
  cbn [ordered]. split; [exact Hinc|]. split; [exact Hbnd|].
  intros _ i c Hi Hc. cbn [children set_children] in Hc.
  rewrite arr_get_set in Hc by lia.
  change (child_lo (set_children n _) blo i) with (child_lo n blo i).
  change (child_hi (set_children n _) bhi i) with (child_hi n bhi i).
  destruct (Z.eqb_spec i p) as [->|Hne].
  - injection Hc as <-. exact Hc'.
  - now apply Hkids.
Qed.

Lemma key_in_set_child (m : Z) (h : nat) (lo : Z) (n : btree_node_t) (p : Z)
    (c c' : btree_node_t) (k : btree_key_t) :
  bt m (S h) lo n -> is_leaf n = false -> 0 <= p <= num_keys n ->
  arr_get None (children n) p = Some c ->
  (forall x, key_in h c' x <-> x = k \/ key_in h c x) ->
  forall x, key_in (S h) (set_children n (arr_set (children n) p (Some c'))) x <->
            x = k \/ key_in (S h) n x.
Proof.
  intros Hbt Hl Hp Hc Hset x.
  pose proof Hbt as (Hn & _ & Hrest). rewrite Hl in Hrest. destruct Hrest as (_ & Hlen & _).
  cbn [key_in]. unfold set_children. cbn [num_keys is_leaf children].
  change (node_has_key (mk_node (keys n) (values n) _ (num_keys n) (is_leaf n)) x)
    with (node_has_key n x).
  split.
  - intros [Hk|(_ & i & d & Hi & Hd & Hin)]; [tauto|].
    rewrite arr_get_set in Hd by lia.
    destruct (Z.eqb_spec i p) as [->|Hne].
    + injection Hd as <-. apply Hset in Hin as [->|Hin]; [now left|].
      right. right. split; [exact Hl|]. exists p, c. tauto.
    + right. right. split; [exact Hl|]. exists i, d. tauto.
  - intros [->|[Hk|(_ & i & d & Hi & Hd & Hin)]].
    + right. split; [exact Hl|]. exists p, c'. split; [lia|].
      rewrite arr_get_set_eq by lia. split; [reflexivity|]. apply Hset. now left.
    + now left.
    + right. split; [exact Hl|].
      destruct (Z.eq_dec i p) as [->|Hne].
      * rewrite Hc in Hd. injection Hd as <-. exists p, c'. split; [lia|].
        rewrite arr_get_set_eq by lia. split; [reflexivity|]. apply Hset. now right.
      * exists i, d. split; [lia|]. rewrite arr_get_set_ne by congruence. tauto.
Qed.

(** A miss of the search primitive on a node with increasing keys. *)
Lemma tree_binary_search_miss (t : btree_t) (n : btree_node_t) (k : btree_key_t) :
  node_searchable n -> ~ node_has_key n k ->
  exists pos t1,
    tree_binary_search t n k = (pos, false, t1) /\
    0 <= pos <= num_keys n /\
    (forall i, 0 <= i < pos -> key_at n i < k) /\
    (forall i, pos <= i < num_keys n -> k < key_at n i).
Proof.
  intros [Hn Hs] Hno.
  pose proof (tree_binary_search_pure t n k) as Hp.
  pose proof (node_binary_search_post n k None Hn Hs) as Hpost.
  destruct (tree_binary_search t n k) as [[pos found] t1].
  destruct (node_binary_search n k None) as [[pos' found'] c].
  cbn [fst] in Hp. injection Hp as <- <-. cbn in Hpost.
  destruct Hpost as (Hpos & Hlow & Hhit). destruct found.
  - exfalso. apply Hno. exists pos. unfold key_at. split; [lia|tauto].
  - exists pos, t1. split; [reflexivity|]. split; [lia|]. split; assumption.
Qed.

(** ** Sums over the children around a split *)

Lemma nnodes_unfold (h : nat) (n : btree_node_t) :
  nnodes (S h) n =
  1 + if is_leaf n then 0
      else zsum (fun i => nnodes_ptr h (arr_get None (children n) i)) 0
             (Z.to_nat (num_keys n + 1)).
Proof. reflexivity. Qed.

Section SplitSums.
Variable m : Z.
Hypothesis order_range : BTREE_MIN_ORDER <= m <= BTREE_MAX_ORDER.
Variable G : option btree_node_t -> Z.

Lemma split_children_zsum (child : btree_node_t) :
  num_keys child = m - 1 -> is_leaf child = false ->
  zsum (fun i => G (arr_get None (children child) i)) 0 (Z.to_nat (num_keys child + 1)) =
  zsum (fun i => G (arr_get None (children (split_left m child)) i)) 0
    (Z.to_nat (num_keys (split_left m child) + 1)) +
  zsum (fun i => G (arr_get None (children (split_right m child)) i)) 0
    (Z.to_nat (num_keys (split_right m child) + 1)).
Proof.
  pose proof (split_mid_range m order_range) as Hmid.
  pose proof (split_mid_min_fill m order_range) as Hsum.
  intros Hfull Hl.
  pose proof (split_right_num_keys m order_range child Hfull) as Hnum.
  rewrite Hnum, Hfull.
  change (num_keys (split_left m child)) with (split_mid m).
  change (children (split_left m child)) with (children child).
  rewrite (zsum_split _ 0 (split_mid m + 1) (Z.to_nat (m - 1 + 1))) by lia.
  rewrite (zsum_ext (fun i => G (arr_get None (children (split_right m child)) i))
             (fun i => G (arr_get None (children child) (i + (split_mid m + 1))))).
  - rewrite (zsum_shift (fun i => G (arr_get None (children child) i))).
    replace (Z.to_nat (m - 1 + 1) - Z.to_nat (split_mid m + 1))%nat
      with (Z.to_nat (min_fill m + 1)) by lia.
    reflexivity.
  - intros i Hi. rewrite (split_right_child m order_range) by (auto; lia).
    do 2 f_equal. lia.
Qed.

Variables (h : nat) (lo : Z) (parent : btree_node_t) (idx : Z) (child : btree_node_t).
Hypothesis parent_bt : bt m (S h) lo parent.
Hypothesis parent_internal : is_leaf parent = false.
Hypothesis parent_room : num_keys parent < m - 1.
Hypothesis idx_range : 0 <= idx <= num_keys parent.
Hypothesis child_at : arr_get None (children parent) idx = Some child.

Lemma split_parent_zsum :
  zsum (fun i => G (arr_get None (children (split_parent m parent idx child)) i)) 0
    (Z.to_nat (num_keys (split_parent m parent idx child) + 1)) =
  zsum (fun i => G (arr_get None (children parent) i)) 0 (Z.to_nat (num_keys parent + 1))
  - G (Some child) + G (Some (split_left m child)) + G (Some (split_right m child)).
Proof.
  pose proof (bt_num_keys _ _ _ _ parent_bt) as Hn.
  pose proof (split_parent_num_keys m order_range h lo parent idx child parent_bt parent_room)
    as Hnum.
  pose proof (split_parent_children m order_range h lo parent idx child parent_bt
                parent_internal parent_room idx_range) as Hch.
  rewrite Hnum.
  set (F := fun i => G (arr_get None (children parent) i)).
  set (F' := fun i => G (arr_get None (children (split_parent m parent idx child)) i)).
  rewrite (zsum_split F' 0 idx) by lia.
  rewrite (zsum_split F 0 idx (Z.to_nat (num_keys parent + 1))) by lia.
  rewrite (zsum_ext F' F (Z.to_nat idx)).
  2:{ intros i Hi. unfold F', F. rewrite Hch.
      destruct (Z.eqb_spec i idx); [lia|]. destruct (Z.eqb_spec i (idx + 1)); [lia|].
      destruct (Z.ltb_spec (idx + 1) i); [lia|]. reflexivity. }
  replace (Z.to_nat (num_keys parent + 1 + 1) - Z.to_nat idx)%nat
    with (S (S (Z.to_nat (num_keys parent - idx)))) by lia.
  replace (Z.to_nat (num_keys parent + 1) - Z.to_nat idx)%nat
    with (S (Z.to_nat (num_keys parent - idx))) by lia.
  cbn [zsum].
  rewrite (zsum_ext F' (fun i => F (i + -1)) (Z.to_nat (num_keys parent - idx))).
  2:{ intros i Hi. unfold F', F. rewrite Hch.
      destruct (Z.eqb_spec i idx); [lia|]. destruct (Z.eqb_spec i (idx + 1)); [lia|].
      destruct (Z.ltb_spec (idx + 1) i); [|lia].
      destruct (Z.leb_spec i (num_keys parent + 1)); [|lia].
      cbn [andb]. do 2 f_equal. }
  rewrite (zsum_shift F (-1)).
  replace (0 + idx + 1 + 1 + -1) with (0 + idx + 1) by lia.
  assert (HF : F (0 + idx) = G (Some child)).
  { unfold F. replace (0 + idx) with idx by lia. now rewrite child_at. }
  assert (HF1 : F' (0 + idx) = G (Some (split_left m child))).
  { unfold F'. rewrite Hch. replace (0 + idx) with idx by lia. now rewrite Z.eqb_refl. }
  assert (HF2 : F' (0 + idx + 1) = G (Some (split_right m child))).
  { unfold F'. rewrite Hch. replace (0 + idx + 1) with (idx + 1) by lia.
    destruct (Z.eqb_spec (idx + 1) idx); [lia|]. now rewrite Z.eqb_refl. }
  lia.
Qed.
End SplitSums.

Section SplitNodes.
Variable m : Z.
Hypothesis order_range : BTREE_MIN_ORDER <= m <= BTREE_MAX_ORDER.

Lemma split_nnodes (h : nat) (lo : Z) (child : btree_node_t) :
  bt m h lo child -> num_keys child = m - 1 ->
  nnodes h (split_left m child) + nnodes h (split_right m child) = nnodes h child + 1.
Proof.
  intros Hbt Hfull. destruct h as [|h]; [destruct Hbt|].
  rewrite !nnodes_unfold.
  change (is_leaf (split_left m child)) with (is_leaf child).
  change (is_leaf (split_right m child)) with (is_leaf child).
  destruct (is_leaf child) eqn:Hl; [lia|].
  rewrite (split_children_zsum m order_range (nnodes_ptr h) child Hfull Hl). lia.
Qed.

Lemma split_parent_nnodes (h : nat) (lo : Z) (parent : btree_node_t) (idx : Z)
    (child : btree_node_t) :
  bt m (S h) lo parent -> is_leaf parent = false -> num_keys parent < m - 1 ->
  0 <= idx <= num_keys parent -> arr_get None (children parent) idx = Some child ->
  num_keys child = m - 1 ->
  nnodes (S h) (split_parent m parent idx child) = nnodes (S h) parent + 1.
Proof.
  intros Hbt Hl Hroom Hidx Hc Hfull.
  destruct (bt_child m h lo parent idx Hbt Hl Hidx) as (c0 & Hc0 & Hcbt).
  rewrite Hc in Hc0. injection Hc0 as <-.
  pose proof (split_nnodes h (min_fill m) child Hcbt Hfull) as Hs.
  rewrite !nnodes_unfold.
  change (is_leaf (split_parent m parent idx child)) with (is_leaf parent). rewrite Hl.
  rewrite (split_parent_zsum m order_range (nnodes_ptr h) h lo parent idx child
             Hbt Hl Hroom Hidx Hc).
  cbn [nnodes_ptr]. lia.
Qed.
End SplitNodes.

(** ** Values next to the keys *)

Lemma value_in_key_in (h : nat) :
  forall n k v, value_in h n k v -> key_in h n k.
Proof.
  induction h as [|h IH]; intros n k v; cbn [value_in key_in]; [tauto|].
  intros [(Hl & i & Hi & Hk & _)|(Hl & i & c & Hi & Hc & Hin)].
  - left. exists i. tauto.
  - right. split; [exact Hl|]. exists i, c. eauto.
Qed.

Section SplitValues.
Variable m : Z.
Hypothesis order_range : BTREE_MIN_ORDER <= m <= BTREE_MAX_ORDER.

Lemma split_right_value (h : nat) (lo : Z) (child : btree_node_t) (i : Z) :
  bt m h lo child -> num_keys child = m - 1 -> is_leaf child = true ->
  0 <= i < min_fill m ->
  arr_get 0 (values (split_right m child)) i =
  arr_get 0 (values child) (split_mid m + 1 + i).
Proof.
  pose proof (split_mid_range m order_range) as Hmid.
  pose proof (split_mid_min_fill m order_range) as Hsum.
  intros Hbt Hfull Hl Hi.
  pose proof (split_right_num_keys m order_range child Hfull) as Hnum.
  unfold split_right in *. cbn [values num_keys] in *. rewrite Hl, Hnum.
  unfold BTREE_MIN_ORDER, BTREE_MAX_ORDER in *.
  rewrite copy_loop_get by (rewrite ?length_replicate; lia).
  zcases; try lia; reflexivity.
Qed.

Lemma value_in_split (h : nat) (lo : Z) (child : btree_node_t) (x : btree_key_t)
    (w : btree_value_t) :
  bt m h lo child -> num_keys child = m - 1 ->
  value_in h (split_left m child) x w \/ value_in h (split_right m child) x w ->
  value_in h child x w.
Proof.
  pose proof (split_mid_range m order_range) as Hmid.
  pose proof (split_mid_min_fill m order_range) as Hsum.
  intros Hbt Hfull.
  pose proof (split_right_num_keys m order_range child Hfull) as Hnum.
  pose proof (fun i => split_right_child m order_range child i Hfull) as Hchild.
  pose proof (fun i => split_right_key m order_range h lo child i Hbt Hfull) as Hkey.
  pose proof (fun i => split_right_value h lo child i Hbt Hfull) as Hval.
  destruct h as [|h]; [destruct Hbt|].
  cbn [value_in]. rewrite Hnum.
  change (num_keys (split_left m child)) with (split_mid m).
  change (is_leaf (split_left m child)) with (is_leaf child).
  change (is_leaf (split_right m child)) with (is_leaf child).
  change (children (split_left m child)) with (children child).
  change (values (split_left m child)) with (values child).
  intros [[(Hl & i & Hi & Hk & Hv)|(Hl & i & c & Hi & Hc & Hin)]
         |[(Hl & i & Hi & Hk & Hv)|(Hl & i & c & Hi & Hc & Hin)]].
  - left. split; [exact Hl|]. exists i. split; [lia|tauto].
  - right. split; [exact Hl|]. exists i, c. split; [lia|tauto].
  - left. split; [exact Hl|]. exists (split_mid m + 1 + i). split; [lia|].
    rewrite <- Hkey, <- Hval by (auto; lia). tauto.
  - right. split; [exact Hl|]. exists (split_mid m + 1 + i), c. split; [lia|].
    rewrite Hchild in Hc by (auto; lia). tauto.
Qed.

Lemma value_in_split_parent (h : nat) (lo : Z) (parent : btree_node_t) (idx : Z)
    (child : btree_node_t) (x : btree_key_t) (w : btree_value_t) :
  bt m (S h) lo parent -> is_leaf parent = false -> num_keys parent < m - 1 ->
  0 <= idx <= num_keys parent -> arr_get None (children parent) idx = Some child ->
  num_keys child = m - 1 ->
  value_in (S h) (split_parent m parent idx child) x w -> value_in (S h) parent x w.
Proof.
  intros Hbt Hl Hroom Hidx Hc Hfull.
  pose proof (bt_num_keys _ _ _ _ Hbt) as Hn.
  pose proof (split_parent_num_keys m order_range h lo parent idx child Hbt Hroom) as Hnum.
  pose proof (split_parent_children m order_range h lo parent idx child Hbt Hl Hroom Hidx)
    as Hch.
  destruct (bt_child m h lo parent idx Hbt Hl Hidx) as (c0 & Hc0 & Hcbt).
  rewrite Hc in Hc0. injection Hc0 as <-.
  pose proof (value_in_split h (min_fill m) child x w Hcbt Hfull) as Hsplit.
  cbn [value_in]. rewrite Hnum.
  change (is_leaf (split_parent m parent idx child)) with (is_leaf parent).
  intros [(Hl' & _)|(_ & i & c & Hi & Hci & Hin)]; [congruence|].
  right. split; [exact Hl|]. rewrite Hch in Hci.
  destruct (Z.eqb_spec i idx) as [->|Hne1].
  { injection Hci as <-. exists idx, child. split; [lia|]. split; [exact Hc|tauto]. }
  destruct (Z.eqb_spec i (idx + 1)) as [->|Hne2].
  { injection Hci as <-. exists idx, child. split; [lia|]. split; [exact Hc|tauto]. }
  destruct (Z.ltb_spec (idx + 1) i), (Z.leb_spec i (num_keys parent + 1));
    cbn [andb] in Hci; try lia; [exists (i - 1), c|exists i, c]; (split; [lia|tauto]).
Qed.
End SplitValues.

(** ** The cases of [insert_nonfull] *)

Lemma bt_searchable (m : Z) (h : nat) (lo : Z) (n : btree_node_t) :
  BTREE_MIN_ORDER <= m <= BTREE_MAX_ORDER -> bt m h lo n -> keys_increasing n ->
  node_searchable n.
Proof.
  unfold BTREE_MIN_ORDER, BTREE_MAX_ORDER. intros Hm Hbt Hinc.
  pose proof (bt_num_keys _ _ _ _ Hbt). split; [lia|exact Hinc].
Qed.

Lemma ordered_increasing (h : nat) (blo bhi : option btree_key_t) (n : btree_node_t) :
  ordered h blo bhi n -> keys_increasing n.
Proof. destruct h; cbn [ordered]; tauto. Qed.

Lemma key_in_leaf (n : btree_node_t) (h : nat) (x : btree_key_t) :
  is_leaf n = true -> (key_in (S h) n x <-> node_has_key n x).
Proof. intros Hl. cbn [key_in]. rewrite Hl. intuition discriminate. Qed.

Lemma insert_general_kept (h : nat) (t t1 t' : btree_t) (n n' : btree_node_t)
    (key : btree_key_t) (value : btree_value_t) :
  nodes_kept t t1 -> insert_general h t1 n key value t' n' ->
  insert_general h t n key value t' n'.
Proof.
  intros (_ & Hnc & Hkc & Hh & Hs) (G1 & G2 & G3 & G4 & G5 & G6 & G7).
  unfold insert_general. rewrite <- Hnc, <- Hkc, <- Hh, <- Hs. tauto.
Qed.

Section LeafCases.
Variables (m : Z) (lo : Z) (t : btree_t) (n : btree_node_t) (pos : Z)
          (key : btree_key_t) (value : btree_value_t).
Hypothesis order_range : BTREE_MIN_ORDER <= m <= BTREE_MAX_ORDER.
Hypothesis leaf_bt : bt m 1 lo n.
Hypothesis leaf : is_leaf n = true.

Lemma leaf_upsert_general :
  0 <= pos < num_keys n -> key_at n pos = key ->
  insert_general 1 t n key value t (set_values n (arr_set (values n) pos value)).
Proof.
  intros Hpos Hkey. pose proof (bt_num_keys _ _ _ _ leaf_bt) as Hn.
  pose proof leaf_bt as (_ & _ & Hrest). rewrite leaf in Hrest. destruct Hrest as [_ Hlen].
  unfold btree_value_t in *.
  set (n' := set_values n _).
  assert (Hhas : node_has_key n key) by (exists pos; tauto).
  unfold insert_general. split; [|split; [|split; [|split; [|split; [|split]]]]].
  - intros x. rewrite !key_in_leaf by exact leaf.
    change (node_has_key n' x) with (node_has_key n x).
    split; [tauto|]. intros [->|H]; assumption.
  - intros x w. cbn [value_in]. change (is_leaf n') with (is_leaf n).
    change (num_keys n') with (num_keys n).
    intros [(_ & i & Hi & Hk & Hv)|(Hl & _)]; [|congruence].
    change (key_at n' i) with (key_at n i) in Hk.
    unfold n' in Hv. cbn [values set_values] in Hv. rewrite arr_get_set in Hv by lia.
    destruct (Z.eqb_spec i pos) as [->|Hne]; [left; split; congruence|].
    right. left. split; [exact leaf|]. exists i. tauto.
  - cbn [value_in]. left. split; [exact leaf|]. exists pos. split; [exact Hpos|].
    split; [exact Hkey|]. unfold n'. cbn [values set_values]. apply arr_get_set_eq. lia.
  - exists 0%nat. rewrite Z.add_0_r. split; [reflexivity|]. split; reflexivity.
  - left. split; reflexivity.
  - intros Hno. exfalso. apply Hno. apply key_in_leaf; assumption.
  - reflexivity.
Qed.

Lemma leaf_upsert_ordered :
  0 <= pos < num_keys n -> key_at n pos = key ->
  insert_ordered 1 n key (set_values n (arr_set (values n) pos value)).
Proof.
  intros Hpos Hkey blo bhi _ _ Hno. exfalso. apply Hno.
  apply key_in_leaf; [exact leaf|]. exists pos. tauto.
Qed.

Hypothesis leaf_room : num_keys n < m - 1.
Hypothesis pos_range : 0 <= pos <= num_keys n.

Lemma grown_num_keys : num_keys (grown_leaf n pos key value) = num_keys n + 1.
Proof.
  pose proof (bt_num_keys _ _ _ _ leaf_bt).
  unfold grown_leaf, BTREE_MIN_ORDER, BTREE_MAX_ORDER in *. cbn [num_keys].
  apply u32_small. lia.
Qed.

Lemma grown_key (j : Z) :
  key_at (grown_leaf n pos key value) j =
                   if j =? pos then key
                   else if (pos <? j) && (j <=? num_keys n) then key_at n (j - 1)
                        else key_at n j.
Proof. apply (leaf_insert_key m lo); assumption. Qed.

Lemma grown_value (j : Z) :
  arr_get 0 (values (grown_leaf n pos key value)) j =
  if j =? pos then value
  else if (pos <? j) && (j <=? num_keys n) then arr_get 0 (values n) (j - 1)
       else arr_get 0 (values n) j.
Proof.
  pose proof (bt_num_keys _ _ _ _ leaf_bt) as Hn.
  pose proof leaf_bt as (_ & _ & Hrest). rewrite leaf in Hrest. destruct Hrest as [_ Hlen].
  unfold grown_leaf, BTREE_MIN_ORDER, BTREE_MAX_ORDER, btree_value_t in *. cbn [values].
  rewrite to_int_small by lia.
  rewrite arr_get_set by (rewrite shift_loop_length; lia).
  destruct (Z.eqb_spec j pos); [reflexivity|].
  rewrite shift_loop_get by lia.
  replace (num_keys n - 1 - Z.of_nat (Z.to_nat (num_keys n - pos)) + 1) with pos by lia.
  replace (num_keys n - 1 + 1) with (num_keys n) by lia. reflexivity.
Qed.

Lemma leaf_insert_general :
  insert_general 1 t n key value (set_stats t (upd_key_count incr64 (stats t)))
    (grown_leaf n pos key value).
Proof.
  pose proof (bt_num_keys _ _ _ _ leaf_bt) as Hn.
  pose proof grown_num_keys as Hnum. pose proof grown_key as Hkey.
  pose proof grown_value as Hval.
  assert (Hleaf : is_leaf (grown_leaf n pos key value) = true) by exact leaf.
  pose proof (leaf_insert_has_key n (grown_leaf n pos key value) pos key pos_range Hnum Hkey) as Hhas.
  unfold insert_general. split; [|split; [|split; [|split; [|split; [|split]]]]].
  - intros x. rewrite !key_in_leaf by assumption. apply Hhas.
  - intros x w. cbn [value_in]. rewrite Hleaf, leaf, Hnum.
    intros [(_ & i & Hi & Hk & Hv)|(Hl & _)]; [|discriminate].
    rewrite Hkey in Hk. rewrite Hval in Hv.
    destruct (Z.eqb_spec i pos); [left; split; congruence|]. right. left.
    split; [reflexivity|].
    destruct (Z.ltb_spec pos i), (Z.leb_spec i (num_keys n)); cbn [andb] in Hk, Hv;
      try lia; [exists (i - 1)|exists i]; (split; [lia|tauto]).
  - cbn [value_in]. left. split; [exact Hleaf|]. exists pos. rewrite Hnum, Hkey, Hval.
    rewrite Z.eqb_refl. split; [lia|tauto].
  - exists 0%nat. rewrite Z.add_0_r. split; [|split; reflexivity].
    cbn [nnodes]. now rewrite Hleaf, leaf.
  - right. split; [|reflexivity]. cbn [nkeys]. rewrite Hleaf, leaf, Hnum. lia.
  - intros _. cbn [nkeys]. rewrite Hleaf, leaf, Hnum. lia.
  - reflexivity.
Qed.

Lemma leaf_insert_ordered_step :
  (forall i, 0 <= i < pos -> key_at n i < key) ->
  (forall i, pos <= i < num_keys n -> key < key_at n i) ->
  forall blo bhi, ordered 1 blo bhi n -> in_bounds blo bhi key ->
                  ordered 1 blo bhi (grown_leaf n pos key value).
Proof.
  intros Hbelow Habove blo bhi Hord Hk.
  apply (leaf_insert_ordered n (grown_leaf n pos key value) pos key pos_range Hbelow Habove grown_num_keys
           leaf grown_key 0 blo bhi Hord Hk).
Qed.
End LeafCases.

Lemma nnodes_set_child (m : Z) (h : nat) (lo : Z) (n : btree_node_t) (p : Z)
    (c c' : btree_node_t) :
  bt m (S h) lo n -> is_leaf n = false -> 0 <= p <= num_keys n ->
  arr_get None (children n) p = Some c ->
  nnodes (S h) (set_children n (arr_set (children n) p (Some c'))) =
  nnodes (S h) n - nnodes h c + nnodes h c'.
Proof.
  intros Hbt Hl Hp Hc. pose proof Hbt as (Hn & Hk & Hrest).
  rewrite Hl in Hrest. destruct Hrest as (Hh & Hlen & Hkids).
  rewrite !nnodes_unfold. unfold set_children. cbn [num_keys keys is_leaf children].
  rewrite Hl.
  rewrite (zsum_update (fun i => nnodes_ptr h (arr_get None (children n) i)) _ p).
  - rewrite arr_get_set_eq by lia. rewrite Hc. cbn [nnodes_ptr]. lia.
  - lia.
  - intros i Hi. now rewrite arr_get_set_ne by congruence.
Qed.

Section Descend.
Variables (m : Z) (h : nat) (lo : Z) (nd : btree_node_t) (q : Z) (c c' : btree_node_t)
          (key : btree_key_t) (value : btree_value_t).
Hypothesis nd_bt : bt m (S h) lo nd.
Hypothesis nd_internal : is_leaf nd = false.
Hypothesis q_range : 0 <= q <= num_keys nd.
Hypothesis child_at : arr_get None (children nd) q = Some c.

Lemma descend_general (t t' : btree_t) :
  insert_general h t c key value t' c' ->
  insert_general (S h) t nd key value t'
    (set_children nd (arr_set (children nd) q (Some c'))).
Proof.
  intros (G1 & G2 & G3 & (d & Hnn & Hnc & Hsp) & G5 & G6 & G7).
  pose proof nd_bt as (Hn & _ & Hrest). rewrite nd_internal in Hrest.
  destruct Hrest as (_ & Hlen & _).
  pose proof (nkeys_set_child m h lo nd q c c' nd_bt nd_internal q_range child_at) as Hnk.
  pose proof (nnodes_set_child m h lo nd q c c' nd_bt nd_internal q_range child_at) as Hnd.
  set (final := set_children nd _) in *.
  assert (Hfinal_q : arr_get None (children final) q = Some c').
  { unfold final. cbn [children set_children]. apply arr_get_set_eq. lia. }
  assert (Hin_c : forall x, key_in h c x -> key_in (S h) nd x).
  { intros x Hx. right. split; [exact nd_internal|]. exists q, c. tauto. }
  unfold insert_general. split; [|split; [|split; [|split; [|split; [|split]]]]].
  - apply (key_in_set_child m h lo nd q c c' key nd_bt nd_internal q_range child_at G1).
  - intros x w. cbn [value_in]. change (is_leaf final) with (is_leaf nd).
    change (num_keys final) with (num_keys nd).
    intros [(Hl & _)|(_ & i & e & Hi & He & Hin)]; [congruence|].
    unfold final in He. cbn [children set_children] in He.
    rewrite arr_get_set in He by lia.
    destruct (Z.eqb_spec i q) as [->|Hne].
    + injection He as <-. apply G2 in Hin as [Hin|Hin]; [now left|].
      right. right. split; [exact nd_internal|]. exists q, c. tauto.
    + right. right. split; [exact nd_internal|]. exists i, e. tauto.
  - cbn [value_in]. right. split; [exact nd_internal|]. exists q, c'.
    split; [exact q_range|]. split; [exact Hfinal_q|exact G3].
  - exists d. split; [lia|]. split; assumption.
  - destruct G5 as [[H1 H2]|[H1 H2]]; [left|right]; (split; [lia|exact H2]).
  - intros Hno. assert (Hnc' : ~ key_in h c key) by (intros H; apply Hno, Hin_c, H).
    specialize (G6 Hnc'). lia.
  - exact G7.
Qed.

Lemma descend_ordered (blo bhi : option btree_key_t) :
  insert_ordered h c key c' ->
  ordered (S h) blo bhi nd -> ~ key_in (S h) nd key ->
  in_bounds (child_lo nd blo q) (child_hi nd bhi q) key ->
  ordered (S h) blo bhi (set_children nd (arr_set (children nd) q (Some c'))).
Proof.
  intros Hio Hord Hno Hb.
  apply (ordered_set_child m h lo blo bhi nd q c' nd_bt nd_internal q_range Hord).
  apply Hio; [|exact Hb|].
  - destruct Hord as (_ & _ & Hkids). now apply Hkids.
  - intros H. apply Hno. right. split; [exact nd_internal|]. exists q, c. tauto.
Qed.
End Descend.

Lemma u64_add_idemp (a d : Z) : u64 (u64 a + d) = u64 (a + d).
Proof. unfold u64. apply Zplus_mod_idemp_l. Qed.

Lemma split_general (m : Z) (h : nat) (lo : Z) (t1 t' : btree_t)
    (parent : btree_node_t) (idx : Z) (child final : btree_node_t)
    (key : btree_key_t) (value : btree_value_t) :
  BTREE_MIN_ORDER <= m <= BTREE_MAX_ORDER ->
  bt m (S h) lo parent -> is_leaf parent = false -> num_keys parent < m - 1 ->
  0 <= idx <= num_keys parent -> arr_get None (children parent) idx = Some child ->
  num_keys child = m - 1 ->
  insert_general (S h)
    (set_stats t1 (upd_splits incr64 (upd_node_count incr64 (stats t1))))
    (split_parent m parent idx child) key value t' final ->
  insert_general (S h) t1 parent key value t' final.
Proof.
  intros Hm Hbt Hl Hroom Hidx Hc Hfull
         (G1 & G2 & G3 & (d & Hnn & Hnc & Hsp) & G5 & G6 & G7).
  pose proof (key_in_split_parent m Hm h lo parent idx child Hbt Hl Hroom Hidx Hc Hfull)
    as Hkeys.
  pose proof (split_parent_nkeys m Hm h lo parent idx child Hbt Hl Hroom Hidx Hc Hfull)
    as Hnk.
  pose proof (split_parent_nnodes m Hm h lo parent idx child Hbt Hl Hroom Hidx Hc Hfull)
    as Hnd.
  cbn [stats set_stats node_count splits key_count height upd_splits upd_node_count]
    in Hnc, Hsp, G5, G7.
  unfold insert_general. split; [|split; [|split; [|split; [|split; [|split]]]]].
  - intros x. rewrite G1, Hkeys. tauto.
  - intros x w Hin. apply G2 in Hin as [Hin|Hin]; [now left|]. right.
    now apply (value_in_split_parent m Hm h lo parent idx child x w).
  - exact G3.
  - exists (S d). split; [lia|]. rewrite !Nat.iter_succ_r. split; assumption.
  - rewrite <- Hnk. exact G5.
  - intros Hno. rewrite <- Hnk. apply G6. intros H. apply Hno, Hkeys, H.
  - exact G7.
Qed.

Lemma descend_bounds (n : btree_node_t) (pos : Z) (key : btree_key_t)
    (blo bhi : option btree_key_t) :
  in_bounds blo bhi key -> 0 <= pos <= num_keys n ->
  (forall i, 0 <= i < pos -> key_at n i < key) ->
  (forall i, pos <= i < num_keys n -> key < key_at n i) ->
  in_bounds (child_lo n blo pos) (child_hi n bhi pos) key.
Proof.
  intros [Hlo Hhi] Hpos Hbelow Habove. unfold child_lo, child_hi. split.
  - destruct (Z.eqb_spec pos 0); [exact Hlo|]. apply Hbelow. lia.
  - destruct (Z.eqb_spec pos (num_keys n)); [exact Hhi|]. apply Habove. lia.
Qed.

Lemma split_descend_bounds (m : Z) (h : nat) (lo : Z) (parent : btree_node_t) (idx : Z)
    (child : btree_node_t) (key : btree_key_t) (blo bhi : option btree_key_t) :
  BTREE_MIN_ORDER <= m <= BTREE_MAX_ORDER ->
  bt m (S h) lo parent -> num_keys parent < m - 1 -> 0 <= idx <= num_keys parent ->
  in_bounds blo bhi key ->
  (forall i, 0 <= i < idx -> key_at parent i < key) ->
  (forall i, idx <= i < num_keys parent -> key < key_at parent i) ->
  key <> key_at child (split_mid m) ->
  in_bounds
    (child_lo (split_parent m parent idx child) blo
       (if key >? key_at (split_parent m parent idx child) idx then idx + 1 else idx))
    (child_hi (split_parent m parent idx child) bhi
       (if key >? key_at (split_parent m parent idx child) idx then idx + 1 else idx))
    key.
Proof.
  intros Hm Hbt Hroom Hidx [Hlo Hhi] Hbelow Habove Hne.
  pose proof (fun j => split_parent_key m Hm h lo parent idx child j Hbt Hroom Hidx) as Hkey.
  pose proof (split_parent_num_keys m Hm h lo parent idx child Hbt Hroom) as Hnum.
  unfold child_lo, child_hi. rewrite Hnum, (Hkey idx), Z.eqb_refl.
  destruct (Z.gtb_spec key (key_at child (split_mid m))) as [Hgt|Hle].
  - split.
    + destruct (Z.eqb_spec (idx + 1) 0); [lia|].
      replace (idx + 1 - 1) with idx by lia. rewrite Hkey, Z.eqb_refl. lia.
    + destruct (Z.eqb_spec (idx + 1) (num_keys parent + 1)); [exact Hhi|].
      rewrite Hkey. destruct (Z.eqb_spec (idx + 1) idx); [lia|].
      destruct (Z.ltb_spec idx (idx + 1)), (Z.leb_spec (idx + 1) (num_keys parent));
        try lia. cbn [andb]. replace (idx + 1 - 1) with idx by lia. apply Habove. lia.
  - split.
    + destruct (Z.eqb_spec idx 0); [exact Hlo|]. rewrite Hkey.
      destruct (Z.eqb_spec (idx - 1) idx); [lia|].
      destruct (Z.ltb_spec idx (idx - 1)); [lia|]. cbn [andb]. apply Hbelow. lia.
    + destruct (Z.eqb_spec idx (num_keys parent + 1)); [lia|].
      rewrite Hkey, Z.eqb_refl. lia.
Qed.

Lemma promoted_key_in (m : Z) (h : nat) (lo : Z) (parent : btree_node_t) (idx : Z)
    (child : btree_node_t) :
  BTREE_MIN_ORDER <= m <= BTREE_MAX_ORDER ->
  bt m (S h) lo parent -> num_keys parent < m - 1 -> 0 <= idx <= num_keys parent ->
  key_in (S h) (split_parent m parent idx child) (key_at child (split_mid m)).
Proof.
  intros Hm Hbt Hroom Hidx. cbn [key_in]. left. exists idx.
  rewrite (split_parent_num_keys m Hm h lo parent idx child Hbt Hroom).
  rewrite (split_parent_key m Hm h lo parent idx child idx Hbt Hroom Hidx), Z.eqb_refl.
  split; [lia|reflexivity].
Qed.

Section InsertFacts.
Variable m : Z.
Hypothesis order_range : BTREE_MIN_ORDER <= m <= BTREE_MAX_ORDER.

Lemma insert_nonfull_facts (fuel : nat) :
  forall h lo t n key value st t' n',
    order t = m -> bt m h lo n -> num_keys n < m - 1 ->
    insert_nonfull fuel t n key value = Some (st, t', n') ->
    insert_general h t n key value t' n' /\ insert_ordered h n key n'.
Proof.
  pose proof (split_mid_range m order_range) as Hmid.
  induction fuel as [|fuel IH]; intros h lo t n key value st t' n' Ht Hbt Hroom Hres.
  { discriminate Hres. }
  destruct h as [|h]; [destruct Hbt|].
  pose proof (bt_num_keys _ _ _ _ Hbt) as Hn.
  cbn [insert_nonfull] in Hres.
  pose proof (stats_step_trans _ _ _ (visit_step t)
                (tree_binary_search_step (visit t) n key)) as Hstep.
  pose proof (nodes_kept_trans _ _ _ (visit_kept t)
                (tree_binary_search_kept (visit t) n key)) as Hkept.
  pose proof (tree_binary_search_range (visit t) n key) as Hrange.
  pose proof (fun Hs Hno => tree_binary_search_miss (visit t) n key Hs Hno) as Hmiss.
  destruct (tree_binary_search (visit t) n key) as [[pos found] t1].
  cbn [snd fst] in Hstep, Hkept. destruct Hstep as (Ht1 & _). rewrite Ht in Ht1.
  unfold BTREE_MIN_ORDER, BTREE_MAX_ORDER in *.
  destruct Hrange as [Hpos Hfound]; [lia|].
  assert (Hmiss' : forall blo bhi, ordered (S h) blo bhi n -> ~ key_in (S h) n key ->
            found = false /\
            (forall i, 0 <= i < pos -> key_at n i < key) /\
            (forall i, pos <= i < num_keys n -> key < key_at n i)).
  { intros blo bhi Hord Hno.
    destruct Hmiss as (pos0 & t0 & Heq & _ & Hb & Ha).
    - apply (bt_searchable m (S h) lo); [exact order_range|exact Hbt|].
      apply (ordered_increasing _ _ _ _ Hord).
    - intros Hhas. apply Hno. cbn [key_in]. now left.
    - injection Heq as <- <- <-. tauto. }
  clear Hmiss.
  destruct (is_leaf n) eqn:Hl.
  - (* leaf *)
    assert (h = O) by (apply (bt_leaf_height _ _ _ _ Hbt) in Hl; lia). subst h.
    destruct found.
    + injection Hres as <- <- <-. specialize (Hfound eq_refl). split.
      * apply (insert_general_kept _ _ _ _ _ _ _ _ Hkept).
        apply (leaf_upsert_general m lo t1 n pos key value order_range Hbt Hl); [lia|tauto].
      * apply (leaf_upsert_ordered m n pos key value order_range Hl); [lia|tauto].
    + injection Hres as <- <- <-.
      match goal with
      | |- context [mk_node ?a ?b ?c ?d true] =>
          replace (mk_node a b c d true) with (grown_leaf n pos key value)
            by (unfold grown_leaf; rewrite Hl; reflexivity)
      end.
      split.
      * apply (insert_general_kept _ _ _ _ _ _ _ _ Hkept).
        apply (leaf_insert_general m lo t1 n pos key value order_range Hbt Hl Hroom Hpos).
      * intros blo bhi Hord Hb Hno.
        destruct (Hmiss' blo bhi Hord Hno) as (_ & Hbelow & Habove).
        apply (leaf_insert_ordered_step m lo n pos key value order_range Hbt Hl Hroom Hpos
                 Hbelow Habove blo bhi Hord Hb).
  - (* internal *)
    set (p := if found then pos + 1 else pos) in *.
    assert (Hp : 0 <= p <= num_keys n).
    { unfold p. destruct found; [specialize (Hfound eq_refl)|]; lia. }
    destruct (bt_child m h lo n p Hbt Hl Hp) as (child & Hchild & Hcbt).
    rewrite Hchild in Hres.
    pose proof (bt_num_keys _ _ _ _ Hcbt) as Hcn.
    rewrite Ht1, (u32_small (m - 1)) in Hres by lia.
    destruct (Z.eqb_spec (num_keys child) (m - 1)) as [Hfull|Hnot].
    + rewrite split_child_eq in Hres. cbn [negb status_eqb] in Hres.
      cbv iota beta in Hres. rewrite Ht1 in Hres.
      pose proof (split_parent_bt m order_range h lo n p child Hbt Hl Hroom Hp Hchild Hfull)
        as Hbt1.
      pose proof (split_parent_num_keys m order_range h lo n p child Hbt Hroom) as Hnum1.
      pose proof (split_parent_children m order_range h lo n p child Hbt Hl Hroom Hp) as Hch1.
      pose proof (split_right_num_keys m order_range child Hfull) as Hrn.
      pose proof (split_left_bt m order_range h _ child Hcbt Hfull) as Hlbt.
      pose proof (split_right_bt m order_range h _ child Hcbt Hfull) as Hrbt.
      change (arr_get 0 (keys (split_parent m n p child)) p)
        with (key_at (split_parent m n p child) p) in Hres.
      set (n1 := split_parent m n p child) in *.
      set (t2 := set_stats t1 _) in *.
      assert (Ht2 : order t2 = m) by exact Ht1.
      set (p' := if key >? key_at n1 p then p + 1 else p) in *.
      assert (Hl1 : is_leaf n1 = false) by exact Hl.
      assert (Hp' : 0 <= p' <= num_keys n1).
      { unfold p'. destruct (key >? key_at n1 p); lia. }
      destruct (bt_child m h lo n1 p' Hbt1 Hl1 Hp') as (c2 & Hc2 & Hc2bt).
      assert (Hc2room : num_keys c2 < m - 1).
      { unfold p' in Hc2. rewrite Hch1 in Hc2.
        destruct (key >? key_at n1 p).
        - destruct (Z.eqb_spec (p + 1) p); [lia|]. rewrite Z.eqb_refl in Hc2.
          injection Hc2 as <-. lia.
        - rewrite Z.eqb_refl in Hc2. injection Hc2 as <-. unfold split_left. cbn. lia. }
      rewrite Hc2 in Hres.
      destruct (insert_nonfull fuel t2 c2 key value) as [[[st0 t0] c0]|] eqn:Hrec;
        [|discriminate Hres].
      injection Hres as <- <- <-.
      destruct (IH h _ t2 c2 key value st0 t0 c0 Ht2 Hc2bt Hc2room Hrec) as [Hg Ho].
      split.
      * apply (insert_general_kept _ _ _ _ _ _ _ _ Hkept).
        apply (split_general m h lo t1 t0 n p child _ key value order_range Hbt Hl Hroom Hp
                 Hchild Hfull).
        apply (descend_general m h lo n1 p' c2 c0 key value Hbt1 Hl1 Hp' Hc2 t2 t0 Hg).
      * intros blo bhi Hord Hb Hno.
        destruct (Hmiss' blo bhi Hord Hno) as (Hf & Hbelow & Habove).
        assert (Hpp : p = pos) by (unfold p; now rewrite Hf).
        assert (Hno1 : ~ key_in (S h) n1 key).
        { intros H. apply Hno.
          now apply (key_in_split_parent m order_range h lo n p child Hbt Hl Hroom Hp
                       Hchild Hfull key). }
        apply (descend_ordered m h lo n1 p' c2 c0 key Hbt1 Hl1 Hp' Hc2 blo bhi Ho).
        -- apply (split_parent_ordered m order_range h lo blo bhi n p child Hbt Hl Hroom Hp
                    Hchild Hfull Hord).
        -- exact Hno1.
        -- apply (split_descend_bounds m h lo n p child key blo bhi order_range Hbt Hroom Hp
                    Hb); [rewrite Hpp; assumption|rewrite Hpp; assumption|].
           intros ->. apply Hno1.
           apply (promoted_key_in m h lo n p child order_range Hbt Hroom Hp).
    + cbn [negb status_eqb] in Hres. cbv iota beta in Hres. rewrite Hchild in Hres.
      destruct (insert_nonfull fuel t1 child key value) as [[[st0 t0] c0]|] eqn:Hrec;
        [|discriminate Hres].
      injection Hres as <- <- <-.
      assert (Hcroom : num_keys child < m - 1) by lia.
      destruct (IH h _ t1 child key value st0 t0 c0 Ht1 Hcbt Hcroom Hrec) as [Hg Ho].
      split.
      * apply (insert_general_kept _ _ _ _ _ _ _ _ Hkept).
        apply (descend_general m h lo n p child c0 key value Hbt Hl Hp Hchild t1 t0 Hg).
      * intros blo bhi Hord Hb Hno.
        destruct (Hmiss' blo bhi Hord Hno) as (Hf & Hbelow & Habove).
        assert (Hpp : p = pos) by (unfold p; now rewrite Hf).
        apply (descend_ordered m h lo n p child c0 key Hbt Hl Hp Hchild blo bhi Ho Hord Hno).
        rewrite Hpp. apply descend_bounds; try assumption.
Qed.
End InsertFacts.

(** ** [btree_insert] on a whole tree *)

Lemma incr64_iter (x : Z) (n : nat) :
  Nat.iter n incr64 (u64 x) = u64 (x + Z.of_nat n).
Proof.
  induction n as [|n IH].
  - change (Nat.iter 0 incr64 (u64 x)) with (u64 x). f_equal. lia.
  - change (Nat.iter (S n) incr64 (u64 x)) with (incr64 (Nat.iter n incr64 (u64 x))).
    rewrite IH. unfold incr64, u64.
    rewrite Zplus_mod_idemp_l. f_equal. lia.
Qed.

Lemma incr32_u32 (x : Z) : incr32 (u32 x) = u32 (x + 1).
Proof. unfold incr32, u32. now rewrite Zplus_mod_idemp_l. Qed.

Lemma new_root_facts (m : Z) (h : nat) (r : btree_node_t) :
  BTREE_MIN_ORDER <= m <= BTREE_MAX_ORDER ->
  let new_root := node_create m false in
  let new_root := set_children new_root (arr_set (children new_root) 0 (Some r)) in
  (forall x, key_in (S h) new_root x <-> key_in h r x) /\
  (forall x w, value_in (S h) new_root x w <-> value_in h r x w) /\
  nnodes (S h) new_root = 1 + nnodes h r /\
  (forall blo bhi, ordered h blo bhi r -> ordered (S h) blo bhi new_root).
Proof.
  intros Hm. unfold BTREE_MIN_ORDER, BTREE_MAX_ORDER in *. cbn zeta.
  assert (Hget : arr_get None (arr_set (replicate (Z.to_nat m) None) 0 (Some r)) 0 = Some r).
  { apply arr_get_set_eq. rewrite length_replicate. lia. }
  set (nr := set_children _ _).
  assert (Hnum : num_keys nr = 0) by reflexivity.
  assert (Hleaf : is_leaf nr = false) by reflexivity.
  assert (Hch : arr_get None (children nr) 0 = Some r) by exact Hget.
  split; [|split; [|split]].
  - intros x. cbn [key_in]. rewrite Hnum, Hleaf. split.
    + intros [(i & Hi & _)|(_ & i & c & Hi & Hc & Hin)]; [lia|].
      assert (i = 0) by lia. subst i. rewrite Hch in Hc. now injection Hc as <-.
    + intros Hin. right. split; [reflexivity|]. exists 0, r. split; [lia|tauto].
  - intros x w. cbn [value_in]. rewrite Hnum, Hleaf. split.
    + intros [(Hl & _)|(_ & i & c & Hi & Hc & Hin)]; [discriminate|].
      assert (i = 0) by lia. subst i. rewrite Hch in Hc. now injection Hc as <-.
    + intros Hin. right. split; [reflexivity|]. exists 0, r. split; [lia|tauto].
  - rewrite nnodes_unfold, Hnum, Hleaf. change (Z.to_nat (0 + 1)) with 1%nat.
    cbn [zsum]. rewrite Hch. cbn [nnodes_ptr]. lia.
  - intros blo bhi Hord. cbn [ordered]. rewrite Hnum, Hleaf.
    split; [intros i Hi; lia|]. split; [intros i Hi; lia|].
    intros _ i c Hi Hc. assert (i = 0) by lia. subst i. rewrite Hch in Hc.
    injection Hc as <-. exact Hord.
Qed.

Lemma btree_insert_effect (t : btree_t) (h : nat) (r : btree_node_t) (key : btree_key_t)
    (value : btree_value_t) :
  tree_shape t h r ->
  exists t' h' r',
    btree_insert t key value = Some (BTREE_OK, t') /\
    insert_effect t h r key value t' h' r'.
Proof.
  intros (Hm & Hmin & Hroot & Hbt & Hone).
  pose proof (split_mid_range _ Hm) as Hmid.
  pose proof (bt_num_keys _ _ _ _ Hbt) as Hn.
  unfold btree_insert. rewrite Hroot.
  set (t0 := if collect_stats t then _ else t).
  assert (Ht0 : order t0 = order t) by (unfold t0; destruct (collect_stats t); reflexivity).
  assert (Hmin0 : min_keys t0 = min_keys t)
    by (unfold t0; destruct (collect_stats t); reflexivity).
  assert (Hk0 : nodes_kept t t0).
  { unfold t0, nodes_kept. destruct (collect_stats t); cbn; tauto. }
  rewrite Ht0.
  set (m := order t) in *.
  assert (Hu : u32 (m - 1) = m - 1)
    by (unfold BTREE_MIN_ORDER, BTREE_MAX_ORDER in *; apply u32_small; lia).
  rewrite Hu.
  destruct (Z.eqb_spec (num_keys r) (m - 1)) as [Hfull|Hnot].
  - destruct (new_root_bt m h r Hm Hbt Hfull) as (Hbt0 & Hl0 & Hn0 & Hc0 & Hnk0).
    destruct (new_root_facts m h r Hm) as (Hki0 & Hvi0 & Hnn0 & Hord0).
    set (nr := set_children _ _) in *.
    rewrite split_child_eq. cbn [negb status_eqb]. cbv iota beta.
    change (order (set_stats _ _)) with (order (set_root t0 (Some nr))).
    change (order (set_root t0 (Some nr))) with (order t0). rewrite Ht0. fold m.
    assert (Hroom : num_keys nr < m - 1)
      by (unfold BTREE_MIN_ORDER, BTREE_MAX_ORDER in *; lia).
    assert (Hidx : 0 <= 0 <= num_keys nr) by lia.
    pose proof (split_parent_bt m Hm h 0 nr 0 r Hbt0 Hl0 Hroom Hidx Hc0 Hfull) as Hbt1.
    pose proof (split_parent_num_keys m Hm h 0 nr 0 r Hbt0 Hroom) as Hnum1.
    set (tA := set_stats (set_root t0 (Some nr)) _).
    assert (HncA : node_count (stats tA) = incr64 (node_count (stats t0))) by reflexivity.
    assert (HkcA : key_count (stats tA) = key_count (stats t0)) by reflexivity.
    assert (HhA : height (stats tA) = incr32 (height (stats t0))) by reflexivity.
    set (n1 := split_parent m nr 0 r) in *.
    set (t1 := set_stats tA _).
    assert (Ht1 : order t1 = m) by exact Ht0.
    destruct (insert_nonfull_bt m Hm (S (S (node_depth n1))) (S h) 0 t1 n1 key value Ht1 Hbt1)
      as (t' & n' & Hres & Hbt' & Hl' & Hnum' & Hnk').
    { unfold BTREE_MIN_ORDER, BTREE_MAX_ORDER in *. lia. }
    { pose proof (bt_depth _ _ _ _ Hbt1). lia. }
    rewrite Hres. exists (set_root t' (Some n')), (S h), n'. split; [reflexivity|].
    pose proof (insert_nonfull_step _ _ _ _ _ _ _ _ Hres) as (Ho & Hmk & _).
    destruct (insert_nonfull_facts m Hm _ (S h) 0 t1 n1 key value _ t' n' Ht1 Hbt1
                ltac:(unfold BTREE_MIN_ORDER, BTREE_MAX_ORDER in *; lia) Hres) as [Hg1 Ho1].
    pose proof (split_general m h 0 tA t' nr 0 r n' key value Hm Hbt0 Hl0 Hroom Hidx Hc0
                  Hfull Hg1) as (G1 & G2 & G3 & (d & Hnn & Hnc & Hsp) & G5 & G6 & G7).
    destruct Hk0 as (_ & Hnc0 & Hkc0 & Hh0 & _).
    unfold insert_effect, tree_shape. cbn [order min_keys root set_root stats].
    rewrite Ho, Hmk. change (order t1) with (order t0). change (min_keys t1) with (min_keys t0).
    rewrite Ht0, Hmin0. fold m.
    split; [split; [exact Hm|]; split; [exact Hmin|]; split; [reflexivity|];
            split; [exact Hbt'|]; lia|].
    split; [reflexivity|]. split; [now right|].
    split; [intros x; rewrite G1, Hki0; tauto|].
    split. { intros x w Hin. apply G2 in Hin as [Hin|Hin]; [now left|]. right.
             now apply Hvi0. }
    split; [exact G3|].
    change (stats (set_root t' (Some n'))) with (stats t').
    split.
    { intros E1. rewrite Hnc, HncA, Hnc0, E1.
      replace (incr64 (u64 (nnodes h r))) with (u64 (nnodes h r + 1))
        by (unfold incr64, u64; now rewrite Zplus_mod_idemp_l).
      rewrite incr64_iter. f_equal. lia. }
    split.
    { intros E2. destruct G5 as [[H1 H2]|[H1 H2]]; rewrite H2, HkcA, Hkc0, E2.
      - f_equal. lia.
      - unfold incr64, u64. rewrite Zplus_mod_idemp_l. f_equal. lia. }
    split.
    { intros E3. rewrite G7, HhA, Hh0, E3, incr32_u32. f_equal. lia. }
    split; [destruct G5 as [[H1 _]|[H1 _]]; lia|].
    split; [intros Hno; rewrite <- Hnk0; apply G6; now rewrite Hki0|].
    intros Hord Hno. apply Ho1.
    + apply (split_parent_ordered m Hm h 0 None None nr 0 r Hbt0 Hl0 Hroom Hidx Hc0 Hfull).
      now apply Hord0.
    + split; exact I.
    + intros Hin. apply Hno. apply Hki0.
      now apply (key_in_split_parent m Hm h 0 nr 0 r Hbt0 Hl0 Hroom Hidx Hc0 Hfull key).
  - cbn [negb status_eqb]. cbv iota beta.
    destruct (insert_nonfull_bt m Hm (S (S (node_depth r))) h 0 t0 r key value Ht0 Hbt)
      as (t' & n' & Hres & Hbt' & Hl' & Hnum' & Hnk').
    { lia. }
    { pose proof (bt_depth _ _ _ _ Hbt). lia. }
    rewrite Hres. exists (set_root t' (Some n')), h, n'. split; [reflexivity|].
    pose proof (insert_nonfull_step _ _ _ _ _ _ _ _ Hres) as (Ho & Hmk & _).
    destruct (insert_nonfull_facts m Hm _ h 0 t0 r key value _ t' n' Ht0 Hbt
                ltac:(lia) Hres) as [Hg1 Ho1].
    pose proof (insert_general_kept _ _ _ _ _ _ _ _ Hk0 Hg1)
      as (G1 & G2 & G3 & (d & Hnn & Hnc & Hsp) & G5 & G6 & G7).
    unfold insert_effect, tree_shape. cbn [order min_keys root set_root stats].
    rewrite Ho, Hmk, Ht0, Hmin0. fold m.
    split; [split; [exact Hm|]; split; [exact Hmin|]; split; [reflexivity|];
            split; [exact Hbt'|]|].
    { rewrite Hl'. intros Hi. specialize (Hone Hi). lia. }
    split; [reflexivity|]. split; [now left|].
    split; [exact G1|]. split; [exact G2|]. split; [exact G3|].
    change (stats (set_root t' (Some n'))) with (stats t').
    split.
    { intros E1. rewrite Hnc, E1, incr64_iter. f_equal. lia. }
    split.
    { intros E2. destruct G5 as [[H1 H2]|[H1 H2]]; rewrite H2, E2.
      - f_equal. lia.
      - unfold incr64, u64. rewrite Zplus_mod_idemp_l. f_equal. lia. }
    split.
    { intros E3. rewrite G7. exact E3. }
    split; [destruct G5 as [[H1 _]|[H1 _]]; lia|].
    split; [exact G6|].
    intros Hord Hno. apply Ho1; [exact Hord|split; exact I|exact Hno].
Qed.

(** ** The ways of an insert *)

Section InsertCases.
Variable m : Z.
Hypothesis order_range : BTREE_MIN_ORDER <= m <= BTREE_MAX_ORDER.

(** The node that [insert_nonfull] returns for a node [n] of height
    [S h]: a leaf with the value replaced or with the pair added at the
    index of the search primitive; or the node, after the split of a full
    child if there is one, with the child that the key belongs to replaced
    by what the recursive call returns for it. *)
Lemma insert_nonfull_cases (fuel h : nat) (lo : Z) (t : btree_t) (n : btree_node_t)
    (key : btree_key_t) (value : btree_value_t)
    (st : btree_status_t) (t' : btree_t) (n' : btree_node_t) :
  order t = m -> bt m (S h) lo n -> num_keys n < m - 1 ->
  insert_nonfull (S fuel) t n key value = Some (st, t', n') ->
  exists pos found,
    fst (node_binary_search n key None) = (pos, found) /\
    0 <= pos <= num_keys n /\
    (found = true -> pos < num_keys n /\ key_at n pos = key) /\
    ((is_leaf n = true /\ h = O /\
      n' = if found then set_values n (arr_set (values n) pos value)
           else grown_leaf n pos key value) \/
     (is_leaf n = false /\
      exists p child n1 p' c2 t2 c0,
        p = (if found then pos + 1 else pos) /\ 0 <= p <= num_keys n /\
        arr_get None (children n) p = Some child /\
        bt m h (min_fill m) child /\
        ((num_keys child < m - 1 /\ n1 = n /\ p' = p) \/
         (num_keys child = m - 1 /\ n1 = split_parent m n p child /\
          p' = if key >? key_at n1 p then p + 1 else p)) /\
        bt m (S h) lo n1 /\ is_leaf n1 = false /\ 0 <= p' <= num_keys n1 /\
        arr_get None (children n1) p' = Some c2 /\
        bt m h (min_fill m) c2 /\ num_keys c2 < m - 1 /\ order t2 = m /\
        insert_nonfull fuel t2 c2 key value = Some (st, t', c0) /\
        n' = set_children n1 (arr_set (children n1) p' (Some c0)))).
Proof.
  pose proof (split_mid_range m order_range) as Hmid.
  intros Ht Hbt Hroom Hres.
  pose proof (bt_num_keys _ _ _ _ Hbt) as Hn.
  cbn [insert_nonfull] in Hres.
  pose proof (stats_step_trans _ _ _ (visit_step t)
                (tree_binary_search_step (visit t) n key)) as Hstep.
  pose proof (tree_binary_search_range (visit t) n key) as Hrange.
  pose proof (tree_binary_search_pure (visit t) n key) as Hpure.
  destruct (tree_binary_search (visit t) n key) as [[pos found] t1].
  cbn [snd fst] in Hstep, Hpure. destruct Hstep as (Ht1 & _). rewrite Ht in Ht1.
  unfold BTREE_MIN_ORDER, BTREE_MAX_ORDER in *.
  destruct Hrange as [Hpos Hfound]; [lia|].
  exists pos, found. split; [now symmetry|]. split; [exact Hpos|].
  split; [exact Hfound|].
  destruct (is_leaf n) eqn:Hl.
  - left. split; [reflexivity|].
    assert (Hh : h = O) by (apply (bt_leaf_height _ _ _ _ Hbt) in Hl; lia).
    split; [exact Hh|].
    destruct found.
    + now injection Hres as <- <- <-.
    + injection Hres as <- <- <-. unfold grown_leaf. rewrite Hl. reflexivity.
  - right. split; [reflexivity|].
    set (p := if found then pos + 1 else pos) in *.
    assert (Hp : 0 <= p <= num_keys n).
    { unfold p. destruct found; [specialize (Hfound eq_refl)|]; lia. }
    destruct (bt_child m h lo n p Hbt Hl Hp) as (child & Hchild & Hcbt).
    rewrite Hchild in Hres.
    pose proof (bt_num_keys _ _ _ _ Hcbt) as Hcn.
    rewrite Ht1, (u32_small (m - 1)) in Hres by lia.
    destruct (Z.eqb_spec (num_keys child) (m - 1)) as [Hfull|Hnot].
    + rewrite split_child_eq in Hres. cbn [negb status_eqb] in Hres.
      cbv iota beta in Hres. rewrite Ht1 in Hres.
      pose proof (split_parent_bt m order_range h lo n p child Hbt Hl Hroom Hp Hchild Hfull)
        as Hbt1.
      pose proof (split_parent_num_keys m order_range h lo n p child Hbt Hroom) as Hnum1.
      pose proof (split_parent_children m order_range h lo n p child Hbt Hl Hroom Hp) as Hch1.
      pose proof (split_right_num_keys m order_range child Hfull) as Hrn.
      change (arr_get 0 (keys (split_parent m n p child)) p)
        with (key_at (split_parent m n p child) p) in Hres.
      set (n1 := split_parent m n p child) in *.
      set (t2 := set_stats t1 _) in *.
      assert (Ht2 : order t2 = m) by exact Ht1.
      set (p' := if key >? key_at n1 p then p + 1 else p) in *.
      assert (Hl1 : is_leaf n1 = false) by exact Hl.
      assert (Hp' : 0 <= p' <= num_keys n1).
      { unfold p'. destruct (key >? key_at n1 p); lia. }
      destruct (bt_child m h lo n1 p' Hbt1 Hl1 Hp') as (c2 & Hc2 & Hc2bt).
      assert (Hc2room : num_keys c2 < m - 1).
      { unfold p' in Hc2. rewrite Hch1 in Hc2.
        destruct (key >? key_at n1 p).
        - destruct (Z.eqb_spec (p + 1) p); [lia|]. rewrite Z.eqb_refl in Hc2.
          injection Hc2 as <-. lia.
        - rewrite Z.eqb_refl in Hc2. injection Hc2 as <-. unfold split_left. cbn. lia. }
      rewrite Hc2 in Hres.
      destruct (insert_nonfull fuel t2 c2 key value) as [[[st0 t0] c0]|] eqn:Hrec;
        [|discriminate Hres].
      injection Hres as <- <- <-.
      exists p, child, n1, p', c2, t2, c0.
      split; [reflexivity|]. split; [exact Hp|]. split; [exact Hchild|].
      split; [exact Hcbt|]. split; [right; tauto|].
      split; [exact Hbt1|]. split; [exact Hl1|]. split; [exact Hp'|].
      split; [exact Hc2|]. split; [exact Hc2bt|]. split; [exact Hc2room|].
      split; [exact Ht2|]. split; [exact Hrec|reflexivity].
    + cbn [negb status_eqb] in Hres. cbv iota beta in Hres. rewrite Hchild in Hres.
      destruct (insert_nonfull fuel t1 child key value) as [[[st0 t0] c0]|] eqn:Hrec;
        [|discriminate Hres].
      injection Hres as <- <- <-.
      exists p, child, n, p, child, t1, c0.
      split; [reflexivity|]. split; [exact Hp|]. split; [exact Hchild|].
      split; [exact Hcbt|]. split; [left; split; [lia|tauto]|].
      split; [exact Hbt|]. split; [exact Hl|]. split; [exact Hp|].
      split; [exact Hchild|]. split; [exact Hcbt|]. split; [lia|].
      split; [exact Ht1|]. split; [exact Hrec|reflexivity].
Qed.
End InsertCases.

(** The node that [btree_insert] hands to [insert_nonfull], and what it
    makes of the result. *)
Lemma btree_insert_cases (t : btree_t) (h : nat) (r : btree_node_t) (key : btree_key_t)
    (value : btree_value_t) (st : btree_status_t) (t' : btree_t) :
  tree_shape t h r -> btree_insert t key value = Some (st, t') ->
  exists h1 n1 t1 fuel t2 n',
    ((num_keys r < order t - 1 /\ h1 = h /\ n1 = r) \/
     (num_keys r = order t - 1 /\ h1 = S h /\ n1 = raised_root (order t) r)) /\
    bt (order t) h1 0 n1 /\ num_keys n1 < order t - 1 /\ order t1 = order t /\
    insert_nonfull (S fuel) t1 n1 key value = Some (st, t2, n') /\
    t' = set_root t2 (Some n') /\ tree_shape t' h1 n'.
Proof.
  intros (Hm & Hmin & Hroot & Hbt & Hone) Hres.
  pose proof (split_mid_range _ Hm) as Hmid.
  pose proof (bt_num_keys _ _ _ _ Hbt) as Hn.
  unfold btree_insert in Hres. rewrite Hroot in Hres.
  set (t0 := if collect_stats t then _ else t) in *.
  assert (Ht0 : order t0 = order t) by (unfold t0; destruct (collect_stats t); reflexivity).
  assert (Hmin0 : min_keys t0 = min_keys t)
    by (unfold t0; destruct (collect_stats t); reflexivity).
  rewrite Ht0 in Hres.
  set (m := order t) in *.
  assert (Hu : u32 (m - 1) = m - 1)
    by (unfold BTREE_MIN_ORDER, BTREE_MAX_ORDER in *; apply u32_small; lia).
  rewrite Hu in Hres.
  destruct (Z.eqb_spec (num_keys r) (m - 1)) as [Hfull|Hnot].
  - destruct (new_root_bt m h r Hm Hbt Hfull) as (Hbt0 & Hl0 & Hn0 & Hc0 & Hnk0).
    rewrite split_child_eq in Hres. cbn [negb status_eqb] in Hres. cbv iota beta in Hres.
    change (order (set_stats (set_root t0 ?x) ?y)) with (order t0) in Hres.
    rewrite Ht0 in Hres. fold m in Hres.
    set (nr := set_children _ _) in *.
    assert (Hroom : num_keys nr < m - 1)
      by (unfold BTREE_MIN_ORDER, BTREE_MAX_ORDER in *; lia).
    assert (Hidx : 0 <= 0 <= num_keys nr) by lia.
    pose proof (split_parent_bt m Hm h 0 nr 0 r Hbt0 Hl0 Hroom Hidx Hc0 Hfull) as Hbt1.
    pose proof (split_parent_num_keys m Hm h 0 nr 0 r Hbt0 Hroom) as Hnum1.
    change (split_parent m nr 0 r) with (raised_root m r) in *.
    set (n1 := raised_root m r) in *.
    set (t1 := set_stats (set_stats _ _) _) in Hres.
    assert (Ht1 : order t1 = m) by exact Ht0.
    assert (Hmin1 : min_keys t1 = min_keys t) by exact Hmin0.
    assert (Hroom1 : num_keys n1 < m - 1)
      by (unfold BTREE_MIN_ORDER, BTREE_MAX_ORDER in *; lia).
    destruct (insert_nonfull_bt m Hm (S (S (node_depth n1))) (S h) 0 t1 n1 key value Ht1 Hbt1
                Hroom1) as (t2 & n' & Hrec & Hbt' & Hl' & Hnum' & Hnk').
    { pose proof (bt_depth _ _ _ _ Hbt1). lia. }
    rewrite Hrec in Hres. injection Hres as <- <-.
    pose proof (insert_nonfull_step _ _ _ _ _ _ _ _ Hrec) as (Ho & Hmk & _).
    exists (S h), n1, t1, (S (node_depth n1)), t2, n'.
    split; [right; tauto|]. split; [exact Hbt1|]. split; [exact Hroom1|].
    split; [exact Ht1|]. split; [exact Hrec|]. split; [reflexivity|].
    unfold tree_shape. cbn [order min_keys root set_root].
    rewrite Ho, Hmk, Ht1, Hmin1.
    split; [exact Hm|]. split; [exact Hmin|]. split; [reflexivity|].
    split; [exact Hbt'|]. lia.
  - cbn [negb status_eqb] in Hres. cbv iota beta in Hres.
    destruct (insert_nonfull_bt m Hm (S (S (node_depth r))) h 0 t0 r key value Ht0 Hbt)
      as (t2 & n' & Hrec & Hbt' & Hl' & Hnum' & Hnk').
    { lia. }
    { pose proof (bt_depth _ _ _ _ Hbt). lia. }
    rewrite Hrec in Hres. injection Hres as <- <-.
    pose proof (insert_nonfull_step _ _ _ _ _ _ _ _ Hrec) as (Ho & Hmk & _).
    exists h, r, t0, (S (node_depth r)), t2, n'.
    split; [left; split; [lia|tauto]|]. split; [exact Hbt|]. split; [lia|].
    split; [exact Ht0|]. split; [exact Hrec|]. split; [reflexivity|].
    unfold tree_shape. cbn [order min_keys root set_root].
    rewrite Ho, Hmk, Ht0, Hmin0.
    split; [exact Hm|]. split; [exact Hmin|]. split; [reflexivity|].
    split; [exact Hbt'|]. rewrite Hl'. intros Hi. specialize (Hone Hi). lia.
Qed.

(** ** What [btree_search] finds *)

Lemma in_bounds_child (n : btree_node_t) (blo bhi : option btree_key_t) (i : Z)
    (x : btree_key_t) :
  (forall j, 0 <= j < num_keys n -> in_bounds blo bhi (key_at n j)) ->
  0 <= i <= num_keys n ->
  in_bounds (child_lo n blo i) (child_hi n bhi i) x -> in_bounds blo bhi x.
Proof.
  intros Hb Hi [Hlo Hhi]. unfold child_lo, child_hi in *. split.
  - destruct (Z.eqb_spec i 0); [exact Hlo|].
    destruct (Hb (i - 1) ltac:(lia)) as [H _]. destruct blo; [lia|exact I].
  - destruct (Z.eqb_spec i (num_keys n)); [exact Hhi|].
    destruct (Hb i ltac:(lia)) as [_ H]. destruct bhi; [lia|exact I].
Qed.

(** Every key of an ordered subtree lies between its bounds. *)
Lemma ordered_key_bounds (h : nat) :
  forall blo bhi n x, ordered h blo bhi n -> key_in h n x -> in_bounds blo bhi x.
Proof.
  induction h as [|h IH]; intros blo bhi n x; cbn [ordered key_in]; [tauto|].
  intros (Hinc & Hb & Hkids) [(i & Hi & <-)|(Hl & i & c & Hi & Hc & Hin)].
  - now apply Hb.
  - apply (in_bounds_child n blo bhi i x Hb Hi).
    apply (IH _ _ c x); [|exact Hin]. now apply Hkids.
Qed.

Lemma child_index_unique (n : btree_node_t) (blo bhi : option btree_key_t) (i pos : Z)
    (key : btree_key_t) :
  0 <= i <= num_keys n -> 0 <= pos <= num_keys n ->
  in_bounds (child_lo n blo i) (child_hi n bhi i) key ->
  (forall j, 0 <= j < pos -> key_at n j < key) ->
  (forall j, pos <= j < num_keys n -> key < key_at n j) ->
  i = pos.
Proof.
  intros Hi Hpos [Hlo Hhi] Hbelow Habove. unfold child_lo, child_hi in *.
  destruct (Z.lt_trichotomy i pos) as [Hlt|[Heq|Hgt]]; [exfalso|exact Heq|exfalso].
  - destruct (Z.eqb_spec i (num_keys n)); [lia|].
    specialize (Hbelow i ltac:(lia)). lia.
  - destruct (Z.eqb_spec i 0); [lia|].
    specialize (Habove (i - 1) ltac:(lia)). lia.
Qed.

(** In an ordered node no key of a child equals a key of the node. *)
Lemma separator_not_below (n : btree_node_t) (blo bhi : option btree_key_t) (i pos : Z)
    (key : btree_key_t) :
  keys_increasing n -> 0 <= i <= num_keys n -> 0 <= pos < num_keys n ->
  in_bounds (child_lo n blo i) (child_hi n bhi i) key ->
  key_at n pos <> key.
Proof.
  intros Hinc Hi Hpos [Hlo Hhi] Heq. unfold child_lo, child_hi in *.
  pose proof (keys_increasing_lt n Hinc) as Hlt.
  destruct (Z.lt_ge_cases pos i) as [Hc|Hc].
  - destruct (Z.eqb_spec i 0); [lia|].
    destruct (Z.eq_dec pos (i - 1)) as [->|Hne]; [lia|].
    specialize (Hlt pos (i - 1) ltac:(lia) ltac:(lia) ltac:(lia)). lia.
  - destruct (Z.eqb_spec i (num_keys n)); [lia|].
    destruct (Z.eq_dec pos i) as [->|Hne]; [lia|].
    specialize (Hlt i pos ltac:(lia) ltac:(lia) ltac:(lia)). lia.
Qed.

Section Search.
Variable m : Z.
Hypothesis order_range : BTREE_MIN_ORDER <= m <= BTREE_MAX_ORDER.

(** What the loop of [btree_search] reports is in the tree. *)
Lemma search_loop_sound (fuel : nat) :
  forall h lo t n key slot st t' out,
    bt m h lo n ->
    search_loop fuel t (Some n) key slot = (st, t', out) ->
    (st = BTREE_OK -> key_in h n key) /\
    (forall w, out = Some w -> slot = true /\ value_in h n key w).
Proof.
  induction fuel as [|fuel IH]; intros h lo t n key slot st t' out Hbt Hres.
  { injection Hres as <- <- <-. split; [discriminate|]. intros w Hw. discriminate Hw. }
  destruct h as [|h]; [destruct Hbt|].
  pose proof (bt_num_keys _ _ _ _ Hbt) as Hn.
  cbn [search_loop] in Hres.
  pose proof (tree_binary_search_range (visit t) n key) as Hrange.
  destruct (tree_binary_search (visit t) n key) as [[pos found] t1].
  unfold BTREE_MIN_ORDER, BTREE_MAX_ORDER in *.
  destruct Hrange as [Hpos Hfound]; [lia|].
  destruct found.
  - specialize (Hfound eq_refl). injection Hres as <- <- <-. split.
    + intros _. cbn [key_in]. left. exists pos. split; [lia|tauto].
    + intros w Hw. destruct slot; [|discriminate Hw]. split; [reflexivity|].
      destruct (is_leaf n) eqn:Hl; [|discriminate Hw]. cbn [andb] in Hw.
      injection Hw as <-. cbn [value_in]. left. split; [exact Hl|].
      exists pos. split; [lia|]. split; [tauto|reflexivity].
  - destruct (is_leaf n) eqn:Hl.
    + injection Hres as <- <- <-. split; [discriminate|]. intros w Hw. discriminate Hw.
    + destruct (bt_child m h lo n pos Hbt Hl Hpos) as (c & Hc & Hcbt).
      rewrite Hc in Hres.
      destruct (IH h _ t1 c key slot st t' out Hcbt Hres) as [H1 H2]. split.
      * intros Hst. cbn [key_in]. right. split; [exact Hl|]. exists pos, c. auto.
      * intros w Hw. destruct (H2 w Hw) as [Hs Hv]. split; [exact Hs|].
        cbn [value_in]. right. split; [exact Hl|]. exists pos, c. auto.
Qed.

(** In an ordered tree the loop of [btree_search] finds every key, and
    the value of every key that is in a leaf. *)
Lemma search_loop_complete (fuel : nat) :
  forall h lo blo bhi t n key slot,
    bt m h lo n -> ordered h blo bhi n -> (h <= fuel)%nat ->
    key_in h n key ->
    fst (fst (search_loop fuel t (Some n) key slot)) = BTREE_OK /\
    (forall w, value_in h n key w ->
               snd (search_loop fuel t (Some n) key slot) = if slot then Some w else None).
Proof.
  induction fuel as [|fuel IH]; intros h lo blo bhi t n key slot Hbt Hord Hf Hin.
  { pose proof (bt_height_pos _ _ _ _ Hbt). lia. }
  destruct h as [|h]; [destruct Hbt|].
  pose proof (bt_num_keys _ _ _ _ Hbt) as Hn.
  pose proof (ordered_increasing _ _ _ _ Hord) as Hinc.
  pose proof (bt_searchable m (S h) lo n order_range Hbt Hinc) as Hs.
  pose proof (keys_increasing_lt n Hinc) as Hlt.
  cbn [search_loop].
  pose proof (node_searchable_found n key (visit t) Hs) as Hnf.
  pose proof (fun Hno => tree_binary_search_miss (visit t) n key Hs Hno) as Hmiss.
  destruct (tree_binary_search (visit t) n key) as [[pos found] t1].
  destruct Hnf as (Hiff & Hat & _ & _).
  destruct Hord as (_ & Hb & Hkids).
  assert (Hchild : forall i c x, 0 <= i <= num_keys n ->
             arr_get None (children n) i = Some c -> is_leaf n = false ->
             key_in h c x -> in_bounds (child_lo n blo i) (child_hi n bhi i) x).
  { intros i c x Hi Hc Hl Hx. apply (ordered_key_bounds h _ _ c x); [|exact Hx].
    now apply Hkids. }
  destruct found.
  - destruct (Hat eq_refl) as [Hpos Hkey]. split; [reflexivity|].
    intros w Hv. cbn [snd]. cbn [value_in] in Hv.
    destruct Hv as [(Hl & i & Hi & Hk & Hw)|(Hl & i & c & Hi & Hc & Hv)].
    + rewrite Hl. assert (i = pos).
      { destruct (Z.lt_trichotomy i pos) as [H|[H|H]]; [|exact H|].
        - specialize (Hlt i pos ltac:(lia) H ltac:(lia)). lia.
        - specialize (Hlt pos i ltac:(lia) H ltac:(lia)). lia. }
      subst i. rewrite Hw. destruct slot; reflexivity.
    + exfalso. apply value_in_key_in in Hv.
      apply (separator_not_below n blo bhi i pos key Hinc Hi Hpos); [|exact Hkey].
      now apply (Hchild i c).
  - assert (Hno : ~ node_has_key n key) by (intros H; apply Hiff in H; discriminate H).
    destruct (Hmiss Hno) as (pos0 & t0 & Heq & Hpos & Hbelow & Habove).
    injection Heq as <- <-.
    cbn [key_in] in Hin. destruct Hin as [Hin|(Hl & i & c & Hi & Hc & Hin)]; [contradiction|].
    rewrite Hl.
    assert (i = pos).
    { apply (child_index_unique n blo bhi i pos key Hi Hpos); try assumption.
      now apply (Hchild i c). }
    subst i. rewrite Hc.
    destruct (bt_child m h lo n pos Hbt Hl Hpos) as (c' & Hc' & Hcbt).
    rewrite Hc in Hc'. injection Hc' as <-.
    destruct (IH h _ _ _ t1 c key slot Hcbt (Hkids Hl pos c Hpos Hc) ltac:(lia) Hin)
      as [H1 H2].
    split; [exact H1|]. intros w Hv. cbn [value_in] in Hv.
    destruct Hv as [(Hl' & _)|(_ & i & c2 & Hi2 & Hc2 & Hv)]; [congruence|].
    assert (i = pos).
    { apply (child_index_unique n blo bhi i pos key Hi2 Hpos); try assumption.
      apply (Hchild i c2); try assumption. now apply (value_in_key_in h c2 key w). }
    subst i. rewrite Hc in Hc2. injection Hc2 as <-. now apply H2.
Qed.
End Search.

(** ** Runs of [btree_insert] *)

Lemma insert_all_effect (kvs : list (btree_key_t * btree_value_t)) :
  forall t h r,
    tree_shape t h r ->
    exists t' h' r', insert_all t kvs = Some t' /\ run_effect t h r kvs t' h' r'.
Proof.
  induction kvs as [|[k v] kvs IH]; intros t h r Hshape.
  - exists t, h, r. split; [reflexivity|]. unfold run_effect. cbn [map In length].
    split; [exact Hshape|]. split; [reflexivity|].
    split; [intros x; tauto|]. split; [intros x w; tauto|].
    split; [tauto|]. split; [tauto|]. split; [tauto|].
    intros Hord _ _. split; [exact Hord|lia].
  - destruct (btree_insert_effect t h r k v Hshape)
      as (t1 & h1 & r1 & Hins & Hs1 & Ho1 & _ & K1 & V1 & _ & N1 & C1 & E1 & _ & F1 & O1).
    destruct (IH t1 h1 r1 Hs1)
      as (t' & h' & r' & Hall & Hs' & Ho' & K' & V' & N' & C' & E' & O').
    exists t', h', r'. cbn [insert_all]. rewrite Hins. split; [exact Hall|].
    unfold run_effect. cbn [map In fst length].
    split; [exact Hs'|]. split; [congruence|].
    split; [intros x; rewrite K', K1; intuition congruence|].
    split.
    { intros x w Hin. apply V' in Hin as [Hin|Hin]; [tauto|].
      apply V1 in Hin as [[-> ->]|Hin]; tauto. }
    split; [tauto|]. split; [tauto|]. split; [tauto|].
    intros Hord Hnd Hfresh.
    apply List.NoDup_cons_iff in Hnd as [Hnotin Hnd].
    assert (Hno : ~ key_in h r k) by (apply Hfresh; now left).
    destruct O' as [Hord' Hnk'].
    + now apply O1.
    + exact Hnd.
    + intros x Hx Hin. apply K1 in Hin as [->|Hin]; [contradiction|].
      apply (Hfresh x); [now right|exact Hin].
    + split; [exact Hord'|]. rewrite Hnk', (F1 Hno). lia.
Qed.

Lemma fresh_tree_shape (m : Z) (t : btree_t) :
  btree_create m = Some t ->
  BTREE_MIN_ORDER <= m <= BTREE_MAX_ORDER /\ order t = m /\
  built [] t 1 (node_create m true).
Proof.
  intros H. apply order_range_of_create in H as [Hm ->].
  split; [exact Hm|]. split; [reflexivity|].
  unfold built, tree_shape. cbn [order min_keys root stats node_count key_count height map In].
  split.
  { split; [exact Hm|]. split; [reflexivity|]. split; [reflexivity|].
    split; [now apply node_create_leaf_bt|discriminate]. }
  split.
  { intros x. cbn [key_in]. unfold node_has_key.
    change (num_keys (node_create m true)) with 0.
    change (is_leaf (node_create m true)) with true.
    split; [|tauto]. intros [(i & Hi & _)|(Hl & _)]; [lia|discriminate]. }
  split.
  { intros x w. cbn [value_in].
    change (num_keys (node_create m true)) with 0.
    change (is_leaf (node_create m true)) with true.
    intros [(_ & i & Hi & _)|(Hl & _)]; [lia|discriminate]. }
  split; [reflexivity|]. split; [reflexivity|]. split; [reflexivity|].
  intros _. split; [|reflexivity].
  cbn [ordered]. unfold keys_increasing.
  change (num_keys (node_create m true)) with 0.
  change (is_leaf (node_create m true)) with true.
  split; [intros i Hi; lia|]. split; [intros i Hi; lia|discriminate].
Qed.

Lemma build_effect (m : Z) (kvs : list (btree_key_t * btree_value_t)) :
  BTREE_MIN_ORDER <= m <= BTREE_MAX_ORDER ->
  exists t h r, build m kvs = Some t /\ order t = m /\ built kvs t h r.
Proof.
  intros Hm. unfold build.
  destruct (btree_create m) as [t0|] eqn:Hc.
  - destruct (fresh_tree_shape m t0 Hc) as (_ & Ho & Hs0 & K0 & V0 & N0 & C0 & E0 & O0).
    destruct (insert_all_effect kvs t0 1 _ Hs0)
      as (t & h & r & Hall & Hs & Ho' & K & V & N & C & E & O).
    exists t, h, r. split; [exact Hall|]. split; [congruence|].
    unfold built. split; [exact Hs|].
    split. { intros x. rewrite K, K0. cbn [map In]. tauto. }
    split. { intros x w Hin. apply V in Hin as [Hin|Hin]; [exact Hin|].
             apply V0 in Hin. destruct Hin. }
    split; [auto|]. split; [auto|]. split; [auto|].
    intros Hnd. destruct (O0 (List.NoDup_nil _)) as [Hord0 Hnk0].
    destruct (O Hord0 Hnd) as [Hord Hnk].
    + intros x _ Hin. apply K0 in Hin. destruct Hin.
    + split; [exact Hord|]. rewrite Hnk, Hnk0. cbn [length]. lia.
  - exfalso. unfold btree_create, BTREE_MIN_ORDER, BTREE_MAX_ORDER in *.
    destruct (Z.ltb_spec m 3), (Z.gtb_spec m 1024); cbn [orb] in Hc; try lia; discriminate.
Qed.

(** ** [btree_search] and [btree_contains] on a whole tree *)

Lemma status_eqb_ok (st : btree_status_t) : status_eqb st BTREE_OK = true <-> st = BTREE_OK.
Proof. destruct st; cbn; split; congruence. Qed.

Lemma btree_search_sound (t : btree_t) (h : nat) (r : btree_node_t) (key : btree_key_t)
    (slot : bool) :
  tree_shape t h r ->
  let '(st, _, out) := btree_search t key slot in
  (st = BTREE_OK -> key_in h r key) /\
  (forall w, out = Some w -> slot = true /\ value_in h r key w).
Proof.
  intros (Hm & _ & Hroot & Hbt & _). unfold btree_search. rewrite Hroot.
  set (t0 := if collect_stats t then _ else t).
  destruct (search_loop (node_depth r) t0 (Some r) key slot) as [[st t'] out] eqn:Hres.
  apply (search_loop_sound (order t) Hm _ h 0 t0 r key slot st t' out Hbt Hres).
Qed.

Lemma btree_search_complete (t : btree_t) (h : nat) (r : btree_node_t) (key : btree_key_t)
    (slot : bool) :
  tree_shape t h r -> ordered h None None r -> key_in h r key ->
  fst (fst (btree_search t key slot)) = BTREE_OK /\
  (forall w, value_in h r key w ->
             snd (btree_search t key slot) = if slot then Some w else None).
Proof.
  intros (Hm & _ & Hroot & Hbt & _) Hord Hin. unfold btree_search. rewrite Hroot.
  apply (search_loop_complete (order t) Hm _ h 0 None None _ r key slot Hbt Hord);
    [|exact Hin].
  apply (bt_depth _ _ _ _ Hbt).
Qed.

Lemma btree_contains_key_in (t : btree_t) (h : nat) (r : btree_node_t) (key : btree_key_t) :
  tree_shape t h r -> ordered h None None r ->
  (btree_contains t key = true <-> key_in h r key).
Proof.
  intros Hs Hord. unfold btree_contains. rewrite status_eqb_ok. split.
  - pose proof (btree_search_sound t h r key false Hs) as H.
    destruct (btree_search t key false) as [[st t'] out]. cbn [fst]. tauto.
  - intros Hin. now apply (btree_search_complete t h r key false Hs Hord).
Qed.

Lemma bool_eq_iff (a b : bool) : (a = true <-> b = true) -> a = b.
Proof. destruct a, b; intuition congruence. Qed.

(** X1.  Whatever the keys and their order, the tree that [btree_create]
    and a run of [btree_insert] calls build exists, and [btree_search]
    reports only what the run put in: it returns [BTREE_OK] only for a
    key of the run, and a value it writes was inserted with that key. *)
Theorem search_reports_inserted (m : Z) (kvs : list (btree_key_t * btree_value_t)) :
  BTREE_MIN_ORDER <= m <= BTREE_MAX_ORDER ->
  exists t, build m kvs = Some t /\
    forall key slot,
      let '(st, _, out) := btree_search t key slot in
      (st = BTREE_OK -> In key (map fst kvs)) /\
      (forall w, out = Some w -> In (key, w) kvs).
Proof.
  intros Hm. destruct (build_effect m kvs Hm) as (t & h & r & Hb & _ & Hs & K & V & _).
  exists t. split; [exact Hb|]. intros key slot.
  pose proof (btree_search_sound t h r key slot Hs) as H.
  destruct (btree_search t key slot) as [[st t'] out]. destruct H as [H1 H2]. split.
  - intros Hst. now apply K, H1.
  - intros w Hw. now apply V, H2.
Qed.

Lemma search_reports_inserted_witness :
  BTREE_MIN_ORDER <= 4 <= BTREE_MAX_ORDER /\
  exists t, build 4 [(1, 11); (2, 12); (1, 13); (4, 14)] = Some t /\
    forall key slot,
      let '(st, _, out) := btree_search t key slot in
      (st = BTREE_OK -> In key (map fst [(1, 11); (2, 12); (1, 13); (4, 14)])) /\
      (forall w, out = Some w -> In (key, w) [(1, 11); (2, 12); (1, 13); (4, 14)]).
Proof.
  assert (H : BTREE_MIN_ORDER <= 4 <= BTREE_MAX_ORDER)
    by (unfold BTREE_MIN_ORDER, BTREE_MAX_ORDER; lia).
  split; [exact H|].
  exact (search_reports_inserted 4 [(1, 11); (2, 12); (1, 13); (4, 14)] H).
Defined.

(** X2.  For pairwise distinct keys and every order from 3 to 1024, the
    tree built by [btree_create] and a run of [btree_insert] calls holds
    exactly the keys of the run: [btree_contains] is [true] for a key if
    and only if the key was inserted. *)
Theorem contains_iff_inserted (m : Z) (kvs : list (btree_key_t * btree_value_t)) :
  BTREE_MIN_ORDER <= m <= BTREE_MAX_ORDER ->
  List.NoDup (map fst kvs) ->
  exists t, build m kvs = Some t /\
    forall key, btree_contains t key = true <-> In key (map fst kvs).
Proof.
  intros Hm Hnd.
  destruct (build_effect m kvs Hm) as (t & h & r & Hb & _ & Hs & K & _ & _ & _ & _ & O).
  destruct (O Hnd) as [Hord _].
  exists t. split; [exact Hb|]. intros key.
  now rewrite (btree_contains_key_in t h r key Hs Hord), K.
Qed.

Lemma contains_iff_inserted_witness :
  BTREE_MIN_ORDER <= 3 <= BTREE_MAX_ORDER /\
  List.NoDup (map fst [(10, 1); (20, 2); (5, 3); (7, 4)]) /\
  exists t, build 3 [(10, 1); (20, 2); (5, 3); (7, 4)] = Some t /\
    forall key, btree_contains t key = true <->
                In key (map fst [(10, 1); (20, 2); (5, 3); (7, 4)]).
Proof.
  assert (H : BTREE_MIN_ORDER <= 3 <= BTREE_MAX_ORDER)
    by (unfold BTREE_MIN_ORDER, BTREE_MAX_ORDER; lia).
  assert (Hnd : List.NoDup (map fst [(10, 1); (20, 2); (5, 3); (7, 4)])).
  { cbn [map fst].
    repeat (apply List.NoDup_cons; [cbn [In]; lia|]). apply List.NoDup_nil. }
  split; [exact H|]. split; [exact Hnd|].
  exact (contains_iff_inserted 3 [(10, 1); (20, 2); (5, 3); (7, 4)] H Hnd).
Defined.

(** X3.  Round trip.  On the tree built from pairwise distinct keys, the
    [btree_insert] of a key that is not in the tree returns [BTREE_OK];
    a [btree_search] for that key then returns [BTREE_OK] and writes the
    value just inserted, and for every other key [btree_contains] answers
    as before. *)
Theorem insert_then_search (m : Z) (kvs : list (btree_key_t * btree_value_t))
    (key : btree_key_t) (value : btree_value_t) :
  BTREE_MIN_ORDER <= m <= BTREE_MAX_ORDER ->
  List.NoDup (map fst kvs) -> ~ In key (map fst kvs) ->
  exists t t',
    build m kvs = Some t /\
    btree_insert t key value = Some (BTREE_OK, t') /\
    fst (fst (btree_search t' key true)) = BTREE_OK /\
    snd (btree_search t' key true) = Some value /\
    forall x, x <> key -> btree_contains t' x = btree_contains t x.
Proof.
  intros Hm Hnd Hfresh.
  destruct (build_effect m kvs Hm) as (t & h & r & Hb & _ & Hs & K & _ & _ & _ & _ & O).
  destruct (O Hnd) as [Hord _].
  destruct (btree_insert_effect t h r key value Hs)
    as (t' & h' & r' & Hins & Hs' & _ & _ & K' & _ & V' & _ & _ & _ & _ & _ & O').
  assert (Hno : ~ key_in h r key) by (intros H; now apply Hfresh, K).
  specialize (O' Hord Hno).
  exists t, t'. split; [exact Hb|]. split; [exact Hins|].
  assert (Hin : key_in h' r' key) by (apply K'; now left).
  destruct (btree_search_complete t' h' r' key true Hs' O' Hin) as [H1 H2].
  split; [exact H1|]. split; [now apply H2|].
  intros x Hx. apply bool_eq_iff.
  rewrite (btree_contains_key_in t' h' r' x Hs' O'),
          (btree_contains_key_in t h r x Hs Hord), K'. tauto.
Qed.

Lemma insert_then_search_witness :
  BTREE_MIN_ORDER <= 4 <= BTREE_MAX_ORDER /\
  List.NoDup (map fst [(1, 11); (2, 12); (3, 13)]) /\
  ~ In 4 (map fst [(1, 11); (2, 12); (3, 13)]) /\
  exists t t',
    build 4 [(1, 11); (2, 12); (3, 13)] = Some t /\
    btree_insert t 4 14 = Some (BTREE_OK, t') /\
    fst (fst (btree_search t' 4 true)) = BTREE_OK /\
    snd (btree_search t' 4 true) = Some 14 /\
    forall x, x <> 4 -> btree_contains t' x = btree_contains t x.
Proof.
  assert (H : BTREE_MIN_ORDER <= 4 <= BTREE_MAX_ORDER)
    by (unfold BTREE_MIN_ORDER, BTREE_MAX_ORDER; lia).
  assert (Hnd : List.NoDup (map fst [(1, 11); (2, 12); (3, 13)])).
  { cbn [map fst].
    repeat (apply List.NoDup_cons; [cbn [In]; lia|]). apply List.NoDup_nil. }
  assert (Hf : ~ In 4 (map fst [(1, 11); (2, 12); (3, 13)])) by (cbn [map fst In]; lia).
  split; [exact H|]. split; [exact Hnd|]. split; [exact Hf|].
  exact (insert_then_search 4 [(1, 11); (2, 12); (3, 13)] 4 14 H Hnd Hf).
Defined.

(** X4.  [btree_size] counts the keys: after a run of [btree_insert]
    calls with pairwise distinct keys on a fresh tree it is the number of
    calls, modulo [2 ^ 64]. *)
Theorem size_counts_distinct_keys (m : Z) (kvs : list (btree_key_t * btree_value_t)) :
  BTREE_MIN_ORDER <= m <= BTREE_MAX_ORDER ->
  List.NoDup (map fst kvs) ->
  exists t, build m kvs = Some t /\ btree_size t = u64 (Z.of_nat (length kvs)).
Proof.
  intros Hm Hnd.
  destruct (build_effect m kvs Hm) as (t & h & r & Hb & _ & Hs & _ & _ & _ & C & _ & O).
  destruct (O Hnd) as [_ Hnk].
  exists t. split; [exact Hb|]. unfold btree_size. now rewrite C, Hnk.
Qed.

Lemma size_counts_distinct_keys_witness :
  BTREE_MIN_ORDER <= 3 <= BTREE_MAX_ORDER /\
  List.NoDup (map fst [(10, 1); (20, 2); (5, 3); (7, 4)]) /\
  exists t, build 3 [(10, 1); (20, 2); (5, 3); (7, 4)] = Some t /\
            btree_size t = u64 (Z.of_nat (length [(10, 1); (20, 2); (5, 3); (7, 4)])).
Proof.
  assert (H : BTREE_MIN_ORDER <= 3 <= BTREE_MAX_ORDER)
    by (unfold BTREE_MIN_ORDER, BTREE_MAX_ORDER; lia).
  assert (Hnd : List.NoDup (map fst [(10, 1); (20, 2); (5, 3); (7, 4)])).
  { cbn [map fst].
    repeat (apply List.NoDup_cons; [cbn [In]; lia|]). apply List.NoDup_nil. }
  split; [exact H|]. split; [exact Hnd|].
  exact (size_counts_distinct_keys 3 [(10, 1); (20, 2); (5, 3); (7, 4)] H Hnd).
Defined.

(** ** [btree_validate] *)

Lemma zrange_In (lo : Z) (cnt : nat) (i : Z) :
  In i (zrange lo cnt) <-> lo <= i < lo + Z.of_nat cnt.
Proof.
  unfold zrange. rewrite in_map_iff. split.
  - intros (k & <- & Hk). apply in_seq in Hk. lia.
  - intros Hi. exists (Z.to_nat (i - lo)). split; [lia|]. apply in_seq. lia.
Qed.

(** An ordered subtree whose nodes are filled as [validate_node] asks
    passes it. *)
Lemma validate_node_ordered (m mk : Z) (fuel : nat) :
  forall h lo blo bhi n is_root,
    bt m h lo n -> ordered h blo bhi n -> (h <= fuel)%nat ->
    mk <= min_fill m -> (is_root = false -> mk <= num_keys n) ->
    validate_node fuel (Some n) mk (m - 1) blo bhi is_root = true.
Proof.
  induction fuel as [|fuel IH]; intros h lo blo bhi n is_root Hbt Hord Hf Hmk Hroot.
  { reflexivity. }
  destruct h as [|h]; [destruct Hbt|].
  pose proof (bt_num_keys _ _ _ _ Hbt) as Hn.
  destruct Hord as (Hinc & Hb & Hkids).
  cbn [validate_node].
  assert (E1 : negb is_root && (num_keys n <? mk) = false).
  { destruct is_root; [reflexivity|]. cbn [negb andb]. apply Z.ltb_ge. now apply Hroot. }
  rewrite E1.
  assert (E2 : (num_keys n >? m - 1) = false).
  { destruct (Z.gtb_spec (num_keys n) (m - 1)); [lia|reflexivity]. }
  rewrite E2.
  assert (E3 : forallb (fun i => negb (arr_get 0 (keys n) i <=? arr_get 0 (keys n) (i - 1)))
                 (zrange 1 (Z.to_nat (num_keys n - 1))) = true).
  { apply forallb_forall. intros i Hi. apply zrange_In in Hi.
    specialize (Hinc i ltac:(lia)). unfold key_at in Hinc.
    destruct (Z.leb_spec (arr_get 0 (keys n) i) (arr_get 0 (keys n) (i - 1)));
      [lia|reflexivity]. }
  rewrite E3. cbn [negb].
  assert (E4 : (num_keys n >? 0) &&
               (match blo with
                | Some b => arr_get 0 (keys n) 0 <=? b
                | None => false
                end ||
                match bhi with
                | Some b => arr_get 0 (keys n) (num_keys n - 1) >=? b
                | None => false
                end) = false).
  { destruct (Z.gtb_spec (num_keys n) 0) as [Hpos|Hz]; [|reflexivity]. cbn [andb].
    destruct (Hb 0 ltac:(lia)) as [Hlo _].
    destruct (Hb (num_keys n - 1) ltac:(lia)) as [_ Hhi].
    unfold key_at in Hlo, Hhi. apply orb_false_iff. split.
    - destruct blo as [b|]; [|reflexivity]. apply Z.leb_gt. exact Hlo.
    - destruct bhi as [b|]; [|reflexivity].
      destruct (Z.geb_spec (arr_get 0 (keys n) (num_keys n - 1)) b); [lia|reflexivity]. }
  rewrite E4.
  destruct (is_leaf n) eqn:Hl; [reflexivity|]. cbn [negb].
  apply forallb_forall. intros i Hi. apply zrange_In in Hi.
  assert (Hi' : 0 <= i <= num_keys n) by lia.
  destruct (bt_child m h lo n i Hbt Hl Hi') as (c & Hc & Hcbt).
  rewrite Hc.
  pose proof (bt_num_keys _ _ _ _ Hcbt) as Hcn.
  apply (IH h (min_fill m) _ _ c false Hcbt).
  - apply (Hkids eq_refl i c Hi' Hc).
  - lia.
  - exact Hmk.
  - intros _. lia.
Qed.

(** X5.  For an even order and pairwise distinct keys, the tree built by
    [btree_create] and a run of [btree_insert] calls passes
    [btree_validate]. *)
Theorem validate_even_order (m : Z) (kvs : list (btree_key_t * btree_value_t)) :
  BTREE_MIN_ORDER <= m <= BTREE_MAX_ORDER -> Z.even m = true ->
  List.NoDup (map fst kvs) ->
  exists t, build m kvs = Some t /\ btree_validate t = true.
Proof.
  intros Hm He Hnd.
  destruct (build_effect m kvs Hm) as (t & h & r & Hb & Ho & Hs & _ & _ & _ & _ & _ & O).
  destruct (O Hnd) as [Hord _].
  destruct Hs as (_ & Hmin & Hroot & Hbt & _).
  exists t. split; [exact Hb|]. unfold btree_validate. rewrite Hroot, Hmin, Ho.
  unfold BTREE_MIN_ORDER, BTREE_MAX_ORDER in Hm.
  rewrite (u32_small (m - 1)) by lia. rewrite Ho in Hbt.
  apply (validate_node_ordered m _ _ h 0 None None r true Hbt Hord).
  - apply (bt_depth _ _ _ _ Hbt).
  - apply Z.even_spec in He as [k ->]. unfold min_fill. Z.div_mod_to_equations. lia.
  - discriminate.
Qed.

Lemma validate_even_order_witness :
  BTREE_MIN_ORDER <= 4 <= BTREE_MAX_ORDER /\ Z.even 4 = true /\
  List.NoDup (map fst [(1, 11); (2, 12); (3, 13); (4, 14)]) /\
  exists t, build 4 [(1, 11); (2, 12); (3, 13); (4, 14)] = Some t /\
            btree_validate t = true.
Proof.
  assert (H : BTREE_MIN_ORDER <= 4 <= BTREE_MAX_ORDER)
    by (unfold BTREE_MIN_ORDER, BTREE_MAX_ORDER; lia).
  assert (Hnd : List.NoDup (map fst [(1, 11); (2, 12); (3, 13); (4, 14)])).
  { cbn [map fst].
    repeat (apply List.NoDup_cons; [cbn [In]; lia|]). apply List.NoDup_nil. }
  split; [exact H|]. split; [reflexivity|]. split; [exact Hnd|].
  exact (validate_even_order 4 [(1, 11); (2, 12); (3, 13); (4, 14)] H eq_refl Hnd).
Defined.

(** ** Every tree the public operations build *)

Lemma tree_counted_header (t t' : btree_t) (h : nat) (r : btree_node_t) :
  order t' = order t -> min_keys t' = min_keys t -> root t' = root t ->
  node_count (stats t') = node_count (stats t) ->
  height (stats t') = height (stats t) ->
  tree_counted t h r -> tree_counted t' h r.
Proof. unfold tree_counted, tree_shape. intros -> -> -> -> ->. tauto. Qed.

Lemma btree_search_frame (t : btree_t) (key : btree_key_t) (slot : bool) :
  let t' := snd (fst (btree_search t key slot)) in
  order t' = order t /\ min_keys t' = min_keys t /\ collect_stats t' = collect_stats t /\
  nodes_kept t t'.
Proof.
  cbn zeta. unfold btree_search.
  destruct (root t) as [r|]; [|cbn; auto using nodes_kept_refl].
  set (t0 := if collect_stats t then _ else t).
  assert (H0 : order t0 = order t /\ min_keys t0 = min_keys t /\
               collect_stats t0 = collect_stats t /\ nodes_kept t t0).
  { unfold t0, nodes_kept. destruct (collect_stats t) eqn:Hc; cbn; tauto. }
  destruct H0 as (H1 & H2 & H3 & H4).
  destruct (search_loop_header (node_depth r) t0 (Some r) key slot)
    as [(S1 & S2 & S3 & _) Hk].
  split; [congruence|]. split; [congruence|]. split; [congruence|].
  eapply nodes_kept_trans; eassumption.
Qed.

Lemma btree_delete_frame (t : btree_t) (key : btree_key_t) :
  let t' := snd (btree_delete t key) in
  order t' = order t /\ min_keys t' = min_keys t /\ root t' = root t /\
  node_count (stats t') = node_count (stats t) /\
  height (stats t') = height (stats t).
Proof.
  cbn zeta. unfold btree_delete.
  set (t0 := if collect_stats t then _ else t).
  assert (H0 : order t0 = order t /\ min_keys t0 = min_keys t /\ nodes_kept t t0).
  { unfold t0, nodes_kept. destruct (collect_stats t) eqn:Hc; cbn; tauto. }
  destruct H0 as (H1 & H2 & H3 & H4 & _ & H5 & _).
  pose proof (btree_search_frame t0 key true) as (S1 & S2 & _ & S3 & S4 & _ & S5 & _).
  destruct (btree_search t0 key true) as [[st t1] out]. cbn [fst snd] in *.
  destruct (status_eqb st BTREE_OK); cbn [snd order min_keys root stats set_stats
    node_count height upd_key_count]; repeat split; congruence.
Qed.

Lemma reachable_counted (t : btree_t) : reachable t -> exists h r, tree_counted t h r.
Proof.
  induction 1 as [m t Hc|t key value status t' _ (h & r & IH) Hins
                  |t key slot _ (h & r & IH)|t key _ (h & r & IH)
                  |t _ (h & r & IH)|t _ (h & r & IH)|t enabled _ (h & r & IH)].
  - destruct (fresh_tree_shape m t Hc) as (_ & _ & Hs & _ & _ & N & _ & E & _).
    exists 1%nat, (node_create m true). split; [exact Hs|]. split; assumption.
  - destruct IH as (Hs & N & E).
    destruct (btree_insert_effect t h r key value Hs)
      as (t'' & h' & r' & Hins' & Hs' & _ & _ & _ & _ & _ & N' & _ & E' & _).
    rewrite Hins in Hins'. injection Hins' as _ <-.
    exists h', r'. split; [exact Hs'|]. split; auto.
  - exists h, r. pose proof (btree_search_frame t key slot) as (H1 & H2 & _ & H3 & H4 & _ & H5 & _).
    now apply (tree_counted_header t).
  - exists h, r. pose proof (btree_delete_frame t key) as (H1 & H2 & H3 & H4 & H5).
    now apply (tree_counted_header t).
  - exists 1%nat, (node_create (order t) true).
    destruct IH as ((Hm & Hmin & _) & _).
    split; [|split; reflexivity].
    unfold tree_shape. cbn [btree_clear order min_keys root].
    split; [exact Hm|]. split; [exact Hmin|]. split; [reflexivity|].
    split; [now apply node_create_leaf_bt|discriminate].
  - exists h, r. now apply (tree_counted_header t).
  - exists h, r. now apply (tree_counted_header t).
Qed.

Lemma tree_shape_height (t : btree_t) (h : nat) (r : btree_node_t) :
  tree_shape t h r -> btree_height t = u32 (Z.of_nat h).
Proof.
  intros (Hm & _ & Hroot & Hbt & _). unfold btree_height. rewrite Hroot.
  apply (calculate_height_bt (order t) _ h 0 r Hbt). cbn [ptr_depth].
  apply (bt_depth _ _ _ _ Hbt).
Qed.

(** X6.  On every tree that the public operations build, the cached
    [stats.height] is the height that [btree_height] computes from the
    root, and [stats.node_count] is the number of nodes of the tree
    (modulo [2 ^ 64]). *)
Theorem header_counts_nodes (t : btree_t) :
  reachable t ->
  height (stats t) = btree_height t /\
  exists h r, root t = Some r /\ bt (order t) h 0 r /\
              node_count (stats t) = u64 (nnodes h r).
Proof.
  intros Hr. destruct (reachable_counted t Hr) as (h & r & Hs & N & E).
  split; [now rewrite (tree_shape_height t h r Hs)|].
  exists h, r. destruct Hs as (_ & _ & Hroot & Hbt & _). auto.
Qed.

Lemma header_counts_nodes_witness :
  reachable split_tree /\
  height (stats split_tree) = btree_height split_tree /\
  exists h r, root split_tree = Some r /\ bt (order split_tree) h 0 r /\
              node_count (stats split_tree) = u64 (nnodes h r).
Proof.
  assert (Hr : reachable split_tree).
  { apply (build_reachable 4 [(1, 11); (2, 12); (3, 13); (4, 14)]). vm_compute. reflexivity. }
  split; [exact Hr|]. exact (header_counts_nodes split_tree Hr).
Defined.

(** X7.  On every tree that the public operations build, [btree_insert]
    terminates with [BTREE_OK] (allocation succeeding), keeps the order of
    the tree, and makes the tree at most one level higher. *)
Theorem insert_always_ok (t : btree_t) (key : btree_key_t) (value : btree_value_t) :
  reachable t ->
  exists t', btree_insert t key value = Some (BTREE_OK, t') /\
             order t' = order t /\
             (btree_height t' = btree_height t \/
              btree_height t' = u32 (btree_height t + 1)).
Proof.
  intros Hr. destruct (reachable_counted t Hr) as (h & r & Hs & _).
  destruct (btree_insert_effect t h r key value Hs)
    as (t' & h' & r' & Hins & Hs' & Ho & Hh & _).
  exists t'. split; [exact Hins|]. split; [exact Ho|].
  rewrite (tree_shape_height t h r Hs), (tree_shape_height t' h' r' Hs').
  destruct Hh as [->| ->]; [now left|right].
  unfold u32. rewrite Zplus_mod_idemp_l. f_equal. lia.
Qed.

Lemma insert_always_ok_witness :
  reachable split_tree /\
  exists t', btree_insert split_tree 2 22 = Some (BTREE_OK, t') /\
             order t' = order split_tree /\
             (btree_height t' = btree_height split_tree \/
              btree_height t' = u32 (btree_height split_tree + 1)).
Proof.
  assert (Hr : reachable split_tree).
  { apply (build_reachable 4 [(1, 11); (2, 12); (3, 13); (4, 14)]). vm_compute. reflexivity. }
  split; [exact Hr|]. exact (insert_always_ok split_tree 2 22 Hr).
Defined.

(** X8.  On every tree that the public operations build, [btree_clear]
    gives the tree that [btree_create] makes for the same order, with the
    statistics switch left as it was: an empty leaf as root, and all
    counters reset. *)
Theorem clear_is_fresh (t : btree_t) :
  reachable t ->
  Some (btree_clear t) =
  option_map (fun t0 => btree_set_stats_collection t0 (collect_stats t))
             (btree_create (order t)).
Proof.
  intros Hr. destruct (reachable_counted t Hr) as (h & r & (Hm & Hmin & _) & _).
  unfold btree_create, btree_clear, btree_set_stats_collection,
    BTREE_MIN_ORDER, BTREE_MAX_ORDER in *.
  destruct (Z.ltb_spec (order t) 3), (Z.gtb_spec (order t) 1024); try lia.
  cbn [orb option_map root order min_keys stats]. now rewrite Hmin.
Qed.

Lemma clear_is_fresh_witness :
  reachable split_tree /\
  Some (btree_clear split_tree) =
  option_map (fun t0 => btree_set_stats_collection t0 (collect_stats split_tree))
             (btree_create (order split_tree)).
Proof.
  assert (Hr : reachable split_tree).
  { apply (build_reachable 4 [(1, 11); (2, 12); (3, 13); (4, 14)]). vm_compute. reflexivity. }
  split; [exact Hr|]. exact (clear_is_fresh split_tree Hr).
Defined.

(** ** [split_child] *)

Lemma full_parent_bt : bt 4 2 0 full_parent.
Proof.
  cbn [bt]. change (is_leaf full_parent) with false. change (num_keys full_parent) with 1.
  cbv iota. split; [lia|]. split; [reflexivity|]. split; [discriminate|].
  split; [reflexivity|]. intros i Hi.
  assert (Hc : i = 0 \/ i = 1) by lia.
  destruct Hc as [-> | ->]; (eexists; split; [reflexivity|]);
    cbn [is_leaf num_keys keys values]; (split; [vm_compute; intuition discriminate|]);
    (split; [reflexivity|split; reflexivity]).
Qed.

(** X9.  [split_child] on a full child of an internal node with room
    returns [BTREE_OK], moves the median key of the child into the parent
    at the index of the child, and adds one, modulo [2 ^ 64], to
    [node_count] and to [splits]; the subtree keeps its shape, holds the
    same keys, and stays ordered when it was. *)
Theorem split_child_spec (t : btree_t) (h : nat) (lo : Z) (parent : btree_node_t)
    (idx : Z) (child : btree_node_t) :
  BTREE_MIN_ORDER <= order t <= BTREE_MAX_ORDER ->
  bt (order t) (S h) lo parent -> is_leaf parent = false ->
  num_keys parent < order t - 1 ->
  0 <= idx <= num_keys parent -> arr_get None (children parent) idx = Some child ->
  num_keys child = order t - 1 ->
  exists t' parent',
    split_child t parent idx child = (BTREE_OK, t', parent') /\
    bt (order t) (S h) lo parent' /\
    num_keys parent' = num_keys parent + 1 /\
    key_at parent' idx = key_at child ((order t - 1) / 2) /\
    (forall x, key_in (S h) parent' x <-> key_in (S h) parent x) /\
    nkeys (S h) parent' = nkeys (S h) parent /\
    nnodes (S h) parent' = nnodes (S h) parent + 1 /\
    node_count (stats t') = (node_count (stats t) + 1) mod 2 ^ 64 /\
    splits (stats t') = (splits (stats t) + 1) mod 2 ^ 64 /\
    (forall blo bhi, ordered (S h) blo bhi parent -> ordered (S h) blo bhi parent').
Proof.
  intros Hm Hbt Hl Hroom Hidx Hc Hfull. rewrite split_child_eq.
  eexists _, _. split; [reflexivity|].
  split; [now apply split_parent_bt|].
  split; [now apply (split_parent_num_keys _ Hm h lo)|].
  split.
  { rewrite (split_parent_key _ Hm h lo parent idx child idx Hbt Hroom Hidx), Z.eqb_refl.
    now rewrite (split_mid_eq _ Hm). }
  split; [intros x; now apply (key_in_split_parent _ Hm h lo)|].
  split; [now apply (split_parent_nkeys _ Hm h lo)|].
  split; [now apply (split_parent_nnodes _ Hm h lo)|].
  split; [reflexivity|]. split; [reflexivity|].
  intros blo bhi Hord. now apply (split_parent_ordered _ Hm h lo).
Qed.

Lemma split_child_spec_witness :
  BTREE_MIN_ORDER <= order split_tree <= BTREE_MAX_ORDER /\
  bt (order split_tree) 2 0 full_parent /\ is_leaf full_parent = false /\
  num_keys full_parent < order split_tree - 1 /\
  0 <= 1 <= num_keys full_parent /\
  arr_get None (children full_parent) 1 = Some full_child /\
  num_keys full_child = order split_tree - 1 /\
  exists t' parent',
    split_child split_tree full_parent 1 full_child = (BTREE_OK, t', parent') /\
    bt (order split_tree) 2 0 parent' /\
    num_keys parent' = num_keys full_parent + 1 /\
    key_at parent' 1 = key_at full_child ((order split_tree - 1) / 2) /\
    (forall x, key_in 2 parent' x <-> key_in 2 full_parent x) /\
    nkeys 2 parent' = nkeys 2 full_parent /\
    nnodes 2 parent' = nnodes 2 full_parent + 1 /\
    node_count (stats t') = (node_count (stats split_tree) + 1) mod 2 ^ 64 /\
    splits (stats t') = (splits (stats split_tree) + 1) mod 2 ^ 64 /\
    (forall blo bhi, ordered 2 blo bhi full_parent -> ordered 2 blo bhi parent').
Proof.
  assert (H1 : BTREE_MIN_ORDER <= order split_tree <= BTREE_MAX_ORDER)
    by (vm_compute; intuition discriminate).
  assert (H2 : bt (order split_tree) 2 0 full_parent) by exact full_parent_bt.
  assert (H3 : is_leaf full_parent = false) by reflexivity.
  assert (H4 : num_keys full_parent < order split_tree - 1) by reflexivity.
  assert (H5 : 0 <= 1 <= num_keys full_parent) by (vm_compute; intuition discriminate).
  assert (H6 : arr_get None (children full_parent) 1 = Some full_child) by reflexivity.
  assert (H7 : num_keys full_child = order split_tree - 1) by reflexivity.
  split; [exact H1|]. split; [exact H2|]. split; [exact H3|]. split; [exact H4|].
  split; [exact H5|]. split; [exact H6|]. split; [exact H7|].
  exact (split_child_spec split_tree 1 0 full_parent 1 full_child H1 H2 H3 H4 H5 H6 H7).
Defined.

(** ** The cost of a search *)

Lemma bsearch_loop_cost (ks : list btree_key_t) (key : btree_key_t) (fuel : nat) :
  forall lwr upr c,
    0 <= lwr -> upr - lwr + 1 <= Z.of_nat fuel ->
    exists k : nat,
      snd (bsearch_loop fuel ks key lwr upr (Some c)) = Some (Nat.iter k incr64 c) /\
      (upr < lwr -> k = 0%nat) /\
      (lwr <= upr -> (1 <= k)%nat /\ 2 ^ Z.of_nat k <= 2 * (upr - lwr + 1)).
Proof.
  induction fuel as [|fuel IH]; intros lwr upr c Hl Hf.
  { exists 0%nat. split; [reflexivity|]. split; [reflexivity|]. lia. }
  cbn [bsearch_loop]. destruct (Z.leb_spec lwr upr) as [Hle|Hgt].
  2:{ exists 0%nat. split; [reflexivity|]. split; [reflexivity|]. lia. }
  rewrite shiftr1_half. cbn [option_map].
  set (mid := (lwr + upr) / 2).
  assert (Hmid : lwr <= mid <= upr /\ lwr + upr - 1 <= 2 * mid <= lwr + upr).
  { unfold mid. Z.div_mod_to_equations. lia. }
  assert (Hstep : forall lwr' upr',
            0 <= lwr' -> upr' - lwr' + 1 <= Z.of_nat fuel ->
            2 * (upr' - lwr' + 1) <= upr - lwr + 1 ->
            exists k : nat,
              snd (bsearch_loop fuel ks key lwr' upr' (Some (incr64 c))) =
              Some (Nat.iter k incr64 c) /\
              (upr < lwr -> k = 0%nat) /\
              ((1 <= k)%nat /\ 2 ^ Z.of_nat k <= 2 * (upr - lwr + 1))).
  { intros lwr' upr' H1 H2 H3.
    destruct (IH lwr' upr' (incr64 c) H1 H2) as (k & Hk & Hz & Hp).
    exists (S k). rewrite Nat.iter_succ_r. split; [exact Hk|]. split; [lia|].
    split; [lia|]. rewrite Nat2Z.inj_succ, Z.pow_succ_r by lia.
    destruct (Z.lt_ge_cases upr' lwr') as [He|Hne].
    - rewrite (Hz He). change (2 ^ Z.of_nat 0) with 1. lia.
    - destruct (Hp Hne) as [_ Hp']. lia. }
  destruct (arr_get 0 ks mid <? key).
  { destruct (Hstep (mid + 1) upr) as (k & Hk & Hz & Hp); try lia.
    exists k. split; [exact Hk|]. split; [exact Hz|]. intros _. exact Hp. }
  destruct (arr_get 0 ks mid >? key).
  { destruct (Hstep lwr (mid - 1)) as (k & Hk & Hz & Hp); try lia.
    exists k. split; [exact Hk|]. split; [exact Hz|]. intros _. exact Hp. }
  exists 1%nat. split; [reflexivity|]. split; [lia|]. intros _. split; [lia|].
  change (2 ^ Z.of_nat 1) with 2. lia.
Qed.

Lemma incr64_steps (c : Z) (k : nat) :
  Nat.iter k incr64 c = if (k =? 0)%nat then c else (c + Z.of_nat k) mod 2 ^ 64.
Proof.
  induction k as [|k IH]; [reflexivity|].
  change (Nat.iter (S k) incr64 c) with (incr64 (Nat.iter k incr64 c)). rewrite IH.
  change (S k =? 0)%nat with false. cbv iota. unfold incr64, u64.
  destruct k as [|k].
  - change (1 =? 0)%nat with false. cbn [Nat.eqb]. f_equal.
  - change (S k =? 0)%nat with false. cbv iota.
    rewrite Zplus_mod_idemp_l. f_equal. lia.
Qed.

(** X10.  [node_binary_search] on a node of [n] keys makes no comparison
    when [n = 0] and otherwise between 1 and [floor (log2 n) + 1]
    comparisons, whatever the keys are: for a number [k] with
    [2 ^ k <= 2 * n] it leaves the comparison counter [c] as it is when
    [k = 0] and turns it into [(c + k) mod 2 ^ 64] otherwise. *)
Theorem binary_search_comparisons (node : btree_node_t) (key : btree_key_t) (c : Z) :
  0 <= num_keys node <= 2 ^ 30 ->
  exists k : nat,
    snd (node_binary_search node key (Some c)) =
      Some (if (k =? 0)%nat then c else (c + Z.of_nat k) mod 2 ^ 64) /\
    (num_keys node = 0 -> k = 0%nat) /\
    (1 <= num_keys node -> (1 <= k)%nat /\ 2 ^ Z.of_nat k <= 2 * num_keys node).
Proof.
  intros Hn. unfold node_binary_search. rewrite to_int_small by lia.
  destruct (bsearch_loop_cost (keys node) key (Z.to_nat (num_keys node - 1 + 1)) 0
              (num_keys node - 1) c ltac:(lia) ltac:(lia)) as (k & Hk & Hz & Hp).
  exists k. split; [rewrite Hk, incr64_steps; reflexivity|].
  split; [intros H; apply Hz; lia|].
  intros H. destruct (Hp ltac:(lia)) as [H1 H2]. split; [exact H1|]. lia.
Qed.

Lemma binary_search_comparisons_witness :
  0 <= num_keys sample_leaf <= 2 ^ 30 /\
  exists k : nat,
    snd (node_binary_search sample_leaf 20 (Some 0)) =
      Some (if (k =? 0)%nat then 0 else (0 + Z.of_nat k) mod 2 ^ 64) /\
    (num_keys sample_leaf = 0 -> k = 0%nat) /\
    (1 <= num_keys sample_leaf ->
     (1 <= k)%nat /\ 2 ^ Z.of_nat k <= 2 * num_keys sample_leaf).
Proof.
  assert (H : 0 <= num_keys sample_leaf <= 2 ^ 30) by (cbn [num_keys sample_leaf]; lia).
  split; [exact H|]. exact (binary_search_comparisons sample_leaf 20 0 H).
Defined.

Lemma tree_binary_search_visits (t : btree_t) (n : btree_node_t) (key : btree_key_t) :
  node_visits (stats (snd (tree_binary_search t n key))) = node_visits (stats t) /\
  collect_stats (snd (tree_binary_search t n key)) = collect_stats t.
Proof.
  unfold tree_binary_search.
  destruct (node_binary_search n key _) as [[pos found] [c|]]; cbn; tauto.
Qed.

Lemma search_loop_visits (m : Z) (fuel : nat) :
  BTREE_MIN_ORDER <= m <= BTREE_MAX_ORDER ->
  forall h lo t n key slot,
    collect_stats t = true -> bt m h lo n -> (h <= fuel)%nat ->
    exists v,
      1 <= v <= Z.of_nat h /\
      node_visits (stats (snd (fst (search_loop fuel t (Some n) key slot)))) =
        u64 (node_visits (stats t) + v) /\
      (fst (fst (search_loop fuel t (Some n) key slot)) = BTREE_ERROR_NOT_FOUND ->
       v = Z.of_nat h).
Proof.
  intros Hm. unfold BTREE_MIN_ORDER, BTREE_MAX_ORDER in Hm.
  induction fuel as [|fuel IH]; intros h lo t n key slot Hc Hbt Hf.
  { pose proof (bt_height_pos _ _ _ _ Hbt). lia. }
  destruct h as [|h]; [destruct Hbt|].
  pose proof (bt_num_keys _ _ _ _ Hbt) as Hn.
  cbn [search_loop].
  assert (Hv : node_visits (stats (visit t)) = incr64 (node_visits (stats t)) /\
               collect_stats (visit t) = true).
  { unfold visit. rewrite Hc. cbn. auto. }
  destruct Hv as [Hv Hcv].
  pose proof (tree_binary_search_visits (visit t) n key) as [Hb Hcb].
  pose proof (tree_binary_search_range (visit t) n key) as Hrange.
  destruct (tree_binary_search (visit t) n key) as [[pos found] t1].
  cbn [snd] in Hb, Hcb. rewrite Hv in Hb. rewrite Hcv in Hcb.
  destruct Hrange as [Hpos _]; [lia|].
  destruct found.
  - exists 1. cbn [fst snd]. split; [lia|]. split; [exact Hb|]. discriminate.
  - destruct (is_leaf n) eqn:Hl.
    + apply (bt_leaf_height _ _ _ _ Hbt) in Hl as Hh. injection Hh as ->.
      exists 1. cbn [fst snd]. split; [lia|]. split; [exact Hb|]. reflexivity.
    + destruct (bt_child m h lo n pos Hbt Hl Hpos) as (c & Hcc & Hcbt).
      rewrite Hcc.
      destruct (IH h _ t1 c key slot Hcb Hcbt ltac:(lia)) as (v & Hvr & Hnv & Hnf).
      exists (v + 1). split; [lia|]. split.
      * rewrite Hnv, Hb. unfold incr64. rewrite u64_add_idemp. f_equal. lia.
      * intros Hst. rewrite (Hnf Hst). lia.
Qed.

(** X11.  With statistics collection on, a [btree_search] on a tree built
    by the public operations, of fewer than [2 ^ 32] levels, visits at
    least one node and at most as many nodes as [btree_height] reports:
    [node_visits] becomes [(node_visits + v) mod 2 ^ 64] for a number [v]
    with [1 <= v <= btree_height], and [v] is [btree_height] when the key
    is not found. *)
Theorem search_node_visits (t : btree_t) (key : btree_key_t) (slot : bool) :
  reachable t -> collect_stats t = true ->
  Z.of_nat (ptr_depth (root t)) < 2 ^ 32 ->
  exists v : Z,
    1 <= v <= btree_height t /\
    node_visits (stats (snd (fst (btree_search t key slot)))) =
      (node_visits (stats t) + v) mod 2 ^ 64 /\
    (fst (fst (btree_search t key slot)) = BTREE_ERROR_NOT_FOUND ->
     v = btree_height t).
Proof.
  intros Hr Hc Hlevels. destruct (reachable_counted t Hr) as (h & r & Hs & _).
  pose proof (tree_shape_height t h r Hs) as Hh.
  destruct Hs as (Hm & _ & Hroot & Hbt & _).
  assert (Hsmall : Z.of_nat h < 2 ^ 32).
  { rewrite Hroot in Hlevels. cbn [ptr_depth] in Hlevels.
    pose proof (bt_depth _ _ _ _ Hbt). lia. }
  rewrite u32_small in Hh by lia. rewrite Hh.
  unfold btree_search. rewrite Hroot, Hc.
  set (t0 := set_stats t _).
  assert (Hc0 : collect_stats t0 = true) by exact Hc.
  destruct (search_loop_visits (order t) (node_depth r) Hm h 0 t0 r key slot Hc0 Hbt
              (bt_depth _ _ _ _ Hbt)) as (v & Hv & Hnv & Hnf).
  exists v. split; [exact Hv|]. split; [exact Hnv|exact Hnf].
Qed.

Lemma search_node_visits_witness :
  reachable split_tree /\ collect_stats split_tree = true /\
  Z.of_nat (ptr_depth (root split_tree)) < 2 ^ 32 /\
  btree_height split_tree = 2 /\
  fst (fst (btree_search split_tree 5 true)) = BTREE_ERROR_NOT_FOUND /\
  node_visits (stats split_tree) = 5 /\
  node_visits (stats (snd (fst (btree_search split_tree 5 true)))) = 7.
Proof.
  assert (Hr : reachable split_tree).
  { apply (build_reachable 4 [(1, 11); (2, 12); (3, 13); (4, 14)]). vm_compute. reflexivity. }
  assert (Hl : Z.of_nat (ptr_depth (root split_tree)) < 2 ^ 32) by (vm_compute; reflexivity).
  assert (Hnf : fst (fst (btree_search split_tree 5 true)) = BTREE_ERROR_NOT_FOUND)
    by (vm_compute; reflexivity).
  destruct (search_node_visits split_tree 5 true Hr eq_refl Hl) as (v & _ & Hn & Hv).
  split; [exact Hr|]. split; [reflexivity|]. split; [exact Hl|].
  split; [vm_compute; reflexivity|]. split; [exact Hnf|].
  split; [vm_compute; reflexivity|].
  rewrite Hn, (Hv Hnf). vm_compute. reflexivity.
Defined.

(** ** The statistics switch *)

Lemma same_core_sym (t1 t2 : btree_t) : same_core t1 t2 -> same_core t2 t1.
Proof. unfold same_core. intuition congruence. Qed.

Lemma same_core_trans (t1 t2 t3 : btree_t) :
  same_core t1 t2 -> same_core t2 t3 -> same_core t1 t3.
Proof. unfold same_core. intuition congruence. Qed.

Lemma same_core_kept (t t' : btree_t) : stats_step t t' -> nodes_kept t t' -> same_core t' t.
Proof. unfold stats_step, nodes_kept, same_core. intuition congruence. Qed.

Lemma same_core_search (t1 t2 : btree_t) (n : btree_node_t) (key : btree_key_t) :
  same_core t1 t2 ->
  fst (tree_binary_search (visit t1) n key) = fst (tree_binary_search (visit t2) n key) /\
  same_core (snd (tree_binary_search (visit t1) n key))
            (snd (tree_binary_search (visit t2) n key)).
Proof.
  intros Hs. split.
  - now rewrite !tree_binary_search_pure.
  - assert (H : forall t, same_core (snd (tree_binary_search (visit t) n key)) t).
    { intros t. apply same_core_kept.
      - eapply stats_step_trans; [apply visit_step|apply tree_binary_search_step].
      - eapply nodes_kept_trans; [apply visit_kept|apply tree_binary_search_kept]. }
    eapply same_core_trans; [apply H|].
    eapply same_core_trans; [exact Hs|]. apply same_core_sym, H.
Qed.

Lemma insert_nonfull_core (fuel : nat) :
  forall t1 t2 n key value,
    same_core t1 t2 ->
    same_result (insert_nonfull fuel t1 n key value) (insert_nonfull fuel t2 n key value).
Proof.
  induction fuel as [|fuel IH]; intros t1 t2 n key value Hs; [exact I|].
  cbn [insert_nonfull].
  destruct (same_core_search t1 t2 n key Hs) as [Hfst Hcore].
  destruct (tree_binary_search (visit t1) n key) as [[pos found] u1].
  destruct (tree_binary_search (visit t2) n key) as [[pos2 found2] u2].
  cbn [fst snd] in Hfst, Hcore. injection Hfst as <- <-.
  pose proof Hcore as (Ho & Hmk & Hnc & Hkc & Hh).
  destruct (is_leaf n).
  - destruct found; cbn [same_result]; (split; [reflexivity|]); (split; [reflexivity|]);
      [exact Hcore|].
    unfold same_core. cbn [order min_keys stats set_stats node_count key_count height
      splits upd_key_count]. rewrite Hkc. repeat split; assumption.
  - destruct (arr_get None (children n) (if found then pos + 1 else pos)) as [child|];
      [|exact I].
    rewrite Ho. rewrite !split_child_eq, Ho.
    destruct (num_keys child =? u32 (order u2 - 1)).
    + cbn [negb status_eqb]. cbv iota beta.
      match goal with
      | |- context [arr_get None ?cs ?q] =>
          destruct (arr_get None cs q) as [c2|]; [|exact I]
      end.
      assert (Hs2 : same_core
                (set_stats u1 (upd_splits incr64 (upd_node_count incr64 (stats u1))))
                (set_stats u2 (upd_splits incr64 (upd_node_count incr64 (stats u2))))).
      { unfold same_core. cbn [order min_keys stats set_stats node_count key_count height
          splits upd_splits upd_node_count]. rewrite Hnc. repeat split; assumption. }
      specialize (IH _ _ c2 key value Hs2).
      destruct (insert_nonfull fuel (set_stats u1 _) c2 key value) as [[[s1 v1] m1]|],
               (insert_nonfull fuel (set_stats u2 _) c2 key value) as [[[s2 v2] m2]|];
        cbn [same_result] in IH |- *; try contradiction; [|exact I].
      destruct IH as (-> & -> & Hc'). auto.
    + cbn [negb status_eqb]. cbv iota beta.
      match goal with
      | |- context [arr_get None ?cs ?q] =>
          destruct (arr_get None cs q) as [c2|]; [|exact I]
      end.
      specialize (IH _ _ c2 key value Hcore).
      destruct (insert_nonfull fuel u1 c2 key value) as [[[s1 v1] m1]|],
               (insert_nonfull fuel u2 c2 key value) as [[[s2 v2] m2]|];
        cbn [same_result] in IH |- *; try contradiction; [|exact I].
      destruct IH as (-> & -> & Hc'). auto.
Qed.

Lemma btree_insert_core (t1 t2 : btree_t) (key : btree_key_t) (value : btree_value_t) :
  root t1 = root t2 -> same_core t1 t2 ->
  same_outcome (btree_insert t1 key value) (btree_insert t2 key value).
Proof.
  intros Hroot Hs. unfold btree_insert. rewrite Hroot.
  destruct (root t2) as [r|] eqn:Hr2.
  2:{ cbn [same_outcome]. unfold btree_size, btree_height. rewrite Hroot, Hr2.
      destruct Hs as (_ & _ & H1 & H2 & _).
      split; [reflexivity|]. split; [congruence|]. split; [exact H2|].
      split; [reflexivity|exact H1]. }
  set (a := if collect_stats t1 then _ else t1).
  set (b := if collect_stats t2 then _ else t2).
  assert (Hab : same_core a b).
  { unfold a, b. destruct Hs as (H1 & H2 & H3 & H4 & H5).
    unfold same_core. destruct (collect_stats t1), (collect_stats t2); cbn; tauto. }
  pose proof Hab as (Ho & Hmk & Hnc & Hkc & Hh).
  rewrite Ho. rewrite !split_child_eq.
  assert (Hfin : forall fuel u1 u2 n,
             same_core u1 u2 ->
             same_outcome
               match insert_nonfull fuel u1 n key value with
               | Some (status, t0, r0) => Some (status, set_root t0 (Some r0))
               | None => None
               end
               match insert_nonfull fuel u2 n key value with
               | Some (status, t0, r0) => Some (status, set_root t0 (Some r0))
               | None => None
               end).
  { intros fuel u1 u2 n Hu. pose proof (insert_nonfull_core fuel u1 u2 n key value Hu) as H.
    destruct (insert_nonfull fuel u1 n key value) as [[[s1 v1] m1]|],
             (insert_nonfull fuel u2 n key value) as [[[s2 v2] m2]|];
      cbn [same_result] in H; try contradiction; [|exact I].
    destruct H as (-> & -> & (_ & _ & H1 & H2 & _)).
    cbn [same_outcome]. unfold btree_size, btree_height. cbn [root set_root stats]. auto. }
  destruct (num_keys r =? u32 (order b - 1)).
  - cbn [negb status_eqb]. cbv iota beta.
    change (order (set_stats (set_root a ?x) ?y)) with (order a). rewrite Ho.
    change (order (set_stats (set_root b ?x) ?y)) with (order b).
    apply Hfin.
    unfold same_core. cbn [order min_keys stats set_stats set_root node_count key_count
      height splits upd_splits upd_node_count upd_height].
    rewrite Hnc, Hh. repeat split; assumption.
  - cbn [negb status_eqb]. cbv iota beta. apply Hfin. exact Hab.
Qed.

(** X12.  Neither the statistics switch nor a reset of the statistics
    changes what the tree does: after [btree_set_stats_collection] or
    [btree_stats_reset], [btree_insert] returns the same status and builds
    the same nodes, with the same size, height and node count, and
    [btree_search] returns the same status and value. *)
Theorem stats_calls_transparent (t : btree_t) (enabled : bool) (key : btree_key_t)
    (value : btree_value_t) :
  same_outcome (btree_insert (btree_set_stats_collection t enabled) key value)
               (btree_insert t key value) /\
  same_outcome (btree_insert (btree_stats_reset t) key value)
               (btree_insert t key value) /\
  forall slot,
    (fst (fst (btree_search (btree_set_stats_collection t enabled) key slot)) =
     fst (fst (btree_search t key slot)) /\
     snd (btree_search (btree_set_stats_collection t enabled) key slot) =
     snd (btree_search t key slot)) /\
    (fst (fst (btree_search (btree_stats_reset t) key slot)) =
     fst (fst (btree_search t key slot)) /\
     snd (btree_search (btree_stats_reset t) key slot) =
     snd (btree_search t key slot)).
Proof.
  split; [|split].
  - apply btree_insert_core; [reflexivity|]. unfold same_core. cbn. tauto.
  - apply btree_insert_core; [reflexivity|]. unfold same_core. cbn. tauto.
  - intros slot. split; now apply btree_search_pure.
Qed.

(** ** The first position of a cursor *)

Lemma bt_height_unique (m : Z) (h : nat) :
  forall h' lo lo' n, bt m h lo n -> bt m h' lo' n -> h = h'.
Proof.
  induction h as [|h IH]; intros h' lo lo' n Hbt Hbt'; [destruct Hbt|].
  destruct h' as [|h']; [destruct Hbt'|]. f_equal.
  destruct (is_leaf n) eqn:Hl.
  - apply (bt_leaf_height _ _ _ _ Hbt) in Hl as H1.
    apply (bt_leaf_height _ _ _ _ Hbt') in Hl as H2. congruence.
  - pose proof (bt_num_keys _ _ _ _ Hbt) as Hn.
    destruct (bt_child m h lo n 0 Hbt Hl ltac:(lia)) as (c & Hc & Hcbt).
    destruct (bt_child m h' lo' n 0 Hbt' Hl ltac:(lia)) as (c' & Hc' & Hcbt').
    rewrite Hc in Hc'. injection Hc' as <-. apply (IH h' _ _ c Hcbt Hcbt').
Qed.

Lemma insert_all_height (kvs : list (btree_key_t * btree_value_t)) :
  forall t h r,
    tree_shape t h r ->
    exists t' h' r', insert_all t kvs = Some t' /\ tree_shape t' h' r' /\
                     (h' <= h + length kvs)%nat.
Proof.
  induction kvs as [|[k v] kvs IH]; intros t h r Hs.
  - exists t, h, r. split; [reflexivity|]. split; [exact Hs|]. lia.
  - destruct (btree_insert_effect t h r k v Hs) as (t1 & h1 & r1 & Hins & Hs1 & _ & Hh & _).
    destruct (IH t1 h1 r1 Hs1) as (t' & h' & r' & Hall & Hs' & Hh').
    exists t', h', r'. cbn [insert_all length]. rewrite Hins.
    split; [exact Hall|]. split; [exact Hs'|]. lia.
Qed.

Lemma descend_first (m : Z) (fuel : nat) :
  forall h lo n pth pos d,
    bt m h lo n -> (h <= fuel)%nat -> 0 <= d ->
    arr_get None pth d = Some n -> arr_get 0 pos d = 0 ->
    d + Z.of_nat h <= Z.of_nat (length pth) -> length pos = length pth ->
    exists pth' pos',
      descend_loop fuel (fun _ _ => 0) pth pos d = Some (pth', pos', d + Z.of_nat h - 1) /\
      arr_get None pth' (d + Z.of_nat h - 1) = Some (leftmost h n) /\
      arr_get 0 pos' (d + Z.of_nat h - 1) = 0.
Proof.
  induction fuel as [|fuel IH]; intros h lo n pth pos d Hbt Hf Hd Hp Hz Hlen Hlp.
  { pose proof (bt_height_pos _ _ _ _ Hbt). lia. }
  destruct h as [|h]; [destruct Hbt|].
  pose proof (bt_num_keys _ _ _ _ Hbt) as Hn.
  cbn [descend_loop leftmost]. rewrite Hp.
  destruct (is_leaf n) eqn:Hl.
  - apply (bt_leaf_height _ _ _ _ Hbt) in Hl as Hh. injection Hh as ->.
    replace (d + Z.of_nat 1 - 1) with d by lia.
    exists pth, pos. auto.
  - destruct (bt_child m h lo n 0 Hbt Hl ltac:(lia)) as (c & Hc & Hcbt).
    pose proof (bt_height_pos _ _ _ _ Hcbt) as Hhp.
    destruct (Z.leb_spec (Z.of_nat (length pth)) (d + 1)); [lia|].
    rewrite Hc.
    destruct (IH h _ c (arr_set pth (d + 1) (Some c)) (arr_set pos (d + 1) 0) (d + 1) Hcbt)
      as (pth' & pos' & Hres & Hleaf & Hpos); try lia.
    + apply arr_get_set_eq. lia.
    + apply arr_get_set_eq. lia.
    + rewrite arr_set_length. lia.
    + now rewrite !arr_set_length.
    + replace (d + 1 + Z.of_nat h - 1) with (d + Z.of_nat (S h) - 1) in * by lia.
      exists pth', pos'. auto.
Qed.

(** The first key of the leftmost leaf is the least key of an ordered
    subtree. *)
Lemma leftmost_least (m : Z) (h : nat) :
  forall lo blo bhi n,
    bt m h lo n -> ordered h blo bhi n -> 0 < num_keys (leftmost h n) ->
    is_leaf (leftmost h n) = true /\
    value_in h n (key_at (leftmost h n) 0) (arr_get 0 (values (leftmost h n)) 0) /\
    forall x, key_in h n x -> key_at (leftmost h n) 0 <= x.
Proof.
  induction h as [|h IH]; intros lo blo bhi n Hbt Hord Hpos; [destruct Hbt|].
  pose proof (bt_num_keys _ _ _ _ Hbt) as Hn.
  pose proof (ordered_increasing _ _ _ _ Hord) as Hinc.
  pose proof (keys_increasing_lt n Hinc) as Hlt.
  cbn [leftmost] in *. destruct (is_leaf n) eqn:Hl.
  - split; [exact Hl|]. split.
    + cbn [value_in]. left. split; [exact Hl|]. exists 0. split; [lia|]. auto.
    + intros x Hx. apply key_in_leaf in Hx; [|exact Hl]. destruct Hx as (i & Hi & <-).
      destruct (Z.eq_dec i 0) as [->|Hne]; [lia|].
      specialize (Hlt 0 i ltac:(lia) ltac:(lia) ltac:(lia)). lia.
  - destruct (bt_child m h lo n 0 Hbt Hl ltac:(lia)) as (c & Hc & Hcbt).
    rewrite Hc in *.
    destruct Hord as (_ & Hb & Hkids).
    pose proof (Hkids Hl 0 c ltac:(lia) Hc) as Hcord.
    destruct (IH _ _ _ c Hcbt Hcord Hpos) as (Hleaf & Hval & Hmin).
    split; [exact Hleaf|]. split.
    + cbn [value_in]. right. split; [exact Hl|]. exists 0, c. split; [lia|]. auto.
    + set (k0 := key_at (leftmost h c) 0) in *.
      assert (Hk0 : 0 < num_keys n -> k0 < key_at n 0).
      { intros Hnz.
        pose proof (ordered_key_bounds h _ _ c k0 Hcord (value_in_key_in _ _ _ _ Hval))
          as [_ Hhi].
        unfold child_hi in Hhi. destruct (Z.eqb_spec 0 (num_keys n)); [lia|exact Hhi]. }
      intros x Hx. cbn [key_in] in Hx.
      destruct Hx as [(i & Hi & <-)|(_ & i & ci & Hi & Hci & Hx)].
      * specialize (Hk0 ltac:(lia)).
        destruct (Z.eq_dec i 0) as [->|Hne]; [lia|].
        specialize (Hlt 0 i ltac:(lia) ltac:(lia) ltac:(lia)). lia.
      * destruct (Z.eq_dec i 0) as [->|Hne].
        -- rewrite Hc in Hci. injection Hci as <-. now apply Hmin.
        -- specialize (Hk0 ltac:(lia)).
           pose proof (ordered_key_bounds h _ _ ci x (Hkids Hl i ci Hi Hci) Hx) as [Hlo _].
           unfold child_lo in Hlo. destruct (Z.eqb_spec i 0); [lia|].
           destruct (Z.eq_dec (i - 1) 0) as [He|Hne1]; [rewrite He in Hlo; lia|].
           specialize (Hlt 0 (i - 1) ltac:(lia) ltac:(lia) ltac:(lia)). lia.
Qed.

(** [btree_cursor_first] on a fresh cursor stops on the leftmost leaf. *)
Lemma cursor_first_leftmost (t : btree_t) (h : nat) (r : btree_node_t) :
  tree_shape t h r -> (h <= 64)%nat ->
  let leaf := leftmost h r in
  exists c,
    btree_cursor_first (btree_cursor_create t) =
      Some (if num_keys leaf >? 0 then BTREE_OK else BTREE_ERROR_NOT_FOUND, c) /\
    valid c = (num_keys leaf >? 0) /\
    arr_get None (path c) (depth c) = Some leaf /\
    arr_get 0 (positions c) (depth c) = 0.
Proof.
  intros (Hm & _ & Hroot & Hbt & _) Hh. cbn zeta.
  pose proof (bt_height_pos _ _ _ _ Hbt) as Hhp.
  unfold btree_cursor_first, btree_cursor_create. cbn [tree path positions max_depth].
  rewrite Hroot.
  destruct (descend_first (order t) (S (length (arr_set (replicate 64 None) 0 (Some r))))
              h 0 r (arr_set (replicate 64 None) 0 (Some r))
              (arr_set (replicate 64 0) 0 0) 0 Hbt)
    as (pth' & pos' & Hres & Hleaf & Hpos).
  - rewrite arr_set_length, length_replicate. lia.
  - lia.
  - apply arr_get_set_eq. rewrite length_replicate. lia.
  - apply arr_get_set_eq. rewrite length_replicate. lia.
  - rewrite arr_set_length, length_replicate. lia.
  - now rewrite !arr_set_length, !length_replicate.
  - rewrite Hres, Hleaf. eexists. split; [reflexivity|].
    cbn [valid path positions depth]. auto.
Qed.

Lemma leftmost_num_keys (m : Z) (h : nat) :
  forall lo n, bt m h lo n -> 0 <= num_keys (leftmost h n) <= m - 1.
Proof.
  induction h as [|h IH]; intros lo n Hbt; [destruct Hbt|].
  pose proof (bt_num_keys _ _ _ _ Hbt) as Hn.
  cbn [leftmost]. destruct (is_leaf n) eqn:Hl; [lia|].
  destruct (bt_child m h lo n 0 Hbt Hl ltac:(lia)) as (c & Hc & Hcbt).
  rewrite Hc. apply (IH _ c Hcbt).
Qed.

Lemma build_shape (m : Z) (kvs : list (btree_key_t * btree_value_t)) (t : btree_t) :
  build m kvs = Some t ->
  BTREE_MIN_ORDER <= m <= BTREE_MAX_ORDER /\
  exists h r, order t = m /\ built kvs t h r /\ (h <= S (length kvs))%nat.
Proof.
  intros Hb.
  assert (Hm : BTREE_MIN_ORDER <= m <= BTREE_MAX_ORDER).
  { unfold build in Hb. destruct (btree_create m) as [t0|] eqn:Hc; [|discriminate].
    now apply order_range_of_create in Hc as [Hm _]. }
  split; [exact Hm|].
  destruct (build_effect m kvs Hm) as (t' & h & r & Hb' & Ho & Hbuilt).
  rewrite Hb in Hb'. injection Hb' as <-.
  exists h, r. split; [exact Ho|]. split; [exact Hbuilt|].
  unfold build in Hb. destruct (btree_create m) as [t0|] eqn:Hc; [|discriminate].
  destruct (fresh_tree_shape m t0 Hc) as (_ & _ & Hs0 & _).
  destruct (insert_all_height kvs t0 1 _ Hs0) as (t' & h' & r' & Hall & Hs' & Hh).
  rewrite Hb in Hall. injection Hall as <-.
  destruct Hbuilt as ((_ & _ & Hroot & Hbt & _) & _).
  destruct Hs' as (_ & _ & Hroot' & Hbt' & _).
  rewrite Hroot in Hroot'. injection Hroot' as <-.
  rewrite (bt_height_unique _ _ _ _ _ _ Hbt Hbt'). lia.
Qed.

(** ** The leaves at the two ends of the tree *)

Lemma leftmost_internal (h : nat) (n c : btree_node_t) :
  is_leaf n = false -> arr_get None (children n) 0 = Some c ->
  leftmost (S h) n = leftmost h c.
Proof. intros Hl Hc. cbn [leftmost]. now rewrite Hl, Hc. Qed.

Lemma rightmost_internal (h : nat) (n c : btree_node_t) :
  is_leaf n = false -> arr_get None (children n) (num_keys n) = Some c ->
  rightmost (S h) n = rightmost h c.
Proof. intros Hl Hc. cbn [rightmost]. now rewrite Hl, Hc. Qed.

Section EndLeaves.
Variable m : Z.
Hypothesis order_range : BTREE_MIN_ORDER <= m <= BTREE_MAX_ORDER.

Lemma split_parent_first_child (h : nat) (lo : Z) (parent : btree_node_t) (idx : Z)
    (child : btree_node_t) :
  bt m (S h) lo parent -> is_leaf parent = false -> num_keys parent < m - 1 ->
  0 <= idx <= num_keys parent ->
  arr_get None (children (split_parent m parent idx child)) 0 =
  if idx =? 0 then Some (split_left m child) else arr_get None (children parent) 0.
Proof.
  intros Hbt Hl Hroom Hidx.
  rewrite (split_parent_children m order_range h lo parent idx child Hbt Hl Hroom Hidx 0).
  destruct (Z.eqb_spec 0 idx), (Z.eqb_spec idx 0); try lia; [reflexivity|].
  destruct (Z.eqb_spec 0 (idx + 1)); [lia|].
  destruct (Z.ltb_spec (idx + 1) 0); [lia|]. reflexivity.
Qed.

Lemma split_parent_last_child (h : nat) (lo : Z) (parent : btree_node_t) (idx : Z)
    (child : btree_node_t) :
  bt m (S h) lo parent -> is_leaf parent = false -> num_keys parent < m - 1 ->
  0 <= idx <= num_keys parent ->
  arr_get None (children (split_parent m parent idx child))
    (num_keys (split_parent m parent idx child)) =
  if idx =? num_keys parent then Some (split_right m child)
  else arr_get None (children parent) (num_keys parent).
Proof.
  intros Hbt Hl Hroom Hidx.
  rewrite (split_parent_num_keys m order_range h lo parent idx child Hbt Hroom).
  rewrite (split_parent_children m order_range h lo parent idx child Hbt Hl Hroom Hidx).
  destruct (Z.eqb_spec (num_keys parent + 1) idx); [lia|].
  destruct (Z.eqb_spec (num_keys parent + 1) (idx + 1)), (Z.eqb_spec idx (num_keys parent));
    try lia; [reflexivity|].
  destruct (Z.ltb_spec (idx + 1) (num_keys parent + 1)); [|lia].
  destruct (Z.leb_spec (num_keys parent + 1) (num_keys parent + 1)); [|lia].
  cbn [andb]. f_equal. lia.
Qed.

(** The left half of a full node keeps a key in its leftmost leaf. *)
Lemma split_left_leftmost (h : nat) (lo : Z) (child : btree_node_t) :
  bt m h lo child -> num_keys child = m - 1 ->
  0 < num_keys (leftmost h child) ->
  0 < num_keys (leftmost h (split_left m child)).
Proof.
  pose proof (split_mid_range m order_range) as Hmid.
  intros Hbt Hfull Hpos. destruct h as [|h]; [destruct Hbt|].
  cbn [leftmost] in *.
  change (is_leaf (split_left m child)) with (is_leaf child).
  change (children (split_left m child)) with (children child).
  destruct (is_leaf child) eqn:Hl.
  - change (num_keys (split_left m child)) with (split_mid m). lia.
  - pose proof (bt_num_keys _ _ _ _ Hbt) as Hn.
    destruct (bt_child m h lo child 0 Hbt Hl ltac:(lia)) as (c & Hc & _).
    rewrite Hc in *. exact Hpos.
Qed.

(** The right half of a full node keeps a key in its rightmost leaf, for
    the orders from 4 on. *)
Lemma split_right_rightmost (h : nat) (lo : Z) (child : btree_node_t) :
  4 <= m -> bt m h lo child -> num_keys child = m - 1 ->
  0 < num_keys (rightmost h child) ->
  0 < num_keys (rightmost h (split_right m child)).
Proof.
  pose proof (split_mid_range m order_range) as Hmid.
  pose proof (split_mid_min_fill m order_range) as Hsum.
  pose proof (split_mid_eq m order_range) as Hmeq.
  intros Hm4 Hbt Hfull Hpos.
  pose proof (split_right_num_keys m order_range child Hfull) as Hnum.
  destruct h as [|h]; [destruct Hbt|].
  cbn [rightmost] in *. rewrite Hnum.
  change (is_leaf (split_right m child)) with (is_leaf child).
  destruct (is_leaf child) eqn:Hl.
  - rewrite Hnum. assert (2 * split_mid m <= m - 1) by (rewrite Hmeq; Z.div_mod_to_equations; lia).
    lia.
  - rewrite (split_right_child m order_range child (min_fill m) Hfull Hl) by lia.
    replace (split_mid m + 1 + min_fill m) with (num_keys child) by lia.
    pose proof (bt_num_keys _ _ _ _ Hbt) as Hn.
    destruct (bt_child m h lo child (num_keys child) Hbt Hl ltac:(lia)) as (c & Hc & _).
    rewrite Hc in *. exact Hpos.
Qed.

Lemma insert_nonfull_leftmost (fuel : nat) :
  forall h lo t n key value st t' n',
    order t = m -> bt m h lo n -> num_keys n < m - 1 ->
    insert_nonfull fuel t n key value = Some (st, t', n') ->
    is_leaf n = true \/ 0 < num_keys (leftmost h n) ->
    0 < num_keys (leftmost h n').
Proof.
  induction fuel as [|fuel IH]; intros h lo t n key value st t' n' Ht Hbt Hroom Hres Hok.
  { discriminate Hres. }
  destruct h as [|h]; [destruct Hbt|].
  pose proof (bt_num_keys _ _ _ _ Hbt) as Hn.
  destruct (insert_nonfull_cases m order_range fuel h lo t n key value st t' n' Ht Hbt Hroom
              Hres) as (pos & found & _ & Hpos & Hfound & Hcases).
  destruct Hcases as [(Hl & -> & ->)
                     |(Hl & p & child & n1 & p' & c2 & t2 & c0 & -> & Hp & Hchild & Hcbt & Hsplit
                       & Hbt1 & Hl1 & Hp' & Hc2 & Hc2bt & Hc2room & Ht2 & Hrec & ->)].
  - destruct found.
    + cbn [leftmost]. change (is_leaf (set_values n _)) with (is_leaf n). rewrite Hl.
      change (num_keys (set_values n _)) with (num_keys n).
      specialize (Hfound eq_refl). lia.
    + cbn [leftmost]. change (is_leaf (grown_leaf n pos key value)) with (is_leaf n).
      rewrite Hl, (grown_num_keys m lo n pos key value order_range Hbt Hroom). lia.
  - destruct Hok as [Hok|Hok]; [congruence|].
    set (q := if found then pos + 1 else pos) in *.
    pose proof Hbt1 as (_ & _ & Hrest). rewrite Hl1 in Hrest.
    destruct Hrest as (_ & Hlen & _). pose proof (bt_num_keys _ _ _ _ Hbt1) as Hn1.
    destruct (bt_child m h lo n 0 Hbt Hl ltac:(lia)) as (c00 & Hc00 & _).
    rewrite (leftmost_internal h n c00 Hl Hc00) in Hok.
    destruct (bt_child m h lo n1 0 Hbt1 Hl1 ltac:(lia)) as (c10 & Hc10 & _).
    assert (Hleft1 : 0 < num_keys (leftmost h c10)).
    { destruct Hsplit as [(_ & -> & _)|(Hfull & -> & _)]; [congruence|].
      rewrite (split_parent_first_child h lo n q child Hbt Hl Hroom Hp) in Hc10.
      destruct (Z.eqb_spec q 0) as [He|Hne]; [|congruence].
      injection Hc10 as <-. rewrite He, Hc00 in Hchild. injection Hchild as <-.
      now apply (split_left_leftmost h (min_fill m)). }
    set (final := set_children n1 (arr_set (children n1) p' (Some c0))).
    assert (Hget : arr_get None (children final) 0 =
                   if 0 =? p' then Some c0 else Some c10).
    { unfold final. cbn [children set_children]. rewrite arr_get_set by lia.
      now rewrite Hc10. }
    assert (Hlf : is_leaf final = false) by exact Hl1.
    destruct (Z.eqb_spec 0 p') as [He|Hne].
    + rewrite (leftmost_internal h final c0 Hlf Hget).
      rewrite <- He, Hc10 in Hc2. injection Hc2 as <-.
      apply (IH h _ t2 c10 key value st t' c0 Ht2 Hc2bt Hc2room Hrec). now right.
    + now rewrite (leftmost_internal h final c10 Hlf Hget).
Qed.

Lemma insert_nonfull_rightmost (fuel : nat) :
  4 <= m ->
  forall h lo t n key value st t' n',
    order t = m -> bt m h lo n -> num_keys n < m - 1 ->
    insert_nonfull fuel t n key value = Some (st, t', n') ->
    is_leaf n = true \/ 0 < num_keys (rightmost h n) ->
    0 < num_keys (rightmost h n').
Proof.
  intros Hm4.
  induction fuel as [|fuel IH]; intros h lo t n key value st t' n' Ht Hbt Hroom Hres Hok.
  { discriminate Hres. }
  destruct h as [|h]; [destruct Hbt|].
  pose proof (bt_num_keys _ _ _ _ Hbt) as Hn.
  destruct (insert_nonfull_cases m order_range fuel h lo t n key value st t' n' Ht Hbt Hroom
              Hres) as (pos & found & _ & Hpos & Hfound & Hcases).
  destruct Hcases as [(Hl & -> & ->)
                     |(Hl & p & child & n1 & p' & c2 & t2 & c0 & -> & Hp & Hchild & Hcbt & Hsplit
                       & Hbt1 & Hl1 & Hp' & Hc2 & Hc2bt & Hc2room & Ht2 & Hrec & ->)].
  - destruct found.
    + cbn [rightmost]. change (is_leaf (set_values n _)) with (is_leaf n). rewrite Hl.
      change (num_keys (set_values n _)) with (num_keys n).
      specialize (Hfound eq_refl). lia.
    + cbn [rightmost]. change (is_leaf (grown_leaf n pos key value)) with (is_leaf n).
      rewrite Hl, (grown_num_keys m lo n pos key value order_range Hbt Hroom). lia.
  - destruct Hok as [Hok|Hok]; [congruence|].
    set (q := if found then pos + 1 else pos) in *.
    pose proof Hbt1 as (_ & _ & Hrest). rewrite Hl1 in Hrest.
    destruct Hrest as (_ & Hlen & _). pose proof (bt_num_keys _ _ _ _ Hbt1) as Hn1.
    destruct (bt_child m h lo n (num_keys n) Hbt Hl ltac:(lia)) as (cl & Hcl & _).
    rewrite (rightmost_internal h n cl Hl Hcl) in Hok.
    destruct (bt_child m h lo n1 (num_keys n1) Hbt1 Hl1 ltac:(lia)) as (c1l & Hc1l & _).
    assert (Hright1 : 0 < num_keys (rightmost h c1l)).
    { destruct Hsplit as [(_ & -> & _)|(Hfull & -> & _)]; [congruence|].
      rewrite (split_parent_last_child h lo n q child Hbt Hl Hroom Hp) in Hc1l.
      destruct (Z.eqb_spec q (num_keys n)) as [He|Hne]; [|congruence].
      injection Hc1l as <-. rewrite He, Hcl in Hchild. injection Hchild as <-.
      now apply (split_right_rightmost h (min_fill m)). }
    set (final := set_children n1 (arr_set (children n1) p' (Some c0))).
    assert (Hget : arr_get None (children final) (num_keys final) =
                   if num_keys n1 =? p' then Some c0 else Some c1l).
    { unfold final. cbn [children set_children num_keys]. rewrite arr_get_set by lia.
      now rewrite Hc1l. }
    assert (Hlf : is_leaf final = false) by exact Hl1.
    destruct (Z.eqb_spec (num_keys n1) p') as [He|Hne].
    + rewrite (rightmost_internal h final c0 Hlf Hget).
      rewrite <- He, Hc1l in Hc2. injection Hc2 as <-.
      apply (IH h _ t2 c1l key value st t' c0 Ht2 Hc2bt Hc2room Hrec). now right.
    + now rewrite (rightmost_internal h final c1l Hlf Hget).
Qed.
End EndLeaves.

Lemma tree_shape_unique (t : btree_t) (h h' : nat) (r r' : btree_node_t) :
  tree_shape t h r -> tree_shape t h' r' -> h' = h /\ r' = r.
Proof.
  intros (_ & _ & Hroot & Hbt & _) (_ & _ & Hroot' & Hbt' & _).
  rewrite Hroot in Hroot'. injection Hroot' as <-.
  split; [|reflexivity]. apply (bt_height_unique _ _ _ _ _ _ Hbt' Hbt).
Qed.

Section EndsOfTree.
Variable m : Z.
Hypothesis order_range : BTREE_MIN_ORDER <= m <= BTREE_MAX_ORDER.

Lemma raised_root_ends (h : nat) (r : btree_node_t) :
  bt m h 0 r -> num_keys r = m - 1 ->
  let n1 := raised_root m r in
  (0 < num_keys (leftmost h r) -> 0 < num_keys (leftmost (S h) n1)) /\
  (4 <= m -> 0 < num_keys (rightmost h r) -> 0 < num_keys (rightmost (S h) n1)).
Proof.
  intros Hbt Hfull. cbn zeta.
  destruct (new_root_bt m h r order_range Hbt Hfull) as (Hbt0 & Hl0 & Hn0 & Hc0 & _).
  unfold raised_root. set (nr := set_children _ _) in *.
  assert (Hroom : num_keys nr < m - 1)
    by (unfold BTREE_MIN_ORDER, BTREE_MAX_ORDER in *; lia).
  assert (Hidx : 0 <= 0 <= num_keys nr) by lia.
  assert (Hl1 : is_leaf (split_parent m nr 0 r) = false) by exact Hl0.
  pose proof (split_parent_first_child m order_range h 0 nr 0 r Hbt0 Hl0 Hroom Hidx) as Hf.
  pose proof (split_parent_last_child m order_range h 0 nr 0 r Hbt0 Hl0 Hroom Hidx) as Hlast.
  rewrite Hn0 in Hlast. cbn [Z.eqb] in Hf, Hlast.
  split.
  - intros Hpos. rewrite (leftmost_internal h _ _ Hl1 Hf).
    now apply (split_left_leftmost m order_range h 0).
  - intros Hm4 Hpos. rewrite (rightmost_internal h _ _ Hl1 Hlast).
    now apply (split_right_rightmost m order_range h 0).
Qed.
End EndsOfTree.

Lemma full_leaf_ends (m : Z) (h : nat) (lo : Z) (r : btree_node_t) :
  BTREE_MIN_ORDER <= m <= BTREE_MAX_ORDER -> bt m h lo r -> num_keys r = m - 1 ->
  (is_leaf r = true \/ 0 < num_keys (leftmost h r) -> 0 < num_keys (leftmost h r)) /\
  (is_leaf r = true \/ 0 < num_keys (rightmost h r) -> 0 < num_keys (rightmost h r)).
Proof.
  unfold BTREE_MIN_ORDER. intros Hm Hbt Hfull.
  destruct h as [|h]; [destruct Hbt|]. cbn [leftmost rightmost].
  split; (intros [Hl|H]; [rewrite Hl; lia|exact H]).
Qed.

(** After an insert the leaf at the left end of the tree holds a key,
    and so does the leaf at the right end when the order is 4 or more. *)
Lemma btree_insert_ends (t : btree_t) (h : nat) (r : btree_node_t) (key : btree_key_t)
    (value : btree_value_t) (st : btree_status_t) (t' : btree_t) :
  tree_shape t h r -> btree_insert t key value = Some (st, t') ->
  exists h' r',
    tree_shape t' h' r' /\
    (is_leaf r = true \/ 0 < num_keys (leftmost h r) -> 0 < num_keys (leftmost h' r')) /\
    (4 <= order t -> is_leaf r = true \/ 0 < num_keys (rightmost h r) ->
     0 < num_keys (rightmost h' r')).
Proof.
  intros Hs Hres. pose proof Hs as (Hm & _ & _ & Hbt & _).
  destruct (btree_insert_cases t h r key value st t' Hs Hres)
    as (h1 & n1 & t1 & fuel & t2 & n' & Hcase & Hbt1 & Hroom1 & Ht1 & Hrec & -> & Hs').
  exists h1, n'. split; [exact Hs'|].
  destruct Hcase as [(_ & -> & ->)|(Hfull & -> & ->)].
  - split.
    + apply (insert_nonfull_leftmost (order t) Hm _ _ _ _ _ _ _ _ _ _ Ht1 Hbt1 Hroom1 Hrec).
    + intros Hm4.
      apply (insert_nonfull_rightmost (order t) Hm _ Hm4 _ _ _ _ _ _ _ _ _ Ht1 Hbt1 Hroom1
               Hrec).
  - destruct (raised_root_ends (order t) Hm h r Hbt Hfull) as [HL HR].
    destruct (full_leaf_ends (order t) h 0 r Hm Hbt Hfull) as [FL FR].
    split.
    + intros Hok.
      apply (insert_nonfull_leftmost (order t) Hm _ _ _ _ _ _ _ _ _ _ Ht1 Hbt1 Hroom1 Hrec).
      right. apply HL, FL, Hok.
    + intros Hm4 Hok.
      apply (insert_nonfull_rightmost (order t) Hm _ Hm4 _ _ _ _ _ _ _ _ _ Ht1 Hbt1 Hroom1
               Hrec).
      right. apply HR; [exact Hm4|]. apply FR, Hok.
Qed.

Lemma insert_all_ends (kvs : list (btree_key_t * btree_value_t)) :
  forall t h r t',
    tree_shape t h r -> insert_all t kvs = Some t' -> kvs <> [] ->
    exists h' r',
      tree_shape t' h' r' /\
      (is_leaf r = true \/ 0 < num_keys (leftmost h r) -> 0 < num_keys (leftmost h' r')) /\
      (4 <= order t -> is_leaf r = true \/ 0 < num_keys (rightmost h r) ->
       0 < num_keys (rightmost h' r')).
Proof.
  induction kvs as [|[k v] kvs IH]; intros t h r t' Hs Hall Hne; [contradiction|].
  cbn [insert_all] in Hall.
  destruct (btree_insert t k v) as [[st t1]|] eqn:Hins; [|discriminate].
  destruct (btree_insert_ends t h r k v st t1 Hs Hins) as (h1 & r1 & Hs1 & L1 & R1).
  assert (Ho : order t1 = order t).
  { destruct (btree_insert_effect t h r k v Hs) as (t1' & ? & ? & Hins' & _ & Ho & _).
    rewrite Hins in Hins'. now injection Hins' as _ <-. }
  destruct kvs as [|kv kvs].
  - injection Hall as <-. exists h1, r1. split; [exact Hs1|]. split; [exact L1|exact R1].
  - destruct (IH t1 h1 r1 t' Hs1 Hall ltac:(discriminate)) as (h' & r' & Hs' & L' & R').
    exists h', r'. split; [exact Hs'|]. split.
    + intros Hok. apply L'. right. apply L1, Hok.
    + intros Hm4 Hok. apply R'; [now rewrite Ho|]. right. apply R1; assumption.
Qed.

(** The two end leaves of a tree built by inserts. *)
Lemma build_ends (m : Z) (kvs : list (btree_key_t * btree_value_t)) (t : btree_t)
    (h : nat) (r : btree_node_t) :
  build m kvs = Some t -> tree_shape t h r ->
  (kvs = [] -> num_keys (leftmost h r) = 0 /\ num_keys (rightmost h r) = 0) /\
  (kvs <> [] -> 0 < num_keys (leftmost h r)) /\
  (kvs <> [] -> 4 <= m -> 0 < num_keys (rightmost h r)).
Proof.
  intros Hb Hs. unfold build in Hb.
  destruct (btree_create m) as [t0|] eqn:Hc; [|discriminate].
  destruct (fresh_tree_shape m t0 Hc) as (Hm & Ho & Hs0 & _).
  split; [|split].
  - intros ->. injection Hb as <-.
    destruct (tree_shape_unique _ _ _ _ _ Hs0 Hs) as [-> ->]. split; reflexivity.
  - intros Hne.
    destruct (insert_all_ends kvs t0 1 _ t Hs0 Hb Hne) as (h' & r' & Hs' & L & _).
    destruct (tree_shape_unique _ _ _ _ _ Hs' Hs) as [-> ->]. apply L. now left.
  - intros Hne Hm4.
    destruct (insert_all_ends kvs t0 1 _ t Hs0 Hb Hne) as (h' & r' & Hs' & _ & R).
    destruct (tree_shape_unique _ _ _ _ _ Hs' Hs) as [-> ->].
    apply R; [now rewrite Ho|now left].
Qed.

(** X13.  On a tree built from pairwise distinct keys and at most 64
    levels high, [btree_cursor_first] on a new cursor returns [BTREE_OK]
    when a key was inserted and [BTREE_ERROR_NOT_FOUND] when none was,
    and leaves a cursor that is valid exactly in the first case;
    [btree_cursor_get] then yields the least key of the tree together
    with a value inserted with it. *)
Theorem cursor_first_least (m : Z) (kvs : list (btree_key_t * btree_value_t))
    (t : btree_t) :
  build m kvs = Some t -> List.NoDup (map fst kvs) ->
  Z.of_nat (length kvs) < 2 ^ 32 - 1 -> btree_height t <= 64 ->
  exists st c,
    btree_cursor_first (btree_cursor_create t) = Some (st, c) /\
    (st = BTREE_OK \/ st = BTREE_ERROR_NOT_FOUND) /\
    (st = BTREE_OK <-> kvs <> []) /\
    btree_cursor_valid c = status_eqb st BTREE_OK /\
    (st = BTREE_OK ->
     exists k0 w,
       btree_cursor_get c true true = Some (BTREE_OK, Some k0, Some w) /\
       In (k0, w) kvs /\
       forall x, In x (map fst kvs) -> k0 <= x).
Proof.
  intros Hb Hnd Hlen Hheight.
  destruct (build_shape m kvs t Hb) as (Hm & h & r & Ho & (Hs & K & V & _ & _ & _ & O) & Hh).
  destruct (O Hnd) as [Hord _].
  destruct (build_ends m kvs t h r Hb Hs) as (Hempty & Hfilled & _).
  pose proof (tree_shape_height t h r Hs) as Hth.
  rewrite u32_small in Hth by lia.
  assert (Hh64 : (h <= 64)%nat) by lia.
  destruct (cursor_first_leftmost t h r Hs Hh64) as (c & Hfirst & Hvalid & Hpath & Hpos).
  pose proof Hs as (_ & _ & _ & Hbt & _). rewrite Ho in Hbt.
  pose proof (leftmost_num_keys m h 0 r Hbt) as Hleafn.
  set (leaf := leftmost h r) in *.
  eexists _, c. split; [exact Hfirst|].
  destruct (Z.gtb_spec (num_keys leaf) 0) as [Hpos0|Hz].
  - split; [now left|]. split.
    { split; [|reflexivity]. intros _ He. destruct (Hempty He). lia. }
    split; [exact Hvalid|]. intros _.
    destruct (leftmost_least m h 0 None None r Hbt Hord Hpos0) as (Hleaf & Hval & Hmin).
    fold leaf in Hleaf, Hval, Hmin.
    exists (key_at leaf 0), (arr_get 0 (values leaf) 0). split.
    + unfold btree_cursor_get. rewrite Hvalid, Hpath, Hpos, Hleaf. cbn [negb andb].
      unfold BTREE_MIN_ORDER, BTREE_MAX_ORDER in Hm.
      rewrite to_int_small by lia.
      destruct (Z.ltb_spec 0 0); [lia|].
      destruct (Z.geb_spec 0 (num_keys leaf)); [lia|]. reflexivity.
    + split; [now apply V|]. intros x Hx. apply Hmin, K, Hx.
  - split; [now right|]. split.
    { split; [discriminate|]. intros Hne. specialize (Hfilled Hne). lia. }
    split; [exact Hvalid|]. discriminate.
Qed.

Lemma cursor_first_least_witness :
  build 4 [(3, 13); (1, 11); (4, 14); (2, 12)] = Some split_tree_shuffled /\
  List.NoDup (map fst [(3, 13); (1, 11); (4, 14); (2, 12)]) /\
  btree_height split_tree_shuffled <= 64 /\
  exists c,
    btree_cursor_first (btree_cursor_create split_tree_shuffled) = Some (BTREE_OK, c) /\
    btree_cursor_valid c = true /\
    btree_cursor_get c true true = Some (BTREE_OK, Some 1, Some 11).
Proof.
  assert (Hb : build 4 [(3, 13); (1, 11); (4, 14); (2, 12)] = Some split_tree_shuffled)
    by (vm_compute; reflexivity).
  assert (Hnd : List.NoDup (map fst [(3, 13); (1, 11); (4, 14); (2, 12)])).
  { cbn [map fst].
    repeat (apply List.NoDup_cons; [cbn [In]; lia|]). apply List.NoDup_nil. }
  assert (Hlen : Z.of_nat (length [(3, 13); (1, 11); (4, 14); (2, 12)]) < 2 ^ 32 - 1)
    by (cbn [length]; lia).
  assert (Hh : btree_height split_tree_shuffled <= 64) by (vm_compute; discriminate).
  split; [exact Hb|]. split; [exact Hnd|]. split; [exact Hh|].
  assert (Hrun : exists c0, btree_cursor_first (btree_cursor_create split_tree_shuffled) =
                            Some (BTREE_OK, c0))
    by (eexists; vm_compute; reflexivity).
  destruct Hrun as (c0 & Hrun).
  destruct (cursor_first_least 4 [(3, 13); (1, 11); (4, 14); (2, 12)] split_tree_shuffled
              Hb Hnd Hlen Hh) as (st & c & Hfirst & _ & Hiff & Hvalid & Hget).
  assert (Hst : st = BTREE_OK) by (apply Hiff; discriminate). subst st.
  rewrite Hrun in Hfirst. injection Hfirst as <-.
  exists c0. split; [exact Hrun|]. split; [exact Hvalid|].
  destruct (Hget eq_refl) as (k0 & w & Hg & Hin & Hmin).
  specialize (Hmin 1 ltac:(cbn [map fst In]; tauto)).
  cbn [In] in Hin.
  destruct Hin as [E|[E|[E|[E|[]]]]]; injection E as <- <-; try lia. exact Hg.
Defined.

(** ** The fill factor *)

Lemma zrange_cons (lo : Z) (cnt : nat) : zrange lo (S cnt) = lo :: zrange (lo + 1) cnt.
Proof.
  unfold zrange. cbn [seq map]. f_equal; [lia|].
  rewrite <- seq_shift, map_map. apply map_ext. intros i. lia.
Qed.

Lemma fill_children (mk : Z) (h : nat) (cs : list (option btree_node_t))
    (f : option btree_node_t -> Z * Z -> Z * Z) (cnt : nat) :
  forall lo tk tc,
    (forall i a b, lo <= i < lo + Z.of_nat cnt ->
       f (arr_get None cs i) (a, b) =
       (u64 (a + nkeys_ptr h (arr_get None cs i)),
        u64 (b + mk * nnodes_ptr h (arr_get None cs i)))) ->
    fold_left (fun acc i => f (arr_get None cs i) acc) (zrange lo cnt) (u64 tk, u64 tc) =
    (u64 (tk + zsum (fun i => nkeys_ptr h (arr_get None cs i)) lo cnt),
     u64 (tc + mk * zsum (fun i => nnodes_ptr h (arr_get None cs i)) lo cnt)).
Proof.
  induction cnt as [|cnt IH]; intros lo tk tc Hf.
  - cbn [zrange seq map fold_left zsum]. f_equal; f_equal; lia.
  - rewrite zrange_cons. cbn [fold_left zsum].
    rewrite Hf by lia. rewrite !u64_add_idemp.
    rewrite IH by (intros i a b Hi; apply Hf; lia).
    f_equal; f_equal; lia.
Qed.

Lemma calculate_fill_factor_bt (m mk : Z) (fuel : nat) :
  forall h lo n tk tc,
    bt m h lo n -> (h <= fuel)%nat ->
    calculate_fill_factor fuel (Some n) mk (tk, tc) =
    (u64 (tk + nkeys h n), u64 (tc + mk * nnodes h n)).
Proof.
  induction fuel as [|fuel IH]; intros h lo n tk tc Hbt Hf.
  { pose proof (bt_height_pos _ _ _ _ Hbt). lia. }
  destruct h as [|h]; [destruct Hbt|].
  pose proof (bt_num_keys _ _ _ _ Hbt) as Hn.
  cbn [calculate_fill_factor fst snd]. rewrite nkeys_unfold, nnodes_unfold.
  destruct (is_leaf n) eqn:Hl.
  - f_equal; f_equal; lia.
  - rewrite (fill_children mk h (children n)
               (fun p acc => calculate_fill_factor fuel p mk acc)).
    + f_equal; f_equal; lia.
    + intros i a b Hi.
      destruct (bt_child m h lo n i Hbt Hl ltac:(lia)) as (c & Hc & Hcbt).
      rewrite Hc. cbn [nkeys_ptr nnodes_ptr]. apply (IH h _ c a b Hcbt). lia.
Qed.

(** X14.  After [btree_create] and a run of [btree_insert] calls,
    [btree_stats_get] reports the height that [btree_height] computes,
    and the two totals behind its fill factor are the size of the tree
    and [order - 1] times the node count (modulo [2 ^ 64]): the fill
    factor is [size / ((order - 1) * node_count)]. *)
Theorem stats_get_fill_factor (m : Z) (kvs : list (btree_key_t * btree_value_t)) :
  BTREE_MIN_ORDER <= m <= BTREE_MAX_ORDER ->
  exists t, build m kvs = Some t /\
    let '(s, (total_keys, total_capacity)) := btree_stats_get t in
    height s = btree_height t /\
    node_count s = node_count (stats t) /\
    total_keys = btree_size t /\
    total_capacity = u64 ((m - 1) * node_count (stats t)).
Proof.
  intros Hm.
  destruct (build_effect m kvs Hm) as (t & h & r & Hb & Ho & Hs & _ & _ & N & C & _).
  exists t. split; [exact Hb|]. unfold btree_stats_get.
  destruct Hs as (_ & _ & Hroot & Hbt & _). rewrite Hroot, Ho. cbn [ptr_depth].
  unfold BTREE_MIN_ORDER, BTREE_MAX_ORDER in Hm.
  rewrite (u32_small (m - 1)) by lia.
  rewrite (calculate_fill_factor_bt (order t) (m - 1) _ h 0 r 0 0 Hbt (bt_depth _ _ _ _ Hbt)).
  split; [unfold btree_height; now rewrite Hroot|]. split; [reflexivity|].
  split; [unfold btree_size; rewrite C; f_equal; lia|].
  rewrite N. unfold u64. rewrite Zmult_mod_idemp_r. f_equal; lia.
Qed.

Lemma stats_get_fill_factor_witness :
  BTREE_MIN_ORDER <= 4 <= BTREE_MAX_ORDER /\
  exists t, build 4 [(1, 11); (2, 12); (3, 13); (4, 14)] = Some t /\
    let '(s, (total_keys, total_capacity)) := btree_stats_get t in
    height s = btree_height t /\
    node_count s = node_count (stats t) /\
    total_keys = btree_size t /\
    total_capacity = u64 ((4 - 1) * node_count (stats t)).
Proof.
  assert (H : BTREE_MIN_ORDER <= 4 <= BTREE_MAX_ORDER)
    by (unfold BTREE_MIN_ORDER, BTREE_MAX_ORDER; lia).
  split; [exact H|].
  exact (stats_get_fill_factor 4 [(1, 11); (2, 12); (3, 13); (4, 14)] H).
Defined.

(** ** The last position of a cursor *)

Lemma descend_last (m : Z) (fuel : nat) :
  forall h lo n pth pos d,
    bt m h lo n -> (h <= fuel)%nat -> 0 <= d ->
    arr_get None pth d = Some n ->
    d + Z.of_nat h <= Z.of_nat (length pth) -> length pos = length pth ->
    exists pth' pos',
      descend_last_loop fuel pth pos d = Some (pth', pos', d + Z.of_nat h - 1) /\
      arr_get None pth' (d + Z.of_nat h - 1) = Some (rightmost h n) /\
      length pos' = length pos.
Proof.
  induction fuel as [|fuel IH]; intros h lo n pth pos d Hbt Hf Hd Hp Hlen Hlp.
  { pose proof (bt_height_pos _ _ _ _ Hbt). lia. }
  destruct h as [|h]; [destruct Hbt|].
  pose proof (bt_num_keys _ _ _ _ Hbt) as Hn.
  cbn [descend_last_loop rightmost]. rewrite Hp.
  destruct (is_leaf n) eqn:Hl.
  - apply (bt_leaf_height _ _ _ _ Hbt) in Hl as Hh. injection Hh as ->.
    replace (d + Z.of_nat 1 - 1) with d by lia.
    exists pth, pos. auto.
  - destruct (bt_child m h lo n (num_keys n) Hbt Hl ltac:(lia)) as (c & Hc & Hcbt).
    pose proof (bt_height_pos _ _ _ _ Hcbt) as Hhp.
    destruct (Z.leb_spec (Z.of_nat (length pth)) (d + 1)); [lia|].
    rewrite Hc.
    destruct (IH h _ c (arr_set pth (d + 1) (Some c))
                (arr_set pos d (to_int (num_keys n))) (d + 1) Hcbt)
      as (pth' & pos' & Hres & Hleaf & Hpos); try lia.
    + apply arr_get_set_eq. lia.
    + rewrite arr_set_length. lia.
    + now rewrite !arr_set_length.
    + replace (d + 1 + Z.of_nat h - 1) with (d + Z.of_nat (S h) - 1) in * by lia.
      exists pth', pos'. rewrite arr_set_length in Hpos. auto.
Qed.

Lemma rightmost_num_keys (m : Z) (h : nat) :
  forall lo n, bt m h lo n -> 0 <= num_keys (rightmost h n) <= m - 1.
Proof.
  induction h as [|h IH]; intros lo n Hbt; [destruct Hbt|].
  pose proof (bt_num_keys _ _ _ _ Hbt) as Hn.
  cbn [rightmost]. destruct (is_leaf n) eqn:Hl; [lia|].
  destruct (bt_child m h lo n (num_keys n) Hbt Hl ltac:(lia)) as (c & Hc & Hcbt).
  rewrite Hc. apply (IH _ c Hcbt).
Qed.

(** The last key of the rightmost leaf is the greatest key of an ordered
    subtree. *)
Lemma rightmost_greatest (m : Z) (h : nat) :
  forall lo blo bhi n,
    bt m h lo n -> ordered h blo bhi n -> 0 < num_keys (rightmost h n) ->
    let leaf := rightmost h n in
    is_leaf leaf = true /\
    value_in h n (key_at leaf (num_keys leaf - 1))
      (arr_get 0 (values leaf) (num_keys leaf - 1)) /\
    forall x, key_in h n x -> x <= key_at leaf (num_keys leaf - 1).
Proof.
  induction h as [|h IH]; intros lo blo bhi n Hbt Hord Hpos; [destruct Hbt|].
  pose proof (bt_num_keys _ _ _ _ Hbt) as Hn.
  pose proof (ordered_increasing _ _ _ _ Hord) as Hinc.
  pose proof (keys_increasing_lt n Hinc) as Hlt.
  cbn zeta. cbn [rightmost] in *. destruct (is_leaf n) eqn:Hl.
  - split; [exact Hl|]. split.
    + cbn [value_in]. left. split; [exact Hl|]. exists (num_keys n - 1).
      split; [lia|]. auto.
    + intros x Hx. apply key_in_leaf in Hx; [|exact Hl]. destruct Hx as (i & Hi & <-).
      destruct (Z.eq_dec i (num_keys n - 1)) as [->|Hne]; [lia|].
      specialize (Hlt i (num_keys n - 1) ltac:(lia) ltac:(lia) ltac:(lia)). lia.
  - destruct (bt_child m h lo n (num_keys n) Hbt Hl ltac:(lia)) as (c & Hc & Hcbt).
    rewrite Hc in *.
    destruct Hord as (_ & Hb & Hkids).
    pose proof (Hkids Hl (num_keys n) c ltac:(lia) Hc) as Hcord.
    destruct (IH _ _ _ c Hcbt Hcord Hpos) as (Hleaf & Hval & Hmax).
    split; [exact Hleaf|]. split.
    + cbn [value_in]. right. split; [exact Hl|]. exists (num_keys n), c.
      split; [lia|]. auto.
    + set (k1 := key_at (rightmost h c) (num_keys (rightmost h c) - 1)) in *.
      assert (Hk1 : 0 < num_keys n -> key_at n (num_keys n - 1) < k1).
      { intros Hnz.
        pose proof (ordered_key_bounds h _ _ c k1 Hcord (value_in_key_in _ _ _ _ Hval))
          as [Hlo _].
        unfold child_lo in Hlo. destruct (Z.eqb_spec (num_keys n) 0); [lia|exact Hlo]. }
      intros x Hx. cbn [key_in] in Hx.
      destruct Hx as [(i & Hi & <-)|(_ & i & ci & Hi & Hci & Hx)].
      * specialize (Hk1 ltac:(lia)).
        destruct (Z.eq_dec i (num_keys n - 1)) as [->|Hne]; [lia|].
        specialize (Hlt i (num_keys n - 1) ltac:(lia) ltac:(lia) ltac:(lia)). lia.
      * destruct (Z.eq_dec i (num_keys n)) as [->|Hne].
        -- rewrite Hc in Hci. injection Hci as <-. now apply Hmax.
        -- specialize (Hk1 ltac:(lia)).
           pose proof (ordered_key_bounds h _ _ ci x (Hkids Hl i ci Hi Hci) Hx) as [_ Hhi].
           unfold child_hi in Hhi. destruct (Z.eqb_spec i (num_keys n)); [lia|].
           destruct (Z.eq_dec i (num_keys n - 1)) as [He|Hne1]; [rewrite He in Hhi; lia|].
           specialize (Hlt i (num_keys n - 1) ltac:(lia) ltac:(lia) ltac:(lia)). lia.
Qed.

(** [btree_cursor_last] on a fresh cursor stops on the rightmost leaf. *)
Lemma cursor_last_rightmost (t : btree_t) (h : nat) (r : btree_node_t) :
  tree_shape t h r -> (h <= 64)%nat ->
  let leaf := rightmost h r in
  exists c,
    btree_cursor_last (btree_cursor_create t) =
      Some (if num_keys leaf >? 0 then BTREE_OK else BTREE_ERROR_NOT_FOUND, c) /\
    valid c = (num_keys leaf >? 0) /\
    arr_get None (path c) (depth c) = Some leaf /\
    (0 < num_keys leaf -> arr_get 0 (positions c) (depth c) = num_keys leaf - 1).
Proof.
  intros (Hm & _ & Hroot & Hbt & _) Hh. cbn zeta.
  pose proof (bt_height_pos _ _ _ _ Hbt) as Hhp.
  pose proof (rightmost_num_keys _ _ _ _ Hbt) as Hleafn.
  unfold BTREE_MIN_ORDER, BTREE_MAX_ORDER in Hm.
  unfold btree_cursor_last, btree_cursor_create. cbn [tree path positions max_depth].
  rewrite Hroot.
  destruct (descend_last (order t) (S (length (arr_set (replicate 64 None) 0 (Some r))))
              h 0 r (arr_set (replicate 64 None) 0 (Some r))
              (replicate 64 0) 0 Hbt)
    as (pth' & pos' & Hres & Hleaf & Hlen).
  - rewrite arr_set_length, length_replicate. lia.
  - lia.
  - apply arr_get_set_eq. rewrite length_replicate. lia.
  - rewrite arr_set_length, length_replicate. lia.
  - now rewrite !arr_set_length, !length_replicate.
  - rewrite Hres, Hleaf. rewrite length_replicate in Hlen.
    set (leaf := rightmost h r) in *.
    assert (Hget : arr_get 0 (arr_set pos' (0 + Z.of_nat h - 1)
                                (to_int (u32 (num_keys leaf - 1)))) (0 + Z.of_nat h - 1) =
                   to_int (u32 (num_keys leaf - 1))).
    { apply arr_get_set_eq. lia. }
    rewrite Hget.
    assert (Hv : (to_int (u32 (num_keys leaf - 1)) >=? 0) = (num_keys leaf >? 0) /\
                 (0 < num_keys leaf -> to_int (u32 (num_keys leaf - 1)) = num_keys leaf - 1)).
    { destruct (Z.eq_dec (num_keys leaf) 0) as [He|Hne].
      - rewrite He. split; [reflexivity|lia].
      - rewrite u32_small, to_int_small by lia. split; [|reflexivity].
        destruct (Z.geb_spec (num_keys leaf - 1) 0), (Z.gtb_spec (num_keys leaf) 0);
          try lia; reflexivity. }
    destruct Hv as [Hv Hp]. rewrite Hv.
    eexists. split; [reflexivity|].
    cbn [valid path positions depth]. rewrite Hget. auto.
Qed.

(** When the rightmost leaf of an ordered subtree is empty, every key of
    a leaf is below another key of the subtree. *)
Lemma rightmost_empty_bound (m : Z) (h : nat) :
  forall lo blo bhi n,
    bt m h lo n -> ordered h blo bhi n -> num_keys (rightmost h n) = 0 ->
    forall k w, value_in h n k w -> exists x, key_in h n x /\ k < x.
Proof.
  induction h as [|h IH]; intros lo blo bhi n Hbt Hord Hz k w Hin; [destruct Hbt|].
  pose proof (bt_num_keys _ _ _ _ Hbt) as Hn.
  cbn [value_in] in Hin. cbn [rightmost] in Hz.
  destruct Hin as [(Hl & i & Hi & _)|(Hl & i & c & Hi & Hc & Hin)].
  - rewrite Hl in Hz. lia.
  - rewrite Hl in Hz. destruct Hord as (_ & _ & Hkids).
    specialize (Hkids Hl i c Hi Hc).
    destruct (Z.eq_dec i (num_keys n)) as [->|Hne].
    + rewrite Hc in Hz.
      destruct (bt_child m h lo n (num_keys n) Hbt Hl Hi) as (c' & Hc' & Hcbt).
      rewrite Hc in Hc'. injection Hc' as <-.
      destruct (IH _ _ _ c Hcbt Hkids Hz k w Hin) as (x & Hx & Hlt).
      exists x. split; [|exact Hlt]. cbn [key_in]. right. split; [exact Hl|].
      exists (num_keys n), c. tauto.
    + exists (key_at n i). split.
      * cbn [key_in]. left. exists i. split; [lia|reflexivity].
      * apply value_in_key_in in Hin.
        destruct (ordered_key_bounds h _ _ c k Hkids Hin) as [_ Hu].
        unfold child_hi in Hu. destruct (Z.eqb_spec i (num_keys n)); [lia|exact Hu].
Qed.

(** X15.  On a tree built from pairwise distinct keys and at most 64
    levels high, [btree_cursor_last] on a new cursor returns [BTREE_OK]
    exactly when the greatest key of the tree is stored in a leaf, that
    is when [btree_search] writes a value for it, and
    [BTREE_ERROR_NOT_FOUND] otherwise; it returns [BTREE_OK] whenever a
    key was inserted and the order is 4 or more, and
    [BTREE_ERROR_NOT_FOUND] on the empty tree.  The cursor is valid
    exactly when [BTREE_OK] is returned, and [btree_cursor_get] then
    yields the greatest key of the tree together with a value inserted
    with it. *)
Theorem cursor_last_greatest (m : Z) (kvs : list (btree_key_t * btree_value_t))
    (t : btree_t) :
  build m kvs = Some t -> List.NoDup (map fst kvs) ->
  Z.of_nat (length kvs) < 2 ^ 32 - 1 -> btree_height t <= 64 ->
  exists st c,
    btree_cursor_last (btree_cursor_create t) = Some (st, c) /\
    (st = BTREE_OK \/ st = BTREE_ERROR_NOT_FOUND) /\
    (st = BTREE_OK <->
     exists k w, In k (map fst kvs) /\ (forall x, In x (map fst kvs) -> x <= k) /\
                 snd (btree_search t k true) = Some w) /\
    (kvs = [] -> st = BTREE_ERROR_NOT_FOUND) /\
    (kvs <> [] -> 4 <= m -> st = BTREE_OK) /\
    btree_cursor_valid c = status_eqb st BTREE_OK /\
    (st = BTREE_OK ->
     exists k1 w,
       btree_cursor_get c true true = Some (BTREE_OK, Some k1, Some w) /\
       In (k1, w) kvs /\
       forall x, In x (map fst kvs) -> x <= k1).
Proof.
  intros Hb Hnd Hlen Hheight.
  destruct (build_shape m kvs t Hb) as (Hm & h & r & Ho & (Hs & K & V & _ & _ & _ & O) & Hh).
  destruct (O Hnd) as [Hord _].
  destruct (build_ends m kvs t h r Hb Hs) as (Hempty & _ & Hfilled).
  pose proof (tree_shape_height t h r Hs) as Hth.
  rewrite u32_small in Hth by lia.
  assert (Hh64 : (h <= 64)%nat) by lia.
  destruct (cursor_last_rightmost t h r Hs Hh64) as (c & Hlast & Hvalid & Hpath & Hpos).
  pose proof Hs as (_ & _ & _ & Hbt & _). rewrite Ho in Hbt.
  pose proof (rightmost_num_keys m h 0 r Hbt) as Hleafn.
  set (leaf := rightmost h r) in *.
  eexists _, c. split; [exact Hlast|].
  destruct (Z.gtb_spec (num_keys leaf) 0) as [Hpos0|Hz].
  - destruct (rightmost_greatest m h 0 None None r Hbt Hord Hpos0) as (Hleaf & Hval & Hmax).
    fold leaf in Hleaf, Hval, Hmax.
    split; [now left|]. split.
    { split; [|reflexivity]. intros _.
      exists (key_at leaf (num_keys leaf - 1)), (arr_get 0 (values leaf) (num_keys leaf - 1)).
      split; [apply K; now apply (value_in_key_in h r _ _ Hval)|].
      split; [intros x Hx; apply Hmax, K, Hx|].
      apply (btree_search_complete t h r _ true Hs Hord); [|exact Hval].
      now apply (value_in_key_in h r _ _ Hval). }
    split; [intros He; destruct (Hempty He); lia|].
    split; [reflexivity|].
    split; [exact Hvalid|]. intros _.
    exists (key_at leaf (num_keys leaf - 1)), (arr_get 0 (values leaf) (num_keys leaf - 1)).
    split.
    + unfold btree_cursor_get. rewrite Hvalid, Hpath, (Hpos Hpos0), Hleaf. cbn [negb andb].
      unfold BTREE_MIN_ORDER, BTREE_MAX_ORDER in Hm.
      rewrite to_int_small by lia.
      destruct (Z.ltb_spec (num_keys leaf - 1) 0); [lia|].
      destruct (Z.geb_spec (num_keys leaf - 1) (num_keys leaf)); [lia|]. reflexivity.
    + split; [now apply V|]. intros x Hx. apply Hmax, K, Hx.
  - split; [now right|]. split.
    { split; [discriminate|]. intros (k & w & Hk & Hmax & Hw). exfalso.
      pose proof (btree_search_sound t h r k true Hs) as Hsound.
      destruct (btree_search t k true) as [[st' t'] out]. cbn [snd] in Hw. subst out.
      destruct Hsound as [_ Hsound]. destruct (Hsound w eq_refl) as [_ Hin].
      destruct (rightmost_empty_bound m h 0 None None r Hbt Hord ltac:(fold leaf; lia) k w Hin)
        as (x & Hx & Hlt).
      apply K in Hx. specialize (Hmax x Hx). lia. }
    split; [reflexivity|].
    split; [intros Hne Hm4; specialize (Hfilled Hne Hm4); lia|].
    split; [exact Hvalid|]. discriminate.
Qed.

Lemma cursor_last_greatest_witness :
  (build 4 [(3, 13); (1, 11); (4, 14); (2, 12)] = Some split_tree_shuffled /\
   exists c,
     btree_cursor_last (btree_cursor_create split_tree_shuffled) = Some (BTREE_OK, c) /\
     btree_cursor_valid c = true /\
     btree_cursor_get c true true = Some (BTREE_OK, Some 4, Some 14)) /\
  (build 3 [(10, 1); (20, 2); (5, 3)] = Some odd_tree /\
   exists c,
     btree_cursor_last (btree_cursor_create odd_tree) = Some (BTREE_ERROR_NOT_FOUND, c) /\
     btree_cursor_valid c = false).
Proof.
  split.
  - assert (Hb : build 4 [(3, 13); (1, 11); (4, 14); (2, 12)] = Some split_tree_shuffled)
      by (vm_compute; reflexivity).
    assert (Hnd : List.NoDup (map fst [(3, 13); (1, 11); (4, 14); (2, 12)])).
    { cbn [map fst].
      repeat (apply List.NoDup_cons; [cbn [In]; lia|]). apply List.NoDup_nil. }
    assert (Hlen : Z.of_nat (length [(3, 13); (1, 11); (4, 14); (2, 12)]) < 2 ^ 32 - 1)
      by (cbn [length]; lia).
    assert (Hh : btree_height split_tree_shuffled <= 64) by (vm_compute; discriminate).
    split; [exact Hb|].
    assert (Hrun : exists c0, btree_cursor_last (btree_cursor_create split_tree_shuffled) =
                              Some (BTREE_OK, c0))
      by (eexists; vm_compute; reflexivity).
    destruct Hrun as (c0 & Hrun).
    destruct (cursor_last_greatest 4 [(3, 13); (1, 11); (4, 14); (2, 12)] split_tree_shuffled
                Hb Hnd Hlen Hh) as (st & c & Hlast & _ & _ & _ & Hfilled & Hvalid & Hget).
    assert (Hst : st = BTREE_OK) by (apply Hfilled; [discriminate|lia]). subst st.
    rewrite Hrun in Hlast. injection Hlast as <-.
    exists c0. split; [exact Hrun|]. split; [exact Hvalid|].
    destruct (Hget eq_refl) as (k1 & w & Hg & Hin & Hmax).
    specialize (Hmax 4 ltac:(cbn [map fst In]; tauto)).
    cbn [In] in Hin.
    destruct Hin as [E|[E|[E|[E|[]]]]]; injection E as <- <-; try lia. exact Hg.
  - assert (Hb : build 3 [(10, 1); (20, 2); (5, 3)] = Some odd_tree)
      by (vm_compute; reflexivity).
    assert (Hnd : List.NoDup (map fst [(10, 1); (20, 2); (5, 3)])).
    { cbn [map fst].
      repeat (apply List.NoDup_cons; [cbn [In]; lia|]). apply List.NoDup_nil. }
    assert (Hlen : Z.of_nat (length [(10, 1); (20, 2); (5, 3)]) < 2 ^ 32 - 1)
      by (cbn [length]; lia).
    assert (Hh : btree_height odd_tree <= 64) by (vm_compute; discriminate).
    split; [exact Hb|].
    destruct (cursor_last_greatest 3 [(10, 1); (20, 2); (5, 3)] odd_tree Hb Hnd Hlen Hh)
      as (st & c & Hlast & Hcases & Hiff & _ & _ & Hvalid & _).
    assert (Hst : st = BTREE_ERROR_NOT_FOUND).
    { destruct Hcases as [Hok|Hnf]; [exfalso|exact Hnf].
      apply Hiff in Hok as (k & w & Hk & Hmax & Hw).
      specialize (Hmax 20 ltac:(cbn [map fst In]; tauto)).
      cbn [map fst In] in Hk.
      destruct Hk as [<-|[<-|[<-|[]]]]; try lia.
      vm_compute in Hw. discriminate Hw. }
    subst st.
    assert (Hrun : exists c0, btree_cursor_last (btree_cursor_create odd_tree) =
                              Some (BTREE_ERROR_NOT_FOUND, c0))
      by (eexists; vm_compute; reflexivity).
    destruct Hrun as (c0 & Hrun). rewrite Hrun in Hlast. injection Hlast as <-.
    exists c0. split; [exact Hrun|exact Hvalid].
Defined.

(** ** The empty tree *)

(** X16.  [btree_create] returns [NULL] exactly for an order below 3 or
    above 1024.  For every other order the tree it returns is empty:
    size 0, height 1, statistics collection on, [btree_validate] holds,
    every [btree_search] returns [BTREE_ERROR_NOT_FOUND] and writes
    nothing, and [btree_cursor_first] on a new cursor returns
    [BTREE_ERROR_NOT_FOUND] and leaves the cursor invalid. *)
Theorem create_spec (m : Z) :
  if (BTREE_MIN_ORDER <=? m) && (m <=? BTREE_MAX_ORDER) then
    exists t,
      btree_create m = Some t /\ order t = m /\ collect_stats t = true /\
      btree_size t = 0 /\ btree_height t = 1 /\ btree_validate t = true /\
      (forall key slot,
         fst (fst (btree_search t key slot)) = BTREE_ERROR_NOT_FOUND /\
         snd (btree_search t key slot) = None) /\
      exists c,
        btree_cursor_first (btree_cursor_create t) = Some (BTREE_ERROR_NOT_FOUND, c) /\
        btree_cursor_valid c = false
  else btree_create m = None.
Proof.
  destruct (Z.leb_spec BTREE_MIN_ORDER m) as [H1|H1],
           (Z.leb_spec m BTREE_MAX_ORDER) as [H2|H2]; cbn [andb].
  - destruct (build_effect m [] (conj H1 H2)) as (t & h & r & Hb & Ho & Hs & K & V & N & C & E & _).
    assert (Hc : btree_create m = Some t).
    { unfold build in Hb. destruct (btree_create m); [exact Hb|discriminate]. }
    destruct (order_range_of_create m t Hc) as [Hm Ht].
    exists t. split; [exact Hc|]. split; [exact Ho|].
    split; [rewrite Ht; reflexivity|].
    split; [rewrite Ht; reflexivity|].
    assert (Hroot : root t = Some (node_create m true)) by (rewrite Ht; reflexivity).
    pose proof Hs as (_ & _ & Hroot' & Hbt & _).
    rewrite Hroot in Hroot'. injection Hroot' as <-.
    assert (Hh : h = 1%nat).
    { apply (bt_leaf_height _ _ _ _ Hbt). reflexivity. }
    subst h.
    split; [now rewrite (tree_shape_height t 1 _ Hs)|].
    split.
    { unfold btree_validate. rewrite Hroot, node_depth_unfold.
      unfold BTREE_MIN_ORDER, BTREE_MAX_ORDER in Hm.
      rewrite Ho, (u32_small (m - 1)) by lia.
      cbn [validate_node node_create num_keys is_leaf negb andb].
      destruct (Z.gtb_spec 0 (m - 1)); [lia|]. reflexivity. }
    split.
    { intros key slot.
      pose proof (btree_search_sound t 1 _ key slot Hs) as Hsound.
      assert (Hst : fst (fst (btree_search t key slot)) = BTREE_OK \/
                    fst (fst (btree_search t key slot)) = BTREE_ERROR_NOT_FOUND).
      { unfold btree_search. rewrite Hroot. apply search_loop_status. }
      destruct (btree_search t key slot) as [[st t'] out]. cbn [fst snd] in *.
      destruct Hsound as [S1 S2]. split.
      - destruct Hst as [Hok|Hnf]; [|exact Hnf]. exfalso. apply S1, K in Hok. exact Hok.
      - destruct out as [w|]; [|reflexivity]. exfalso.
        destruct (S2 w eq_refl) as [_ Hv]. apply V in Hv. exact Hv. }
    destruct (cursor_first_leftmost t 1 _ Hs ltac:(lia)) as (c & Hfirst & Hvalid & _).
    cbn [leftmost node_create is_leaf num_keys] in Hfirst, Hvalid.
    exists c. split; [exact Hfirst|exact Hvalid].
  - unfold btree_create. destruct (Z.gtb_spec m BTREE_MAX_ORDER); [|lia].
    now rewrite orb_true_r.
  - unfold btree_create. destruct (Z.ltb_spec m BTREE_MIN_ORDER); [|lia]. reflexivity.
  - unfold btree_create. destruct (Z.ltb_spec m BTREE_MIN_ORDER); [|lia]. reflexivity.
Qed.

(** ** Walking a cursor through the tree *)



Section CursorWalk.
Variables (m : Z) (H : nat) (r : btree_node_t).
Hypothesis order_range : BTREE_MIN_ORDER <= m <= BTREE_MAX_ORDER.
Hypothesis root_bt : bt m H 0 r.
Hypothesis root_ordered : ordered H None None r.


End CursorWalk.


Section CursorMoves.
Variables (m : Z) (H : nat) (r : btree_node_t).
Hypothesis order_range : BTREE_MIN_ORDER <= m <= BTREE_MAX_ORDER.
Hypothesis root_bt : bt m H 0 r.
Hypothesis root_ordered : ordered H None None r.


End CursorMoves.

Section CursorSteps.
Variables (m : Z) (H : nat) (r : btree_node_t).
Hypothesis order_range : BTREE_MIN_ORDER <= m <= BTREE_MAX_ORDER.
Hypothesis root_bt : bt m H 0 r.
Hypothesis root_ordered : ordered H None None r.
Hypothesis height_fits : (H <= 64)%nat.



End CursorSteps.




(** ** The whole traversal *)







Section CursorStops.
Variables (m : Z) (H : nat) (r : btree_node_t).
Hypothesis order_range : BTREE_MIN_ORDER <= m <= BTREE_MAX_ORDER.
Hypothesis root_bt : bt m H 0 r.





Hypothesis height_fits : (H <= 64)%nat.


End CursorStops.





(** ** Keys in order when keys repeat *)

Lemma keys_nondecreasing_le (n : btree_node_t) :
  keys_nondecreasing n ->
  forall i j, 0 <= i -> i <= j -> j < num_keys n -> key_at n i <= key_at n j.
Proof.
  intros Hs i j Hi Hij Hj.
  replace j with (i + Z.of_nat (Z.to_nat (j - i))) in * by lia.
  generalize dependent (Z.to_nat (j - i)). intros d. induction d as [|d IH].
  - intros _ _. replace (i + Z.of_nat 0) with i by lia. lia.
  - intros _ Hj. specialize (Hs (i + Z.of_nat (S d)) ltac:(lia)).
    replace (i + Z.of_nat (S d) - 1) with (i + Z.of_nat d) in Hs by lia.
    etransitivity; [apply IH; lia|exact Hs].
Qed.

Section WeakBinarySearch.
Variables (ks : list btree_key_t) (key : btree_key_t) (n : Z).

Hypothesis nondecreasing : forall i j, 0 <= i -> i <= j -> j < n ->
  arr_get 0 ks i <= arr_get 0 ks j.

Lemma bsearch_loop_weak (fuel : nat) :
  forall lwr upr cmp,
    bsearch_inv ks key n lwr upr -> upr - lwr + 1 <= Z.of_nat fuel ->
    let '(pos, found, _) := bsearch_loop fuel ks key lwr upr cmp in
    0 <= pos <= n /\
    if found then pos < n /\ arr_get 0 ks pos = key
    else (forall i, 0 <= i < pos -> arr_get 0 ks i < key) /\
         (forall i, pos <= i < n -> key < arr_get 0 ks i).
Proof.
  induction fuel as [|fuel IH]; intros lwr upr cmp (H0 & Hn & Hle & Hlo & Hhi) Hf.
  - cbn. assert (lwr = upr + 1) by lia. subst lwr.
    repeat split; try lia; [exact Hlo|]. intros i Hi. apply Hhi. lia.
  - cbn [bsearch_loop]. destruct (Z.leb_spec lwr upr) as [Hlu|Hlu].
    + rewrite shiftr1_half.
      assert (Hm : lwr <= (lwr + upr) / 2 <= upr).
      { split; [apply Z.div_le_lower_bound|apply Z.div_le_upper_bound]; lia. }
      set (mid := (lwr + upr) / 2) in *.
      destruct (Z.ltb_spec (arr_get 0 ks mid) key) as [Hlt|Hge].
      * apply IH; [|lia]. repeat split; try lia; [|exact Hhi].
        intros i Hi. pose proof (nondecreasing i mid). lia.
      * destruct (Z.gtb_spec (arr_get 0 ks mid) key) as [Hgt|Hle'].
        -- apply IH; [|lia]. repeat split; try lia; [exact Hlo|].
           intros i Hi. pose proof (nondecreasing mid i). lia.
        -- repeat split; lia.
    + assert (lwr = upr + 1) by lia. subst lwr.
      repeat split; try lia; [exact Hlo|]. intros i Hi. apply Hhi. lia.
Qed.
End WeakBinarySearch.

(** The search primitive on a node whose keys do not decrease: a hit
    names a cell with the key; a miss names the index between the keys
    below the query and the keys above it, and the node does not hold
    the key. *)
Lemma node_binary_search_weak (node : btree_node_t) (key : btree_key_t) (cmp : option Z) :
  0 <= num_keys node <= 2 ^ 30 -> keys_nondecreasing node ->
  let '(pos, found, _) := node_binary_search node key cmp in
  0 <= pos <= num_keys node /\
  if found then pos < num_keys node /\ key_at node pos = key
  else (forall i, 0 <= i < pos -> key_at node i < key) /\
       (forall i, pos <= i < num_keys node -> key < key_at node i) /\
       ~ node_has_key node key.
Proof.
  intros Hn Hs. unfold node_binary_search. rewrite to_int_small by lia.
  pose proof (bsearch_loop_weak (keys node) key (num_keys node)
                (keys_nondecreasing_le node Hs)
                (Z.to_nat (num_keys node - 1 + 1)) 0 (num_keys node - 1) cmp) as H.
  destruct (bsearch_loop _ _ _ _ _ _) as [[pos found] c].
  destruct H as [Hpos H]; [unfold bsearch_inv; repeat split; lia|lia|].
  split; [exact Hpos|]. destruct found; [exact H|].
  destruct H as [Hlo Hhi]. split; [exact Hlo|]. split; [exact Hhi|].
  intros (i & Hi & Hk). unfold key_at in *.
  destruct (Z_lt_le_dec i pos) as [Hlt|Hge].
  - specialize (Hlo i ltac:(lia)). lia.
  - specialize (Hhi i ltac:(lia)). lia.
Qed.

Section SplitWeak.
Variable m : Z.
Hypothesis order_range : BTREE_MIN_ORDER <= m <= BTREE_MAX_ORDER.

Lemma split_left_weak (h : nat) (lo : Z) (blo bhi : option btree_key_t)
    (child : btree_node_t) :
  bt m h lo child -> num_keys child = m - 1 -> weakly_ordered h blo bhi child ->
  weakly_ordered h blo (Some (key_at child (split_mid m))) (split_left m child).
Proof.
  pose proof (split_mid_range m order_range) as Hmid.
  intros Hbt Hfull Hord. destruct h as [|h]; [destruct Hord|].
  destruct Hord as (Hinc & Hbnd & Hkids).
  cbn [weakly_ordered]. replace (num_keys (split_left m child)) with (split_mid m) by reflexivity.
  replace (is_leaf (split_left m child)) with (is_leaf child) by reflexivity.
  replace (children (split_left m child)) with (children child) by reflexivity.
  split; [|split].
  - intros i Hi. rewrite !split_left_key. apply Hinc.
    change (num_keys (split_left m child)) with (split_mid m) in Hi. lia.
  - intros i Hi. rewrite split_left_key. destruct (Hbnd i ltac:(lia)) as [Hl _].
    split; [exact Hl|]. cbn. apply (keys_nondecreasing_le child Hinc); lia.
  - intros Hl i c Hi Hc. specialize (Hkids Hl i c ltac:(lia) Hc).
    unfold child_lo, child_hi in *. rewrite !split_left_key.
    change (num_keys (split_left m child)) with (split_mid m).
    destruct (Z.eqb_spec i (num_keys child)); [lia|].
    destruct (Z.eqb_spec i (split_mid m)) as [->|]; exact Hkids.
Qed.

Lemma split_right_weak (h : nat) (lo : Z) (blo bhi : option btree_key_t)
    (child : btree_node_t) :
  bt m h lo child -> num_keys child = m - 1 -> weakly_ordered h blo bhi child ->
  weakly_ordered h (Some (key_at child (split_mid m))) bhi (split_right m child).
Proof.
  pose proof (split_mid_range m order_range) as Hmid.
  pose proof (split_mid_min_fill m order_range) as Hsum.
  intros Hbt Hfull Hord.
  pose proof (split_right_num_keys m order_range child Hfull) as Hnum.
  pose proof (split_right_key m order_range h lo child) as Hkey.
  pose proof (split_right_child m order_range child) as Hchild.
  destruct h as [|h]; [destruct Hord|].
  destruct Hord as (Hinc & Hbnd & Hkids).
  cbn [weakly_ordered]. rewrite Hnum.
  replace (is_leaf (split_right m child)) with (is_leaf child) by reflexivity.
  split; [|split].
  - intros i Hi. rewrite Hnum in Hi. rewrite !Hkey by (auto; lia).
    replace (split_mid m + 1 + (i - 1)) with (split_mid m + 1 + i - 1) by lia.
    apply Hinc. lia.
  - intros i Hi. rewrite Hkey by (auto; lia).
    destruct (Hbnd (split_mid m + 1 + i) ltac:(lia)) as [_ Hu].
    split; [|exact Hu]. cbn. apply (keys_nondecreasing_le child Hinc); lia.
  - intros Hl i c Hi Hc. rewrite Hchild in Hc by (auto; lia).
    specialize (Hkids Hl (split_mid m + 1 + i) c ltac:(lia) Hc).
    unfold child_lo, child_hi in *. rewrite Hnum.
    destruct (Z.eqb_spec (split_mid m + 1 + i) 0); [lia|].
    replace (split_mid m + 1 + i - 1) with (split_mid m + i) in Hkids by lia.
    assert (Hlo : (if i =? 0 then Some (key_at child (split_mid m))
                   else Some (key_at (split_right m child) (i - 1))) =
                  Some (key_at child (split_mid m + i))).
    { destruct (Z.eqb_spec i 0) as [->|]; [do 2 f_equal; lia|].
      rewrite Hkey by (auto; lia). do 2 f_equal. lia. }
    assert (Hhi : (if i =? min_fill m then bhi
                   else Some (key_at (split_right m child) i)) =
                  (if split_mid m + 1 + i =? num_keys child then bhi
                   else Some (key_at child (split_mid m + 1 + i)))).
    { destruct (Z.eqb_spec i (min_fill m)), (Z.eqb_spec (split_mid m + 1 + i) (num_keys child));
        try lia; [reflexivity|]. rewrite Hkey by (auto; lia). reflexivity. }
    rewrite Hlo, Hhi. exact Hkids.
Qed.

Variables (h : nat) (lo : Z) (plo phi : option btree_key_t)
          (parent : btree_node_t) (idx : Z) (child : btree_node_t).
Hypothesis parent_bt : bt m (S h) lo parent.
Hypothesis parent_internal : is_leaf parent = false.
Hypothesis parent_room : num_keys parent < m - 1.
Hypothesis idx_range : 0 <= idx <= num_keys parent.
Hypothesis child_at : arr_get None (children parent) idx = Some child.
Hypothesis child_full : num_keys child = m - 1.
Hypothesis parent_weak : weakly_ordered (S h) plo phi parent.

(** The promoted key lies between its new neighbours in the parent and
    within the bounds of the parent. *)
Lemma promoted_key_within :
  let s := key_at child (split_mid m) in
  within (child_lo parent plo idx) (child_hi parent phi idx) s /\
  within plo phi s.
Proof.
  pose proof (split_mid_range m order_range) as Hmid.
  pose proof (bt_num_keys _ _ _ _ parent_bt) as Hn.
  destruct parent_weak as (Hinc & Hbnd & Hkids).
  specialize (Hkids parent_internal idx child idx_range child_at).
  destruct h as [|h']; [destruct Hkids|].
  destruct Hkids as (_ & Hcb & _). cbn zeta.
  specialize (Hcb (split_mid m) ltac:(lia)).
  split; [exact Hcb|].
  destruct Hcb as [Hl Hu]. unfold child_lo, child_hi in *. split.
  - destruct (Z.eqb_spec idx 0); [exact Hl|].
    destruct (Hbnd (idx - 1) ltac:(lia)) as [Hl' _].
    destruct plo; [cbn in *; lia|exact I].
  - destruct (Z.eqb_spec idx (num_keys parent)); [exact Hu|].
    destruct (Hbnd idx ltac:(lia)) as [_ Hu'].
    destruct phi; [cbn in *; lia|exact I].
Qed.

Lemma split_parent_weak :
  weakly_ordered (S h) plo phi (split_parent m parent idx child).
Proof.
  pose proof (split_mid_range m order_range) as Hmid.
  pose proof (bt_num_keys _ _ _ _ parent_bt) as Hn.
  pose proof (split_parent_num_keys m order_range h lo parent idx child parent_bt parent_room)
    as Hnum.
  pose proof (split_parent_children m order_range h lo parent idx child parent_bt
                parent_internal parent_room idx_range) as Hch.
  pose proof (fun j => split_parent_key m order_range h lo parent idx child j parent_bt parent_room
                         idx_range) as Hkey.
  pose proof promoted_key_within as [Hsb Hsp]. cbn zeta in Hsb, Hsp.
  destruct (bt_child m h lo parent idx parent_bt parent_internal idx_range)
    as (c0 & Hc0 & Hcbt).
  rewrite child_at in Hc0. injection Hc0 as <-.
  pose proof parent_weak as (Hinc & Hbnd & Hkids).
  specialize (Hkids parent_internal).
  pose proof (Hkids idx child idx_range child_at) as Hcord.
  set (s := key_at child (split_mid m)) in *.
  set (P := split_parent m parent idx child) in *.
  assert (Hlo_s : idx <> 0 -> key_at parent (idx - 1) <= s).
  { intros H0. destruct Hsb as [Hl _]. unfold child_lo in Hl.
    destruct (Z.eqb_spec idx 0); [contradiction|exact Hl]. }
  assert (Hhi_s : idx <> num_keys parent -> s <= key_at parent idx).
  { intros H0. destruct Hsb as [_ Hu]. unfold child_hi in Hu.
    destruct (Z.eqb_spec idx (num_keys parent)); [contradiction|exact Hu]. }
  cbn [weakly_ordered]. rewrite Hnum.
  replace (is_leaf P) with (is_leaf parent) by reflexivity.
  split; [|split].
  - (* the keys do not decrease *)
    intros i Hi. rewrite !Hkey.
    destruct (Z.eqb_spec i idx) as [->|Hne1].
    + destruct (Z.eqb_spec (idx - 1) idx); [lia|].
      destruct (Z.ltb_spec idx (idx - 1)); [lia|]. cbn [andb]. apply Hlo_s. lia.
    + destruct (Z.eqb_spec (i - 1) idx) as [He|Hne2].
      * assert (i = idx + 1) by lia. subst i.
        destruct (Z.ltb_spec idx (idx + 1)); [|lia].
        destruct (Z.leb_spec (idx + 1) (num_keys parent)); [|lia]. cbn [andb].
        replace (idx + 1 - 1) with idx by lia. apply Hhi_s. lia.
      * destruct (Z.ltb_spec idx i), (Z.leb_spec i (num_keys parent)),
          (Z.ltb_spec idx (i - 1)), (Z.leb_spec (i - 1) (num_keys parent));
          cbn [andb]; try lia.
        -- apply Hinc. lia.
        -- apply Hinc. lia.
  - (* bounds *)
    intros i Hi. rewrite Hkey.
    destruct (Z.eqb_spec i idx); [exact Hsp|].
    destruct (Z.ltb_spec idx i), (Z.leb_spec i (num_keys parent)); cbn [andb];
      try lia; apply Hbnd; lia.
  - (* children *)
    intros _ i c Hi Hc. rewrite Hch in Hc.
    unfold child_lo, child_hi. rewrite Hnum, !Hkey.
    destruct (Z.eqb_spec i idx) as [->|Hne1].
    + injection Hc as <-.
      destruct (Z.eqb_spec idx (num_keys parent + 1)); [lia|].
      assert (Hl : (if idx =? 0 then plo
                    else Some (if idx - 1 =? idx then s
                               else if (idx <? idx - 1) && (idx - 1 <=? num_keys parent)
                                    then key_at parent (idx - 1 - 1)
                                    else key_at parent (idx - 1))) =
                   child_lo parent plo idx).
      { unfold child_lo. destruct (Z.eqb_spec idx 0); [reflexivity|].
        destruct (Z.eqb_spec (idx - 1) idx); [lia|].
        destruct (Z.ltb_spec idx (idx - 1)); [lia|]. reflexivity. }
      rewrite Hl. now apply (split_left_weak h (min_fill m) _ (child_hi parent phi idx)).
    + destruct (Z.eqb_spec i (idx + 1)) as [->|Hne2].
      * injection Hc as <-.
        destruct (Z.eqb_spec (idx + 1) 0); [lia|].
        replace (idx + 1 - 1) with idx by lia. rewrite Z.eqb_refl.
        assert (Hu : (if idx + 1 =? num_keys parent + 1 then phi
                      else Some (if (idx <? idx + 1) && (idx + 1 <=? num_keys parent)
                                 then key_at parent idx else key_at parent (idx + 1))) =
                     child_hi parent phi idx).
        { unfold child_hi.
          destruct (Z.eqb_spec (idx + 1) (num_keys parent + 1)),
            (Z.eqb_spec idx (num_keys parent)); try lia; [reflexivity|].
          destruct (Z.ltb_spec idx (idx + 1)); [|lia].
          destruct (Z.leb_spec (idx + 1) (num_keys parent)); [|lia]. reflexivity. }
        rewrite Hu.
        now apply (split_right_weak h (min_fill m) (child_lo parent plo idx)).
      * destruct (Z.ltb_spec (idx + 1) i) as [Hgt|Hlt];
          destruct (Z.leb_spec i (num_keys parent + 1)) as [Hle|Hgt']; cbn [andb] in Hc;
          try lia.
        -- (* right of the new sibling: the child that stood at [i - 1] *)
           specialize (Hkids (i - 1) c ltac:(lia) Hc).
           unfold child_lo, child_hi in Hkids.
           destruct (Z.eqb_spec (i - 1) 0); [lia|].
           destruct (Z.eqb_spec i 0); [lia|].
           destruct (Z.eqb_spec (i - 1) idx); [lia|].
           destruct (Z.ltb_spec idx (i - 1)); [|lia].
           destruct (Z.leb_spec (i - 1) (num_keys parent)); [|lia]. cbn [andb].
           destruct (Z.ltb_spec idx i); [|lia].
           destruct (Z.eqb_spec i (num_keys parent + 1)), (Z.eqb_spec (i - 1) (num_keys parent));
             try lia; [exact Hkids|].
           destruct (Z.leb_spec i (num_keys parent)); [|lia]. cbn [andb]. exact Hkids.
        -- (* left of the split child *)
           specialize (Hkids i c ltac:(lia) Hc).
           unfold child_lo, child_hi in Hkids.
           destruct (Z.eqb_spec i (num_keys parent)); [lia|].
           destruct (Z.eqb_spec i (num_keys parent + 1)); [lia|].
           destruct (Z.ltb_spec idx i); [lia|]. cbn [andb].
           destruct (Z.eqb_spec i 0); [exact Hkids|].
           destruct (Z.eqb_spec (i - 1) idx); [lia|].
           destruct (Z.ltb_spec idx (i - 1)); [lia|]. cbn [andb]. exact Hkids.
Qed.
End SplitWeak.

Lemma weakly_ordered_keys (h : nat) (blo bhi : option btree_key_t) (n : btree_node_t) :
  weakly_ordered h blo bhi n -> keys_nondecreasing n.
Proof. destruct h; cbn [weakly_ordered]; tauto. Qed.

(** A leaf keeps its order when it receives a key between its
    neighbours. *)
Lemma leaf_insert_weak (m : Z) (lo : Z) (n : btree_node_t) (pos : Z) (key : btree_key_t)
    (value : btree_value_t) (blo bhi : option btree_key_t) :
  BTREE_MIN_ORDER <= m <= BTREE_MAX_ORDER ->
  bt m 1 lo n -> is_leaf n = true -> num_keys n < m - 1 -> brackets n pos key ->
  weakly_ordered 1 blo bhi n -> within blo bhi key ->
  weakly_ordered 1 blo bhi (grown_leaf n pos key value).
Proof.
  intros Hm Hbt Hl Hroom (Hpos & Hbelow & Habove) (Hinc & Hbnd & _) Hk.
  pose proof (grown_num_keys m lo n pos key value Hm Hbt Hroom) as Hnum.
  pose proof (grown_key m lo n pos key value Hm Hbt Hroom Hpos) as Hkey.
  pose proof (keys_nondecreasing_le n Hinc) as Hle.
  cbn [weakly_ordered]. rewrite Hnum.
  change (is_leaf (grown_leaf n pos key value)) with (is_leaf n). rewrite Hl.
  split; [|split; [|discriminate]].
  - intros i Hi. rewrite !Hkey.
    destruct (Z.eqb_spec i pos) as [->|Hne1].
    + destruct (Z.eqb_spec (pos - 1) pos); [lia|].
      destruct (Z.ltb_spec pos (pos - 1)); [lia|]. cbn [andb]. apply Hbelow. lia.
    + destruct (Z.eqb_spec (i - 1) pos) as [He|Hne2].
      * assert (i = pos + 1) by lia. subst i.
        destruct (Z.ltb_spec pos (pos + 1)); [|lia].
        destruct (Z.leb_spec (pos + 1) (num_keys n)); [|lia]. cbn [andb].
        replace (pos + 1 - 1) with pos by lia. apply Habove. lia.
      * destruct (Z.ltb_spec pos i), (Z.leb_spec i (num_keys n)),
          (Z.ltb_spec pos (i - 1)), (Z.leb_spec (i - 1) (num_keys n));
          cbn [andb]; try lia; apply Hle; lia.
  - intros i Hi. rewrite Hkey.
    destruct (Z.eqb_spec i pos); [exact Hk|].
    destruct (Z.ltb_spec pos i), (Z.leb_spec i (num_keys n)); cbn [andb];
      try lia; apply Hbnd; lia.
Qed.

Lemma weakly_ordered_set_child (m : Z) (h : nat) (lo : Z) (blo bhi : option btree_key_t)
    (n : btree_node_t) (p : Z) (c' : btree_node_t) :
  bt m (S h) lo n -> is_leaf n = false -> 0 <= p <= num_keys n ->
  weakly_ordered (S h) blo bhi n ->
  weakly_ordered h (child_lo n blo p) (child_hi n bhi p) c' ->
  weakly_ordered (S h) blo bhi (set_children n (arr_set (children n) p (Some c'))).
Proof.
  intros Hbt Hl Hp (Hinc & Hbnd & Hkids) Hc'.
  pose proof Hbt as (Hn & _ & Hrest). rewrite Hl in Hrest. destruct Hrest as (_ & Hlen & _).
  cbn [weakly_ordered]. split; [exact Hinc|]. split; [exact Hbnd|].
  intros _ i c Hi Hc. cbn [children set_children] in Hc.
  rewrite arr_get_set in Hc by lia.
  change (child_lo (set_children n _) blo i) with (child_lo n blo i).
  change (child_hi (set_children n _) bhi i) with (child_hi n bhi i).
  destruct (Z.eqb_spec i p) as [->|Hne].
  - injection Hc as <-. exact Hc'.
  - now apply Hkids.
Qed.

(** The bounds of the child between the keys around [key]. *)
Lemma brackets_within (n : btree_node_t) (p : Z) (key : btree_key_t)
    (blo bhi : option btree_key_t) :
  within blo bhi key -> brackets n p key ->
  within (child_lo n blo p) (child_hi n bhi p) key.
Proof.
  intros [Hlo Hhi] (Hp & Hbelow & Habove). unfold child_lo, child_hi. split.
  - destruct (Z.eqb_spec p 0); [exact Hlo|]. apply Hbelow. lia.
  - destruct (Z.eqb_spec p (num_keys n)); [exact Hhi|]. apply Habove. lia.
Qed.

(** The index that the search primitive gives [insert_nonfull] splits
    the keys around the new key. *)
Lemma search_brackets (n : btree_node_t) (key : btree_key_t) (pos : Z) (found : bool) :
  0 <= num_keys n <= 2 ^ 30 -> keys_nondecreasing n ->
  fst (node_binary_search n key None) = (pos, found) ->
  brackets n (if found then pos + 1 else pos) key.
Proof.
  intros Hn Hs Heq. pose proof (node_binary_search_weak n key None Hn Hs) as H.
  pose proof (keys_nondecreasing_le n Hs) as Hle.
  destruct (node_binary_search n key None) as [[pos' found'] c].
  cbn [fst] in Heq. injection Heq as -> ->. destruct H as [Hpos H].
  destruct found.
  - destruct H as [Hlt Hk]. split; [lia|]. split.
    + intros i Hi. rewrite <- Hk. apply Hle; lia.
    + intros i Hi. rewrite <- Hk. apply Hle; lia.
  - destruct H as (Hlo & Hhi & _). split; [lia|]. split.
    + intros i Hi. specialize (Hlo i Hi). lia.
    + intros i Hi. specialize (Hhi i Hi). lia.
Qed.

(** After the split of the child at [idx], the index that
    [insert_nonfull] goes on with splits the keys of the parent around
    the new key. *)
Lemma split_brackets (m : Z) (h : nat) (lo : Z) (parent : btree_node_t) (idx : Z)
    (child : btree_node_t) (key : btree_key_t) :
  BTREE_MIN_ORDER <= m <= BTREE_MAX_ORDER ->
  bt m (S h) lo parent -> num_keys parent < m - 1 ->
  brackets parent idx key ->
  brackets (split_parent m parent idx child)
    (if key >? key_at (split_parent m parent idx child) idx then idx + 1 else idx) key.
Proof.
  intros Hm Hbt Hroom (Hidx & Hbelow & Habove).
  pose proof (fun j => split_parent_key m Hm h lo parent idx child j Hbt Hroom Hidx) as Hkey.
  pose proof (split_parent_num_keys m Hm h lo parent idx child Hbt Hroom) as Hnum.
  unfold brackets. rewrite Hnum, (Hkey idx), Z.eqb_refl.
  destruct (Z.gtb_spec key (key_at child (split_mid m))) as [Hgt|Hle].
  - split; [lia|]. split.
    + intros i Hi. rewrite Hkey. destruct (Z.eqb_spec i idx); [lia|].
      destruct (Z.ltb_spec idx i); [lia|]. cbn [andb]. apply Hbelow. lia.
    + intros i Hi. rewrite Hkey. destruct (Z.eqb_spec i idx); [lia|].
      destruct (Z.ltb_spec idx i), (Z.leb_spec i (num_keys parent)); try lia.
      cbn [andb]. apply Habove. lia.
  - split; [lia|]. split.
    + intros i Hi. rewrite Hkey. destruct (Z.eqb_spec i idx); [lia|].
      destruct (Z.ltb_spec idx i); [lia|]. cbn [andb]. apply Hbelow. lia.
    + intros i Hi. rewrite Hkey. destruct (Z.eqb_spec i idx); [lia|].
      destruct (Z.ltb_spec idx i), (Z.leb_spec i (num_keys parent)); try lia.
      cbn [andb]. apply Habove. lia.
Qed.

Section InsertWeak.
Variable m : Z.
Hypothesis order_range : BTREE_MIN_ORDER <= m <= BTREE_MAX_ORDER.

(** [insert_nonfull] keeps the keys in order, whether the key is new
    or not. *)
Lemma insert_nonfull_weak (fuel : nat) :
  forall h lo t n key value st t' n' blo bhi,
    order t = m -> bt m h lo n -> num_keys n < m - 1 ->
    insert_nonfull fuel t n key value = Some (st, t', n') ->
    weakly_ordered h blo bhi n -> within blo bhi key ->
    weakly_ordered h blo bhi n'.
Proof.
  induction fuel as [|fuel IH];
    intros h lo t n key value st t' n' blo bhi Ht Hbt Hroom Hres Hord Hk.
  { discriminate Hres. }
  destruct h as [|h]; [destruct Hbt|].
  pose proof (bt_num_keys _ _ _ _ Hbt) as Hn.
  pose proof (weakly_ordered_keys _ _ _ _ Hord) as Hinc.
  destruct (insert_nonfull_cases m order_range fuel h lo t n key value st t' n' Ht Hbt Hroom
              Hres) as (pos & found & Hsearch & Hpos & Hfound & Hcases).
  assert (Hbr : brackets n (if found then pos + 1 else pos) key).
  { apply search_brackets; [|exact Hinc|exact Hsearch].
    unfold BTREE_MIN_ORDER, BTREE_MAX_ORDER in *. lia. }
  destruct Hcases as [(Hl & -> & ->)
                     |(Hl & p & child & n1 & p' & c2 & t2 & c0 & -> & Hp & Hchild & Hcbt & Hsplit
                       & Hbt1 & Hl1 & Hp' & Hc2 & Hc2bt & Hc2room & Ht2 & Hrec & ->)].
  - destruct found.
    + exact Hord.
    + now apply (leaf_insert_weak m lo).
  - set (q := if found then pos + 1 else pos) in *.
    assert (Hord1 : weakly_ordered (S h) blo bhi n1 /\ brackets n1 p' key).
    { destruct Hsplit as [(_ & -> & ->)|(Hfull & -> & ->)]; [tauto|]. split.
      - now apply (split_parent_weak m order_range h lo blo bhi n q child).
      - now apply (split_brackets m h lo). }
    destruct Hord1 as [Hord1 Hbr1].
    apply (weakly_ordered_set_child m h lo blo bhi n1 p' c0 Hbt1 Hl1 Hp' Hord1).
    apply (IH h _ t2 c2 key value st t' c0 _ _ Ht2 Hc2bt Hc2room Hrec).
    + destruct Hord1 as (_ & _ & Hkids). now apply Hkids.
    + now apply brackets_within.
Qed.

Lemma raised_root_weak (h : nat) (r : btree_node_t) :
  bt m h 0 r -> num_keys r = m - 1 ->
  weakly_ordered h None None r -> weakly_ordered (S h) None None (raised_root m r).
Proof.
  intros Hbt Hfull Hord.
  destruct (new_root_bt m h r order_range Hbt Hfull) as (Hbt0 & Hl0 & Hn0 & Hc0 & _).
  unfold raised_root. set (nr := set_children _ _) in *.
  assert (Hroom : num_keys nr < m - 1)
    by (unfold BTREE_MIN_ORDER, BTREE_MAX_ORDER in *; lia).
  apply (split_parent_weak m order_range h 0 None None nr 0 r Hbt0 Hl0 Hroom ltac:(lia)
           Hc0 Hfull).
  cbn [weakly_ordered]. rewrite Hn0, Hl0.
  split; [intros i Hi; lia|]. split; [intros i Hi; lia|].
  intros _ i c Hi Hc. assert (i = 0) by lia. subst i. rewrite Hc0 in Hc.
  injection Hc as <-. exact Hord.
Qed.
End InsertWeak.

(** [btree_insert] keeps the keys of the tree in order. *)
Lemma btree_insert_weak (t : btree_t) (h : nat) (r : btree_node_t) (key : btree_key_t)
    (value : btree_value_t) (st : btree_status_t) (t' : btree_t) :
  tree_shape t h r -> weakly_ordered h None None r ->
  btree_insert t key value = Some (st, t') ->
  exists h' r', tree_shape t' h' r' /\ weakly_ordered h' None None r'.
Proof.
  intros Hs Hord Hres. pose proof Hs as (Hm & _ & _ & Hbt & _).
  destruct (btree_insert_cases t h r key value st t' Hs Hres)
    as (h1 & n1 & t1 & fuel & t2 & n' & Hcase & Hbt1 & Hroom1 & Ht1 & Hrec & -> & Hs').
  exists h1, n'. split; [exact Hs'|].
  apply (insert_nonfull_weak (order t) Hm _ _ _ _ _ _ _ _ _ _ None None Ht1 Hbt1 Hroom1 Hrec);
    [|split; exact I].
  destruct Hcase as [(_ & -> & ->)|(Hfull & -> & ->)]; [exact Hord|].
  now apply raised_root_weak.
Qed.

Lemma tree_shape_kept (t t' : btree_t) (h : nat) (r : btree_node_t) :
  order t' = order t -> min_keys t' = min_keys t -> root t' = root t ->
  tree_shape t h r -> tree_shape t' h r.
Proof. unfold tree_shape. intros -> -> ->. tauto. Qed.

Lemma fresh_leaf_weak (m : Z) : weakly_ordered 1 None None (node_create m true).
Proof.
  cbn [weakly_ordered]. split; [|split; [|discriminate]];
    intros i Hi; change (num_keys (node_create m true)) with 0 in Hi; lia.
Qed.

(** Every tree that the public operations build has its keys in order. *)
Lemma reachable_weakly_ordered (t : btree_t) :
  reachable t -> exists h r, tree_shape t h r /\ weakly_ordered h None None r.
Proof.
  induction 1 as [m t Hc|t key value status t' _ (h & r & Hs & Hord) Hins
                  |t key slot _ (h & r & Hs & Hord)|t key _ (h & r & Hs & Hord)
                  |t _ (h & r & Hs & Hord)|t _ (h & r & Hs & Hord)
                  |t enabled _ (h & r & Hs & Hord)].
  - destruct (fresh_tree_shape m t Hc) as (_ & _ & Hs & _).
    exists 1%nat, (node_create m true). split; [exact Hs|apply fresh_leaf_weak].
  - apply (btree_insert_weak t h r key value status t' Hs Hord Hins).
  - exists h, r. split; [|exact Hord].
    pose proof (btree_search_frame t key slot) as (H1 & H2 & _ & H3 & _).
    now apply (tree_shape_kept t).
  - exists h, r. split; [|exact Hord].
    pose proof (btree_delete_frame t key) as (H1 & H2 & H3 & _).
    now apply (tree_shape_kept t).
  - exists 1%nat, (node_create (order t) true). split; [|apply fresh_leaf_weak].
    destruct Hs as (Hm & Hmin & _).
    unfold tree_shape. cbn [btree_clear order min_keys root].
    split; [exact Hm|]. split; [exact Hmin|]. split; [reflexivity|].
    split; [now apply node_create_leaf_bt|discriminate].
  - exists h, r. split; [|exact Hord]. now apply (tree_shape_kept t).
  - exists h, r. split; [|exact Hord]. now apply (tree_shape_kept t).
Qed.

(** ** The descent of [btree_search] *)

Lemma descent_nonempty (key : btree_key_t) (n : btree_node_t) (path : list btree_node_t) :
  descent_path_spec key n path -> exists rest, path = n :: rest.
Proof. intros [? _|? ? ? ? _ _ _ _ _ _ _]; eauto. Qed.

(** A search has one descent path. *)
Lemma descent_unique (key : btree_key_t) (n : btree_node_t) (path : list btree_node_t) :
  descent_path_spec key n path ->
  forall path', descent_path_spec key n path' -> path' = path.
Proof.
  induction 1 as [n Hend|n c p path Hno Hl Hp Hbelow Habove Hc Hd IH]; intros path' H'.
  - inversion H' as [? _|? c' p' rest Hno' Hl' _ _ _ _ _]; subst; [reflexivity|].
    destruct Hend as [Hk|Hleaf]; [contradiction|congruence].
  - inversion H' as [? Hend'|? c' p' rest Hno' Hl' Hp' Hbelow' Habove' Hc' Hd']; subst.
    + destruct Hend' as [Hk|Hleaf]; [contradiction|congruence].
    + assert (p' = p).
      { destruct (Z.lt_trichotomy p' p) as [Hlt|[Heq|Hgt]]; [exfalso|exact Heq|exfalso].
        - specialize (Hbelow p' ltac:(lia)). specialize (Habove' p' ltac:(lia)). lia.
        - specialize (Hbelow' p ltac:(lia)). specialize (Habove p ltac:(lia)). lia. }
      subst p'. rewrite Hc in Hc'. injection Hc' as <-. f_equal. now apply IH.
Qed.

(** The loop of [btree_search] on a subtree whose keys are in order,
    with fuel for its height. *)
Lemma search_loop_descent (m : Z) (fuel : nat) :
  BTREE_MIN_ORDER <= m <= BTREE_MAX_ORDER ->
  forall h lo blo bhi t n key slot,
    bt m h lo n -> weakly_ordered h blo bhi n -> (h <= fuel)%nat ->
    exists path,
      descent_path_spec key n path /\
      let '(st, _, out) := search_loop fuel t (Some n) key slot in
      (st = BTREE_OK <-> exists x, In x path /\ node_has_key x key) /\
      (st = BTREE_OK ->
         exists x pos, last path = Some x /\ 0 <= pos < num_keys x /\ key_at x pos = key /\
                       out = if slot && is_leaf x then Some (arr_get 0 (values x) pos)
                             else None) /\
      (st <> BTREE_OK -> st = BTREE_ERROR_NOT_FOUND /\ out = None) /\
      ((exists x, last path = Some x /\ is_leaf x = true /\ ~ node_has_key x key) ->
         st = BTREE_ERROR_NOT_FOUND).
Proof.
  intros Hm. unfold BTREE_MIN_ORDER, BTREE_MAX_ORDER in Hm.
  induction fuel as [|fuel IH]; intros h lo blo bhi t n key slot Hbt Hord Hf.
  { pose proof (bt_height_pos _ _ _ _ Hbt). lia. }
  destruct h as [|h]; [destruct Hbt|].
  pose proof (bt_num_keys _ _ _ _ Hbt) as Hn.
  pose proof (weakly_ordered_keys _ _ _ _ Hord) as Hinc.
  cbn [search_loop].
  pose proof (tree_binary_search_pure (visit t) n key) as Hpure.
  pose proof (node_binary_search_weak n key None ltac:(lia) Hinc) as Hsearch.
  destruct (tree_binary_search (visit t) n key) as [[pos found] t1].
  destruct (node_binary_search n key None) as [[pos' found'] c'].
  cbn [fst] in Hpure. injection Hpure as <- <-.
  destruct Hsearch as [Hpos Hsearch]. destruct found.
  - (* the node holds the key *)
    destruct Hsearch as [Hlt Hk].
    assert (Hhas : node_has_key n key) by (exists pos; split; [lia|exact Hk]).
    exists [n]. split; [apply descent_stop; now left|].
    split; [|split; [|split]].
    + split; [|reflexivity]. intros _. exists n. split; [now left|exact Hhas].
    + intros _. exists n, pos. split; [reflexivity|]. split; [lia|]. split; [exact Hk|].
      reflexivity.
    + intros Hne. contradiction.
    + intros (x & Hx & _ & Hno). cbn in Hx. injection Hx as <-. contradiction.
  - destruct Hsearch as (Hbelow & Habove & Hno).
    destruct (is_leaf n) eqn:Hl.
    + (* a leaf without the key *)
      exists [n]. split; [apply descent_stop; now right|].
      split; [|split; [|split]].
      * split; [discriminate|]. intros (x & [<-|[]] & Hx). contradiction.
      * discriminate.
      * intros _. split; reflexivity.
      * intros _. reflexivity.
    + (* down to the child between the keys around the key *)
      destruct (bt_child m h lo n pos Hbt Hl Hpos) as (c & Hc & Hcbt).
      rewrite Hc.
      assert (Hcord : weakly_ordered h (child_lo n blo pos) (child_hi n bhi pos) c).
      { destruct Hord as (_ & _ & Hkids). now apply Hkids. }
      destruct (IH h _ _ _ t1 c key slot Hcbt Hcord ltac:(lia)) as (path & Hd & Hres).
      exists (n :: path). split; [now apply (descent_step key n c pos)|].
      destruct (descent_nonempty key c path Hd) as (rest & ->).
      destruct (search_loop fuel t1 (Some c) key slot) as [[st t'] out].
      destruct Hres as (Ha & Hb & Hc' & Hd').
      change (last (n :: c :: rest)) with (last (c :: rest)).
      split; [|split; [exact Hb|split; [exact Hc'|exact Hd']]].
      rewrite Ha. split.
      * intros (x & Hx & Hk). exists x. split; [now right|exact Hk].
      * intros (x & [<-|Hx] & Hk); [contradiction|]. exists x. tauto.
Qed.

(** C6.  [btree_search] on a tree built by the public operations walks
    down the descent path of the key: the path starts at the root, ends
    at the first node that holds the key or is a leaf, and leaves every
    other node through the child between the keys below the query and the
    keys above it.  The search returns [BTREE_OK] exactly when a node of
    the path holds the key; that node is the last of the path, and the
    value slot is written, with the value next to the key, only when a
    slot is given and that node is a leaf: a hit on a key of an internal
    node writes nothing.  In every other case the search returns
    not-found and writes nothing, in particular when the path ends in a
    leaf without the key. *)
Theorem btree_search_spec (t : btree_t) (key : btree_key_t) (slot : bool) :
  reachable t ->
  exists r path,
    root t = Some r /\ descent_path_spec key r path /\
    (forall path', descent_path_spec key r path' -> path' = path) /\
    let '(st, _, out) := btree_search t key slot in
    (st = BTREE_OK <-> exists n, In n path /\ node_has_key n key) /\
    (st = BTREE_OK ->
       exists n pos, last path = Some n /\ 0 <= pos < num_keys n /\ key_at n pos = key /\
                     out = if slot && is_leaf n then Some (arr_get 0 (values n) pos)
                           else None) /\
    (st <> BTREE_OK -> st = BTREE_ERROR_NOT_FOUND /\ out = None) /\
    ((exists n, last path = Some n /\ is_leaf n = true /\ ~ node_has_key n key) ->
       st = BTREE_ERROR_NOT_FOUND).
Proof.
  intros Hreach.
  destruct (reachable_weakly_ordered t Hreach) as (h & r & (Hm & _ & Hroot & Hbt & _) & Hord).
  unfold btree_search. rewrite Hroot.
  set (t0 := if collect_stats t then _ else t).
  destruct (search_loop_descent (order t) (node_depth r) Hm h 0 None None t0 r key slot Hbt
              Hord (bt_depth _ _ _ _ Hbt)) as (path & Hd & Hres).
  exists r, path. split; [reflexivity|]. split; [exact Hd|].
  split; [apply (descent_unique key r path Hd)|exact Hres].
Qed.

Lemma btree_search_spec_witness :
  (reachable split_tree /\ root split_tree = Some split_root /\
   descent_path_spec 2 split_root [split_root] /\
   exists t', btree_search split_tree 2 true = (BTREE_OK, t', None)) /\
  (reachable repeat_tree /\ root repeat_tree = Some repeat_root /\
   descent_path_spec 1 repeat_root [repeat_root; repeat_inner; repeat_leaf] /\
   num_keys repeat_inner = 2 /\ key_at repeat_inner 0 = 2 /\ key_at repeat_inner 1 = 2 /\
   exists t', btree_search repeat_tree 1 true = (BTREE_OK, t', Some 201)).
Proof.
  split.
  - assert (Hr : reachable split_tree).
    { apply (build_reachable 4 [(1, 11); (2, 12); (3, 13); (4, 14)]).
      vm_compute. reflexivity. }
    assert (Hhas : node_has_key split_root 2).
    { exists 0. split; [vm_compute; split; [discriminate|reflexivity]|reflexivity]. }
    assert (Hd : descent_path_spec 2 split_root [split_root])
      by (apply descent_stop; now left).
    split; [exact Hr|]. split; [reflexivity|]. split; [exact Hd|].
    destruct (btree_search_spec split_tree 2 true Hr) as (r & path & Hroot & _ & Hu & H).
    injection Hroot as <-. rewrite <- (Hu _ Hd) in H.
    destruct (btree_search split_tree 2 true) as [[st t'] out].
    destruct H as (Hiff & Hok & _).
    assert (Hst : st = BTREE_OK) by (apply Hiff; exists split_root; split; [now left|exact Hhas]).
    destruct (Hok Hst) as (n & pos & Hlast & _ & _ & Hout).
    cbn in Hlast. injection Hlast as <-. cbn in Hout.
    exists t'. now rewrite Hst, Hout.
  - assert (Hr : reachable repeat_tree).
    { apply (build_reachable 3 [(3, 103); (2, 102); (1, 101); (2, 202); (1, 201)]).
      vm_compute. reflexivity. }
    assert (Hhas : node_has_key repeat_leaf 1).
    { exists 0. split; [vm_compute; split; [discriminate|reflexivity]|reflexivity]. }
    assert (Hd : descent_path_spec 1 repeat_root [repeat_root; repeat_inner; repeat_leaf]).
    { apply (descent_step 1 repeat_root repeat_inner 0).
      - intros (i & Hi & Hk). change (num_keys repeat_root) with 1 in Hi.
        assert (i = 0) by lia. subst i. discriminate Hk.
      - reflexivity.
      - change (num_keys repeat_root) with 1. lia.
      - intros i Hi. lia.
      - intros i Hi. change (num_keys repeat_root) with 1 in Hi.
        assert (i = 0) by lia. subst i. reflexivity.
      - reflexivity.
      - apply (descent_step 1 repeat_inner repeat_leaf 0).
        + intros (i & Hi & Hk). change (num_keys repeat_inner) with 2 in Hi.
          assert (Hc : i = 0 \/ i = 1) by lia. destruct Hc as [-> | ->]; discriminate Hk.
        + reflexivity.
        + change (num_keys repeat_inner) with 2. lia.
        + intros i Hi. lia.
        + intros i Hi. change (num_keys repeat_inner) with 2 in Hi.
          assert (Hc : i = 0 \/ i = 1) by lia. destruct Hc as [-> | ->]; reflexivity.
        + reflexivity.
        + apply descent_stop. now left. }
    split; [exact Hr|]. split; [reflexivity|]. split; [exact Hd|].
    split; [reflexivity|]. split; [reflexivity|]. split; [reflexivity|].
    destruct (btree_search_spec repeat_tree 1 true Hr) as (r & path & Hroot & _ & Hu & H).
    injection Hroot as <-. rewrite <- (Hu _ Hd) in H.
    destruct (btree_search repeat_tree 1 true) as [[st t'] out].
    destruct H as (Hiff & Hok & _).
    assert (Hst : st = BTREE_OK).
    { apply Hiff. exists repeat_leaf. split; [right; right; now left|exact Hhas]. }
    destruct (Hok Hst) as (n & pos & Hlast & Hpos & _ & Hout).
    cbn in Hlast. injection Hlast as <-. change (num_keys repeat_leaf) with 1 in Hpos.
    assert (pos = 0) by lia. subst pos. cbn in Hout.
    exists t'. now rewrite Hst, Hout.
Defined.
